(* ===== verification/_CoqProject ===== *)
-Q . S2P
Prelude.v
PyDict.v
Nested.v
PyFloat.v
PyStr.v
Rust.v
Regex.v
Logger.v
Json.v
Dumps.v
Exact.v
Resources.v
Ptas.v
PtasFacts.v
PtasExact.v
Base.v
BaseExact.v
Params.v
Spirit.v
SpiritFacts.v
SpiritExact.v
SpiritRounds.v
StaticAlloc.v
Monitor.v
MonitorFacts.v
Estimator.v
EstimatorExact.v
System.v
Controllers.v
SpiritRoom.v
MonitorReadings.v
Interleaving.v
Wire.v
WireFacts.v
WireLoop.v
GlobalEnforcer.v
GlobalFacts.v
Cgroups.v
MissRatio.v
PerfStats.v
MrcFit.v
MissRatioFacts.v
CacheClient.v
CacheClientFacts.v
LocalReports.v
LocalLimits.v
SpiritLoop.v
Cluster.v
Enforcement.v
FijTrade.v
FijFacts.v
FijExact.v
IncTrade.v
IncFacts.v
IncExact.v
Oracle.v
OracleExact.v
Server.v
ServerFacts.v
Config.v
ConfigFacts.v
Objects.v
LogParsers.v
LogParsersFacts.v
MonitorLog.v
LogTools.v
LogDirs.v
LogToolsFacts.v
DrawPerf.v
DrawPerfFacts.v
PerfFigure.v
PerfFigureFacts.v
Samples.v
Scripts.v
Examples.v
IncExamples.v
LogExamples.v
LoopExamples.v
WireExamples.v
ClusterExamples.v
