(* ===== verification/Prelude.v ===== *)
(** * The Spirit resource controller, verified

    Spirit divides the cache and the remote-memory bandwidth of each VM of a
    cluster among the applications that run in it.  Its controller
    (src/res_allocation) is a loop: an allocator computes the share of every
    application, a deployer posts the shares to the enforcers, a monitor
    collects what the enforcers measured, and the allocator reads it back,
    partly through an estimator, in the next round.  The enforcers are Rust
    services: a global one (src/global-enforcer), which divides a posted
    allocation among the VMs and keeps the latest usage, and one per VM
    (src/local-enforcer), which writes the limits into the control files of
    the containers and reports what it measured.

    ** Parts, sources and files

    - Exceptions as values, loops, tactics, hint databases: this file.
      Python dictionaries as insertion-ordered association lists: PyDict,
      dictionaries of dictionaries: Nested.  Python floats: PyFloat; the facts
      of exact arithmetic: Exact.  Python strings and number formats: PyStr;
      the regular expressions the code uses: Regex; [json.loads] and access
      to decoded values: Json; writing JSON and its round trip: Dumps.
    - The data shared by the allocators (shares, prices, per-user limits,
      deployed units): Resources.
    - allocators/ptas_algorithm.py, one user's search at given prices: Ptas;
      PtasFacts (limits, near-optimality, for any floats), PtasExact
      (affordability, totality, in exact arithmetic).
    - allocators/allocator_base.py and utils/helpers.py: the VM map and the
      equal and flat divisions in Base and BaseExact, the parameters of all
      allocators in Params, the control loop ([ResourceAllocator.start]) in
      System, the constructors and the whole run in Objects.
    - allocators/spirit_allocator.py: Spirit (state [spirit], price search
      [allocate], round [allocate_and_parse]); SpiritFacts (termination,
      convergence, for any floats), SpiritExact and SpiritRounds (totality of
      a round and capacity, over all reachable states).
    - allocators/static_allocator.py: StaticAlloc.  allocators/oracle_allocator.py:
      Oracle, with OracleExact.  allocators/fij_trade_allocator.py: FijTrade,
      with FijFacts and FijExact.  allocators/inc_trade_allocator.py: IncTrade, with IncFacts and
      IncExact.
    - The Rust the enforcers use (u64 arithmetic, texts, hash maps whose order
      is unknown): Rust.  global-enforcer/src, lib/src/lib.rs and commands.rs:
      GlobalEnforcer (state [global_allocation], routes [config], [usage],
      [cluster_status], all requests in [handle]) and GlobalFacts.
    - local-enforcer/src: Cgroups (the control files), PerfStats (counters
      and their history), MissRatio (the formulas of a miss-ratio curve),
      MrcFit (samples, the fit, the whole [compute_mrc_via_aet]) and
      MissRatioFacts, CacheClient (state [cache_client], start, limits, rounds
      of the threads, report) with CacheClientFacts (reachable states
      [client_reach]), LocalReports (a report names every container) and
      LocalLimits (the limits written and left behind).
    - Controller and enforcers together: Cluster (usage on its way, and the
      control loop on the enforcers' answers) and Enforcement (from an
      allocation to the limits of the containers).  VM maps up to order, for
      answers in hash order, are at the end of Base.
    - resource_monitor.py: Monitor (state [monitor], buffering, consumption,
      response decoding, reset, readers) and MonitorFacts (its states as a
      step relation [mon_step], [mon_reach]); its two methods without callers:
      MonitorLog.
    - estimators/runtime_estimator.py: Estimator and EstimatorExact.
    - deployer.py and the control loop: System; the loop with a concrete
      allocator, monitor and estimator: Controllers; with resets of the reset
      API between its calls to the monitor: Interleaving; with the Spirit
      allocator from its start: SpiritRoom (every round deploys at least 1 Mbps
      per user), MonitorReadings (usable responses give usable readings) and
      SpiritLoop.
    - The texts on the network, the command the deployer posts and the usage
      the monitor gets (lib/src/lib.rs has their types): Wire and WireFacts;
      the control loop on texts: WireLoop.
    - metrics_reset_server.py: Server (requests, handlers, the server object)
      and ServerFacts (responses and clients).
    - utils/config.py, main_memcached.py and the profiles read by
      estimators/runtime_estimator.py: Config and ConfigFacts.
    - utils/logger.py, communication.py: Logger.  main_move_logs.py: Config
      (the name of the directory) and LogDirs (runs and their directories).
    - utils/log_parsers.py: LogParsers and LogParsersFacts.  utils/logtools.py:
      LogTools, LogDirs and LogToolsFacts.
    - draw_perf.py: DrawPerf and DrawPerfFacts (the rows, the axis), PerfFigure
      and PerfFigureFacts (the settings, the figure).
      estimators/data_loader.py and utils/plotting.py: Samples.
      local-enforcer/scripts and scripts: Scripts.
    - Concrete runs, which evaluate the definitions and apply the theorems:
      Examples, IncExamples, LogExamples, LoopExamples, WireExamples and
      ClusterExamples (two VMs with their enforcers).

    ** How the code is modelled

    A call returns a value or raises: [res] with [Ok] and [Err].  [for] loops
    are [for_each] (with [break]) and [for_all]; the mutable fields of an
    object are a record that every method takes and returns, in the order of
    the code's assignments.  A dictionary is an association list in insertion
    order, because the code iterates over dictionaries and the order decides
    ties.  Where the code hands out a reference to a dictionary it later
    changes ([cur_alloc = self.last_allocation] in [SpiritAllocator.allocate]),
    the model stores the changes in the field as well.  Integers are unbounded, as
    in Python.  Iteration over a Python [set] happens at one place (unassigned
    users, static_allocator.py) and is taken in the order of the users.

    Floats are a class [PyFloat] with two instances: the binary64 numbers of
    the Standard Library's [SpecFloat], and exact rationals with infinities
    and NaN.  Theorems about guards, choices, ordering and control flow are
    proved for every instance of the order laws, and so for binary64; theorems
    that add or multiply shares (capacity, affordability, totality, the error
    of an accepted fit) are proved of exact arithmetic, and say nothing about
    rounding.  Two facts hold in exact arithmetic only, and the examples show
    it: a miss rate that never grows with the cache ([miss_rate_monotone],
    [miss_rate_rounds]) and a trade that conserves the totals
    ([trade_conserves], [trade_rounds]).  The estimate of a miss rate is proved
    to interpolate in binary64 itself ([miss_rate_interpolates]).

    The price search is a [while True] loop.  [price_loop] has fuel
    [price_fuel], max(1, max_iteration + 4): the code leaves the loop in round
    max_iteration + maximum_retry + 1 at the latest, and [allocate_terminates]
    proves that the fuel never runs out.  The loops of the local enforcer are
    bounded in the source (5 attempts, 5 steps, 2500 and 10000 iterations), and
    the model counts the same iterations.

    The network is a parameter: the controller's responses are arguments of
    [collect], decoded from JSON.  Wire has the step from the bytes of an
    answer to that argument, and [wire_refines] shows that the loop on bytes
    is the loop on decoded answers; answers with values of another type than
    the enforcers send are not modelled.  [time.time()] is a parameter of the
    incremental allocator.  The estimator is a parameter of the allocators;
    the interface they rely on is a class ([est_total], [est_nonzero]), which
    the runtime estimator implements ([runtime_estimator_total],
    [runtime_estimator_nonzero]).  The control loop is proved against the
    class [TotalAllocator], which the static allocator implements.

    Texts are lists of characters (the bytes of their UTF-8 encoding).  A
    regular expression is matched by listing all its matches in the order of
    backtracking ([matches]), which is proved to miss none and invent none;
    [re.search] and [re.match] take the first.  [json.loads] is a scanner with
    fuel [json_fuel], twice the length of the text and two more: every call
    but the first of a nesting consumes a character, and [scan_value_fuel]
    shows that more fuel changes nothing.  Files are the results of reading
    them, directories their listings; numpy and pandas statistics, docker and
    the shell are parameters.  A figure is a record of what the plotting
    library is asked to draw.  An HTTP request is its target, its length
    header and its body; the request line and the socket belong to the
    standard library's server.

    The enforcers are built in release mode, so [u64] arithmetic is written
    with its wrap-around ([wrap]) and casts from floats saturate ([as_u64]);
    [unwrap], [expect], [assert!] and division by zero are [Err Panic].  A
    [HashMap] is stdpp's [gmap], and every loop over one takes its order from
    an argument of class [HashOrder], of which only that it lists the map is
    known: theorems hold for every order, and the control loop accepts answers
    whose VM map is the registered one up to order ([same_vms], with [Proper]
    instances).  [serde_json]'s decoding is a parameter ([decoders]) with the
    law that what was written is read back, floats aside; [powf] and [ln_1p]
    are parameters without laws.  The host (docker, files, clock) is an
    argument of each operation, and its writes a list in order.  The
    background threads of a local enforcer are operations between the others
    ([client_step]), as each holds the lock of what it changes.

    The reset server runs in a thread of its own.  Its requests are steps
    between the calls of the loop to the monitor (Interleaving); a reset in
    the middle of a consumption is treated separately
    ([reset_during_consume_raises]).

    ** What is proved

    - Spirit: on a usable configuration ([usable], see the limits below) a
      round returns from every reachable state, and in every reachable state
      the units of a VM's applications fit into the VM; the same with the
      runtime estimator in place.  On any configuration the price search
      terminates, and after a converged search the shares of each resource add
      up to at most 1 + 1e-5.
    - The per-user search: the share returned satisfies the limits, is
      affordable, and is within the reallocation threshold of every grid point
      visited; it always returns under positive prices.
    - The trading allocators: rounds return and fit each VM; trades and
      adjustments respect the per-user limits and pick the users the code
      means to pick; in exact arithmetic a trade conserves both resources.
    - The static allocator: equal units that fit; what the flat division gives
      away in total.
    - The monitor: after any sequence of whole calls a consumption that is not
      interrupted returns, its counters count what they are named
      after, consumption adds one median per buffered pair, buffers hold no
      repeated value and the recent window is bounded; a reset clears one
      application and nothing else.
    - The estimator: the miss rate is interpolated between the two points that
      enclose the cache size; in exact arithmetic it is monotone and exact at
      measured points, and the deployed allocation has relative performance 1.
    - The loop: after any number of rounds the allocation the allocator
      returned last is the deployed map, the monitor's and the estimator's.
      With the Spirit allocator, from a fresh start and on a configuration that
      satisfies [loop_config]: no round raises while the controller's answers carry one
      complete VM map and usable curves, and once the map is known the deployed
      allocation fits every VM.  The estimator divides by the deployed
      bandwidth, so this rests on an invariant of its own: under a minimum of
      1 Mbps per user every round deploys at least 1 Mbps for every user.  The
      same holds when the reset API clears applications during the rounds.
    - The network: what the enforcers serialise is what the monitor buffers,
      and the loop on texts refines the loop on decoded answers.
    - The enforcers: a posted allocation is divided among the VMs of each
      application, whatever the order of the maps, losing less than a unit per
      VM, and on every error branch what was recorded and sent is known; a
      memory limit is lowered in at most five steps that never go below the
      target; the reachable states of a local enforcer have records for
      exactly its containers, and a report names all of them; in binary64
      computing a curve never panics and a curve is 64 ratios between 0 and 1,
      the last of them 0; an exponent that is accepted reproduces the measured
      miss ratio.
    - Controller and enforcers together: the hypotheses of the loop hold of
      the answers the enforcers give, so the loop runs and fits every VM
      ([cluster_loop_fits]); an allocation that fits a VM is enforced, the
      limits of its containers being its units ([limits_within_capacity]).
    - The reset API: which requests reset what, that clients are understood
      through the query and, but for application 0, through JSON, and that
      every response tells the truth.
    - The oracle: the normalisation makes the requests of every VM but VM 0
      fit, and changes the configuration it read them from.
    - The entry point: a well-formed configuration determines the resource
      scale and the rounds, and with an interval of at least four seconds the
      static controller runs through them; a
      run that returns leaves no open port and, when it moves its logs, no
      open log.
    - The logs: what the monitor and the memcached client write is what the
      analysis reads back; the run it finds is the latest of the budget asked
      for; the rows of the figure do not depend on the order of directory
      listings; every run that measured an application has its bar, inside
      the axis; the plotted averages are those of the points, and the frames
      of the animation are its states.
    - Where the code does not do what it means to: the truncating repair of
      the static candidate, the oversubscribing flat division, the unlocked
      reset, the division by zero at short intervals, the incomplete legend,
      the sorting of the status that has no effect, the bandwidth after
      counters restarted, and in the incremental allocator the lost and misdirected
      revocation, the VM that is not adjusted again before the next static
      phase, and the over-allocation after an incomplete map.

    ** What is not modelled

    Progress output, runtime statistics and waiting (the pause is computed);
    argument parsing; fonts, margins and marker styles of the figures; the
    sockets of the reset server; [initialize_logger] and the abstract classes
    of estimators/estimator.py and resource_monitor.py, which nothing calls;
    the variants without effect for measuring overhead ([DummyMonitor],
    [DummyDeployer]); ae/memory_node/spirit_ae.ipynb, whose cells are text and
    shell commands; the shell scripts; the web framework and the delivery of
    the posts between the enforcers; the remote memory and the benchmark
    clients, which the system only starts and measures.

    ** Limits of the theorems

    The capacity theorems do not speak of the rounding of binary64.

    The theorems on Spirit's rounds take a configuration that is [usable]
    (SpiritRounds): every per-user limit is positive, the maximum cache is at
    most the total, a price search has at most 90 iterations (the code
    adapts it between 5 and 25), the VM map is
    complete and names each user once, and for each VM one of three cases
    holds ([can_serve] in SpiritExact).  The maximum cache is below the total;
    or, as with the defaults of [load_config], it is the total and several
    applications share the VM, fewer than 100000; or one application has the
    VM and the maximum bandwidth is the total, as by default.  Left out is one
    application alone in a VM, with the maximum cache the total and a smaller
    maximum bandwidth: there the truncating repair can give a share without
    bandwidth ([repair_static_truncates]), by which the estimator then
    divides.  [default_budget_serves] (ConfigFacts) shows that a configuration
    file without maxima is served.

    The theorems on the whole loop take a configuration that satisfies
    [loop_config] (SpiritLoop), which adds to this a minimum of at least 1 Mbps
    per user and as much bandwidth for all users, application 1 among the
    users (its records end the static phase), a static phase of at least two
    records, a VM and a positive granularity.

    The states of the monitor ([mon_reach]) are those after whole calls: a
    collection of a decoded answer, a consumption, a reset, an update of the
    allocation.  Answers that cannot be decoded raise in Wire
    ([collect_answer]), and a reset in the middle of a consumption in
    [reset_during_consume_raises].

    ** This file

    Python exceptions as an error type, the error monad, loops with
    [continue] and [break], generic list lemmas and the tactics and hint
    databases of the development. *)

From stdpp Require Export prelude.
From Stdlib Require Export ZArith.

(** ** Exceptions and the error monad

    A Python call either returns a value or raises.  Only the exceptions the
    modelled code can raise are listed; [Panic] is Rust's. *)

Inductive exn :=
  | KeyError
  | IndexError
  | ZeroDivisionError
  | OverflowError
  | ValueError
  | TypeError
  | AssertionError
  | StatisticsError
  | UnboundLocalError
  | AttributeError
  | StopIteration
  | OSError
  | Panic
  | PlainException.

Inductive res (A : Type) :=
  | Ok (a : A)
  | Err (e : exn).
Arguments Ok {A} a.
Arguments Err {A} e.

#[export] Instance exn_eq_dec : EqDecision exn.
Proof. solve_decision. Defined.

#[export] Instance res_ret : MRet res := λ A a, Ok a.
#[export] Instance res_bind : MBind res := λ A B f m,
  match m with Ok a => f a | Err e => Err e end.

(** [d[k]] on an absent key, and other partial reads. *)
Definition or_raise {A} (e : exn) (o : option A) : res A :=
  match o with Some a => Ok a | None => Err e end.

(** ** Loops

    [for x in xs: body] where the body ends normally or with [continue]
    ([Next]) or leaves the loop with [break] ([Stop]). *)

Inductive flow (S : Type) :=
  | Next (s : S)
  | Stop (s : S).
Arguments Next {S} s.
Arguments Stop {S} s.

Definition flow_state {S} (f : flow S) : S :=
  match f with Next s => s | Stop s => s end.

Fixpoint for_each {X S} (body : X → S → res (flow S)) (xs : list X) (s : S) : res S :=
  match xs with
  | [] => Ok s
  | x :: xs' =>
      match body x s with
      | Err e => Err e
      | Ok (Stop s') => Ok s'
      | Ok (Next s') => for_each body xs' s'
      end
  end.

(** A [for] loop whose body never breaks. *)
Fixpoint for_all {X S} (body : X → S → res S) (xs : list X) (s : S) : res S :=
  match xs with
  | [] => Ok s
  | x :: xs' => s' ← body x s; for_all body xs' s'
  end.

(** [f(x) for x in xs], where [f] may raise *)
Fixpoint map_res {A B} (f : A → res B) (xs : list A) : res (list B) :=
  match xs with
  | [] => Ok []
  | x :: xs' => y ← f x; ys ← map_res f xs'; Ok (y :: ys)
  end.

(** ** Automation *)

Create HintDb spirit.

Lemma bind_Ok {A B} (m : res A) (f : A → res B) b :
  m ≫= f = Ok b ↔ ∃ a, m = Ok a ∧ f a = Ok b.
Proof.
  split; [destruct m; simpl; intros; [eauto | discriminate]|].
  intros (a & -> & ?). done.
Qed.

Lemma or_raise_Ok {A} e (o : option A) a : or_raise e o = Ok a ↔ o = Some a.
Proof. destruct o; simpl; naive_solver. Qed.

(** [inv_ok] takes an equation [c = Ok r] apart: it inverts the binds of [c]
    from the outside in and names what every intermediate call returned. *)
Ltac inv_ok :=
  repeat match goal with
  | H : _ ≫= _ = Ok _ |- _ => apply bind_Ok in H as (? & ? & ?)
  | H : mbind _ _ = Ok _ |- _ => apply bind_Ok in H as (? & ? & ?)
  | H : or_raise _ _ = Ok _ |- _ => apply or_raise_Ok in H
  | H : Ok _ = Ok _ |- _ => injection H as H; subst
  | H : mret _ = Ok _ |- _ => injection H as H; subst
  | H : Err _ = Ok _ |- _ => discriminate H
  | H : (_, _) = (_, _) |- _ => injection H as H; subst
  end.

(** ** Total correctness

    [returns m P]: the call returns, and its result satisfies [P]. *)

Definition returns {A} (m : res A) (P : A → Prop) : Prop := ∃ a, m = Ok a ∧ P a.

Lemma returns_ret {A} (a : A) (P : A → Prop) : P a → returns (Ok a) P.
Proof. by exists a. Qed.

Lemma returns_bind {A B} (m : res A) (k : A → res B) (P : A → Prop) (Q : B → Prop) :
  returns m P → (∀ a, P a → returns (k a) Q) → returns (m ≫= k) Q.
Proof. intros (a & -> & Ha) Hk. by apply Hk. Qed.

Lemma returns_mono {A} (m : res A) (P Q : A → Prop) :
  returns m P → (∀ a, P a → Q a) → returns m Q.
Proof. intros (a & -> & Ha) HPQ. exists a. auto. Qed.

Lemma returns_or_raise {A} e (o : option A) a (P : A → Prop) :
  o = Some a → P a → returns (or_raise e o) P.
Proof. intros -> ?. by exists a. Qed.

Lemma map_res_returns {A B} (f : A → res B) (P : A → B → Prop) (xs : list A) :
  (∀ x, x ∈ xs → returns (f x) (P x)) → returns (map_res f xs) (Forall2 P xs).
Proof.
  induction xs as [|x xs IH]; intros Hf; [by apply returns_ret|]. cbn [map_res].
  eapply returns_bind; [apply Hf; left|]. intros y Hy.
  eapply returns_bind; [apply IH; intros; apply Hf; by right|]. intros ys Hys.
  apply returns_ret. by constructor.
Qed.

(** Step over the first call of a monadic body. *)
Tactic Notation "rbind" tactic3(t) "as" simple_intropattern(x) simple_intropattern(Hx) :=
  eapply returns_bind; [solve [t] | intros x Hx].

(** ** Loop rules *)

Section loops.
Context {X S : Type}.

(** Partial correctness of [for_each]: an invariant kept by every
    iteration holds when the loop is left, normally or by [break]. *)
Lemma for_each_inv (I : S → Prop) (body : X → S → res (flow S)) xs s s' :
  (∀ x t fl, x ∈ xs → I t → body x t = Ok fl → I (flow_state fl)) →
  I s → for_each body xs s = Ok s' → I s'.
Proof.
  revert s. induction xs as [|x xs IH]; simpl; intros s Hstep HI Hrun.
  { by simplify_eq. }
  destruct (body x s) as [[t|t]|e] eqn:E; [| |done].
  - apply (IH t); [|by apply (Hstep x s (Next t)); [left|..]|done].
    intros y u fl Hy. apply Hstep. by right.
  - injection Hrun as <-. apply (Hstep x s (Stop t)); [left|..]; done.
Qed.

Lemma for_each_total (I : S → Prop) (body : X → S → res (flow S)) xs s :
  (∀ x t, x ∈ xs → I t → ∃ fl, body x t = Ok fl ∧ I (flow_state fl)) →
  I s → ∃ s', for_each body xs s = Ok s' ∧ I s'.
Proof.
  revert s. induction xs as [|x xs IH]; simpl; intros s Hstep HI; [eauto|].
  destruct (Hstep x s) as ([t|t] & -> & Ht); [left|done| |by eauto].
  apply IH; [|done]. intros y u Hy. apply Hstep. by right.
Qed.

Lemma for_all_inv (I : S → Prop) (body : X → S → res S) xs s s' :
  (∀ x t t', x ∈ xs → I t → body x t = Ok t' → I t') →
  I s → for_all body xs s = Ok s' → I s'.
Proof.
  revert s. induction xs as [|x xs IH]; simpl; intros s Hstep HI Hrun.
  { by simplify_eq. }
  inv_ok. eapply IH; [|eapply Hstep; [left| |]; done|done].
  intros y u u' Hy. apply Hstep. by right.
Qed.

Lemma for_all_app (body : X → S → res S) xs ys s :
  for_all body (xs ++ ys) s = (s' ← for_all body xs s; for_all body ys s').
Proof.
  revert s. induction xs as [|x xs IH]; simpl; intros s; [done|].
  destruct (body x s); simpl; auto.
Qed.

(** Total correctness: if the invariant keeps the body from raising, the
    loop returns. *)
Lemma for_all_total (I : S → Prop) (body : X → S → res S) xs s :
  (∀ x t, x ∈ xs → I t → ∃ t', body x t = Ok t' ∧ I t') →
  I s → ∃ s', for_all body xs s = Ok s' ∧ I s'.
Proof.
  revert s. induction xs as [|x xs IH]; simpl; intros s Hstep HI; [eauto|].
  destruct (Hstep x s) as (t & -> & Ht); [left|done|]. simpl.
  apply IH; [|done]. intros y u Hy. apply Hstep. by right.
Qed.

(** The same, where each iteration also establishes a fact [C x] of its
    own which the later iterations keep. *)
Lemma for_all_cover (I : S → Prop) (C : X → S → Prop) (body : X → S → res S) xs s :
  (∀ x t, x ∈ xs → I t →
     ∃ t', body x t = Ok t' ∧ I t' ∧ C x t' ∧ ∀ y, C y t → C y t') →
  I s → ∃ s', for_all body xs s = Ok s' ∧ I s' ∧ (∀ x, x ∈ xs → C x s') ∧ ∀ y, C y s → C y s'.
Proof.
  revert s. induction xs as [|x xs IH]; simpl; intros s Hstep HI.
  { exists s. split; [done|]. split; [done|]. split; [|done]. intros x Hx. by apply elem_of_nil in Hx. }
  destruct (Hstep x s) as (t & -> & Ht & Hx & Hkeep); [left|done|]. simpl.
  destruct (IH t) as (s' & -> & Hs' & Hall & Hk); [|done|].
  { intros y u Hy. apply Hstep. by right. }
  exists s'. split; [done|]. split; [done|]. split; [|by auto].
  intros y [->|Hy]%elem_of_cons; auto.
Qed.
End loops.
