(* ===== verification/PyDict.v ===== *)
(** * Python dictionaries

    A [dict] keeps the insertion order of its keys: iteration over
    [d.items()] is iteration over the association list, an assignment to a
    present key keeps its place, an assignment to a new key appends.  The
    code iterates over dictionaries while searching minima and maxima, so the
    order is part of the model. *)

From S2P Require Import Prelude.

Definition dict (K V : Type) := list (K * V).
Arguments dict : simpl never.

Section dict.
Context {K V : Type} `{EqDecision K}.
Implicit Types (d : dict K V) (k : K) (v : V).

Fixpoint dget (d : dict K V) (k : K) : option V :=
  match d with
  | [] => None
  | (k', v) :: d' => if decide (k = k') then Some v else dget d' k
  end.

(** [d[k]] *)
Definition dgetE (d : dict K V) (k : K) : res V := or_raise KeyError (dget d k).

(** [k in d] *)
Definition dmem (d : dict K V) (k : K) : bool :=
  match dget d k with Some _ => true | None => false end.

(** [d[k] = v] *)
Fixpoint dset (d : dict K V) (k : K) (v : V) : dict K V :=
  match d with
  | [] => [(k, v)]
  | (k', v') :: d' => if decide (k = k') then (k', v) :: d' else (k', v') :: dset d' k v
  end.

(** [d.setdefault(k, v)] *)
Definition dsetdefault (d : dict K V) (k : K) (v : V) : dict K V :=
  if dmem d k then d else dset d k v.

Definition dkeys (d : dict K V) : list K := d.*1.
Definition dvalues (d : dict K V) : list V := d.*2.

(** [d.update(e)] *)
Definition dupdate (d e : dict K V) : dict K V :=
  foldl (λ acc kv, dset acc kv.1 kv.2) d e.

Lemma dkeys_cons k v d : dkeys ((k, v) :: d) = k :: dkeys d.
Proof. done. Qed.

Lemma dget_dset_eq d k v : dget (dset d k v) k = Some v.
Proof.
  induction d as [|[k' v'] d IH]; simpl; [by rewrite decide_True|].
  destruct (decide (k = k')) as [->|Hne]; simpl.
  - by rewrite decide_True.
  - by rewrite decide_False.
Qed.

Lemma dget_dset_ne d k k' v : k ≠ k' → dget (dset d k v) k' = dget d k'.
Proof.
  intros Hne. induction d as [|[k1 v1] d IH]; simpl.
  { by rewrite decide_False. }
  destruct (decide (k = k1)) as [->|?]; simpl.
  - by rewrite !(decide_False (P := k' = k1)).
  - by rewrite IH.
Qed.

Lemma dget_dset d k k' v :
  dget (dset d k v) k' = if decide (k = k') then Some v else dget d k'.
Proof. case_decide; subst; auto using dget_dset_eq, dget_dset_ne. Qed.

Lemma dget_Some_elem d k v : dget d k = Some v → (k, v) ∈ d.
Proof.
  induction d as [|[k' v'] d IH]; simpl; [done|].
  case_decide; intros; simplify_eq; [left | right; auto].
Qed.

Lemma dget_None_keys d k : dget d k = None ↔ k ∉ dkeys d.
Proof.
  induction d as [|[k' v'] d IH]; [set_solver|]. rewrite dkeys_cons. simpl.
  rewrite not_elem_of_cons. case_decide as Hk; [naive_solver|]. naive_solver.
Qed.

Lemma dget_is_Some_keys d k : is_Some (dget d k) ↔ k ∈ dkeys d.
Proof.
  destruct (dget d k) as [v|] eqn:E.
  - apply dget_Some_elem in E. split; [|by eauto]. intros _.
    unfold dkeys. apply list_elem_of_fmap. by exists (k, v).
  - apply dget_None_keys in E. split; [by intros []|done].
Qed.

Lemma dmem_true d k : dmem d k = true ↔ k ∈ dkeys d.
Proof. unfold dmem. rewrite <- dget_is_Some_keys. destruct (dget d k); naive_solver. Qed.

Lemma dmem_false d k : dmem d k = false ↔ k ∉ dkeys d.
Proof. rewrite <- dmem_true. by destruct (dmem d k). Qed.

Lemma dkeys_dset d k v :
  dkeys (dset d k v) = if dmem d k then dkeys d else dkeys d ++ [k].
Proof.
  induction d as [|[k' v'] d IH]; [done|]. unfold dmem in *. simpl.
  destruct (decide (k = k')) as [->|Hne]; [done|].
  rewrite !dkeys_cons, IH. by destruct (dget d k).
Qed.

Lemma elem_of_dkeys_dset d k v k' :
  k' ∈ dkeys (dset d k v) ↔ k' = k ∨ k' ∈ dkeys d.
Proof.
  rewrite dkeys_dset. destruct (dmem d k) eqn:E; [|set_solver].
  apply dmem_true in E. set_solver.
Qed.

(** Assignment keeps the keys of a dictionary distinct. *)
Lemma NoDup_dset d k v : NoDup (dkeys d) → NoDup (dkeys (dset d k v)).
Proof.
  intros Hd. rewrite dkeys_dset. destruct (dmem d k) eqn:E; [done|].
  apply dmem_false in E. apply NoDup_app; repeat split; [done|set_solver|apply NoDup_singleton].
Qed.

Lemma dget_In d k v : NoDup (dkeys d) → (k, v) ∈ d → dget d k = Some v.
Proof.
  induction d as [|[k' v'] d IH]; simpl; [set_solver|].
  intros Hnd [?|Hin]%elem_of_cons; simplify_eq; [by rewrite decide_True|].
  apply NoDup_cons in Hnd as [Hk Hnd].
  rewrite decide_False; [auto|]. intros ->. apply Hk.
  apply list_elem_of_fmap. by exists (k', v).
Qed.

(** An entry after an assignment is the new one or an old one. *)
Lemma dset_elem d k v p : p ∈ dset d k v → p = (k, v) ∨ p ∈ d.
Proof.
  induction d as [|[k' v'] d IH]; simpl; [set_solver|]. case_decide; set_solver.
Qed.

(** The later of two assignments to a key counts. *)
Lemma dset_dset d k v v' : dset (dset d k v) k v' = dset d k v'.
Proof.
  induction d as [|[k' w] d IH]; simpl; [by rewrite decide_True|].
  destruct (decide (k = k')) as [->|Hne]; simpl; [by rewrite decide_True|].
  by rewrite decide_False, IH.
Qed.

Lemma dmem_dset d k k' v : dmem (dset d k v) k' = bool_decide (k = k') || dmem d k'.
Proof.
  unfold dmem. rewrite dget_dset. case_decide as Hk; [by rewrite bool_decide_true|].
  by rewrite bool_decide_false.
Qed.

(** [{u: g(u) for u in us}], built by assignment. *)
Lemma dget_foldl_dset (g : K → V) us d k :
  dget (foldl (λ d u, dset d u (g u)) d us) k = if decide (k ∈ us) then Some (g k) else dget d k.
Proof.
  revert d. induction us as [|u us IH]; intros d.
  { by rewrite decide_False by apply not_elem_of_nil. }
  simpl. rewrite IH, dget_dset.
  destruct (decide (k ∈ us)); [by rewrite decide_True by by right|].
  destruct (decide (u = k)) as [->|Hne]; [by rewrite decide_True by left|].
  rewrite decide_False; [done|]. set_solver.
Qed.

Lemma dkeys_foldl_dset (g : K → V) us d :
  NoDup us → (∀ u, u ∈ us → u ∉ dkeys d) →
  dkeys (foldl (λ d u, dset d u (g u)) d us) = dkeys d ++ us.
Proof.
  revert d. induction us as [|u us IH]; intros d; [by rewrite app_nil_r|].
  intros [Hu Hnd]%NoDup_cons Hd. simpl.
  assert (Hk : dkeys (dset d u (g u)) = dkeys d ++ [u]).
  { rewrite dkeys_dset, (proj2 (dmem_false d u)); [done|]. apply Hd. left. }
  rewrite IH, Hk by (try done; rewrite Hk; set_solver). by rewrite <- app_assoc.
Qed.

Lemma dget_dupdate d e k :
  NoDup (dkeys e) →
  dget (dupdate d e) k = match dget e k with Some v => Some v | None => dget d k end.
Proof.
  unfold dupdate. revert d. induction e as [|[k' v] e IH]; intros d; [done|].
  rewrite dkeys_cons. intros [Hk Hnd]%NoDup_cons. simpl. rewrite IH, dget_dset by done.
  destruct (decide (k = k')) as [->|Hne].
  - apply dget_None_keys in Hk. rewrite Hk. by rewrite decide_True.
  - by rewrite (decide_False (P := k' = k)) by done.
Qed.

Lemma dset_fresh d k v : k ∉ dkeys d → dset d k v = d ++ [(k, v)].
Proof.
  induction d as [|[k' v'] d IH]; [done|]. rewrite dkeys_cons. intros [Hne Hk]%not_elem_of_cons.
  simpl. rewrite decide_False by done. by rewrite IH.
Qed.

(** Updating with fresh keys appends. *)
Lemma dupdate_append d e : NoDup (dkeys (d ++ e)) → dupdate d e = d ++ e.
Proof.
  unfold dupdate. revert d. induction e as [|[k v] e IH]; intros d Hnd; simpl; [by rewrite app_nil_r|].
  assert (Hk : k ∉ dkeys d).
  { unfold dkeys in Hnd. rewrite fmap_app in Hnd. apply NoDup_app in Hnd as (_ & Hd & _).
    intros Hin. apply (Hd k Hin). left. }
  rewrite dset_fresh by done. rewrite IH; rewrite <- app_assoc; done.
Qed.

Lemma NoDup_dupdate d e : NoDup (dkeys d) → NoDup (dkeys (dupdate d e)).
Proof.
  unfold dupdate. revert d. induction e as [|[k v] e IH]; intros d Hd; [done|]. simpl.
  by apply IH, NoDup_dset.
Qed.

Lemma dget_app d e k :
  dget (d ++ e) k = match dget d k with Some v => Some v | None => dget e k end.
Proof. induction d as [|[k' v'] d IH]; simpl; [done|]. by case_decide. Qed.
End dict.

Create Rewrite HintDb dicts.
#[export] Hint Rewrite @dget_dset_eq : dicts.
#[export] Hint Rewrite @dget_dset_ne using done : dicts.
#[export] Hint Resolve NoDup_dset dget_dset_eq : spirit.
