(* ===== verification/Nested.v ===== *)
(** * Dictionaries of dictionaries

    The monitor keeps its measurements in dictionaries nested by user, cache
    size and bandwidth.  [at_key] is the update [d.setdefault(k, dflt)]
    followed by a mutation of [d[k]]; the lemmas say what it does to lookups,
    to key lists and to additive measures such as the number of records. *)

From S2P Require Import Prelude PyDict.

Section at_key.
Context {K V : Type} `{EqDecision K}.
Implicit Types (d : dict K V) (k : K).

Definition at_key (dflt : V) (k : K) (f : V → V) (d : dict K V) : dict K V :=
  dset d k (f (default dflt (dget d k))).

Lemma dget_at_key dflt k k' f d :
  dget (at_key dflt k f d) k' =
    if decide (k = k') then Some (f (default dflt (dget d k))) else dget d k'.
Proof. apply dget_dset. Qed.

Lemma dget_at_key_eq dflt k f d : dget (at_key dflt k f d) k = Some (f (default dflt (dget d k))).
Proof. apply dget_dset_eq. Qed.

Lemma dget_at_key_ne dflt k k' f d : k ≠ k' → dget (at_key dflt k f d) k' = dget d k'.
Proof. apply dget_dset_ne. Qed.

(** A measure of the values, added up over a dictionary. *)
Definition dsum (w : V → Z) (d : dict K V) : Z := foldr Z.add 0%Z (w <$> dvalues d).

Lemma dsum_dset w d k v :
  dsum w (dset d k v) = (dsum w d - default 0 (w <$> dget d k) + w v)%Z.
Proof.
  induction d as [|[k' v'] d IH]; unfold dsum, dvalues in *; csimpl; [lia|].
  case_decide; csimpl; [lia|]. rewrite IH. lia.
Qed.

Lemma dsum_at_key w dflt d k f :
  w dflt = 0%Z →
  dsum w (at_key dflt k f d) =
    (dsum w d - w (default dflt (dget d k)) + w (f (default dflt (dget d k))))%Z.
Proof. intros Hw. unfold at_key. rewrite dsum_dset. destruct (dget d k); simpl; lia. Qed.
End at_key.

(** ** Two levels *)

Section nested.
Context {A : Type}.
Implicit Types (d : dict Z (dict Z A)) (c b : Z).

Definition get2 d c b : option A := dget d c ≫= λ e, dget e b.

Definition at2 (dflt : A) c b (f : A → A) d : dict Z (dict Z A) :=
  at_key (V := dict Z A) [] c (at_key dflt b f) d.

Lemma get2_at2 dflt c b c' b' f d :
  get2 (at2 dflt c b f d) c' b' =
    if decide (c = c' ∧ b = b') then Some (f (default dflt (get2 d c b))) else get2 d c' b'.
Proof.
  unfold get2, at2. rewrite dget_at_key.
  destruct (decide (c = c')) as [<-|Hc]; simpl.
  - rewrite dget_at_key. destruct (decide (b = b')) as [<-|Hb].
    + rewrite decide_True by done. by destruct (dget d c).
    + rewrite decide_False by naive_solver. by destruct (dget d c).
  - by rewrite decide_False by naive_solver.
Qed.

(** Keys are distinct on both levels. *)
Definition wf2 d : Prop := NoDup (dkeys d) ∧ ∀ c e, dget d c = Some e → NoDup (dkeys e).

Lemma wf2_nil : wf2 [].
Proof. split; [constructor|by intros c e [=]]. Qed.

Lemma wf2_at2 dflt c b f d : wf2 d → wf2 (at2 dflt c b f d).
Proof.
  intros [H1 H2]. split; [by apply NoDup_dset|]. intros c' e. unfold at2. rewrite dget_at_key.
  case_decide; [|by apply H2]. intros [= <-]. apply NoDup_dset.
  destruct (dget d c) eqn:E; simpl; [by eapply H2|constructor].
Qed.

(** All the entries, in the order the nested loops visit them. *)
Definition flat2 d : list (Z * Z * A) :=
  d ≫= λ p : Z * dict Z A, (λ q : Z * A, (p.1, q.1, q.2)) <$> p.2.

Lemma for_all_flat2 {S} (body : Z → Z → A → S → res S) d s :
  for_all (λ p : Z * dict Z A, for_all (λ q : Z * A, body p.1 q.1 q.2) p.2) d s =
  for_all (λ t, body t.1.1 t.1.2 t.2) (flat2 d) s.
Proof.
  unfold flat2. revert s. induction d as [|[c e] d IH]; intros s; [done|].
  rewrite bind_cons, for_all_app. simpl.
  assert (He : for_all (λ q, body c q.1 q.2) e s =
    for_all (λ t, body t.1.1 t.1.2 t.2) ((λ q : Z * A, (c, q.1, q.2)) <$> e) s).
  { clear. revert s. induction e as [|[b a] e IH]; intros s; csimpl; [done|].
    destruct (body c b a s); simpl; [apply IH|done]. }
  rewrite He. destruct (for_all (λ t, body t.1.1 t.1.2 t.2) _ s); simpl; [apply IH|done].
Qed.

(** The entries of a list of points at a given place. *)
Definition found (pts : list (Z * Z * A)) c b : list A :=
  pts ≫= λ t, if decide (t.1.1 = c ∧ t.1.2 = b) then [t.2] else [].

Lemma found_app pts pts' c b : found (pts ++ pts') c b = found pts c b ++ found pts' c b.
Proof. apply bind_app. Qed.

Lemma found_other (e : dict Z A) c c' b :
  c ≠ c' → found ((λ q : Z * A, (c', q.1, q.2)) <$> e) c b = [].
Proof.
  intros Hc. induction e as [|[b' a] e IH]; [done|].
  unfold found in *. csimpl. rewrite IH. by rewrite decide_False by naive_solver.
Qed.

Lemma found_inner (e : dict Z A) c b :
  NoDup (dkeys e) →
  found ((λ q : Z * A, (c, q.1, q.2)) <$> e) c b = option_list (dget e b).
Proof.
  induction e as [|[b' a] e IH]; [done|]. rewrite dkeys_cons. intros [Hb Hnd]%NoDup_cons.
  unfold found in *. csimpl. rewrite IH by done.
  destruct (decide (b = b')) as [->|Hne].
  - rewrite decide_True by done. apply dget_None_keys in Hb. by rewrite Hb.
  - rewrite decide_False by naive_solver. done.
Qed.

Lemma found_flat2 d c b : wf2 d → found (flat2 d) c b = option_list (get2 d c b).
Proof.
  induction d as [|[c' e] d IH]; intros [Hnd Hin]; [done|]. rewrite dkeys_cons in Hnd.
  apply NoDup_cons in Hnd as [Hc Hnd]. unfold flat2. rewrite bind_cons, found_app.
  unfold get2. simpl. fold (flat2 d).
  assert (Hwf : wf2 d).
  { split; [done|]. intros c1 e1 H1. apply (Hin c1). simpl. rewrite decide_False; [done|].
    intros ->. apply Hc. apply dget_is_Some_keys. eauto. }
  rewrite IH by done. destruct (decide (c = c')) as [->|Hne]; simpl.
  - rewrite found_inner by (apply (Hin c'); simpl; by rewrite decide_True).
    apply dget_None_keys in Hc. unfold get2. rewrite Hc. simpl. by rewrite app_nil_r.
  - rewrite found_other by done. done.
Qed.

Lemma elem_of_found pts c b a : a ∈ found pts c b ↔ (c, b, a) ∈ pts.
Proof.
  unfold found. rewrite list_elem_of_bind. split.
  - intros ([[c' b'] a'] & Ha & Hin). simpl in Ha. case_decide as Hd; [|set_solver].
    destruct Hd as [-> ->]. apply list_elem_of_singleton in Ha as ->. done.
  - intros Hin. exists (c, b, a). split; [|done]. simpl. rewrite decide_True by done. set_solver.
Qed.

(** Numbers of entries, and of what the entries hold. *)
Definition sum2 (w : A → Z) d : Z := dsum (dsum w) d.

Lemma sum2_at2 w dflt c b f d :
  w dflt = 0%Z →
  sum2 w (at2 dflt c b f d) =
    (sum2 w d - w (default dflt (get2 d c b)) + w (f (default dflt (get2 d c b))))%Z.
Proof.
  intros Hw. unfold sum2, at2. rewrite dsum_at_key by done.
  rewrite dsum_at_key by done. unfold get2.
  destruct (dget d c) as [e|]; simpl; [lia|]. lia.
Qed.

Definition npairs d : Z := sum2 (λ _, 1%Z) d.

Lemma npairs_at2 dflt c b f d :
  npairs (at2 dflt c b f d) =
    (npairs d + match get2 d c b with Some _ => 0 | None => 1 end)%Z.
Proof.
  unfold npairs, sum2, at2. rewrite dsum_at_key by done. unfold at_key.
  rewrite dsum_dset. unfold get2. destruct (dget d c) as [e|]; simpl; [|lia].
  destruct (dget e b); simpl; lia.
Qed.
End nested.

(** ** Three levels *)

Section nested3.
Context {A : Type}.
Implicit Types (d : dict Z (dict Z (dict Z A))).

Definition get3 d (u c b : Z) : option A := dget d u ≫= λ e, get2 e c b.

Definition at3 (dflt : A) (u c b : Z) (f : A → A) d : dict Z (dict Z (dict Z A)) :=
  at_key (V := dict Z (dict Z A)) [] u (at2 dflt c b f) d.

Lemma get3_at3 dflt u c b u' c' b' f d :
  get3 (at3 dflt u c b f d) u' c' b' =
    if decide (u = u' ∧ c = c' ∧ b = b') then Some (f (default dflt (get3 d u c b)))
    else get3 d u' c' b'.
Proof.
  unfold get3, at3. rewrite dget_at_key.
  destruct (decide (u = u')) as [<-|Hu]; simpl.
  - rewrite get2_at2. destruct (decide (c = c' ∧ b = b')) as [Hcb|Hcb].
    + rewrite decide_True by tauto. by destruct (dget d u).
    + rewrite decide_False by tauto. by destruct (dget d u).
  - by rewrite decide_False by naive_solver.
Qed.

Definition wf3 d : Prop := NoDup (dkeys d) ∧ ∀ u e, dget d u = Some e → wf2 e.

Lemma wf3_nil : wf3 [].
Proof. split; [constructor|by intros c e [=]]. Qed.

Lemma wf3_at3 dflt u c b f d : wf3 d → wf3 (at3 dflt u c b f d).
Proof.
  intros [H1 H2]. split; [by apply NoDup_dset|]. intros u' e. unfold at3. rewrite dget_at_key.
  case_decide; [|by apply H2]. intros [= <-]. apply wf2_at2.
  destruct (dget d u) eqn:E; simpl; [by eapply H2|apply wf2_nil].
Qed.

(** Replacing one user's measurements by none. *)
Lemma get3_clear d u u' c b :
  get3 (dset (V := dict Z (dict Z A)) d u []) u' c b = if decide (u = u') then None else get3 d u' c b.
Proof. unfold get3. rewrite dget_dset. by case_decide. Qed.

Lemma wf3_clear d u : wf3 d → wf3 (dset (V := dict Z (dict Z A)) d u []).
Proof.
  intros [H1 H2]. split; [by apply NoDup_dset|]. intros u' e. rewrite dget_dset.
  case_decide; [intros [= <-]; apply wf2_nil|apply H2].
Qed.
End nested3.

#[export] Hint Resolve wf2_nil wf2_at2 wf3_nil wf3_at3 wf3_clear : spirit.
