(* ===== verification/PyFloat.v ===== *)
(** * Python floats

    The allocators compute with Python [float]s, IEEE 754 binary64 numbers.
    Every definition of the development is generic in a type of floats [F]
    with the operations of class [PyFloat], and there are two instances:

    - [b64], the binary64 numbers of the Standard Library's [SpecFloat]
      (rounding to nearest even, signed zeros, infinities and NaN): what
      CPython computes, bit for bit;
    - [xnum], rationals extended with the infinities and NaN: the same
      special values, and no rounding.

    Guards, branches, provenance and ordering arguments are proved for any
    instance of the order laws [PyFloatLaws], which both satisfy, and so hold
    of binary64.  Claims about sums and products are proved of the exact
    instance and say so. *)

From S2P Require Import Prelude.
From Stdlib Require Import QArith Qcanon Lqa SpecFloat.

Class PyFloat (F : Type) := {
  F_eq_dec :: EqDecision F;
  fadd : F → F → F;
  fsub : F → F → F;
  fmul : F → F → F;
  fquot : F → F → F;        (* the quotient of a division that does not raise *)
  fabs : F → F;
  fltb : F → F → bool;
  fleb : F → F → bool;
  feqb : F → F → bool;
  of_Z : Z → F;             (* float(int) *)
  lit : Z → positive → F;   (* the float literal nearest to n/d *)
  finf : F;                 (* float("inf") *)
  fninf : F;                (* -float("inf") *)
  trunc : F → res Z;        (* int(float) *)
  fmean : list F → F;       (* statistics.mean of a non-empty list *)
  fratio : F → option (Z * positive);   (* as_integer_ratio, None for inf and nan *)
}.

(** [x / y] raises [ZeroDivisionError] on a zero divisor. *)
Definition fdiv {F} `{PyFloat F} (x y : F) : res F :=
  if feqb y (of_Z 0) then Err ZeroDivisionError else Ok (fquot x y).

(** The true division of two integers, which is rounded once. *)
Definition int_div {F} `{PyFloat F} (a b : Z) : res F :=
  match b with
  | Z0 => Err ZeroDivisionError
  | Zpos p => Ok (lit a p)
  | Zneg p => Ok (lit (- a) p)
  end.

(** [max(x, y)] and [min(x, y)] return the first argument unless the second
    is strictly better. *)
Definition fmax {F} `{PyFloat F} (x y : F) : F := if fltb x y then y else x.
Definition fmin {F} `{PyFloat F} (x y : F) : F := if fltb y x then y else x.

(** [sum(l)]: left fold from the integer 0 (CPython before 3.12, which
    compensates the rounding errors). *)
Definition fsum {F} `{PyFloat F} (l : list F) : F := foldl fadd (of_Z 0) l.

Declare Scope py_scope.
Delimit Scope py_scope with py.
Notation "x + y" := (fadd x y) : py_scope.
Notation "x - y" := (fsub x y) : py_scope.
Notation "x * y" := (fmul x y) : py_scope.
Notation "x / y" := (fdiv x y) : py_scope.
Notation "x <? y" := (fltb x y) : py_scope.
Notation "x <=? y" := (fleb x y) : py_scope.
Notation "x >? y" := (fltb y x) (only parsing) : py_scope.
Notation "x >=? y" := (fleb y x) (only parsing) : py_scope.

(** ** Order laws

    [num x] says that [x] is not NaN. *)

Class PyFloatLaws (F : Type) `{PyFloat F} := {
  num : F → Prop;
  ltb_irrefl : ∀ x : F, fltb x x = false;
  ltb_trans : ∀ x y z : F, fltb x y = true → fltb y z = true → fltb x z = true;
  ltb_ntrans : ∀ x y z : F,
    num y → fltb x y = false → fltb y z = false → fltb x z = false;
  ltb_num : ∀ x y : F, fltb x y = true → num x ∧ num y;
  leb_ltb : ∀ x y : F, num x → num y → fleb x y = negb (fltb y x);
  leb_num : ∀ x y : F, fleb x y = true → num x ∧ num y;
  num_of_Z : ∀ z, num (of_Z z);
  num_inf : num finf ∧ num fninf;
}.

Section order.
Context {F : Type} `{PyFloatLaws F}.
Implicit Types x y z : F.

Lemma ltb_asym x y : fltb x y = true → fltb y x = false.
Proof.
  intros Hxy. destruct (fltb y x) eqn:E; [|done].
  rewrite <- (ltb_irrefl x). symmetry. eapply ltb_trans; eauto.
Qed.

(** A value not below [y] is not below anything smaller than [y]. *)
Lemma ltb_false_lt x y z : fltb x y = false → fltb z y = true → fltb x z = false.
Proof.
  intros Hxy Hzy. destruct (fltb x z) eqn:E; [|done].
  rewrite <- Hxy. symmetry. eapply ltb_trans; eauto.
Qed.

Lemma ltb_lt_false x y z : fltb x z = true → fltb y z = false → fltb y x = false.
Proof.
  intros Hxz Hyz. destruct (fltb y x) eqn:E; [|done].
  rewrite <- Hyz. symmetry. eapply ltb_trans; eauto.
Qed.

Lemma fmax_cases x y : fmax x y = x ∨ fmax x y = y.
Proof. unfold fmax. case_match; auto. Qed.
Lemma fmin_cases x y : fmin x y = x ∨ fmin x y = y.
Proof. unfold fmin. case_match; auto. Qed.

Lemma fmax_ge_l x y : fltb (fmax x y) x = false.
Proof. unfold fmax. case_match; auto using ltb_asym, ltb_irrefl. Qed.
Lemma fmin_le_l x y : fltb x (fmin x y) = false.
Proof. unfold fmin. case_match; auto using ltb_asym, ltb_irrefl. Qed.
Lemma fmin_le_r x y : fltb y (fmin x y) = false.
Proof. unfold fmin. case_match; auto using ltb_irrefl. Qed.
Lemma fmax_ge_r x y : fltb (fmax x y) y = false.
Proof. unfold fmax. case_match; auto using ltb_irrefl. Qed.
End order.
#[export] Hint Resolve ltb_irrefl ltb_asym ltb_trans : spirit.

(** ** Binary64 *)

Definition b64 := spec_float.

Definition b64_of_Z (z : Z) : b64 := binary_normalize 53 1024 z 0 false.

Definition b64_trunc (x : b64) : res Z :=
  match x with
  | S754_zero _ => Ok 0%Z
  | S754_infinity _ => Err OverflowError
  | S754_nan => Err ValueError
  | S754_finite s m e =>
      let a := if (0 <=? e)%Z then Z.shiftl (Zpos m) e else Z.shiftr (Zpos m) (- e) in
      Ok (if s then (- a)%Z else a)
  end.

(** The float nearest to [n / d]: what the true division of two Python
    integers returns. *)
Definition b64_frac (n : Z) (d : positive) : b64 :=
  let quot s m :=
    let '(mz, ez, lz) := SFdiv_core_binary 53 1024 (Zpos m) 0 (Zpos d) 0 in
    binary_round_aux 53 1024 s mz ez lz in
  match n with
  | Z0 => S754_zero false
  | Zpos m => quot false m
  | Zneg m => quot true m
  end.

(** A finite float as mantissa and exponent. *)
Definition b64_parts (x : b64) : option (Z * Z) :=
  match x with
  | S754_zero _ => Some (0, 0)%Z
  | S754_finite s m e => Some (if s then Zneg m else Zpos m, e)
  | _ => None
  end.

(** [statistics.mean] adds the values as fractions and rounds once. *)
Definition b64_mean (l : list b64) : b64 :=
  let n := Z.of_nat (length l) in
  match mapM b64_parts l with
  | Some ts =>
      let e0 := foldr Z.min 0%Z ts.*2 in
      let total := foldr Z.add 0%Z ((λ t : Z * Z, t.1 * 2 ^ (t.2 - e0))%Z <$> ts) in
      b64_frac total (Z.to_pos (n * 2 ^ (- e0)))
  | None => SFdiv 53 1024 (foldl (SFadd 53 1024) (b64_of_Z 0) l) (b64_of_Z n)
  end.

#[export] Instance b64_eq_dec : EqDecision b64.
Proof. unfold b64. solve_decision. Defined.

#[export] Instance b64_float : PyFloat b64 := {
  fadd := SFadd 53 1024;
  fsub := SFsub 53 1024;
  fmul := SFmul 53 1024;
  fquot := SFdiv 53 1024;
  fabs := SFabs;
  fltb := SFltb;
  fleb := SFleb;
  feqb := SFeqb;
  of_Z := b64_of_Z;
  lit := b64_frac;
  finf := S754_infinity false;
  fninf := S754_infinity true;
  trunc := b64_trunc;
  fmean := b64_mean;
  fratio x := (λ p, if (0 <=? p.2)%Z then (p.1 * 2 ^ p.2, 1%positive)%Z
                    else (p.1, Z.to_pos (2 ^ (- p.2)))) <$> b64_parts x;
}.

(** Floats are ordered by sign, exponent and mantissa: the key of a float is
    ordered lexicographically. *)
Definition b64_key (x : b64) : Z * Z * Z :=
  match x with
  | S754_nan => (3, 0, 0)
  | S754_infinity false => (2, 0, 0)
  | S754_infinity true => (-2, 0, 0)
  | S754_zero _ => (0, 0, 0)
  | S754_finite false m e => (1, e, Zpos m)
  | S754_finite true m e => (-1, - e, Zneg m)
  end%Z.

Definition lex_lt (a b : Z * Z * Z) : Prop :=
  (a.1.1 < b.1.1 ∨ a.1.1 = b.1.1 ∧ (a.1.2 < b.1.2 ∨ a.1.2 = b.1.2 ∧ a.2 < b.2))%Z.

Lemma b64_ltb_key (x y : b64) :
  SFltb x y = true ↔ x ≠ S754_nan ∧ y ≠ S754_nan ∧ lex_lt (b64_key x) (b64_key y).
Proof.
  unfold SFltb, SFcompare, lex_lt.
  destruct x as [[]|[]| |[] m e], y as [[]|[]| |[] m' e']; simpl;
    try (split; [done || (intros; repeat split; (done || lia)) | intros (? & ? & ?); done || lia]).
  all: change (Pos.compare_cont Eq m m') with (m ?= m')%positive;
    destruct (Z.compare_spec e e'); destruct (Pos.compare_spec m m'); simpl;
    (split; [intros; repeat split; (done || lia) | intros (? & ? & ?); (done || lia)]).
Qed.

Lemma b64_leb_key (x y : b64) :
  SFleb x y = true ↔ x ≠ S754_nan ∧ y ≠ S754_nan ∧ ¬ lex_lt (b64_key y) (b64_key x).
Proof.
  unfold SFleb, SFcompare, lex_lt.
  destruct x as [[]|[]| |[] m e], y as [[]|[]| |[] m' e']; simpl;
    try (split; [done || (intros; repeat split; (done || lia)) | intros (? & ? & ?); done || lia]).
  all: change (Pos.compare_cont Eq m m') with (m ?= m')%positive;
    destruct (Z.compare_spec e e'); destruct (Pos.compare_spec m m'); simpl;
    (split; [intros; repeat split; (done || lia) | intros (? & ? & ?); (done || lia)]).
Qed.

(** Rounding a nonnegative mantissa never gives NaN. *)
Lemma shr_1_nonneg r : (0 <= shr_m r)%Z → (0 <= shr_m (shr_1 r))%Z.
Proof. destruct r as [[|[]|[]] ? ?]; simpl; lia. Qed.

Lemma shr_nonneg r e n : (0 <= shr_m r)%Z → (0 <= shr_m (shr r e n).1)%Z.
Proof.
  intros Hr. unfold shr. destruct n as [|p|p]; simpl; try done.
  assert (Hit : ∀ q s, (0 <= shr_m s → 0 <= shr_m (iter_pos shr_1 q s))%Z).
  { induction q; intros s Hs; simpl; auto using shr_1_nonneg. }
  auto.
Qed.

Lemma shr_fexp_nonneg p em m e l : (0 <= m)%Z → (0 <= shr_m (shr_fexp p em m e l).1)%Z.
Proof.
  intros. unfold shr_fexp. apply shr_nonneg.
  destruct l as [|[]]; simpl; lia.
Qed.

Lemma binary_round_aux_num p em s m e l :
  (0 <= m)%Z → binary_round_aux p em s m e l ≠ S754_nan.
Proof.
  intros Hm. unfold binary_round_aux.
  pose proof (shr_fexp_nonneg p em m e l Hm) as H1.
  destruct (shr_fexp p em m e l) as [r e'] eqn:E1. simpl in H1.
  set (k := round_nearest_even (shr_m r) (loc_of_shr_record r)).
  assert (Hk : (0 <= k)%Z).
  { unfold k, round_nearest_even.
    destruct (loc_of_shr_record r) as [|[]]; try destruct (Z.even (shr_m r)); lia. }
  pose proof (shr_fexp_nonneg p em k e' loc_Exact Hk) as H2.
  destruct (shr_fexp p em k e' loc_Exact) as [r' e'']. simpl in H2.
  destruct (shr_m r'); [done| |lia]. by case_match.
Qed.

Lemma b64_of_Z_num z : b64_of_Z z ≠ S754_nan.
Proof.
  unfold b64_of_Z, binary_normalize, binary_round.
  destruct z as [|m|m]; [done|..];
    destruct (shl_align _ _ _); apply binary_round_aux_num; lia.
Qed.

#[export] Instance b64_laws : PyFloatLaws b64.
Proof.
  refine (Build_PyFloatLaws b64 b64_float (λ x, x ≠ S754_nan) _ _ _ _ _ _ _ _); simpl.
  - intros x. apply not_true_is_false. rewrite b64_ltb_key. unfold lex_lt. lia.
  - intros x y z. rewrite !b64_ltb_key. unfold lex_lt. naive_solver lia.
  - intros x y z Hy Hxy Hyz. apply not_true_is_false. rewrite b64_ltb_key.
    apply not_true_iff_false in Hxy, Hyz. rewrite b64_ltb_key in Hxy, Hyz.
    intros (Hx & Hz & Hl). unfold lex_lt in *.
    assert (¬ (lex_lt (b64_key x) (b64_key y))) by tauto.
    assert (¬ (lex_lt (b64_key y) (b64_key z))) by tauto. unfold lex_lt in *. lia.
  - intros x y. rewrite b64_ltb_key. tauto.
  - intros x y Hx Hy. apply eq_true_iff_eq. rewrite b64_leb_key, negb_true_iff.
    rewrite <- not_true_iff_false, b64_ltb_key. tauto.
  - intros x y. rewrite b64_leb_key. tauto.
  - apply b64_of_Z_num.
  - done.
Defined.

(** ** Exact extended rationals *)

Inductive xnum :=
  | Num (q : Qc)
  | PInf
  | NInf
  | NaN.

#[export] Instance xnum_eq_dec : EqDecision xnum.
Proof. solve_decision. Defined.

Definition xsign (x : xnum) : Z :=
  match x with
  | Num q => Z.sgn (Qnum (this q))
  | PInf => 1
  | NInf => -1
  | NaN => 0
  end.

Definition xneg (x : xnum) : xnum :=
  match x with Num q => Num (- q)%Qc | PInf => NInf | NInf => PInf | NaN => NaN end.

Definition xadd (x y : xnum) : xnum :=
  match x, y with
  | NaN, _ | _, NaN => NaN
  | Num a, Num b => Num (a + b)%Qc
  | PInf, NInf | NInf, PInf => NaN
  | PInf, _ | _, PInf => PInf
  | NInf, _ | _, NInf => NInf
  end.

Definition xinf (s : Z) : xnum :=
  match s with Z0 => NaN | Zpos _ => PInf | Zneg _ => NInf end.

Definition xmul (x y : xnum) : xnum :=
  match x, y with
  | NaN, _ | _, NaN => NaN
  | Num a, Num b => Num (a * b)%Qc
  | _, _ => xinf (xsign x * xsign y)
  end.

Definition xquot (x y : xnum) : xnum :=
  match x, y with
  | NaN, _ | _, NaN => NaN
  | Num a, Num b => if (Qnum (this b) =? 0)%Z then xinf (xsign x) else Num (a / b)%Qc
  | Num _, _ => Num 0%Qc
  | _, Num b => xinf (xsign x * (if Qle_bool 0 b then 1 else -1))
  | _, _ => NaN
  end.

Definition xabs (x : xnum) : xnum :=
  match x with
  | Num a => Num (if Qle_bool 0 a then a else - a)%Qc
  | NaN => NaN
  | _ => PInf
  end.

Definition xleb (x y : xnum) : bool :=
  match x, y with
  | NaN, _ | _, NaN => false
  | NInf, _ | _, PInf => true
  | Num a, Num b => Qle_bool a b
  | _, _ => false
  end.

Definition xltb (x y : xnum) : bool :=
  match x, y with
  | NaN, _ | _, NaN => false
  | _, _ => negb (xleb y x)
  end.

Definition xtrunc (x : xnum) : res Z :=
  match x with
  | Num q => Ok (Z.quot (Qnum (this q)) (Zpos (Qden (this q))))
  | PInf | NInf => Err OverflowError
  | NaN => Err ValueError
  end.

#[export] Instance xnum_float : PyFloat xnum := {
  fadd := xadd;
  fsub x y := xadd x (xneg y);
  fmul := xmul;
  fquot := xquot;
  fabs := xabs;
  fltb := xltb;
  fleb := xleb;
  feqb x y := xleb x y && xleb y x;
  of_Z z := Num (Q2Qc (inject_Z z));
  lit n d := Num (Q2Qc (n # d));
  finf := PInf;
  fninf := NInf;
  trunc := xtrunc;
  fmean l := xquot (foldl xadd (Num 0%Qc) l) (Num (Q2Qc (inject_Z (Z.of_nat (length l)))));
  fratio x := match x with Num q => Some (Qnum (this q), Qden (this q)) | _ => None end;
}.

#[export] Instance xnum_laws : PyFloatLaws xnum.
Proof.
  refine (Build_PyFloatLaws xnum xnum_float (λ x, x ≠ NaN) _ _ _ _ _ _ _ _); simpl.
  - intros [q| | |]; simpl; try done. apply negb_false_iff, Qle_bool_iff. lra.
  - intros [a| | |] [b| | |] [c| | |]; simpl; try done.
    rewrite !negb_true_iff, <- !not_true_iff_false, !Qle_bool_iff. lra.
  - intros [a| | |] [b| | |] [c| | |]; simpl; try done.
    rewrite !negb_false_iff, !Qle_bool_iff. lra.
  - intros [a| | |] [b| | |]; simpl; done.
  - intros [a| | |] [b| | |]; simpl; try done. by rewrite negb_involutive.
  - intros [a| | |] [b| | |]; simpl; done.
  - done.
  - done.
Defined.
