(* ===== verification/PyStr.v ===== *)
(** * Python strings

    A Python [str] is modelled by its characters in UTF-8: a list of bytes.
    Searching, splitting and comparing are the same on both.  The character
    classes (digits, white space, letters) are those of ASCII: characters
    beyond it are never digits or white space here.

    Holds the string methods the log analysis uses, [str(int)], [int(str)]
    and [float(str)], with their round trips. *)

From S2P Require Import Prelude PyFloat.
From stdpp Require Export strings.
From stdpp Require Import pretty.
From Stdlib Require Import Ascii.

Abbreviation text := (list ascii).

(** A string literal. *)
Fixpoint str (s : string) : text :=
  match s with EmptyString => [] | String c s' => c :: str s' end.

Lemma str_app s t : str (s +:+ t) = str s ++ str t.
Proof. induction s as [|c s IH]; [done|]. by cbn; rewrite <- IH. Qed.

(** ** Character classes *)

Definition code (c : ascii) : Z := Z.of_N (N_of_ascii c).

Definition is_digit (c : ascii) : bool := (48 <=? code c)%Z && (code c <=? 57)%Z.

Definition digit_val (c : ascii) : Z := code c - 48.

(** [str.isspace] of a character *)
Definition is_space (c : ascii) : bool :=
  (9 <=? code c)%Z && (code c <=? 13)%Z || (28 <=? code c)%Z && (code c <=? 32)%Z.

Definition is_upper (c : ascii) : bool := (65 <=? code c)%Z && (code c <=? 90)%Z.
Definition is_lower (c : ascii) : bool := (97 <=? code c)%Z && (code c <=? 122)%Z.
Definition is_alpha (c : ascii) : bool := is_upper c || is_lower c.

Definition to_lower (c : ascii) : ascii :=
  if is_upper c then ascii_of_N (N_of_ascii c + 32) else c.

(** ** Bytes *)

(** UTF-8 without overlong forms, surrogates and code points above U+10FFFF:
    [k] bytes of a character are still to come, the next one from [lo] to
    [hi]. *)
Fixpoint utf8_valid (k : nat) (lo hi : Z) (s : text) : bool :=
  match s with
  | [] => (k =? 0)%nat
  | c :: s' =>
      let b := code c in
      match k with
      | S k => (lo <=? b)%Z && (b <=? hi)%Z && utf8_valid k 128 191 s'
      | O =>
          if (b <? 128)%Z then utf8_valid 0 128 191 s'
          else if (b <? 194)%Z then false
          else if (b <? 224)%Z then utf8_valid 1 128 191 s'
          else if (b <? 240)%Z then
            utf8_valid 2 (if (b =? 224)%Z then 160 else 128) (if (b =? 237)%Z then 159 else 191) s'
          else if (b <? 245)%Z then
            utf8_valid 3 (if (b =? 240)%Z then 144 else 128) (if (b =? 244)%Z then 143 else 191) s'
          else false
      end
  end.

(** [bytes.decode('utf-8')]; [UnicodeDecodeError] is a [ValueError]. *)
Definition decode_utf8 (s : text) : res text :=
  if utf8_valid 0 128 191 s then Ok s else Err ValueError.

(** ** Prefixes and substrings *)

(** The rest of [s] after the prefix [p]. *)
Fixpoint cut (p s : text) : option text :=
  match p, s with
  | [], _ => Some s
  | c :: p', d :: s' => if decide (c = d) then cut p' s' else None
  | _, [] => None
  end.

(** [s.startswith(p)] *)
Definition starts_with (p s : text) : bool :=
  match cut p s with Some _ => true | None => false end.

(** [s.endswith(p)] *)
Definition ends_with (p s : text) : bool := starts_with (reverse p) (reverse s).

(** [p in s] *)
Fixpoint contains (p s : text) : bool :=
  starts_with p s || match s with [] => false | _ :: s' => contains p s' end.

(** [s.count(c)] of a single character *)
Definition count (c : ascii) (s : text) : nat := length (filter (c =.) s).

(** [s.split(sep)]: [skip] characters of a separator are still to be passed
    over, [cur] is the field read so far, reversed. *)
Fixpoint split_go (sep : text) (skip : nat) (cur s : text) : list text :=
  match s with
  | [] => [reverse cur]
  | c :: s' =>
      match skip with
      | S k => split_go sep k cur s'
      | O =>
          if starts_with sep s then reverse cur :: split_go sep (pred (length sep)) [] s'
          else split_go sep 0 (c :: cur) s'
      end
  end.

Definition split (sep s : text) : list text := split_go sep 0 [] s.

(** [s.split()] on white space *)
Fixpoint words_go (cur s : text) : list text :=
  match s with
  | [] => match cur with [] => [] | _ => [reverse cur] end
  | c :: s' =>
      if is_space c then match cur with [] => words_go [] s' | _ => reverse cur :: words_go [] s' end
      else words_go (c :: cur) s'
  end.

Definition words (s : text) : list text := words_go [] s.

(** [s.lstrip], [s.rstrip] and [s.strip] of the characters in [p] *)
Fixpoint lstrip (p : ascii → bool) (s : text) : text :=
  match s with
  | [] => []
  | c :: s' => if p c then lstrip p s' else s
  end.

Definition rstrip (p : ascii → bool) (s : text) : text := reverse (lstrip p (reverse s)).

Definition strip (s : text) : text := rstrip is_space (lstrip is_space s).

(** [l[i]] and [l[-i]] of a list *)
Definition index {A} (l : list A) (i : nat) : res A := or_raise IndexError (l !! i).
Definition index_back {A} (l : list A) (i : nat) : res A :=
  if bool_decide (1 ≤ i ≤ length l) then index l (length l - i) else Err IndexError.

(** [s[1:-1]] *)
Definition inner (s : text) : text := take (length s - 2) (drop 1 s).

(** [s.readlines()]: the lines of a text, each with its line feed. *)
Fixpoint readlines_go (cur s : text) : list text :=
  match s with
  | [] => match cur with [] => [] | _ => [reverse cur] end
  | c :: s' =>
      if decide (c = "010"%char) then reverse (c :: cur) :: readlines_go [] s'
      else readlines_go (c :: cur) s'
  end.

Definition readlines (s : text) : list text := readlines_go [] s.

(** ** Numbers *)

(** [str(z)] *)
Definition show (z : Z) : text := str (pretty z).

(** The digits after the first, with single underscores between digits. *)
Fixpoint int_digits (acc : Z) (s : text) : option Z :=
  match s with
  | [] => Some acc
  | c :: s' =>
      if is_digit c then int_digits (10 * acc + digit_val c) s'
      else match s' with
           | d :: s'' =>
               if decide (c = "_"%char) then
                 if is_digit d then int_digits (10 * acc + digit_val d) s'' else None
               else None
           | [] => None
           end
  end.

Definition int_start (s : text) : option Z :=
  match s with
  | c :: s' => if is_digit c then int_digits (digit_val c) s' else None
  | [] => None
  end.

(** [int(s)] of a string *)
Definition py_int (s : text) : res Z :=
  or_raise ValueError
    match strip s with
    | c :: s' =>
        if decide (c = "-"%char) then Z.opp <$> int_start s'
        else if decide (c = "+"%char) then int_start s'
        else int_start (c :: s')
    | [] => None
    end.

(** A run of digits (with single underscores between them): its value, the
    number of digits, and what follows. *)
Fixpoint digit_run (val : Z) (n : nat) (s : text) : Z * nat * text :=
  match s with
  | c :: s' =>
      if is_digit c then digit_run (10 * val + digit_val c) (S n) s'
      else match s' with
           | d :: s'' =>
               if decide (c = "_"%char) then
                 if bool_decide (n ≠ 0) && is_digit d
                 then digit_run (10 * val + digit_val d) (S n) s''
                 else (val, n, s)
               else (val, n, s)
           | [] => (val, n, s)
           end
  | [] => (val, n, s)
  end.

(** The exponent of a float literal, which ends the literal. *)
Definition exponent (s : text) : option Z :=
  match s with
  | [] => Some 0%Z
  | c :: s' =>
      if bool_decide (c = "e"%char) || bool_decide (c = "E"%char) then
        match s' with
        | d :: s'' =>
            if decide (d = "-"%char) then
              match digit_run 0 0 s'' with (v, S _, []) => Some (- v)%Z | _ => None end
            else if decide (d = "+"%char) then
              match digit_run 0 0 s'' with (v, S _, []) => Some v | _ => None end
            else match digit_run 0 0 s' with (v, S _, []) => Some v | _ => None end
        | [] => None
        end
      else None
  end.

(** An unsigned decimal literal as mantissa and decimal exponent. *)
Definition decimal (s : text) : option (Z * Z) :=
  let '(v, n, s') := digit_run 0 0 s in
  let '(v, n, k, s'') :=
    match s' with
    | c :: r =>
        if decide (c = "."%char) then
          let '(w, j, s'') := digit_run 0 0 r in ((v * 10 ^ Z.of_nat j + w)%Z, n + j, j, s'')
        else (v, n, 0, s')
    | [] => (v, n, 0, s')
    end in
  match n with
  | O => None
  | S _ => e ← exponent s''; Some (v, (e - Z.of_nat k)%Z)
  end.

Section float.
Context {F : Type} `{PyFloat F}.

(** The float nearest to [m * 10 ^ e]. *)
Definition of_decimal (m e : Z) : F :=
  if (0 <=? e)%Z then lit (m * 10 ^ e) 1 else lit m (Z.to_pos (10 ^ (- e))).

Definition unsigned_float (s : text) : option F :=
  let l := to_lower <$> s in
  if bool_decide (l = str "inf") || bool_decide (l = str "infinity") then Some finf
  else if bool_decide (l = str "nan") then Some (fsub finf finf)
  else '(m, e) ← decimal s; Some (of_decimal m e).

(** [float(s)] of a string *)
Definition py_float (s : text) : res F :=
  or_raise ValueError
    match strip s with
    | c :: s' =>
        if decide (c = "-"%char) then fmul (of_Z (-1)) <$> unsigned_float s'
        else if decide (c = "+"%char) then unsigned_float s'
        else unsigned_float (c :: s')
    | [] => None
    end.
End float.

(** ** Cutting and splitting *)

Lemma cut_Some p s r : cut p s = Some r ↔ s = p ++ r.
Proof.
  revert s. induction p as [|c p IH]; intros s; simpl; [naive_solver|].
  destruct s as [|d s]; [naive_solver|]. case_decide as Hc; [|naive_solver].
  rewrite IH. naive_solver.
Qed.

Lemma cut_app p r : cut p (p ++ r) = Some r.
Proof. by apply cut_Some. Qed.

Lemma starts_with_true p s : starts_with p s = true ↔ ∃ r, s = p ++ r.
Proof.
  unfold starts_with. split.
  - destruct (cut p s) as [r|] eqn:E; [|done]. intros _. exists r. by apply cut_Some.
  - intros [r ->]. by rewrite cut_app.
Qed.

(** A text that has another character where the prefix has [c]. *)
Lemma starts_with_false p s k c :
  p !! k = Some c → s !! k ≠ Some c → starts_with p s = false.
Proof.
  intros Hp Hs. apply not_true_iff_false. rewrite starts_with_true. intros [r ->].
  apply Hs. by apply lookup_app_l_Some.
Qed.

Lemma contains_true p s : contains p s = true ↔ ∃ a r, s = a ++ p ++ r.
Proof.
  induction s as [|c s IH].
  - simpl. rewrite orb_false_r, starts_with_true. split; [intros [r ->]; by exists [], r|].
    intros (a & r & E). symmetry in E. apply app_eq_nil in E as [-> E]. by exists r.
  - cbn [contains]. rewrite orb_true_iff, starts_with_true, IH. split.
    + intros [[r ->]|(a & r & ->)]; [by exists [], r|]. by exists (c :: a), r.
    + intros ([|d a] & r & E); simplify_eq/=; eauto.
Qed.

Lemma contains_app_r p a s : contains p s = true → contains p (a ++ s) = true.
Proof.
  rewrite !contains_true. intros (b & r & ->). exists (a ++ b), r. by rewrite <- app_assoc.
Qed.

(** A substring has all its characters in the text. *)
Lemma contains_elem p s c : c ∈ p → c ∉ s → contains p s = false.
Proof.
  intros Hp Hs. apply not_true_iff_false. rewrite contains_true.
  intros (a & r & ->). set_solver.
Qed.

Lemma split_go_skip sep n cur (a b : text) :
  length a = n → split_go sep n cur (a ++ b) = split_go sep 0 cur b.
Proof.
  revert n. induction a as [|d a IH]; intros n <-; [done|]. simpl. by apply IH.
Qed.

(** The first separator: a character [c] of the separator that occurs neither
    in the field before it nor earlier in the separator fixes its place. *)
Section first_separator.
Context (sep : text) (k : nat) (c : ascii) (Hk : sep !! k = Some c).

Lemma no_separator_before (a b : text) :
  a ≠ [] → c ∉ a → c ∉ take k sep → starts_with sep (a ++ sep ++ b) = false.
Proof using Hk.
  intros Ha Hca Hct. eapply starts_with_false; [exact Hk|]. intros Hl.
  apply lookup_app_Some in Hl as [Hl|[Hle Hl]].
  { apply Hca. by eapply list_elem_of_lookup_2. }
  assert (0 < length a) by (destruct a; simpl; [done|lia]).
  pose proof (lookup_lt_Some _ _ _ Hk).
  rewrite lookup_app_l in Hl by lia. apply Hct.
  eapply list_elem_of_lookup_2. rewrite lookup_take_lt; [exact Hl|lia].
Qed.

Lemma split_go_first cur (a b : text) :
  c ∉ a → c ∉ take k sep →
  split_go sep 0 cur (a ++ sep ++ b) = (reverse cur ++ a) :: split sep b.
Proof using Hk.
  intros Ha Ht. revert cur. induction a as [|d a IH]; intros cur.
  - destruct sep as [|e sep'] eqn:Es; [done|]. cbn [app split_go].
    rewrite (proj2 (starts_with_true _ _)) by by exists b. rewrite app_nil_r. f_equal.
    rewrite split_go_skip by done. done.
  - cbn [app split_go]. change (d :: a ++ sep ++ b) with ((d :: a) ++ sep ++ b).
    rewrite no_separator_before by done. rewrite IH by set_solver.
    by rewrite reverse_cons, <- app_assoc.
Qed.

Lemma split_first (a b : text) :
  c ∉ a → c ∉ take k sep → split sep (a ++ sep ++ b) = a :: split sep b.
Proof using Hk. intros. unfold split. by rewrite split_go_first. Qed.

(** No separator. *)
Lemma split_go_none cur (a : text) : c ∉ a → split_go sep 0 cur a = [reverse cur ++ a].
Proof using Hk.
  intros Ha. revert cur. induction a as [|d a IH]; intros cur; [by rewrite app_nil_r|].
  cbn [split_go]. rewrite (starts_with_false _ _ k c); [|done|].
  - rewrite IH by set_solver. by rewrite reverse_cons, <- app_assoc.
  - intros Hl. apply Ha. by eapply list_elem_of_lookup_2.
Qed.

Lemma split_none (a : text) : c ∉ a → split sep a = [a].
Proof using Hk. intros. unfold split. by rewrite split_go_none. Qed.
End first_separator.

(** ** Numbers and their texts *)

Lemma digit_char_val (x : N) :
  (x < 10)%N → is_digit (pretty_N_char x) = true ∧ digit_val (pretty_N_char x) = Z.of_N x.
Proof.
  intros Hx. assert (x = 0 ∨ x = 1 ∨ x = 2 ∨ x = 3 ∨ x = 4 ∨ x = 5 ∨ x = 6 ∨ x = 7 ∨ x = 8 ∨ x = 9)%N
    as Hc by lia. naive_solver.
Qed.

Definition all_digits (s : text) : Prop := Forall (λ c, is_digit c = true) s.

(** The value of a text of digits, read from [acc] on. *)
Definition dec_val (acc : Z) (s : text) : Z := foldl (λ a c, 10 * a + digit_val c)%Z acc s.

Lemma pretty_N_go_digits (x : N) (s : string) :
  all_digits (str s) → all_digits (str (pretty_N_go x s)).
Proof.
  revert s. induction (N.lt_wf_0 x) as [x _ IH]; intros s Hs.
  destruct (decide (x = 0)%N) as [->|Hx]; [by rewrite pretty_N_go_0|].
  rewrite pretty_N_go_step by lia. apply IH; [apply N.div_lt; lia|].
  constructor; [|done]. apply digit_char_val, N.mod_lt. lia.
Qed.

Lemma pretty_N_go_val (x : N) (s : string) :
  dec_val 0 (str (pretty_N_go x s)) = dec_val (Z.of_N x) (str s).
Proof.
  revert s. induction (N.lt_wf_0 x) as [x _ IH]; intros s.
  destruct (decide (x = 0)%N) as [->|Hx]; [by rewrite pretty_N_go_0|].
  rewrite pretty_N_go_step by lia. rewrite IH by (apply N.div_lt; lia).
  unfold dec_val. cbn [str foldl]. f_equal.
  rewrite (proj2 (digit_char_val (x mod 10) ltac:(apply N.mod_lt; lia))).
  rewrite N2Z.inj_mod, N2Z.inj_div. pose proof (Z.div_mod (Z.of_N x) 10). lia.
Qed.

Lemma pretty_N_go_nonempty (x : N) (s : string) : x ≠ 0%N → str (pretty_N_go x s) ≠ [].
Proof.
  revert s. assert (H : ∀ y s, str s ≠ [] → str (pretty_N_go y s) ≠ []).
  { intros y. induction (N.lt_wf_0 y) as [y _ IH]; intros s Hs.
    destruct (decide (y = 0)%N) as [->|Hy]; [by rewrite pretty_N_go_0|].
    rewrite pretty_N_go_step by lia. apply IH; [apply N.div_lt; lia|done]. }
  intros s Hx. rewrite pretty_N_go_step by lia. by apply H.
Qed.

(** [str(z)] of a nonnegative integer is a non-empty run of digits with the
    value [z]. *)
Lemma show_nonneg z :
  (0 <= z)%Z → all_digits (show z) ∧ show z ≠ [] ∧ dec_val 0 (show z) = z.
Proof.
  intros Hz. destruct z as [|p|p]; [|clear Hz|lia].
  { unfold show. split; [repeat constructor|done]. }
  unfold show. change (pretty (Z.pos p)) with (pretty_N_go (Npos p) "").
  split; [by apply pretty_N_go_digits; constructor|].
  split; [by apply pretty_N_go_nonempty|]. by rewrite pretty_N_go_val.
Qed.

(** A positive number is written without a zero in front. *)
Lemma pretty_N_go_head (x : N) (s : string) :
  x ≠ 0%N → ∃ c t, str (pretty_N_go x s) = c :: t ∧ is_digit c = true ∧ c ≠ "0"%char.
Proof.
  revert s. induction (N.lt_wf_0 x) as [x _ IH]; intros s Hx. rewrite pretty_N_go_step by lia.
  destruct (decide (x / 10 = 0)%N) as [Hq|Hq]; [|apply IH; [apply N.div_lt; lia|done]].
  rewrite Hq, pretty_N_go_0. cbn [str]. eexists _, _. split; [done|].
  destruct (digit_char_val (x mod 10)) as [Hd Hv]; [apply N.mod_lt; lia|]. split; [done|].
  intros Hc. rewrite Hc in Hv. change (digit_val "0") with 0%Z in Hv.
  pose proof (N.div_mod x 10). lia.
Qed.

Lemma show_pos_head z : (0 < z)%Z → ∃ c t, show z = c :: t ∧ is_digit c = true ∧ c ≠ "0"%char.
Proof. destruct z as [|p|p]; [lia| |lia]. intros _. by apply pretty_N_go_head. Qed.

Lemma show_neg z : (z < 0)%Z → show z = "-"%char :: show (- z).
Proof. destruct z; [lia|lia|]. done. Qed.

(** The four digits of a year. *)
Lemma show_year (y : Z) :
  (1000 <= y <= 9999)%Z → ∃ a b c d, show y = [a; b; c; d].
Proof.
  intros Hy. destruct y as [|p|p]; [lia| |lia]. unfold show.
  change (pretty (Z.pos p)) with (pretty_N_go (N.pos p) "").
  assert (Hp : (1000 <= N.pos p <= 9999)%N) by lia. generalize dependent (N.pos p). intros n Hn.
  assert (H1 : (0 < n / 10)%N) by (apply N.div_str_pos; lia).
  assert (H2 : (0 < n / 10 / 10)%N) by (rewrite N.Div0.div_div; apply N.div_str_pos; lia).
  assert (H3 : (0 < n / 10 / 10 / 10)%N) by (rewrite !N.Div0.div_div; apply N.div_str_pos; lia).
  assert (H4 : (n / 10 / 10 / 10 / 10 = 0)%N) by (rewrite !N.Div0.div_div; apply N.div_small; lia).
  rewrite (pretty_N_go_step n), (pretty_N_go_step (n / 10)), (pretty_N_go_step (n / 10 / 10)),
    (pretty_N_go_step (n / 10 / 10 / 10)), H4, pretty_N_go_0 by lia.
  cbn [str]. eauto.
Qed.

(** No character of [str(z)] but digits and the sign. *)
Lemma show_chars z c : c ∈ show z → is_digit c = true ∨ c = "-"%char.
Proof.
  destruct (decide (z < 0)%Z) as [Hz|Hz].
  - rewrite show_neg by done. intros [->|Hc]%elem_of_cons; [by right|].
    left. destruct (show_nonneg (- z)) as (Hd & _ & _); [lia|].
    by eapply Forall_forall in Hd.
  - intros Hc. left. destruct (show_nonneg z) as (Hd & _ & _); [lia|].
    by eapply Forall_forall in Hd.
Qed.

Lemma show_not_elem z c : is_digit c = false → c ≠ "-"%char → c ∉ show z.
Proof. intros Hd Hm Hc. destruct (show_chars z c Hc); congruence. Qed.

Lemma is_digit_not_space c : is_digit c = true → is_space c = false.
Proof. unfold is_digit, is_space. lia. Qed.

(** Texts with neither end blank are not changed by [strip]. *)
Lemma lstrip_id p c s : p c = false → lstrip p (c :: s) = c :: s.
Proof. simpl. by intros ->. Qed.

Lemma rstrip_id p s c : p c = false → rstrip p (s ++ [c]) = s ++ [c].
Proof.
  intros Hc. unfold rstrip. rewrite reverse_snoc, lstrip_id by done.
  by rewrite reverse_cons, reverse_involutive.
Qed.

Lemma rstrip_snoc p s c : p c = true → rstrip p (s ++ [c]) = rstrip p s.
Proof. intros Hc. unfold rstrip. rewrite reverse_snoc. simpl. by rewrite Hc. Qed.

Definition blank_free (s : text) : Prop := Forall (λ c, is_space c = false) s.

Lemma strip_blank_free s : blank_free s → strip s = s.
Proof.
  intros Hs. destruct s as [|c s]; [done|]. unfold strip.
  rewrite lstrip_id by by inversion Hs.
  destruct (exists_last (l := c :: s)) as (s' & d & E); [done|]. rewrite E in *.
  apply rstrip_id. apply Forall_app in Hs as [_ Hs]. by inversion Hs.
Qed.

Lemma show_blank_free z : blank_free (show z).
Proof.
  apply Forall_forall. intros c Hc.
  destruct (show_chars z c Hc) as [Hd| ->]; [by apply is_digit_not_space|done].
Qed.

Lemma int_digits_val acc s : all_digits s → int_digits acc s = Some (dec_val acc s).
Proof.
  intros Hs. revert acc. induction Hs as [|c s Hc Hs IH]; intros acc; [done|].
  simpl. by rewrite Hc, IH.
Qed.

Lemma int_start_val s : all_digits s → s ≠ [] → int_start s = Some (dec_val 0 s).
Proof.
  intros Hs Hne. destruct Hs as [|c s Hc Hs]; [done|]. cbn [int_start].
  rewrite Hc, int_digits_val by done. done.
Qed.

Lemma py_int_digits s : all_digits s → s ≠ [] → py_int s = Ok (dec_val 0 s).
Proof.
  intros Hs Hne. unfold py_int. rewrite strip_blank_free.
  2: { eapply Forall_impl; [exact Hs|]. intros c. apply is_digit_not_space. }
  destruct s as [|c s]; [done|].
  assert (Hc : is_digit c = true) by by inversion Hs.
  rewrite !decide_False by (intros ->; done). by rewrite int_start_val.
Qed.

(** [int(str(z)) = z] *)
Lemma py_int_show z : py_int (show z) = Ok z.
Proof.
  destruct (decide (z < 0)%Z) as [Hz|Hz].
  - unfold py_int. rewrite strip_blank_free by apply show_blank_free.
    rewrite show_neg by done. rewrite decide_True by done.
    destruct (show_nonneg (- z)) as (Hd & Hne & Hv); [lia|].
    rewrite int_start_val, Hv by done. simpl. by rewrite Z.opp_involutive.
  - destruct (show_nonneg z) as (Hd & Hne & Hv); [lia|].
    by rewrite py_int_digits, Hv.
Qed.

(** ** Decimal fractions *)

Lemma dec_val_app acc a b : dec_val acc (a ++ b) = dec_val (dec_val acc a) b.
Proof. unfold dec_val. apply foldl_app. Qed.

Lemma dec_val_scale acc b :
  dec_val acc b = (acc * 10 ^ Z.of_nat (length b) + dec_val 0 b)%Z.
Proof.
  revert acc. induction b as [|c b IH]; intros acc; cbn [length]; [cbn; lia|].
  unfold dec_val in *. cbn [foldl]. rewrite IH, (IH (10 * 0 + digit_val c)%Z).
  rewrite Nat2Z.inj_succ, Z.pow_succ_r by lia. lia.
Qed.

Definition no_digit (s : text) : Prop := match s with c :: _ => is_digit c = false ∧ c ≠ "_"%char | [] => True end.

Lemma digit_run_digits val n a s :
  all_digits a → no_digit s → digit_run val n (a ++ s) = (dec_val val a, n + length a, s).
Proof.
  intros Ha Hs. revert val n. induction Ha as [|c a Hc Ha IH]; intros val n; cbn [app length].
  - rewrite Nat.add_0_r. destruct s as [|d s]; [done|]. destruct Hs as [Hd Hu]. cbn [digit_run].
    rewrite Hd. destruct s; [done|]. by rewrite decide_False.
  - cbn [digit_run]. rewrite Hc, IH. by rewrite Nat.add_succ_r.
Qed.

Lemma decimal_fraction a b :
  all_digits a → a ≠ [] → all_digits b →
  decimal (a ++ "."%char :: b) = Some (dec_val 0 (a ++ b), (- Z.of_nat (length b))%Z).
Proof.
  intros Ha Hne Hb. unfold decimal. rewrite digit_run_digits by done. simpl.
  rewrite <- (app_nil_r b) at 1. rewrite digit_run_digits by done.
  rewrite dec_val_app, (dec_val_scale (dec_val 0 a) b). by destruct a.
Qed.

Lemma all_digits_blank_free s : all_digits s → blank_free s.
Proof. intros Hs. eapply Forall_impl; [exact Hs|]. intros c. apply is_digit_not_space. Qed.

Lemma to_lower_digit c : is_digit c = true → to_lower c = c.
Proof. unfold to_lower, is_upper, is_digit. intros. replace (_ && _) with false by lia. done. Qed.

Lemma py_float_fraction {F} `{PyFloat F} a b :
  all_digits a → a ≠ [] → all_digits b →
  py_float (a ++ "."%char :: b) = Ok (of_decimal (dec_val 0 (a ++ b)) (- Z.of_nat (length b))).
Proof.
  intros Ha Hne Hb. unfold py_float. rewrite strip_blank_free.
  2: { apply Forall_app. split; [by apply all_digits_blank_free|].
       constructor; [done|by apply all_digits_blank_free]. }
  destruct Ha as [|c a Hc Ha]; [done|]. cbn [app].
  rewrite !decide_False by (intros ->; done). unfold unsigned_float.
  rewrite app_comm_cons, fmap_app. cbn [fmap list_fmap]. rewrite to_lower_digit by done.
  rewrite !bool_decide_false by (intros [= ->]; done). cbn [orb].
  rewrite decimal_fraction by (try done; by constructor). done.
Qed.
