(* ===== verification/Rust.v ===== *)
(** * The Rust of the enforcers

    The enforcers (global-enforcer, local-enforcer, lib) are built with
    [--release], so [u64] arithmetic wraps around; dividing by zero and
    [unwrap] on nothing panic.  A [HashMap] is a finite map; its iteration
    order differs from map to map, so every loop over one takes it from a
    [HashOrder], of which nothing is known but that it lists the map; maps with
    the same entries are listed alike during one operation. *)

From S2P Require Import Prelude PyDict PyFloat PyStr.
From stdpp Require Export gmap.
From Stdlib Require Import Ascii.

(** ** Integers *)

Definition is_u64 (z : Z) : Prop := (0 <= z < 2 ^ 64)%Z.

#[export] Instance is_u64_dec z : Decision (is_u64 z).
Proof. unfold is_u64. apply _. Defined.

(** The result of [+], [-] and [*]. *)
Definition wrap (z : Z) : Z := z `mod` 2 ^ 64.

(** [a / b] *)
Definition udiv (a b : Z) : res Z := if (b =? 0)%Z then Err Panic else Ok (a / b)%Z.

(** [Option::unwrap] and [expect] *)
Definition unwrap {A} (o : option A) : res A := or_raise Panic o.

(** [assert!] *)
Definition assert (b : bool) : res () := if b then Ok () else Err Panic.

(** [iter().sum::<u64>()] *)
Definition usum (l : list Z) : Z := foldl (λ a x, wrap (a + x)) 0%Z l.

(** ** Texts *)

(** The whitespace below 128 of [char::is_whitespace] *)
Definition whitespace (c : ascii) : bool := ((9 <=? code c) && (code c <=? 13) || (code c =? 32))%Z.

Definition trim (s : text) : text := rstrip whitespace (lstrip whitespace s).

(** Cutting at the characters of a class, empty pieces included. *)
Fixpoint pieces (p : ascii → bool) (cur s : text) : list text :=
  match s with
  | [] => [reverse cur]
  | c :: s' => if p c then reverse cur :: pieces p [] s' else pieces p (c :: cur) s'
  end.

Definition split_whitespace (s : text) : list text := filter (λ t, t ≠ []) (pieces whitespace [] s).
Definition split_char (c : ascii) (s : text) : list text := pieces (λ d, bool_decide (c = d)) [] s.

(** [lines]: without the line ends; a last empty line does not count. *)
Definition line_of (t : text) : text :=
  if bool_decide (last t = Some "013"%char) then take (length t - 1) t else t.

Definition lines (s : text) : list text :=
  let l := split_char "010"%char s in
  line_of <$> (if bool_decide (last l = Some []) then take (length l - 1) l else l).

(** [str::parse::<u64>]: an optional [+], digits, and in range. *)
Definition parse_u64 (s : text) : option Z :=
  let ds := match s with c :: s' => if bool_decide (c = "+"%char) then s' else s | [] => [] end in
  match ds with
  | [] => None
  | _ => if forallb is_digit ds then
           let z := dec_val 0 ds in if bool_decide (is_u64 z) then Some z else None
         else None
  end.

(** ** Floats *)

Section floats.
Context {F : Type} `{PyFloat F}.

Definition is_nan (x : F) : bool := negb (feqb x x).

(** [f64::max], [f64::min]: NaN gives way to the other argument. *)
Definition rmax (x y : F) : F := if is_nan x then y else if fltb x y then y else x.
Definition rmin (x y : F) : F := if is_nan x then y else if fltb y x then y else x.

(** [f64::clamp]; NaN stays. *)
Definition clamp (lo hi x : F) : F := if fltb x lo then lo else if fltb hi x then hi else x.

(** [x as u64]: towards zero, saturating, and 0 for NaN. *)
Definition as_u64 (x : F) : Z :=
  match trunc x with
  | Ok z => Z.max 0 (Z.min (2 ^ 64 - 1) z)
  | Err _ => if fltb (of_Z 0) x then 2 ^ 64 - 1 else 0
  end%Z.
End floats.

(** ** Hash maps *)

Class HashOrder := {
  entries : ∀ {V}, gmap Z V → list (Z * V);
  entries_perm : ∀ {V} (m : gmap Z V), entries m ≡ₚ map_to_list m;
}.

Definition keys `{HashOrder} {V} (m : gmap Z V) : list Z := (entries m).*1.

(** The order of the model's maps, for evaluation. *)
Definition plain_order : HashOrder := {| entries V m := map_to_list m; entries_perm V m := Permutation_refl _ |}.

Section order.
Context `{O : HashOrder} {V : Type}.
Implicit Types m : gmap Z V.

Lemma elem_of_hash m k v : (k, v) ∈ entries m ↔ m !! k = Some v.
Proof. by rewrite entries_perm, elem_of_map_to_list. Qed.

Lemma keys_NoDup m : NoDup (keys m).
Proof. unfold keys. rewrite entries_perm. apply NoDup_fst_map_to_list. Qed.

Lemma elem_of_keys m k : k ∈ keys m ↔ is_Some (m !! k).
Proof.
  unfold keys. rewrite list_elem_of_fmap. split.
  - intros ([k' v] & -> & Hk). apply elem_of_hash in Hk. eauto.
  - intros [v Hv]. exists (k, v). by rewrite elem_of_hash.
Qed.

Lemma entries_collect m : list_to_map (entries m) = m.
Proof. rewrite (list_to_map_proper _ _ (keys_NoDup m) (entries_perm m)). apply list_to_map_to_list. Qed.
End order.

(** Two orders list the same keys. *)
Lemma keys_perm {O1 O2 : HashOrder} {V} (m : gmap Z V) : @keys O1 V m ≡ₚ @keys O2 V m.
Proof. unfold keys. by rewrite (@entries_perm O1), (@entries_perm O2). Qed.

(** ** Facts *)

Lemma wrap_small z : is_u64 z → wrap z = z.
Proof. apply Z.mod_small. Qed.

Lemma wrap_u64 z : is_u64 (wrap z).
Proof. by apply Z.mod_pos_bound. Qed.

Lemma as_u64_range {F} `{PyFloat F} (x : F) : is_u64 (as_u64 x).
Proof. unfold is_u64, as_u64. destruct (trunc x); [|destruct (fltb _ _)]; lia. Qed.

Lemma parse_u64_range s z : parse_u64 s = Some z → is_u64 z.
Proof.
  unfold parse_u64. set (ds := match s with [] => [] | _ => _ end). destruct ds as [|c ds']; [done|].
  destruct (forallb is_digit _); [|done]. case_bool_decide; [|done]. by intros [= <-].
Qed.

Lemma parse_u64_show z : is_u64 z → parse_u64 (show z) = Some z.
Proof.
  intros Hz. destruct (show_nonneg z (proj1 Hz)) as (Hd & Hne & Hv). unfold parse_u64.
  destruct (show z) as [|c s] eqn:E; [done|]. rewrite bool_decide_false.
  2: { intros ->. by apply Forall_inv in Hd. }
  assert (Hall : forallb is_digit (c :: s) = true).
  { apply forallb_forall. intros x Hx. apply list_elem_of_In in Hx. by eapply (proj1 (Forall_forall _ _)) in Hd. }
  rewrite Hall, Hv. by rewrite bool_decide_true.
Qed.

#[export] Hint Resolve wrap_u64 as_u64_range : spirit.
