(* ===== verification/Regex.v ===== *)
(** * Regular expressions: the part of Python's [re] the repository uses

    Characters by class, sequence, alternatives, greedy and lazy repetition of
    a class, and groups.  [matches r s] lists all ways to match [r] at the
    start of [s] in the order in which backtracking tries them, each with the
    rest of the text and the texts of the groups.  The match [re.match]
    reports is the first of the list; [re.search] takes the first position
    that has one.

    [reach] is the declarative reading of an expression; [matches_reach] says
    that the list misses none of its matches and invents none. *)

From S2P Require Import Prelude PyFloat PyStr.
From Stdlib Require Import Ascii.

Inductive re :=
  | Eps
  | Chr (p : ascii → bool)
  | Cat (r1 r2 : re)
  | Alt (r1 r2 : re)
  | Greedy (min : nat) (p : ascii → bool)     (* [..]* and [..]+ *)
  | Lazy (min : nat) (p : ascii → bool)       (* [..]*? *)
  | Group (r : re).

(** A match: the rest of the text and the groups, in order. *)
Abbreviation hit := (text * list text)%type.

(** The rests after at least [min] characters of the class, longest match
    first. *)
Fixpoint greedy (min : nat) (p : ascii → bool) (s : text) : list text :=
  let here := match min with O => [s] | S _ => [] end in
  match s with
  | c :: s' => if p c then greedy (pred min) p s' ++ here else here
  | [] => here
  end.

(** The same, shortest match first. *)
Fixpoint lazy (min : nat) (p : ascii → bool) (s : text) : list text :=
  let here := match min with O => [s] | S _ => [] end in
  match s with
  | c :: s' => if p c then here ++ lazy (pred min) p s' else here
  | [] => here
  end.

(** The part of [s] before its suffix [r]. *)
Definition consumed (s r : text) : text := take (length s - length r) s.

Fixpoint matches (r : re) (s : text) : list hit :=
  match r with
  | Eps => [(s, [])]
  | Chr p => match s with c :: s' => if p c then [(s', [])] else [] | [] => [] end
  | Cat r1 r2 => h1 ← matches r1 s; h2 ← matches r2 h1.1; [(h2.1, h1.2 ++ h2.2)]
  | Alt r1 r2 => matches r1 s ++ matches r2 s
  | Greedy n p => (λ t, (t, [])) <$> greedy n p s
  | Lazy n p => (λ t, (t, [])) <$> lazy n p s
  | Group r' => (λ h : hit, (h.1, consumed s h.1 :: h.2)) <$> matches r' s
  end.

(** [re.match(r, s)] *)
Definition re_match (r : re) (s : text) : option hit := head (matches r s).

(** [re.search(r, s)]: the groups of the first match from the left. *)
Fixpoint re_search (r : re) (s : text) : option (list text) :=
  match re_match r s with
  | Some h => Some h.2
  | None => match s with [] => None | _ :: s' => re_search r s' end
  end.

(** ** Notation for patterns *)

Definition is_chr (c : ascii) : ascii → bool := λ d, bool_decide (c = d).

Fixpoint lit_re (s : text) (r : re) : re :=
  match s with [] => r | c :: s' => Cat (Chr (is_chr c)) (lit_re s' r) end.

Declare Scope re_scope.
Delimit Scope re_scope with re.
Bind Scope re_scope with re.

(** A literal followed by the rest of the pattern. *)
Notation "s ~> r" := (lit_re (str s%string) r%re) (at level 60, right associativity) : re_scope.
(** A part followed by the rest of the pattern. *)
Notation "r1 @@ r2" := (Cat r1%re r2%re) (at level 60, right associativity) : re_scope.

Definition digits : re := Greedy 1 is_digit.                      (* \d+ *)
Definition is_decimal (c : ascii) : bool := is_digit c || is_chr "."%char c.
Definition decimals : re := Greedy 1 is_decimal.                  (* [\d.]+ *)
Definition not_newline (c : ascii) : bool := negb (is_chr "010"%char c).
Definition anything : re := Lazy 0 not_newline.                   (* .*? *)
Definition letters : re := Greedy 1 is_alpha.                     (* [A-Za-z]+ *)

(** ** What an expression matches *)

(** [reach r s h]: [r] can match a start of [s] so that [h] is the rest and
    the groups. *)
Inductive reach : re → text → hit → Prop :=
  | reach_eps s : reach Eps s (s, [])
  | reach_chr p c s : p c = true → reach (Chr p) (c :: s) (s, [])
  | reach_cat r1 r2 s s1 g1 s2 g2 :
      reach r1 s (s1, g1) → reach r2 s1 (s2, g2) → reach (Cat r1 r2) s (s2, g1 ++ g2)
  | reach_alt_l r1 r2 s h : reach r1 s h → reach (Alt r1 r2) s h
  | reach_alt_r r1 r2 s h : reach r2 s h → reach (Alt r1 r2) s h
  | reach_greedy n p a s :
      n ≤ length a → Forall (λ c, p c = true) a → reach (Greedy n p) (a ++ s) (s, [])
  | reach_lazy n p a s :
      n ≤ length a → Forall (λ c, p c = true) a → reach (Lazy n p) (a ++ s) (s, [])
  | reach_group r a s g : reach r (a ++ s) (s, g) → reach (Group r) (a ++ s) (s, a :: g).

Lemma elem_of_greedy n p s t :
  t ∈ greedy n p s ↔ ∃ a, s = a ++ t ∧ n ≤ length a ∧ Forall (λ c, p c = true) a.
Proof.
  revert n. induction s as [|c s IH]; intros n; simpl.
  - destruct n; [rewrite list_elem_of_singleton | rewrite elem_of_nil]; split.
    + intros ->. exists []. repeat split; [lia|constructor].
    + intros (a & E & _). symmetry in E. by apply app_eq_nil in E as [_ ->].
    + done.
    + intros (a & E & Hl & _). symmetry in E. apply app_eq_nil in E as [-> _]. simpl in Hl. lia.
  - assert (Hhere : t ∈ (match n with O => [c :: s] | S _ => [] end) ↔ n = 0 ∧ t = c :: s).
    { destruct n; [rewrite list_elem_of_singleton|rewrite elem_of_nil]; naive_solver. }
    assert (Hdec : (∃ a, c :: s = a ++ t ∧ n ≤ length a ∧ Forall (λ c, p c = true) a) ↔
      n = 0 ∧ t = c :: s ∨
      p c = true ∧ ∃ a, s = a ++ t ∧ pred n ≤ length a ∧ Forall (λ c, p c = true) a).
    { split.
      - intros ([|d a] & E & Hl & Ha); simplify_eq/=; [left; split; [lia|done]|].
        apply Forall_cons in Ha as [Hd Ha]. right. split; [done|]. exists a. split; [done|].
        split; [lia|done].
      - intros [[-> ->]|(Hc & a & -> & Hl & Ha)].
        + exists []. repeat split; [lia|constructor].
        + exists (c :: a). repeat split; [simpl; lia|by constructor]. }
    rewrite Hdec. destruct (p c); [rewrite elem_of_app, IH|]; rewrite Hhere; clear; [tauto|].
    split; [by left|]. by intros [?|[? _]].
Qed.

Lemma elem_of_lazy n p s t : t ∈ lazy n p s ↔ t ∈ greedy n p s.
Proof.
  revert n. induction s as [|c s IH]; intros n; simpl; [done|].
  destruct (p c); [|done]. rewrite !elem_of_app, IH. tauto.
Qed.

Lemma matches_suffix r s h : h ∈ matches r s → ∃ a, s = a ++ h.1.
Proof.
  revert s h. induction r as [|p|r1 IH1 r2 IH2|r1 IH1 r2 IH2|n p|n p|r IH]; intros s h; simpl.
  - intros ->%list_elem_of_singleton. by exists [].
  - destruct s as [|c s]; [by intros ?%elem_of_nil|]. destruct (p c); [|by intros ?%elem_of_nil].
    intros ->%list_elem_of_singleton. by exists [c].
  - intros (h1 & Hh & H1)%list_elem_of_bind. apply list_elem_of_bind in Hh as (h2 & Hh & H2).
    apply list_elem_of_singleton in Hh as ->. simpl.
    destruct (IH1 _ _ H1) as [a ->], (IH2 _ _ H2) as [b E]. exists (a ++ b).
    by rewrite <- app_assoc, <- E.
  - intros [H1|H2]%elem_of_app; eauto.
  - intros (t & -> & (a & -> & _)%elem_of_greedy)%list_elem_of_fmap. by exists a.
  - intros (t & -> & Ht)%list_elem_of_fmap.
    apply elem_of_lazy, elem_of_greedy in Ht as (a & -> & _). by exists a.
  - intros (h' & -> & Hh)%list_elem_of_fmap. exact (IH s h' Hh).
Qed.

Lemma consumed_app a s : consumed (a ++ s) s = a.
Proof. unfold consumed. rewrite length_app, Nat.add_sub. apply take_app_length. Qed.

(** The executable matcher finds exactly the matches of [reach]. *)
Lemma matches_reach r s h : h ∈ matches r s ↔ reach r s h.
Proof.
  split.
  - revert s h. induction r as [|p|r1 IH1 r2 IH2|r1 IH1 r2 IH2|n p|n p|r IH]; intros s h Hh;
      pose proof (matches_suffix _ _ _ Hh) as [a Ha]; simpl in Hh.
    + apply list_elem_of_singleton in Hh as ->. constructor.
    + destruct s as [|c s]; [by apply elem_of_nil in Hh|].
      destruct (p c) eqn:Hc; [|by apply elem_of_nil in Hh].
      apply list_elem_of_singleton in Hh as ->. by constructor.
    + apply list_elem_of_bind in Hh as ([s1 g1] & Hh & H1).
      apply list_elem_of_bind in Hh as ([s2 g2] & Hh & H2).
      apply list_elem_of_singleton in Hh as ->. econstructor; eauto.
    + apply elem_of_app in Hh as [Hh|Hh]; [apply reach_alt_l|apply reach_alt_r]; auto.
    + apply list_elem_of_fmap in Hh as (t & -> & (b & -> & ? & ?)%elem_of_greedy).
      by constructor.
    + apply list_elem_of_fmap in Hh as (t & -> & Ht).
      apply elem_of_lazy, elem_of_greedy in Ht as (b & -> & ? & ?). by constructor.
    + apply list_elem_of_fmap in Hh as ([s' g] & -> & Hh). simpl in *. subst s.
      rewrite consumed_app. constructor. by apply IH.
  - induction 1 as [s|p c s Hc|r1 r2 s s1 g1 s2 g2 _ IH1 _ IH2|r1 r2 s h _ IH|r1 r2 s h _ IH
      |n p a s Hl Ha|n p a s Hl Ha|r a s g _ IH]; simpl.
    + by apply list_elem_of_singleton.
    + rewrite Hc. by apply list_elem_of_singleton.
    + apply list_elem_of_bind. exists (s1, g1). split; [|done].
      apply list_elem_of_bind. exists (s2, g2). split; [|done]. by apply list_elem_of_singleton.
    + apply elem_of_app. by left.
    + apply elem_of_app. by right.
    + apply list_elem_of_fmap. exists s. split; [done|]. apply elem_of_greedy. eauto.
    + apply list_elem_of_fmap. exists s. split; [done|].
      apply elem_of_lazy, elem_of_greedy. eauto.
    + apply list_elem_of_fmap. exists (s, g). simpl. by rewrite consumed_app.
Qed.

(** Whether a search succeeds does not depend on the order of backtracking. *)
Lemma re_search_None r s :
  re_search r s = None ↔ ∀ a b h, s = a ++ b → ¬ reach r b h.
Proof.
  induction s as [|c s IH]; cbn [re_search]; unfold re_match.
  - destruct (matches r []) as [|h l] eqn:E; simpl; split.
    + intros _ a b h Hab Hr. symmetry in Hab. apply app_eq_nil in Hab as [-> ->].
      apply matches_reach in Hr. rewrite E in Hr. by apply elem_of_nil in Hr.
    + done.
    + done.
    + intros Hn. exfalso. apply (Hn [] [] h eq_refl), matches_reach. rewrite E. left.
  - destruct (matches r (c :: s)) as [|h l] eqn:E; simpl; [rewrite IH|]; split.
    + intros Hn [|d a] b h Hab Hr; simplify_eq/=; [|by eapply Hn].
      apply matches_reach in Hr. rewrite E in Hr. by apply elem_of_nil in Hr.
    + intros Hn a b h -> Hr. by apply (Hn (c :: a) b h).
    + done.
    + intros Hn. exfalso. apply (Hn [] (c :: s) h eq_refl), matches_reach. rewrite E. left.
Qed.

Lemma re_search_Some r s g :
  re_search r s = Some g → ∃ a b t, s = a ++ b ∧ reach r b (t, g) ∧
    ∀ a' b' h, s = a' ++ b' → length a' < length a → ¬ reach r b' h.
Proof.
  revert g. induction s as [|c s IH]; intros g; cbn [re_search]; unfold re_match.
  - destruct (matches r []) as [|[t g'] l] eqn:E; simpl; [done|]. intros [= ->].
    exists [], [], t. split; [done|]. split; [|simpl; intros; lia].
    apply matches_reach. rewrite E. left.
  - destruct (matches r (c :: s)) as [|[t g'] l] eqn:E; simpl.
    + intros (a & b & t & -> & Hr & Hmin)%IH. exists (c :: a), b, t. split; [done|].
      split; [done|]. intros [|d a'] b' h Hs Hl Hr'; simplify_eq/=.
      * apply matches_reach in Hr'. rewrite E in Hr'. by apply elem_of_nil in Hr'.
      * eapply Hmin; [done| |done]. lia.
    + intros [= ->]. exists [], (c :: s), t. split; [done|]. split; [|simpl; intros; lia].
      apply matches_reach. rewrite E. left.
Qed.

(** ** Matching texts of a known shape *)

Lemma bind_one {A B} (x : A) (f : A → list B) : [x] ≫= f = f x.
Proof. apply app_nil_r. Qed.

(** Putting the groups [g] before those of every match. *)
Lemma bind_groups (g : list text) (hs : list hit) :
  (h ← hs; [(h.1, g ++ h.2)]) = (λ h : hit, (h.1, g ++ h.2)) <$> hs.
Proof. induction hs as [|h hs IH]; [done|]. by rewrite bind_cons, IH. Qed.

Lemma bind_no_groups (hs : list hit) : (h ← hs; [(h.1, [] ++ h.2)]) = hs.
Proof. rewrite bind_groups. induction hs as [|[t g] hs IH]; [done|]. cbn. by f_equal. Qed.

Lemma matches_lit_cut l r s :
  matches (lit_re l r) s = match cut l s with Some s' => matches r s' | None => [] end.
Proof.
  revert s. induction l as [|c l IH]; intros s; [done|]. destruct s as [|d s]; [done|].
  cbn [lit_re matches cut]. unfold is_chr.
  case_bool_decide as Hc; [rewrite decide_True by done|by rewrite decide_False].
  by rewrite bind_one, bind_no_groups, IH.
Qed.

Lemma matches_chr p r c s : p c = true → matches (Cat (Chr p) r) (c :: s) = matches r s.
Proof. intros Hc. cbn [matches]. rewrite Hc, bind_one. apply bind_no_groups. Qed.

Lemma matches_lit l r s : matches (lit_re l r) (l ++ s) = matches r s.
Proof. by rewrite matches_lit_cut, cut_app. Qed.

(** [r] matches nothing that starts with a character of the class. *)
Definition rejects (p : ascii → bool) (r : re) : Prop :=
  ∀ c s, p c = true → matches r (c :: s) = [].

Lemma rejects_lit p c l r : p c = false → rejects p (lit_re (c :: l) r).
Proof.
  intros Hc d s Hd. rewrite matches_lit_cut. simpl. rewrite decide_False; [done|congruence].
Qed.

(** [s] does not go on with a character of the class. *)
Definition stops (p : ascii → bool) (s : text) : Prop :=
  match s with c :: _ => p c = false | [] => True end.

Section runs.
Context (p : ascii → bool) (r : re) (Hr : rejects p r).

(** Backtracking into a run of the class finds nothing when the rest of the
    pattern rejects the class: only the whole run can be matched. *)
Lemma greedy_run n a s (f : text → list hit) :
  n ≤ length a → Forall (λ c, p c = true) a → stops p s →
  (∀ c t, p c = true → f (c :: t) = []) → greedy n p (a ++ s) ≫= f = f s.
Proof.
  intros Hn Ha Hs Hf. revert n Hn. induction Ha as [|c a Hc Ha IH]; intros n Hn; simpl in *.
  - destruct n; [|lia]. destruct s as [|d s]; simpl in *; [by rewrite app_nil_r|].
    rewrite Hs. simpl. by rewrite app_nil_r.
  - rewrite Hc, bind_app, IH by lia. destruct n; simpl; [|by rewrite app_nil_r].
    by rewrite Hf, app_nil_r.
Qed.

Lemma matches_run n a s :
  n ≤ length a → Forall (λ c, p c = true) a → stops p s →
  matches (Cat (Greedy n p) r) (a ++ s) = matches r s.
Proof using Hr.
  intros Hn Ha Hs. cbn [matches]. rewrite list_fmap_bind.
  rewrite (greedy_run n a s) by (try done; intros c t Hc; simpl; by rewrite Hr).
  apply bind_no_groups.
Qed.

(** The same for a group: it is the whole run. *)
Lemma matches_group n a s :
  n ≤ length a → Forall (λ c, p c = true) a → stops p s →
  matches (Cat (Group (Greedy n p)) r) (a ++ s) = (λ h : hit, (h.1, a :: h.2)) <$> matches r s.
Proof using Hr.
  intros Hn Ha Hs. cbn [matches]. rewrite <- list_fmap_compose, list_fmap_bind.
  rewrite (greedy_run n a s) by (try done; intros c t Hc; simpl; by rewrite Hr). simpl.
  rewrite consumed_app. apply (bind_groups [a]).
Qed.
End runs.

(** A search skips a position at which nothing matches. *)
Lemma re_search_skip r c s : matches r (c :: s) = [] → re_search r (c :: s) = re_search r s.
Proof. cbn [re_search]. unfold re_match. by intros ->. Qed.

Lemma re_search_here r s t g hs : matches r s = (t, g) :: hs → re_search r s = Some g.
Proof. intros E. destruct s; cbn [re_search]; unfold re_match; by rewrite E. Qed.

(** A match contains the literals of the pattern. *)
Lemma reach_lit l r s h : reach (lit_re l r) s h → ∃ s', s = l ++ s' ∧ reach r s' h.
Proof.
  rewrite <- matches_reach, matches_lit_cut. destruct (cut l s) as [s'|] eqn:E.
  - intros Hh. exists s'. split; [by apply cut_Some|]. by apply matches_reach.
  - by intros ?%elem_of_nil.
Qed.

Lemma reach_suffix r s h : reach r s h → ∃ a, s = a ++ h.1.
Proof. intros Hr%matches_reach. by eapply matches_suffix. Qed.

(** A search for a pattern with a literal [l] fails on a text without [l]. *)
Lemma re_search_without r0 l r s :
  contains l s = false → re_search (Cat r0 (lit_re l r)) s = None.
Proof.
  intros Hc. apply re_search_None. intros a b h -> Hr. inversion Hr as [| |? ? ? ? ? ? ? H1 H2| | | | |]; subst.
  apply reach_lit in H2 as (s' & -> & _). apply reach_suffix in H1 as [a' ->]. simpl in Hc.
  apply not_true_iff_false in Hc. apply Hc, contains_true. exists (a ++ a'), s'.
  by rewrite <- app_assoc.
Qed.

Lemma re_search_without_chr r0 l r s c :
  c ∈ l → c ∉ s → re_search (Cat r0 (lit_re l r)) s = None.
Proof. intros. apply re_search_without. by eapply contains_elem. Qed.

(** A pattern that starts with a run of a class finds nothing outside it. *)
Lemma re_search_skip_class p r0 a s :
  (∀ c t, p c = false → matches r0 (c :: t) = []) →
  Forall (λ c, p c = false) a → re_search r0 (a ++ s) = re_search r0 s.
Proof.
  intros Hr Ha. induction Ha as [|c a Hc Ha IH]; [done|].
  by rewrite <- app_comm_cons, re_search_skip by auto.
Qed.

Lemma matches_group_other n p r c s :
  p c = false → matches (Cat (Group (Greedy (S n) p)) r) (c :: s) = [].
Proof. intros Hc. cbn. by rewrite Hc. Qed.

(** The positions of a run after which the rest of the pattern does not
    match. *)
Lemma re_search_skip_run p r a s :
  rejects p r → Forall (λ c, p c = true) a → stops p s → matches r s = [] →
  re_search (Cat (Group (Greedy 1 p)) r) (a ++ s) = re_search (Cat (Group (Greedy 1 p)) r) s.
Proof.
  intros Hr Ha Hs Hn. induction Ha as [|c a Hc Ha IH]; [done|].
  rewrite <- app_comm_cons, re_search_skip; [done|].
  change (c :: a ++ s) with ((c :: a) ++ s).
  rewrite matches_group; [by rewrite Hn|done|simpl; lia|by constructor|done].
Qed.

(** A lazy repetition goes on until the rest of the pattern matches. *)
Lemma matches_lazy_skip p l r a s :
  Forall (λ c, p c = true) a →
  (∀ a1 a2, a = a1 ++ a2 → a2 ≠ [] → starts_with l (a2 ++ s) = false) →
  matches (Cat (Lazy 0 p) (lit_re l r)) (a ++ s) = matches (Cat (Lazy 0 p) (lit_re l r)) s.
Proof.
  intros Ha Hl. induction Ha as [|c a Hc Ha IH]; [done|].
  rewrite <- IH by (intros a1 a2 ->; by apply (Hl (c :: a1))). rewrite <- app_comm_cons.
  cbn [matches]. rewrite !list_fmap_bind. cbn [lazy pred]. rewrite Hc, bind_app, bind_one. simpl.
  rewrite matches_lit_cut. specialize (Hl [] (c :: a) eq_refl). unfold starts_with in Hl.
  destruct (cut l (c :: a ++ s)) eqn:E; [|done].
  rewrite <- app_comm_cons, E in Hl. by specialize (Hl ltac:(done)).
Qed.

Lemma matches_lazy_skip1 p l r c s :
  p c = true → starts_with l (c :: s) = false →
  matches (Cat (Lazy 0 p) (lit_re l r)) (c :: s) = matches (Cat (Lazy 0 p) (lit_re l r)) s.
Proof.
  intros Hc Hl. apply (matches_lazy_skip p l r [c]); [by repeat constructor|].
  intros [|d a1] a2 E Hne; simpl in E; [by rewrite <- E|]. injection E as _ E. symmetry in E.
  by apply app_eq_nil in E as [_ ->].
Qed.

Lemma matches_lazy_here p r s h hs :
  matches r s = h :: hs → ∃ hs', matches (Cat (Lazy 0 p) r) s = h :: hs'.
Proof.
  intros E. destruct h as [t g]. cbn [matches]. rewrite list_fmap_bind.
  destruct s as [|c s]; cbn [lazy pred]; [|destruct (p c)]; rewrite ?bind_app, bind_one;
    cbn [compose fst snd]; rewrite E; eexists; reflexivity.
Qed.

Lemma matches_all p s a :
  1 ≤ length a → Forall (λ c, p c = true) a → ∃ h hs, matches (Greedy 1 p) (a ++ s) = (h, []) :: hs.
Proof.
  intros Hl Ha. cbn [matches]. destruct (greedy 1 p (a ++ s)) as [|t ts] eqn:E; [|cbn; eauto].
  exfalso. assert (Hin : s ∈ greedy 1 p (a ++ s)) by (apply elem_of_greedy; eauto).
  rewrite E in Hin. by apply elem_of_nil in Hin.
Qed.

(** Taking a match apart. *)
Lemma reach_cat_inv r1 r2 s h :
  reach (Cat r1 r2) s h → ∃ h1 h2, reach r1 s h1 ∧ reach r2 h1.1 h2 ∧ h = (h2.1, h1.2 ++ h2.2).
Proof.
  rewrite <- matches_reach. cbn [matches]. intros (h1 & Hh & H1)%list_elem_of_bind.
  apply list_elem_of_bind in Hh as (h2 & Hh & H2). apply list_elem_of_singleton in Hh.
  exists h1, h2. by rewrite <- !matches_reach.
Qed.

Lemma reach_run_inv n p s h :
  reach (Greedy n p) s h → ∃ a, s = a ++ h.1 ∧ h.2 = [] ∧ n ≤ length a ∧ Forall (λ c, p c = true) a.
Proof.
  rewrite <- matches_reach. cbn [matches].
  intros (t & -> & (a & -> & Hn & Ha)%elem_of_greedy)%list_elem_of_fmap. by exists a.
Qed.

Lemma reach_group_inv n p s h :
  reach (Group (Greedy n p)) s h →
  ∃ a, s = a ++ h.1 ∧ h.2 = [a] ∧ n ≤ length a ∧ Forall (λ c, p c = true) a.
Proof.
  rewrite <- matches_reach. cbn [matches]. intros ([t g] & -> & Hh)%list_elem_of_fmap.
  apply list_elem_of_fmap in Hh as (t' & E & (a & -> & Hn & Ha)%elem_of_greedy).
  simplify_eq/=. exists a. by rewrite consumed_app.
Qed.
