(* ===== verification/Logger.v ===== *)
(** * Log files: utils/logger.py, communication.py

    The logs directory as a map from file names to lines; [prepare_logger],
    the logging methods and [close] change it.  The time stamps are
    parameters.  [wait_for_msg] of main_move_logs.py reads the control queue. *)

From S2P Require Import Prelude PyDict PyStr.
From Stdlib Require Import Ascii.

(** ['%(asctime)s - %(name)s - %(levelname)s - %(message)s'] *)
Definition log_format (asctime name level message : text) : text :=
  asctime ++ str " - " ++ name ++ str " - " ++ level ++ str " - " ++ message ++ ["010"%char].

(** The files of [./logs] with their lines. *)
Abbreviation log_files_dict := (dict text (list text)).

(** The attribute [self.logger] of a [Logger]: no value before
    [prepare_logger], then the logger's name and whether its handler is
    attached. *)
Inductive logger_attr := Unset | IsNone | Ready (name : text) (attached : bool).

Definition log_name (logger_name : text) : text := logger_name ++ str ".log".

(** [prepare_logger]: every file whose name starts with the logger's is
    removed, and an empty log is opened; [dir] is [None] when the directory
    does not exist. *)
Definition prepare_logger (logger_name : text) (dir : option log_files_dict)
    : logger_attr * log_files_dict :=
  let kept := filter (λ p : text * list text, starts_with logger_name p.1 = false) (default [] dir : list (text * list text)) in
  (Ready logger_name true, dset kept (log_name logger_name) []).

(** A record of the logger at a level. *)
Definition emit (asctime name level msg : text) (attached : bool) (d : log_files_dict) : log_files_dict :=
  if attached
  then dset d (log_name name)
         (default [] (dget d (log_name name)) ++ [log_format asctime name level msg])
  else d.

Section methods.
Context (asctime : text) (self : logger_attr).

(** [self.logger], compared with [None]. *)
Definition with_logger (k : text → bool → log_files_dict) : res log_files_dict :=
  match self with
  | Unset => Err AttributeError
  | IsNone => Err PlainException
  | Ready name attached => Ok (k name attached)
  end.

Definition log_err (msg : text) (d : log_files_dict) : res log_files_dict :=
  with_logger (λ name attached, emit asctime name (str "ERROR") msg attached d).

Definition log_msg (msg level : text) (d : log_files_dict) : res log_files_dict :=
  if decide (level = str "warning")
  then with_logger (λ name attached, emit asctime name (str "WARNING") msg attached d)
  else if decide (level = str "error") then log_err msg d
  else with_logger (λ name attached, emit asctime name (str "INFO") msg attached d).

(** [close] *)
Definition close : res logger_attr :=
  match self with
  | Unset => Err AttributeError
  | IsNone => Ok IsNone
  | Ready name _ => Ok (Ready name false)
  end.
End methods.

(** ** The control queue *)

(** [ControlOperationTypes], and any other message. *)
Inductive message := START | Other (m : text).

(** [wait_for_msg]: the queue after it, [None] while it still waits.  The
    message asked for is not looked at. *)
Fixpoint wait_for_msg (queue : list message) : option (list message) :=
  match queue with
  | [] => None
  | START :: queue' => Some queue'
  | Other _ :: queue' => wait_for_msg queue'
  end.

(** ** Facts *)

(** The loggers of the controller, in the order [run_evaluation] creates
    them. *)
Definition controller_loggers : list text :=
  [str "memcached_mind_monitor"; str "memcached_deployer"; str "spirit_ceei_allocator"].

Definition prepare_all (names : list text) (dir : option log_files_dict) : option log_files_dict :=
  foldl (λ d name, Some (prepare_logger name d).2) dir names.

Lemma dget_filter_ne (P : text → bool) (d : list (text * list text)) f :
  P f = false → dget (filter (λ p : text * list text, P p.1 = false) d) f = dget d f.
Proof.
  intros Hf. induction d as [|[k v] d IH]; [done|]. rewrite filter_cons. cbn [fst].
  destruct (decide (P k = false)) as [E|E].
  - simpl. case_decide; [done|apply IH].
  - simpl. rewrite decide_False; [apply IH|]. by intros ->.
Qed.

Lemma prepare_logger_get name dir f :
  dget (prepare_logger name dir).2 f =
  if decide (f = log_name name) then Some []
  else if starts_with name f then None else dget (default [] dir) f.
Proof.
  unfold prepare_logger. cbn [snd]. rewrite dget_dset.
  destruct (decide (log_name name = f)) as [<-|Hne]; [by rewrite decide_True|].
  rewrite decide_False by congruence. destruct (starts_with name f) eqn:E.
  - apply dget_None_keys. unfold dkeys. rewrite list_elem_of_fmap.
    intros ([k v] & -> & [Hk _]%list_elem_of_filter). simpl in *. congruence.
  - by apply dget_filter_ne.
Qed.

(** The loggers of the controller do not remove one another's log: when all
    are set up each has an empty log, and the files of other names are as
    they were. *)
Theorem controller_logs_prepared (dir : option log_files_dict) :
  ∃ d, prepare_all controller_loggers dir = Some d ∧
    Forall (λ name, dget d (log_name name) = Some []) controller_loggers ∧
    ∀ f, Forall (λ name, starts_with name f = false) controller_loggers →
      dget d f = dget (default [] dir) f.
Proof.
  eexists. split; [reflexivity|]. split.
  - unfold controller_loggers. rewrite !Forall_cons. split_and!; [..|by apply Forall_nil];
      repeat (rewrite prepare_logger_get; cbn [default from_option id]); reflexivity.
  - intros f Hf. unfold controller_loggers in Hf. rewrite !Forall_cons in Hf.
    destruct Hf as (H1 & H2 & H3 & _).
    assert (Hlog : ∀ name, starts_with name f = false → f ≠ log_name name).
    { intros name Hn ->. apply not_true_iff_false in Hn. apply Hn, starts_with_true.
      by exists (str ".log"). }
    rewrite prepare_logger_get, decide_False, H3 by by apply Hlog. cbn [default from_option id].
    rewrite prepare_logger_get, decide_False, H2 by by apply Hlog. cbn [default from_option id].
    by rewrite prepare_logger_get, decide_False, H1 by by apply Hlog.
Qed.

(** A logger that was set up appends to its own file only; one that was not
    raises the exception of the missing attribute instead of its own. *)
Lemma log_msg_appends asctime name msg level d f :
  f ≠ log_name name →
  ∃ d' line, log_msg asctime (Ready name true) msg level d = Ok d' ∧
    dget d' (log_name name) = Some (default [] (dget d (log_name name)) ++ [line]) ∧
    dget d' f = dget d f.
Proof.
  intros Hf. unfold log_msg, log_err, with_logger, emit.
  repeat case_decide; do 2 eexists; (split; [done|]);
    rewrite dget_dset_eq, dget_dset_ne by done; done.
Qed.

Lemma log_msg_unset asctime msg level d : log_msg asctime Unset msg level d = Err AttributeError.
Proof. unfold log_msg, log_err. by repeat case_decide. Qed.
