(* ===== verification/Json.v ===== *)
(** * JSON: [json.loads] and the dictionary operations on its results

    The scanner follows Python's [json.scanner] and [json.decoder]: it also
    accepts [NaN], [Infinity] and [-Infinity], refuses control characters in
    strings, and lets the last of several equal keys of an object count.  An
    escape [\uXXXX] becomes the UTF-8 encoding of its code point.  The depth
    to which values may be nested is not limited.

    The functions are mutually recursive with fuel; [json_loads] gives them
    [json_fuel], and [scan_value_fuel] shows that more fuel never changes the
    result. *)

From S2P Require Import Prelude PyDict PyFloat PyStr.
From Stdlib Require Import Ascii.

Unset Elimination Schemes.
Inductive json (F : Type) :=
  | JNull
  | JBool (b : bool)
  | JInt (z : Z)
  | JFloat (x : F)
  | JStr (s : text)
  | JArr (l : list (json F))
  | JObj (d : list (text * json F)).
Set Elimination Schemes.
Arguments JNull {F}.
Arguments JBool {F} b.
Arguments JInt {F} z.
Arguments JFloat {F} x.
Arguments JStr {F} s.
Arguments JArr {F} l.
Arguments JObj {F} d.

(** White space between tokens. *)
Definition is_ws (c : ascii) : bool :=
  bool_decide (c = " "%char) || bool_decide (c = "009"%char) ||
  bool_decide (c = "010"%char) || bool_decide (c = "013"%char).

Definition skip_ws (s : text) : text := lstrip is_ws s.

(** ** Strings *)

Definition hex_val (c : ascii) : option Z :=
  if is_digit c then Some (digit_val c)
  else if (97 <=? code c)%Z && (code c <=? 102)%Z then Some (code c - 87)%Z
  else if (65 <=? code c)%Z && (code c <=? 70)%Z then Some (code c - 55)%Z
  else None.

(** The four digits of [\uXXXX]. *)
Definition hex4 (s : text) : option (Z * text) :=
  match s with
  | a :: b :: c :: d :: s' =>
      x ← hex_val a; y ← hex_val b; z ← hex_val c; w ← hex_val d;
      Some ((((x * 16 + y) * 16 + z) * 16 + w)%Z, s')
  | _ => None
  end.

Definition byte (z : Z) : ascii := ascii_of_N (Z.to_N z).

Definition utf8 (u : Z) : text :=
  if (u <? 128)%Z then [byte u]
  else if (u <? 2048)%Z then [byte (192 + u / 64); byte (128 + u mod 64)]
  else if (u <? 65536)%Z then
    [byte (224 + u / 4096); byte (128 + u / 64 mod 64); byte (128 + u mod 64)]
  else [byte (240 + u / 262144); byte (128 + u / 4096 mod 64);
        byte (128 + u / 64 mod 64); byte (128 + u mod 64)].

(** The character of a one-letter escape. *)
Definition escape (c : ascii) : option ascii :=
  if bool_decide (c = "034"%char) then Some "034"%char
  else if bool_decide (c = "092"%char) then Some "092"%char
  else if bool_decide (c = "/"%char) then Some "/"%char
  else if bool_decide (c = "b"%char) then Some "008"%char
  else if bool_decide (c = "f"%char) then Some "012"%char
  else if bool_decide (c = "n"%char) then Some "010"%char
  else if bool_decide (c = "r"%char) then Some "013"%char
  else if bool_decide (c = "t"%char) then Some "009"%char
  else None.

(** [\uXXXX], joined with a following low surrogate. *)
Definition scan_unicode (s : text) : option (text * text) :=
  '(u, s1) ← hex4 s;
  let plain := Some (utf8 u, s1) in
  if (55296 <=? u)%Z && (u <=? 56319)%Z then
    match cut (["092"; "u"]%char) s1 with
    | Some s2 =>
        match hex4 s2 with
        | Some (v, s3) =>
            if (56320 <=? v)%Z && (v <=? 57343)%Z
            then Some (utf8 (65536 + (u - 55296) * 1024 + (v - 56320)), s3)
            else plain
        | None => None
        end
    | None => plain
    end
  else plain.

(** The rest of a string after its opening quote, and what follows it. *)
Fixpoint scan_string (n : nat) (s : text) : option (text * text) :=
  match n, s with
  | S n, c :: s' =>
      if bool_decide (c = "034"%char) then Some ([], s')
      else if bool_decide (c = "092"%char) then
        match s' with
        | e :: s'' =>
            if bool_decide (e = "u"%char) then
              '(t, r) ← scan_unicode s''; '(t', r') ← scan_string n r; Some (t ++ t', r')
            else
              d ← escape e; '(t', r') ← scan_string n s''; Some (d :: t', r')
        | [] => None
        end
      else if (code c <? 32)%Z then None
      else '(t, r) ← scan_string n s'; Some (c :: t, r)
  | _, _ => None
  end.

(** ** Numbers *)

Fixpoint take_digits (s : text) : text * text :=
  match s with
  | c :: s' => if is_digit c then let '(a, r) := take_digits s' in (c :: a, r) else ([], s)
  | [] => ([], [])
  end.

(** [(\.\d+)?] *)
Definition scan_frac (s : text) : text * text :=
  match s with
  | c :: s' =>
      if bool_decide (c = "."%char) then
        match take_digits s' with ([], _) => ([], s) | (a, r) => (c :: a, r) end
      else ([], s)
  | [] => ([], s)
  end.

(** [([eE][-+]?\d+)?] *)
Definition scan_exp (s : text) : text * text :=
  match s with
  | c :: s' =>
      if bool_decide (c = "e"%char) || bool_decide (c = "E"%char) then
        let '(sign, s'') :=
          match s' with
          | d :: s'' =>
              if bool_decide (d = "-"%char) || bool_decide (d = "+"%char) then ([d], s'') else ([], s')
          | [] => ([], s')
          end in
        match take_digits s'' with ([], _) => ([], s) | (a, r) => (c :: sign ++ a, r) end
      else ([], s)
  | [] => ([], s)
  end.

(** An optional sign, then a zero or digits that start with another one. *)
Definition scan_int (s : text) : option (text * text) :=
  let '(sign, s') :=
    match s with
    | c :: s' => if bool_decide (c = "-"%char) then ([c], s') else ([], s)
    | [] => ([], s)
    end in
  match s' with
  | c :: s'' =>
      if bool_decide (c = "0"%char) then Some (sign ++ [c], s'')
      else match take_digits s' with ([], _) => None | (a, r) => Some (sign ++ a, r) end
  | [] => None
  end.

Section scan.
Context {F : Type} `{PyFloat F}.

Definition res_option {A} (m : res A) : option A := match m with Ok a => Some a | Err _ => None end.

Definition scan_number (s : text) : option (json F * text) :=
  '(i, r) ← scan_int s;
  let '(f, r') := scan_frac r in
  let '(e, r'') := scan_exp r' in
  match f, e with
  | [], [] => z ← res_option (py_int i); Some (JInt z, r'')
  | _, _ => x ← res_option (py_float (i ++ f ++ e)); Some (JFloat x, r'')
  end.

(** The constants, tried in the order of the scanner. *)
Definition constants : list (text * json F) :=
  [(str "null", JNull); (str "true", JBool true); (str "false", JBool false);
   (str "NaN", JFloat (fsub finf finf)); (str "Infinity", JFloat finf);
   (str "-Infinity", JFloat fninf)].

Fixpoint scan_constant (cs : list (text * json F)) (s : text) : option (json F * text) :=
  match cs with
  | [] => None
  | (p, v) :: cs' => match cut p s with Some r => Some (v, r) | None => scan_constant cs' s end
  end.

Definition scan_atom (s : text) : option (json F * text) :=
  match scan_number s with Some r => Some r | None => scan_constant constants s end.

(** ** Values *)

(** A value, given how the elements of an array and the members of an object
    are read. *)
Definition value_step (array : list (json F) → text → option (json F * text))
    (object : list (text * json F) → text → option (json F * text)) (s : text)
    : option (json F * text) :=
  match s with
  | c :: s' =>
      if bool_decide (c = "034"%char) then '(t, r) ← scan_string (length s') s'; Some (JStr t, r)
      else if bool_decide (c = "{"%char) then
        match skip_ws s' with
        | d :: r => if bool_decide (d = "}"%char) then Some (JObj [], r) else object [] (d :: r)
        | [] => None
        end
      else if bool_decide (c = "["%char) then
        match skip_ws s' with
        | d :: r => if bool_decide (d = "]"%char) then Some (JArr [], r) else array [] (d :: r)
        | [] => None
        end
      else scan_atom s
  | [] => None
  end.

(** The elements of an array from the next one on, after those in [acc]. *)
Definition array_step (value : text → option (json F * text))
    (array : list (json F) → text → option (json F * text))
    (acc : list (json F)) (s : text) : option (json F * text) :=
  '(v, r) ← value s;
  match skip_ws r with
  | c :: r' =>
      if bool_decide (c = "]"%char) then Some (JArr (acc ++ [v]), r')
      else if bool_decide (c = ","%char) then array (acc ++ [v]) (skip_ws r')
      else None
  | [] => None
  end.

(** The members of an object from the next one on. *)
Definition object_step (value : text → option (json F * text))
    (object : list (text * json F) → text → option (json F * text))
    (acc : list (text * json F)) (s : text) : option (json F * text) :=
  match s with
  | q :: s' =>
      if bool_decide (q = "034"%char) then
        '(k, r) ← scan_string (length s') s';
        match skip_ws r with
        | c :: r' =>
            if bool_decide (c = ":"%char) then
              '(v, r'') ← value (skip_ws r');
              match skip_ws r'' with
              | d :: r3 =>
                  if bool_decide (d = "}"%char) then Some (JObj (dset acc k v), r3)
                  else if bool_decide (d = ","%char) then object (dset acc k v) (skip_ws r3)
                  else None
              | [] => None
              end
            else None
        | [] => None
        end
      else None
  | [] => None
  end.

Fixpoint scan_value (n : nat) (s : text) : option (json F * text) :=
  match n with O => None | S n => value_step (scan_array n) (scan_object n) s end
with scan_array (n : nat) (acc : list (json F)) (s : text) : option (json F * text) :=
  match n with O => None | S n => array_step (scan_value n) (scan_array n) acc s end
with scan_object (n : nat) (acc : list (text * json F)) (s : text) : option (json F * text) :=
  match n with O => None | S n => object_step (scan_value n) (scan_object n) acc s end.

Definition json_fuel (s : text) : nat := 2 * length s + 2.

(** [json.loads(s)] *)
Definition json_loads (s : text) : res (json F) :=
  or_raise ValueError
    ('(v, r) ← scan_value (json_fuel s) (skip_ws s);
     match skip_ws r with [] => Some v | _ => None end).
End scan.

(** ** What a scan consumes *)

(** [r] is what is left of [s] after at least one character. *)
Definition shorter (r s : text) : Prop := ∃ a, a ≠ [] ∧ s = a ++ r.

Lemma shorter_length r s : shorter r s → length r < length s.
Proof. intros ([|c a] & Ha & ->); [done|]. rewrite length_app. simpl. lia. Qed.

Lemma shorter_cons c r : shorter r (c :: r).
Proof. by exists [c]. Qed.

Lemma shorter_suffix r s t : r `suffix_of` s → shorter s t → shorter r t.
Proof.
  intros [b ->] (a & Ha & ->). exists (a ++ b). rewrite <- app_assoc. split; [|done].
  by destruct a.
Qed.

Lemma suffix_shorter r s t : shorter r s → s `suffix_of` t → shorter r t.
Proof.
  intros (a & Ha & ->) [b ->]. exists (b ++ a). rewrite <- app_assoc. split; [|done].
  destruct b; [done|]. done.
Qed.

Lemma shorter_is_suffix r s : shorter r s → r `suffix_of` s.
Proof. intros (a & _ & ->). by exists a. Qed.

Lemma lstrip_suffix p s : lstrip p s `suffix_of` s.
Proof.
  induction s as [|c s IH]; simpl; [done|]. destruct (p c); [by apply suffix_cons_r|done].
Qed.

Lemma skip_ws_cons s c r : skip_ws s = c :: r → (c :: r) `suffix_of` s.
Proof. intros <-. apply lstrip_suffix. Qed.

Lemma skip_ws_suffix s c r : skip_ws s = c :: r → shorter r s.
Proof.
  intros Hs%skip_ws_cons. apply (suffix_shorter _ (c :: r)); [apply shorter_cons|done].
Qed.

Lemma shorter_trans r s t : shorter r s → shorter s t → shorter r t.
Proof. intros Hr Hs. apply (shorter_suffix _ s); [|done]. by apply shorter_is_suffix. Qed.

Create HintDb json.
#[export] Hint Resolve shorter_cons shorter_is_suffix lstrip_suffix skip_ws_suffix : json.
#[export] Hint Extern 2 (shorter _ _) => eapply shorter_trans : json.
#[export] Hint Extern 3 (shorter _ _) => eapply shorter_suffix : json.

(** Take a scanner equation apart. *)
Ltac inv_scan :=
  repeat match goal with
  | H : _ ≫= _ = Some _ |- _ => apply bind_Some in H as (? & ? & ?)
  | H : (let '(_, _) := ?p in _) = Some _ |- _ => destruct p as [? ?] eqn:?; simpl in H
  | H : (if ?b then _ else _) = Some _ |- _ => destruct b eqn:?
  | H : (match ?x with _ => _ end) = Some _ |- _ => destruct x eqn:?
  | H : Some _ = Some _ |- _ => injection H as H; subst
  | H : None = Some _ |- _ => discriminate H
  | H : (_, _) = (_, _) |- _ => injection H as H; subst
  | p : (_ * _)%type |- _ => destruct p
  end.

Lemma hex4_shorter s u r : hex4 s = Some (u, r) → shorter r s.
Proof.
  unfold hex4. intros. inv_scan. match goal with |- shorter _ (?a :: ?b :: ?c :: ?d :: _) =>
    by exists [a; b; c; d] end.
Qed.

Lemma scan_unicode_shorter s t r : scan_unicode s = Some (t, r) → shorter r s.
Proof.
  unfold scan_unicode. intros. inv_scan; try (by eapply hex4_shorter).
  eapply shorter_trans; [by eapply hex4_shorter|].
  eapply shorter_suffix; [|by eapply hex4_shorter]. by apply suffix_cons_r, suffix_cons_r.
Qed.

Lemma scan_string_shorter n s t r : scan_string n s = Some (t, r) → shorter r s.
Proof.
  revert s t r. induction n as [|n IH]; intros s t r; [done|].
  destruct s as [|c s]; [done|]. cbn [scan_string]. intros. inv_scan; eauto with json.
  eapply shorter_trans; [by eapply IH|]. eapply shorter_trans; [by eapply scan_unicode_shorter|].
  eauto with json.
Qed.

Lemma take_digits_app s a r : take_digits s = (a, r) → s = a ++ r.
Proof.
  revert a r. induction s as [|c s IH]; intros a r; simpl; [naive_solver|].
  destruct (is_digit c); [|naive_solver]. destruct (take_digits s) as [a' r'].
  intros [= <- <-]. simpl. f_equal. by apply IH.
Qed.

Lemma scan_frac_suffix s a r : scan_frac s = (a, r) → r `suffix_of` s.
Proof.
  unfold scan_frac. destruct s as [|c s]; [by intros [= _ <-]|]. case_bool_decide; [|by intros [= _ <-]].
  destruct (take_digits s) as [[|d a'] r'] eqn:E; intros [= _ <-]; [done|].
  apply take_digits_app in E as ->. by exists (c :: d :: a').
Qed.

Lemma scan_exp_suffix s a r : scan_exp s = (a, r) → r `suffix_of` s.
Proof.
  unfold scan_exp. destruct s as [|c s]; [by intros [= _ <-]|].
  destruct (_ || _); [|by intros [= _ <-]].
  destruct (match s with [] => _ | _ => _ end) as [sg s''] eqn:Es.
  assert (Hs : s'' `suffix_of` s).
  { destruct s as [|d s]; [by injection Es as <- <-|].
    destruct (_ || _); injection Es as <- <-; [by apply suffix_cons_r|done]. }
  destruct (take_digits s'') as [[|d a'] r'] eqn:E; intros [= _ <-]; [done|].
  apply take_digits_app in E. apply suffix_cons_r. etrans; [|exact Hs]. rewrite E. by exists (d :: a').
Qed.

Lemma scan_int_shorter s a r : scan_int s = Some (a, r) → shorter r s.
Proof.
  unfold scan_int. destruct (match s with [] => _ | _ => _ end) as [sg s'] eqn:Es.
  assert (Hs : s' `suffix_of` s).
  { destruct s as [|d s]; [by injection Es as <- <-|].
    case_bool_decide; injection Es as <- <-; [by apply suffix_cons_r|done]. }
  intros Hr. apply (suffix_shorter _ s'); [|done]. clear Es Hs.
  destruct s' as [|c s'']; [done|]. case_bool_decide; [inv_scan; apply shorter_cons|].
  destruct (take_digits (c :: s'')) as [[|d a'] r'] eqn:E; [done|]. inv_scan.
  apply take_digits_app in E. rewrite E. by exists (d :: a').
Qed.

(** The last character read is [c]. *)
Definition closed_by (c : ascii) (s r : text) : Prop := ∃ a, s = a ++ c :: r.

Lemma closed_by_suffix c s t r : closed_by c s r → s `suffix_of` t → closed_by c t r.
Proof. intros [a ->] [b ->]. exists (b ++ a). by rewrite <- app_assoc. Qed.

Lemma closed_by_cons c r : closed_by c (c :: r) r.
Proof. by exists []. Qed.

#[export] Hint Resolve closed_by_cons : json.
#[export] Hint Extern 3 (closed_by _ _ _) => eapply closed_by_suffix : json.

Section scan_facts.
Context {F : Type} `{PyFloat F}.
Implicit Types (v : json F) (s r : text).

Definition is_object v : Prop := match v with JObj _ => True | _ => False end.

Lemma scan_number_shorter s v r : scan_number s = Some (v, r) → shorter r s ∧ ¬ is_object v.
Proof.
  unfold scan_number. intros Hr. apply bind_Some in Hr as ([i r1] & Hi & Hr).
  destruct (scan_frac r1) as [f r2] eqn:Ef, (scan_exp r2) as [e r3] eqn:Ee.
  assert (Hs : shorter r3 s).
  { apply (shorter_suffix _ r1); [|by eapply scan_int_shorter].
    etrans; [by eapply scan_exp_suffix|by eapply scan_frac_suffix]. }
  destruct f; [destruct e|]; apply bind_Some in Hr as (? & _ & [= <- <-]); split; auto.
Qed.

Lemma scan_constant_shorter cs s v r :
  Forall (λ p : text * json F, p.1 ≠ [] ∧ ¬ is_object p.2) cs →
  scan_constant cs s = Some (v, r) → shorter r s ∧ ¬ is_object v.
Proof.
  induction 1 as [|[p w] cs [Hp Hw] _ IH]; simpl; [done|].
  destruct (cut p s) as [r'|] eqn:E; [|done]. intros [= -> ->]. apply cut_Some in E as ->.
  split; [by exists p|done].
Qed.

Lemma scan_atom_shorter s v r : scan_atom s = Some (v, r) → shorter r s ∧ ¬ is_object v.
Proof.
  unfold scan_atom. destruct (scan_number s) as [[w t]|] eqn:E.
  - intros [= -> ->]. by apply scan_number_shorter.
  - apply scan_constant_shorter. repeat constructor; auto.
Qed.

(** Every scan leaves a proper suffix, and an object ends in a brace. *)
Definition scanned s v r : Prop := shorter r s ∧ (is_object v → closed_by "}"%char s r).

Lemma scanned_suffix s t v r : scanned s v r → s `suffix_of` t → scanned t v r.
Proof.
  intros [Hs Ho] Hst. split; [by eapply suffix_shorter|]. intros. eapply closed_by_suffix; eauto.
Qed.

(** What the three scanners promise each other. *)
Definition value_ok (f : text → option (json F * text)) : Prop :=
  ∀ s v r, f s = Some (v, r) → scanned s v r.
Definition array_ok (f : list (json F) → text → option (json F * text)) : Prop :=
  ∀ acc s v r, f acc s = Some (v, r) → shorter r s ∧ ¬ is_object v.
Definition object_ok (f : list (text * json F) → text → option (json F * text)) : Prop :=
  ∀ acc s v r, f acc s = Some (v, r) → shorter r s ∧ closed_by "}"%char s r.

Lemma value_step_ok array object :
  array_ok array → object_ok object → value_ok (value_step array object).
Proof.
  intros IHa IHo [|c s] v r Hv; [done|]. unfold value_step in Hv.
  case_bool_decide; [|case_bool_decide; [|case_bool_decide]].
  - apply bind_Some in Hv as ([t r'] & Ht & [= <- <-]). split; [|done].
    eapply shorter_trans; [by eapply scan_string_shorter|apply shorter_cons].
  - destruct (skip_ws s) as [|d r'] eqn:Ew; [done|]. apply skip_ws_cons in Ew.
    apply (scanned_suffix (d :: r')); [|by apply suffix_cons_r].
    case_bool_decide; [simplify_eq; split; auto with json|]. apply IHo in Hv as [? ?]. by split.
  - destruct (skip_ws s) as [|d r'] eqn:Ew; [done|]. apply skip_ws_cons in Ew.
    apply (scanned_suffix (d :: r')); [|by apply suffix_cons_r].
    case_bool_decide; [simplify_eq; split; [auto with json|done]|].
    apply IHa in Hv as [? ?]. by split.
  - apply scan_atom_shorter in Hv as [? ?]. by split.
Qed.

Lemma array_step_ok value array : value_ok value → array_ok array → array_ok (array_step value array).
Proof.
  intros IHv IHa acc s v r Hv. apply bind_Some in Hv as ([w r1] & [Hw _]%IHv & Hv).
  destruct (skip_ws r1) as [|c r2] eqn:Ew; [done|]. apply skip_ws_suffix in Ew.
  case_bool_decide; [simplify_eq; split; [eauto with json|by intros []]|].
  case_bool_decide; [|done]. apply IHa in Hv as [Hv Hn]. split; [|done].
  eapply suffix_shorter; [exact Hv|]. etrans; [apply lstrip_suffix|]. etrans; eauto with json.
Qed.

Lemma object_step_ok value object :
  value_ok value → object_ok object → object_ok (object_step value object).
Proof.
  intros IHv IHo acc [|q s] v r Hv; [done|]. unfold object_step in Hv. case_bool_decide; [|done].
  apply bind_Some in Hv as ([k r1] & Hk%scan_string_shorter & Hv).
  destruct (skip_ws r1) as [|c r2] eqn:E1; [done|]. apply skip_ws_suffix in E1.
  case_bool_decide; [|done]. apply bind_Some in Hv as ([w r3] & [Hw _]%IHv & Hv).
  assert (H3 : shorter r3 (q :: s)).
  { eapply shorter_trans; [exact Hw|]. eapply shorter_suffix; [apply lstrip_suffix|].
    eapply shorter_trans; [exact E1|]. eapply shorter_trans; [exact Hk|]. apply shorter_cons. }
  destruct (skip_ws r3) as [|d r4] eqn:E3; [done|]. apply skip_ws_cons in E3.
  assert (H4 : (d :: r4) `suffix_of` (q :: s)) by (etrans; eauto with json).
  case_bool_decide; [simplify_eq; split; [eapply suffix_shorter; eauto with json|]|].
  { eapply closed_by_suffix; [apply closed_by_cons|done]. }
  case_bool_decide; [|done]. apply IHo in Hv as [Hv Hc].
  assert (Hs : skip_ws r4 `suffix_of` (q :: s)).
  { etrans; [apply lstrip_suffix|]. etrans; [|exact H4]. by apply suffix_cons_r. }
  split; [by eapply suffix_shorter|by eapply closed_by_suffix].
Qed.

Lemma scan_ok n : value_ok (scan_value n) ∧ array_ok (scan_array n) ∧ object_ok (scan_object n).
Proof.
  induction n as [|n (IHv & IHa & IHo)]; [done|].
  split; [by apply value_step_ok|]. split; [by apply array_step_ok|by apply object_step_ok].
Qed.

Lemma scan_value_scanned n s v r : scan_value n s = Some (v, r) → scanned s v r.
Proof. apply scan_ok. Qed.

(** More fuel than [json_fuel] does not change the result. *)
Lemma scan_fuel n :
  (∀ s m, 2 * length s + 1 ≤ n → n ≤ m → scan_value m s = scan_value (F := F) n s) ∧
  (∀ acc s m, 2 * length s + 2 ≤ n → n ≤ m → scan_array m acc s = scan_array (F := F) n acc s) ∧
  (∀ acc s m, 2 * length s + 2 ≤ n → n ≤ m → scan_object m acc s = scan_object (F := F) n acc s).
Proof.
  induction n as [|n (IHv & IHa & IHo)]; [split; [|split]; intros; lia|].
  split; [|split].
  - intros [|c s] [|m] Hl Hm; [lia|done|lia|].
    change (value_step (scan_array m) (scan_object m) (c :: s) =
      value_step (F := F) (scan_array n) (scan_object n) (c :: s)). unfold value_step.
    destruct (skip_ws s) as [|d r] eqn:Ew; [done|].
    apply skip_ws_cons, suffix_length in Ew. simpl in *.
    rewrite IHo, IHa by (simpl; lia). done.
  - intros acc s [|m] Hl Hm; [lia|].
    change (array_step (scan_value m) (scan_array m) acc s =
      array_step (F := F) (scan_value n) (scan_array n) acc s). unfold array_step. rewrite (IHv s m) by lia.
    destruct (scan_value n s) as [[v r]|] eqn:Ev; [|done]. cbn [mbind option_bind].
    apply scan_value_scanned in Ev as [Ev%shorter_length _].
    destruct (skip_ws r) as [|c r'] eqn:Ew; [done|]. apply skip_ws_suffix, shorter_length in Ew.
    pose proof (suffix_length _ _ (lstrip_suffix is_ws r')).
    rewrite IHa by (unfold skip_ws; lia). done.
  - intros acc [|q s] [|m] Hl Hm; [lia|done|lia|]. cbn [length] in *.
    change (object_step (scan_value m) (scan_object m) acc (q :: s) =
      object_step (F := F) (scan_value n) (scan_object n) acc (q :: s)). unfold object_step.
    case_bool_decide; [|done].
    destruct (scan_string (length s) s) as [[k r]|] eqn:Ek; [|done]. cbn [mbind option_bind].
    apply scan_string_shorter, shorter_length in Ek.
    destruct (skip_ws r) as [|c r1] eqn:Ew; [done|]. apply skip_ws_suffix, shorter_length in Ew.
    case_bool_decide; [|done]. pose proof (suffix_length _ _ (lstrip_suffix is_ws r1)).
    rewrite (IHv (skip_ws r1) m) by (unfold skip_ws; lia).
    destruct (scan_value n (skip_ws r1)) as [[v r2]|] eqn:Ev; [|done]. cbn [mbind option_bind].
    apply scan_value_scanned in Ev as [Ev%shorter_length _]. unfold skip_ws in Ev.
    destruct (skip_ws r2) as [|d r3] eqn:Ew2; [done|]. apply skip_ws_suffix, shorter_length in Ew2.
    pose proof (suffix_length _ _ (lstrip_suffix is_ws r3)).
    rewrite IHo by (unfold skip_ws; lia). done.
Qed.

Lemma scan_value_fuel s n :
  json_fuel s ≤ n → scan_value n (skip_ws s) = scan_value (F := F) (json_fuel s) (skip_ws s).
Proof.
  intros Hn. pose proof (suffix_length _ _ (lstrip_suffix is_ws s)).
  apply scan_fuel; unfold json_fuel, skip_ws in *; lia.
Qed.

Lemma skip_ws_nil s : skip_ws s = [] → Forall (λ c, is_ws c = true) s.
Proof.
  unfold skip_ws. induction s as [|c s IH]; simpl; [done|].
  destruct (is_ws c) eqn:E; [|done]. by constructor; [|apply IH].
Qed.

(** An object is followed by nothing but white space after its brace. *)
Lemma json_loads_object s d :
  json_loads (F := F) s = Ok (JObj d) →
  ∃ a w, s = a ++ "}"%char :: w ∧ Forall (λ c, is_ws c = true) w.
Proof.
  unfold json_loads. rewrite or_raise_Ok. intros ([v r] & Hv & Hr)%bind_Some.
  destruct (skip_ws r) eqn:Ew; [|done]. injection Hr as ->. apply skip_ws_nil in Ew.
  apply scan_value_scanned in Hv as [_ Ho].
  destruct (closed_by_suffix _ _ s r (Ho I) (lstrip_suffix _ _)) as [a Ha]. eauto.
Qed.

(** No text that ends in another character, which is not white space, is an
    object. *)
Lemma json_loads_not_object s c d :
  c ≠ "}"%char → is_ws c = false → json_loads (F := F) (s ++ [c]) ≠ Ok (JObj d).
Proof.
  intros Hc Hw (a & w & E & Hall)%json_loads_object.
  destruct w as [|e w _] using rev_ind.
  - apply app_inj_tail in E as [_ ->]. done.
  - rewrite app_comm_cons, app_assoc in E. apply app_inj_tail in E as [_ ->].
    apply Forall_app in Hall as [_ Hall]. inversion Hall. congruence.
Qed.
End scan_facts.

(** ** Reading decoded values *)

Section access.
Context {F : Type} `{PyFloat F}.

(** [v[k]] for a string key [k] *)
Definition jget (v : json F) (k : text) : res (json F) :=
  match v with
  | JObj d => dgetE d k
  | _ => Err TypeError
  end.

(** [k in v] for a string [k] *)
Definition jmem (v : json F) (k : text) : res bool :=
  match v with
  | JObj d => Ok (dmem d k)
  | JArr l => Ok (existsb (λ w, match w with JStr t => bool_decide (t = k) | _ => false end) l)
  | JStr t => Ok (contains k t)
  | _ => Err TypeError
  end.

(** [bool(v)] *)
Definition truthy (v : json F) : bool :=
  match v with
  | JNull => false
  | JBool b => b
  | JInt z => negb (z =? 0)%Z
  | JFloat x => negb (feqb x (of_Z 0))
  | JStr s => bool_decide (s ≠ [])
  | JArr l => match l with [] => false | _ => true end
  | JObj d => match d with [] => false | _ => true end
  end.

(** [float(v)] *)
Definition jfloat (v : json F) : res F :=
  match v with
  | JBool b => Ok (of_Z (Z.b2z b))
  | JInt z => Ok (of_Z z)
  | JFloat x => Ok x
  | JStr s => py_float s
  | _ => Err TypeError
  end.

(** A number of an arithmetic comparison. *)
Definition jnumber (v : json F) : res F :=
  match v with
  | JBool b => Ok (of_Z (Z.b2z b))
  | JInt z => Ok (of_Z z)
  | JFloat x => Ok x
  | _ => Err TypeError
  end.

(** What [for x in v] goes through. *)
Definition jiter (v : json F) : res (list (json F)) :=
  match v with
  | JArr l => Ok l
  | JObj d => Ok (JStr <$> dkeys d)
  | JStr s => Ok ((λ c, JStr [c]) <$> s)
  | _ => Err TypeError
  end.

(** [a, b = v] *)
Definition unpack2 (v : json F) : res (json F * json F) :=
  l ← jiter v;
  match l with [a; b] => Ok (a, b) | _ => Err ValueError end.
End access.
