(* ===== verification/Dumps.v ===== *)
(** * Writing JSON

    [render] writes a value the way Python's [json.encoder] does with its
    defaults ([sp] is a blank) and the way [serde_json] does ([sp] is empty):
    in strings, which are of ASCII characters, quotes, backslashes, control
    characters and DEL are escaped, everything else is written as it is.  How
    a float is written is a parameter.  [loads_render] is the round trip
    through [json_loads]; [dumps] is [json.dumps] of a dictionary of
    strings. *)

From S2P Require Import Prelude PyDict PyFloat PyStr Json.
From Stdlib Require Import Ascii.

Definition ascii_only (s : text) : Prop := Forall (λ c, (code c < 128)%Z) s.

Lemma show_ascii z : ascii_only (show z).
Proof.
  apply Forall_forall. intros c Hc. destruct (show_chars z c Hc) as [Hd| ->]; [|done].
  unfold is_digit in Hd. lia.
Qed.

Lemma ascii_app s t : ascii_only s → ascii_only t → ascii_only (s ++ t).
Proof. intros. by apply Forall_app. Qed.

Lemma utf8_ascii s : ascii_only s → decode_utf8 s = Ok s.
Proof.
  intros Hs. unfold decode_utf8. replace (utf8_valid 0 128 191 s) with true; [done|].
  induction Hs as [|c s Hc Hs IH]; [done|]. cbn [utf8_valid]. by rewrite (proj2 (Z.ltb_lt _ _) Hc).
Qed.

Ltac ascii_literal := by apply (bool_decide_unpack (ascii_only _)).

Definition hex_digit (z : Z) : ascii := byte (if (z <? 10)%Z then 48 + z else 87 + z).

(** [ESCAPE_DCT] *)
Definition dump_char (c : ascii) : text :=
  if bool_decide (c = "034"%char) then ["092"; "034"]%char
  else if bool_decide (c = "092"%char) then ["092"; "092"]%char
  else if bool_decide (c = "008"%char) then ["092"; "b"]%char
  else if bool_decide (c = "012"%char) then ["092"; "f"]%char
  else if bool_decide (c = "010"%char) then ["092"; "n"]%char
  else if bool_decide (c = "013"%char) then ["092"; "r"]%char
  else if bool_decide (c = "009"%char) then ["092"; "t"]%char
  else if (code c <? 32)%Z || (126 <? code c)%Z then
    ["092"; "u"; "0"; "0"; hex_digit (code c / 16); hex_digit (code c mod 16)]%char
  else [c].

Definition dump_string (s : text) : text := "034"%char :: (s ≫= dump_char) ++ ["034"%char].

Section render.
Context {F : Type} (show_float : F → text) (sp : text).

(** Members or elements, separated by a comma. *)
Fixpoint commas (l : list text) : text :=
  match l with
  | [] => []
  | [t] => t
  | t :: l' => t ++ ","%char :: sp ++ commas l'
  end.

Definition render_member (f : json F → text) (kv : text * json F) : text :=
  dump_string kv.1 ++ ":"%char :: sp ++ f kv.2.

Fixpoint render (v : json F) : text :=
  match v with
  | JNull => str "null"
  | JBool b => if b then str "true" else str "false"
  | JInt z => show z
  | JFloat x => show_float x
  | JStr s => dump_string s
  | JArr l => "["%char :: commas (map render l) ++ ["]"%char]
  | JObj d => "{"%char :: commas (map (render_member render) d) ++ ["}"%char]
  end.
End render.

(** A dictionary of strings, and [json.dumps] of it. *)
Definition jstrings {F} (d : dict text text) : dict text (json F) := (λ kv, (kv.1, JStr kv.2)) <$> d.

Definition dumps (d : dict text text) : text :=
  render (F := Empty_set) (λ x, match x with end) [" "%char] (JObj (jstrings d)).

(** ** Reading a dumped text *)

Lemma scan_dump_char n c r :
  (code c < 128)%Z →
  scan_string (S n) (dump_char c ++ r) = '(t, r') ← scan_string n r; Some (c :: t, r').
Proof.
  intros Hc. destruct c as [[] [] [] [] [] [] [] []];
    first [by destruct (Zlt_not_le _ _ Hc)|reflexivity].
Qed.

Lemma scan_dumped s n r :
  ascii_only s → length s < n →
  scan_string n ((s ≫= dump_char) ++ "034"%char :: r) = Some (s, r).
Proof.
  intros Hs. revert n. induction Hs as [|c s Hc Hs IH]; intros [|n] Hn; simpl in Hn; [lia|done|lia|].
  cbn [mbind list_bind]. rewrite <- app_assoc, scan_dump_char by done. rewrite IH by lia. done.
Qed.

Lemma dump_char_length c : 1 ≤ length (dump_char c).
Proof. unfold dump_char. repeat case_match; simpl; lia. Qed.

Lemma dumped_length (s : text) : length s ≤ length (s ≫= dump_char).
Proof.
  induction s as [|c s IH]; [done|]. cbn [mbind list_bind length]. rewrite length_app.
  pose proof (dump_char_length c). unfold mbind in *. lia.
Qed.

Lemma dump_string_app s r :
  dump_string s ++ r = "034"%char :: (s ≫= dump_char) ++ "034"%char :: r.
Proof. unfold dump_string. cbn [app]. by rewrite <- app_assoc. Qed.

(** ** Reading [str(z)] *)

Lemma take_digits_run a c r :
  all_digits a → is_digit c = false → take_digits (a ++ c :: r) = (a, c :: r).
Proof.
  intros Ha Hc. induction Ha as [|d a Hd Ha IH]; cbn [app take_digits]; [by rewrite Hc|].
  by rewrite Hd, IH.
Qed.

(** A positive number, behind its sign if it has one. *)
Lemma scan_int_pos z c r : (0 < z)%Z → is_digit c = false → scan_int (show z ++ c :: r) = Some (show z, c :: r) ∧
  scan_int ("-"%char :: show z ++ c :: r) = Some ("-"%char :: show z, c :: r).
Proof.
  intros Hz Hc. destruct (show_pos_head z Hz) as (d & t & Es & Hd & Hne).
  destruct (show_nonneg z) as (Hall & _ & _); [lia|]. rewrite Es in *.
  assert (Hrun : take_digits ((d :: t) ++ c :: r) = (d :: t, c :: r)) by by apply take_digits_run.
  assert (d ≠ "-"%char) by by intros ->.
  cbn [app] in *. split; unfold scan_int;
    [rewrite (bool_decide_false (d = "-"%char)) by done|rewrite (bool_decide_true ("-"%char = "-"%char)) by done];
    rewrite bool_decide_false, Hrun by done; done.
Qed.

Lemma scan_int_show z c r : is_digit c = false → scan_int (show z ++ c :: r) = Some (show z, c :: r).
Proof.
  intros Hc. destruct (Z.lt_trichotomy z 0) as [Hz|[->|Hz]]; [|done|by apply scan_int_pos].
  rewrite show_neg by done. cbn [app]. apply scan_int_pos; [lia|done].
Qed.

Section read.
Context {F : Type} `{PyFloat F}.

Lemma scan_value_dumped n s r :
  ascii_only s → scan_value (S n) (dump_string s ++ r) = Some (JStr (F := F) s, r).
Proof.
  intros Hs. rewrite dump_string_app. cbn [scan_value]. unfold value_step.
  rewrite bool_decide_true by done. rewrite scan_dumped; [done..|].
  rewrite length_app. pose proof (dumped_length s). simpl. unfold mbind in *. lia.
Qed.

(** The characters that may follow a value. *)
Definition delim (c : ascii) : Prop := c ∈ [","; "}"; "]"]%char.

(** A text that starts like a number is scanned as an atom. *)
Lemma scan_value_number n c s v r :
  is_digit c = true ∨ c = "-"%char → scan_number (c :: s) = Some (v, r) →
  scan_value (F := F) (S n) (c :: s) = Some (v, r).
Proof.
  intros Hc Hs. cbn [scan_value]. unfold value_step.
  rewrite !bool_decide_false by (intros ->; by destruct Hc). unfold scan_atom. by rewrite Hs.
Qed.

Lemma show_head z : ∃ c t, show z = c :: t ∧ (is_digit c = true ∨ c = "-"%char).
Proof.
  destruct (show z) as [|c t] eqn:E; [by pose proof (py_int_show z) as Hp; rewrite E in Hp|].
  exists c, t. split; [done|]. apply (show_chars z). rewrite E. left.
Qed.

Lemma scan_value_show n z c r :
  delim c → scan_value (S n) (show z ++ c :: r) = Some (JInt (F := F) z, c :: r).
Proof.
  intros Hc. assert (Hd : is_digit c = false).
  { unfold delim in Hc. rewrite !elem_of_cons, elem_of_nil in Hc. naive_solver. }
  destruct (show_head z) as (e & t & Es & He).
  assert (Hn : scan_number (show z ++ c :: r) = Some (JInt (F := F) z, c :: r)).
  { unfold scan_number. rewrite scan_int_show by done. cbn [mbind option_bind].
    unfold delim in Hc. rewrite !elem_of_cons, elem_of_nil in Hc.
    replace (scan_frac (c :: r)) with (@nil ascii, c :: r) by (by destruct Hc as [->|[->|[->|[]]]]).
    replace (scan_exp (c :: r)) with (@nil ascii, c :: r) by (by destruct Hc as [->|[->|[->|[]]]]).
    by rewrite py_int_show. }
  rewrite Es in *. by apply scan_value_number.
Qed.
End read.

(** ** The round trip *)

Section all_of.
Context {A : Type} (P : A → Prop).

Fixpoint all_of (l : list A) : Prop :=
  match l with [] => True | x :: l' => P x ∧ all_of l' end.

Lemma all_of_Forall l : all_of l ↔ Forall P l.
Proof. induction l as [|x l IH]; simpl; [done|]. by rewrite IH, Forall_cons. Qed.
End all_of.

(** Induction over a value and the values in it. *)
Lemma json_induction {F} (P : json F → Prop) :
  P JNull → (∀ b, P (JBool b)) → (∀ z, P (JInt z)) → (∀ x, P (JFloat x)) → (∀ s, P (JStr s)) →
  (∀ l, Forall P l → P (JArr l)) → (∀ d, Forall (λ kv : text * json F, P kv.2) d → P (JObj d)) → ∀ v, P v.
Proof.
  intros Hn Hb Hi Hf Hs Ha Ho. fix IH 1. intros [| b | z | x | s | l | d]; [done|apply Hb|apply Hi|apply Hf|apply Hs|..].
  - apply Ha. induction l as [|v l IHl]; constructor; [apply IH|apply IHl].
  - apply Ho. induction d as [|[k v] d IHd]; constructor; [apply IH|apply IHd].
Qed.

Section roundtrip.
Context {F : Type} `{PyFloat F} (show_float : F → text) (sp : text).
Hypothesis blank : Forall (λ c, is_ws c = true) sp.

Abbreviation rend := (render show_float sp).

(** A float whose text is read back as the same float. *)
Definition float_ok (x : F) : Prop :=
  (∃ c t, show_float x = c :: t ∧ (is_digit c = true ∨ c = "-"%char)) ∧
  ∀ c r, delim c → scan_number (show_float x ++ c :: r) = Some (JFloat x, c :: r).

Fixpoint writable (v : json F) : Prop :=
  match v with
  | JNull | JBool _ | JInt _ => True
  | JFloat x => float_ok x
  | JStr s => ascii_only s
  | JArr l => all_of writable l
  | JObj d => NoDup (dkeys d) ∧ all_of (λ kv, ascii_only kv.1 ∧ writable kv.2) d
  end.

(** A number must be followed by a delimiter. *)
Definition may_follow (v : json F) (r : text) : Prop :=
  match v with JInt _ | JFloat _ => ∃ c r', r = c :: r' ∧ delim c | _ => True end.

Lemma may_follow_delim v c r : delim c → may_follow v (c :: r).
Proof. intros. destruct v; simpl; eauto. Qed.

Lemma skip_sp s : skip_ws (sp ++ s) = skip_ws s.
Proof using blank.
  unfold skip_ws. revert blank. generalize sp as l. intros l Hl.
  induction Hl as [|c l Hc _ IH]; [done|]. cbn [app lstrip]. by rewrite Hc.
Qed.

(** What a text starts with so that nothing is skipped before it, and it does
    not end an array or an object. *)
Definition starts (s : text) : Prop :=
  ∃ c t, s = c :: t ∧ is_ws c = false ∧ c ≠ "]"%char ∧ c ≠ "}"%char.

Lemma number_starts c t : is_digit c = true ∨ c = "-"%char → starts (c :: t).
Proof.
  intros Hc. exists c, t. split; [done|]. unfold is_ws.
  rewrite !bool_decide_false by (intros ->; by destruct Hc).
  split; [done|]. split; intros ->; by destruct Hc.
Qed.

Lemma render_starts v : writable v → starts (rend v).
Proof.
  destruct v as [| [] | z | x | s | l | d]; cbn [render]; intros Hv.
  4: { destruct (show_head z) as (c & t & -> & Hc). by apply number_starts. }
  4: { destruct Hv as [(c & t & -> & Hc) _]. by apply number_starts. }
  all: by eexists _, _.
Qed.

Lemma starts_app s r : starts s → starts (s ++ r).
Proof. intros (c & t & -> & Hc). by exists c, (t ++ r). Qed.

Lemma starts_skip s : starts s → skip_ws s = s.
Proof. intros (c & t & -> & Hc & _). by apply lstrip_id. Qed.

Lemma commas_starts l : l ≠ [] → all_of starts l → starts (commas sp l).
Proof. destruct l as [|t [|t' l]]; [done|by intros _ []|]. intros _ [Ht _]. by apply starts_app. Qed.

Lemma member_starts kv : starts (render_member sp rend kv).
Proof. unfold render_member. rewrite dump_string_app. by eexists _, _. Qed.

(** [v] is read back with the fuel of its text. *)
Definition reads (v : json F) : Prop :=
  ∀ n r, 2 * length (rend v) < n → may_follow v r → scan_value n (rend v ++ r) = Some (v, r).

Lemma reads_array l n acc r :
  l ≠ [] → Forall (λ v, writable v ∧ reads v) l → 2 * length (commas sp (map rend l)) + 2 ≤ n →
  scan_array n acc (commas sp (map rend l) ++ "]"%char :: r) = Some (JArr (acc ++ l), r).
Proof using blank.
  intros Hne Hl. revert n acc. induction Hl as [|v l [Hw Hv] Hl IH]; intros n acc Hn; [done|].
  destruct n as [|n]; [lia|].
  change (scan_array (S n) acc) with (array_step (scan_value (F := F) n) (scan_array n) acc).
  unfold array_step. destruct l as [|v' l].
  - cbn [map commas] in *. rewrite Hv; [|lia|by apply may_follow_delim; set_solver]. done.
  - change (commas sp (map rend (v :: v' :: l))) with
      (rend v ++ ","%char :: sp ++ commas sp (map rend (v' :: l))) in *.
    rewrite length_app in Hn. cbn [length] in Hn. rewrite length_app in Hn.
    rewrite <- app_assoc. cbn [app]. rewrite Hv; [|lia|by apply may_follow_delim; set_solver].
    cbn [mbind option_bind]. change (skip_ws (","%char :: ?x)) with (","%char :: x). cbv match.
    rewrite bool_decide_false, bool_decide_true by done. rewrite <- app_assoc, skip_sp.
    assert (Hst : all_of starts (map rend (v' :: l))).
    { apply all_of_Forall, Forall_fmap. eapply Forall_impl; [exact Hl|]. intros w [Hw' _]. by apply render_starts. }
    rewrite starts_skip by (by apply starts_app, commas_starts).
    rewrite IH; [|done|lia]. by rewrite <- app_assoc.
Qed.

(** One member, up to the character after its value. *)
Lemma reads_member n acc kv c r :
  ascii_only kv.1 → writable kv.2 → reads kv.2 → c = "}"%char ∨ c = ","%char →
  2 * length (rend kv.2) < n →
  scan_object (S n) acc (render_member sp rend kv ++ c :: r) =
  if bool_decide (c = "}"%char) then Some (JObj (dset acc kv.1 kv.2), r)
  else scan_object n (dset acc kv.1 kv.2) (skip_ws r).
Proof using blank.
  destruct kv as [k v]. cbn [fst snd]. intros Hk Hw Hv Hc Hn.
  change (scan_object (S n) acc) with (object_step (scan_value (F := F) n) (scan_object n) acc).
  unfold render_member. cbn [fst snd]. rewrite <- !app_assoc, dump_string_app.
  unfold object_step. rewrite bool_decide_true by done. rewrite scan_dumped; [|done|].
  2: { rewrite length_app. pose proof (dumped_length k). simpl. unfold mbind in *. lia. }
  cbn [mbind option_bind app]. change (skip_ws (":"%char :: ?x)) with (":"%char :: x).
  cbv match. rewrite bool_decide_true by done. rewrite <- app_assoc, skip_sp.
  rewrite starts_skip by (by apply starts_app, render_starts).
  rewrite Hv; [|done|by apply may_follow_delim; unfold delim; set_solver]. cbn [mbind option_bind].
  by destruct Hc as [-> | ->].
Qed.

Lemma reads_object d n acc r :
  d ≠ [] → Forall (λ kv : text * json F, (ascii_only kv.1 ∧ writable kv.2) ∧ reads kv.2) d →
  2 * length (commas sp (map (render_member sp rend) d)) + 2 ≤ n →
  scan_object n acc (commas sp (map (render_member sp rend) d) ++ "}"%char :: r) =
  Some (JObj (dupdate acc d), r).
Proof using blank.
  intros Hne Hd. revert n acc. induction Hd as [|kv d [[Hk Hw] Hv] Hd IH]; intros n acc Hn; [done|].
  destruct n as [|n]; [lia|].
  assert (Hkv : length (rend kv.2) < length (render_member sp rend kv)).
  { unfold render_member. rewrite length_app. cbn [length]. rewrite length_app. lia. }
  destruct d as [|kv' d].
  - cbn [map commas] in *. rewrite reads_member by (auto; lia). done.
  - change (commas sp (map (render_member sp rend) (kv :: kv' :: d))) with
      (render_member sp rend kv ++ ","%char :: sp ++ commas sp (map (render_member sp rend) (kv' :: d))) in *.
    rewrite length_app in Hn. cbn [length] in Hn. rewrite length_app in Hn.
    rewrite <- app_assoc. cbn [app]. rewrite reads_member by (auto; lia).
    rewrite bool_decide_false by done. rewrite <- app_assoc, skip_sp.
    assert (Hst : all_of starts (map (render_member sp rend) (kv' :: d))).
    { apply all_of_Forall, Forall_fmap, Forall_forall. intros w _. apply member_starts. }
    rewrite starts_skip by (by apply starts_app, commas_starts). rewrite IH; [done|done|lia].
Qed.

Lemma scan_render v : writable v → reads v.
Proof using blank.
  induction v as [| b | z | x | s | l Hl | d Hd] using json_induction; cbn [writable]; intros Hv n r Hn Hr;
    cbn [render] in *; (destruct n as [|n]; [lia|]).
  - done.
  - by destruct b.
  - destruct Hr as (c & r' & -> & Hc). by apply scan_value_show.
  - destruct Hr as (c & r' & -> & Hc), Hv as [(e & t & Es & He) Hv]. specialize (Hv c r' Hc).
    rewrite Es in *. by apply scan_value_number.
  - by apply scan_value_dumped.
  - apply all_of_Forall in Hv. cbn [length] in Hn. rewrite length_app in Hn. simpl in Hn.
    destruct (decide (l = [])) as [->|Hne]; [done|]. cbn [scan_value app]. unfold value_step.
    rewrite !(bool_decide_false ("["%char = _)) by done. rewrite bool_decide_true by done.
    rewrite <- app_assoc. cbn [app].
    assert (Hst : starts (commas sp (map rend l))).
    { apply commas_starts; [by destruct l|]. apply all_of_Forall, Forall_fmap.
      eapply Forall_impl; [exact Hv|]. intros w. apply render_starts. }
    rewrite starts_skip by by apply starts_app.
    pose proof (reads_array l n [] r Hne) as Ha. destruct Hst as (c & t & Ec & _ & Hc & _). rewrite Ec in *.
    cbn [app]. rewrite bool_decide_false by done. apply Ha; [|simpl in *; lia].
    apply Forall_forall. intros w Hw. rewrite Forall_forall in Hl, Hv. auto.
  - destruct Hv as [Hnd Hv]. apply all_of_Forall in Hv. cbn [length] in Hn. rewrite length_app in Hn. simpl in Hn.
    destruct (decide (d = [])) as [->|Hne]; [done|]. cbn [scan_value app]. unfold value_step.
    rewrite !(bool_decide_false ("{"%char = _)) by done. rewrite bool_decide_true by done.
    rewrite <- app_assoc. cbn [app].
    assert (Hst : starts (commas sp (map (render_member sp rend) d))).
    { apply commas_starts; [by destruct d|]. apply all_of_Forall, Forall_fmap, Forall_forall.
      intros w _. apply member_starts. }
    rewrite starts_skip by by apply starts_app.
    pose proof (reads_object d n [] r Hne) as Ho. rewrite dupdate_append in Ho by done.
    destruct Hst as (c & t & Ec & _ & _ & Hc). rewrite Ec in *.
    cbn [app]. rewrite bool_decide_false by done. apply Ho; [|simpl in *; lia].
    apply Forall_forall. intros w Hw. rewrite Forall_forall in Hd, Hv. split; [by apply Hv|].
    apply Hd; [done|]. by apply Hv.
Qed.

(** What is written is read back: every object of values without duplicate
    keys whose floats are written readably. *)
Lemma loads_render d : writable (JObj d) → json_loads (rend (JObj d)) = Ok (JObj d).
Proof using blank.
  intros Hd. unfold json_loads. rewrite starts_skip by by apply render_starts.
  rewrite <- (app_nil_r (rend (JObj d))) at 2. rewrite scan_render; [done|done| |done].
  unfold json_fuel. lia.
Qed.
End roundtrip.

(** [json.loads(json.dumps(d))] is [d] again. *)
Definition plain (d : dict text text) : Prop := Forall (λ kv, ascii_only kv.1 ∧ ascii_only kv.2) d.

Lemma dumps_render {F} show_float d :
  dumps d = render (F := F) show_float [" "%char] (JObj (jstrings d)).
Proof.
  unfold dumps. cbn [render]. do 3 f_equal. unfold jstrings.
  induction d as [|kv d IH]; [done|]. csimpl. by f_equal.
Qed.

Lemma loads_dumps {F} `{PyFloat F} d :
  NoDup (dkeys d) → plain d → json_loads (dumps d) = Ok (JObj (F := F) (jstrings d)).
Proof.
  intros Hnd Hd. rewrite (dumps_render (F := F) (λ _, [])). apply loads_render; [by repeat constructor|].
  cbn [writable]. split; [unfold dkeys, jstrings; by rewrite <- list_fmap_compose|].
  apply all_of_Forall, Forall_fmap. exact Hd.
Qed.
