(* ===== verification/Exact.v ===== *)
(** * Reasoning about the exact instance

    [qc_lra] decides linear goals over the canonical rationals carried by
    [xnum]; the lemmas below reduce the operations of class [PyFloat] at
    [xnum] to the rationals, comparisons to propositions, and [sum(...)] to a
    rational sum. *)

From S2P Require Import Prelude PyFloat.
From Stdlib Require Export QArith Qcanon Lqa Qround.

Lemma this_add (a b : Qc) : (this (a + b)%Qc == this a + this b)%Q.
Proof. apply Qred_correct. Qed.
Lemma this_mul (a b : Qc) : (this (a * b)%Qc == this a * this b)%Q.
Proof. apply Qred_correct. Qed.
Lemma this_opp (a : Qc) : (this (- a)%Qc == - this a)%Q.
Proof. apply Qred_correct. Qed.
Lemma this_sub (a b : Qc) : (this (a - b)%Qc == this a - this b)%Q.
Proof. unfold Qcminus. rewrite this_add, this_opp. ring. Qed.
Lemma this_inv (a : Qc) : (this (/ a)%Qc == / this a)%Q.
Proof. apply Qred_correct. Qed.
Lemma this_div (a b : Qc) : (this (a / b)%Qc == this a / this b)%Q.
Proof. unfold Qcdiv. rewrite this_mul, this_inv. reflexivity. Qed.
Lemma this_Q2Qc (q : Q) : (this (Q2Qc q) == q)%Q.
Proof. apply Qred_correct. Qed.
Lemma this_0 : (this 0%Qc == 0)%Q. Proof. reflexivity. Qed.
Lemma this_1 : (this 1%Qc == 1)%Q. Proof. reflexivity. Qed.

Create Rewrite HintDb qcs.
#[export] Hint Rewrite this_add this_mul this_opp this_sub this_div this_inv this_Q2Qc this_0 this_1 : qcs.

Lemma Qc_eq_Q (a b : Qc) : a = b ↔ (this a == this b)%Q.
Proof. split; [by intros ->|apply Qc_is_canon]. Qed.

(** Move the goal and the hypotheses from [Qc] to [Q]. *)
Ltac qc_to_q :=
  unfold Qcle, Qclt in *; rewrite ?Qc_eq_Q in *; autorewrite with qcs in *.

Ltac qc_lra := qc_to_q; lra.
Ltac qc_nra := qc_to_q; nra.

Definition qsum (l : list Qc) : Qc := foldr Qcplus 0%Qc l.

Lemma qsum_nil : qsum [] = 0%Qc.
Proof. done. Qed.
Lemma qsum_cons a l : qsum (a :: l) = (a + qsum l)%Qc.
Proof. done. Qed.
#[global] Opaque qsum.

Lemma qsum_app l k : qsum (l ++ k) = (qsum l + qsum k)%Qc.
Proof.
  induction l as [|a l IH]; csimpl; rewrite ?qsum_nil, ?qsum_cons, ?IH; ring.
Qed.

Lemma qsum_nonneg l : Forall (λ a, 0 <= a)%Qc l → (0 <= qsum l)%Qc.
Proof. induction 1; rewrite ?qsum_nil, ?qsum_cons; qc_lra. Qed.

Lemma qsum_le l k : Forall2 Qcle l k → (qsum l <= qsum k)%Qc.
Proof. induction 1; rewrite ?qsum_nil, ?qsum_cons; qc_lra. Qed.

Lemma qsum_scale {A} (f : A → Qc) c l :
  qsum ((λ a, f a * c)%Qc <$> l) = (qsum (f <$> l) * c)%Qc.
Proof.
  induction l as [|a l IH]; csimpl; rewrite ?qsum_nil, ?qsum_cons, ?IH; ring.
Qed.

Lemma qsum_const {A} (c : Qc) (l : list A) :
  qsum ((λ _, c) <$> l) = (Q2Qc (inject_Z (Z.of_nat (length l))) * c)%Qc.
Proof.
  induction l as [|a l IH]; csimpl; rewrite ?qsum_nil, ?qsum_cons, ?IH.
  - change (inject_Z (Z.of_nat 0)) with 0%Q. qc_lra.
  - replace (Z.of_nat (S (length l))) with (Z.of_nat (length l) + 1)%Z by lia.
    qc_to_q. rewrite inject_Z_plus. ring.
Qed.

Lemma foldl_xadd_Num l acc :
  foldl fadd (Num acc) (Num <$> l) = Num (acc + qsum l)%Qc.
Proof.
  revert acc. induction l as [|a l IH]; intros acc; simpl.
  - rewrite qsum_nil. f_equal. ring.
  - rewrite IH, qsum_cons. f_equal. ring.
Qed.

Lemma fsum_Num l : fsum (Num <$> l) = Num (qsum l).
Proof. unfold fsum. simpl. rewrite foldl_xadd_Num. f_equal. qc_lra. Qed.

(** Comparisons of finite values. *)
Lemma xltb_Num a b : fltb (Num a) (Num b) = true ↔ (a < b)%Qc.
Proof.
  simpl. rewrite negb_true_iff, <- not_true_iff_false, Qle_bool_iff.
  unfold Qclt. split; lra.
Qed.

Lemma xltb_Num_false a b : fltb (Num a) (Num b) = false ↔ (b <= a)%Qc.
Proof. simpl. rewrite negb_false_iff, Qle_bool_iff. done. Qed.

Lemma xleb_Num a b : fleb (Num a) (Num b) = true ↔ (a <= b)%Qc.
Proof. simpl. by rewrite Qle_bool_iff. Qed.

Lemma fquot_Num a b : b ≠ 0%Qc → fquot (Num a) (Num b) = Num (a / b)%Qc.
Proof.
  intros Hb. simpl. destruct (Z.eqb_spec (Qnum (this b)) 0) as [E|]; [|done].
  exfalso. apply Hb. qc_to_q. destruct b as [[n d] ?]. simpl in E. by subst n.
Qed.

Lemma fdiv_Num a b : b ≠ 0%Qc → fdiv (Num a) (Num b) = Ok (Num (a / b)%Qc).
Proof.
  intros Hb. unfold fdiv. rewrite fquot_Num by done. simpl.
  destruct (Qle_bool b _ && Qle_bool _ b) eqn:E; [|done].
  apply andb_true_iff in E as [E1 E2]. apply Qle_bool_iff in E1, E2.
  exfalso. apply Hb. qc_to_q. lra.
Qed.

Lemma fmin_Num a b : ∃ c, fmin (Num a) (Num b) = Num c ∧ (c <= a ∧ c <= b)%Qc ∧ (c = a ∨ c = b).
Proof.
  unfold fmin. destruct (fltb (Num b) (Num a)) eqn:E.
  - apply xltb_Num in E. exists b. repeat split; [qc_lra|qc_lra|auto].
  - apply xltb_Num_false in E. exists a. repeat split; [qc_lra|qc_lra|auto].
Qed.

Lemma fmax_Num a b : ∃ c, fmax (Num a) (Num b) = Num c ∧ (a <= c ∧ b <= c)%Qc ∧ (c = a ∨ c = b).
Proof.
  unfold fmax. destruct (fltb (Num a) (Num b)) eqn:E.
  - apply xltb_Num in E. exists b. repeat split; [qc_lra|qc_lra|auto].
  - apply xltb_Num_false in E. exists a. repeat split; [qc_lra|qc_lra|auto].
Qed.

(** [int(x)] rounds a nonnegative value down. *)
Lemma trunc_nonneg (q : Qc) :
  (0 <= q)%Qc → ∃ z, trunc (Num q) = Ok z ∧ (0 <= z)%Z ∧
    (inject_Z z <= this q)%Q ∧ (this q < inject_Z z + 1)%Q.
Proof.
  intros Hq. simpl. destruct q as [[n d] Hc]. unfold Qcle in Hq. simpl in *.
  unfold Qle in Hq. simpl in Hq.
  exists (Z.quot n (Zpos d)). rewrite Z.quot_div_nonneg by lia.
  pose proof (Z.div_mod n (Zpos d) ltac:(lia)).
  pose proof (Z.mod_pos_bound n (Zpos d) ltac:(lia)).
  pose proof (Z.div_pos n (Zpos d) ltac:(lia) ltac:(lia)).
  split; [done|]. unfold Qle, Qlt. simpl. split; [done|split]; nia.
Qed.

(** ** Finite values *)

Definition fin (x : xnum) : Prop := ∃ q, x = Num q.
Definition nonneg (x : xnum) : Prop := ∃ q, x = Num q ∧ (0 <= q)%Qc.
Definition pos (x : xnum) : Prop := ∃ q, x = Num q ∧ (0 < q)%Qc.
(** A finite value or [+inf]: an upper limit. *)
Definition upper (x : xnum) : Prop := fin x ∨ x = PInf.

Create HintDb fin.

Lemma fin_Num q : fin (Num q).
Proof. by exists q. Qed.
Lemma pos_nonneg x : pos x → nonneg x.
Proof. intros (q & -> & ?). exists q. split; [done|qc_lra]. Qed.
Lemma nonneg_fin x : nonneg x → fin x.
Proof. intros (q & -> & _). by exists q. Qed.
Lemma pos_fin x : pos x → fin x.
Proof. intros (q & -> & _). by exists q. Qed.
Lemma fin_of_Z z : fin (of_Z z).
Proof. apply fin_Num. Qed.
Lemma fin_lit n d : fin (lit n d).
Proof. apply fin_Num. Qed.
Lemma fin_add x y : fin x → fin y → fin (fadd x y).
Proof. intros [a ->] [b ->]. apply fin_Num. Qed.
Lemma fin_sub x y : fin x → fin y → fin (fsub x y).
Proof. intros [a ->] [b ->]. apply fin_Num. Qed.
Lemma fin_mul x y : fin x → fin y → fin (fmul x y).
Proof. intros [a ->] [b ->]. apply fin_Num. Qed.
Lemma fin_max x y : fin x → fin y → fin (fmax x y).
Proof. intros [a ->] [b ->]. destruct (fmax_Num a b) as (c & -> & _). apply fin_Num. Qed.
Lemma fin_min x y : upper x → fin y → fin (fmin x y).
Proof.
  intros [[a ->]| ->] [b ->].
  - destruct (fmin_Num a b) as (c & -> & _). apply fin_Num.
  - apply fin_Num.
Qed.
Lemma pos_mul x y : pos x → pos y → pos (fmul x y).
Proof.
  intros (a & -> & ?) (b & -> & ?). exists (a * b)%Qc. split; [done|]. qc_nra.
Qed.
Lemma pos_add x y : pos x → pos y → pos (fadd x y).
Proof. intros (a & -> & ?) (b & -> & ?). exists (a + b)%Qc. split; [done|]. qc_lra. Qed.
Lemma pos_max_l x y : pos x → fin y → pos (fmax x y).
Proof.
  intros (a & -> & ?) [b ->]. destruct (fmax_Num a b) as (c & -> & [? _] & _).
  exists c. split; [done|]. qc_lra.
Qed.
Lemma pos_max_r x y : fin x → pos y → pos (fmax x y).
Proof.
  intros [a ->] (b & -> & ?). destruct (fmax_Num a b) as (c & -> & [_ ?] & _).
  exists c. split; [done|]. qc_lra.
Qed.
Lemma pos_min x y : pos x → pos y → pos (fmin x y).
Proof.
  intros (a & -> & ?) (b & -> & ?). destruct (fmin_Num a b) as (c & -> & _ & [-> | ->]).
  - by exists a.
  - by exists b.
Qed.
Lemma pos_of_Z z : (0 < z)%Z → pos (of_Z z).
Proof.
  intros Hz. exists (Q2Qc (inject_Z z)). split; [done|]. qc_to_q.
  change 0%Q with (inject_Z 0). by rewrite <- Zlt_Qlt.
Qed.
Lemma pos_lit n d : (0 < n)%Z → pos (lit n d).
Proof. intros Hn. exists (Q2Qc (n # d)). split; [done|]. qc_to_q. unfold Qlt. simpl. lia. Qed.
Lemma upper_fin x : fin x → upper x.
Proof. by left. Qed.
Lemma upper_add x y : upper x → fin y → upper (fadd x y).
Proof. intros [[a ->]| ->] [b ->]; [left; apply fin_Num|by right]. Qed.

Lemma pos_ne0 q : (0 < q)%Qc → q ≠ 0%Qc.
Proof. intros Hq ->. qc_lra. Qed.

Lemma fdiv_fin x y : fin x → pos y → returns (fdiv x y) fin.
Proof.
  intros [a ->] (b & -> & Hb). eexists. split; [|apply fin_Num].
  apply fdiv_Num, pos_ne0, Hb.
Qed.

Lemma Qcdiv_pos a b : (0 < a)%Qc → (0 < b)%Qc → (0 < a / b)%Qc.
Proof.
  intros. qc_to_q. apply Qlt_shift_div_l; [done|]. lra.
Qed.

Lemma fdiv_pos x y : pos x → pos y → returns (fdiv x y) pos.
Proof.
  intros (a & -> & Ha) (b & -> & Hb). eexists. split; [by apply fdiv_Num, pos_ne0|].
  eexists. split; [done|by apply Qcdiv_pos].
Qed.

Lemma trunc_fin x : fin x → returns (trunc x) (λ _, True).
Proof. intros [a ->]. by eexists. Qed.

#[export] Hint Resolve fdiv_fin fdiv_pos trunc_fin fin_Num fin_of_Z fin_lit fin_add fin_sub fin_mul fin_max fin_min
  nonneg_fin pos_fin pos_mul pos_add pos_max_l pos_min upper_fin pos_nonneg upper_add : fin.

Ltac fin_auto := repeat split; simpl; eauto 12 with fin.

(** From here on the operations stay folded; [Num] arithmetic is exposed by
    the lemmas above. *)
#[global] Arguments fadd : simpl never.
#[global] Arguments fsub : simpl never.
#[global] Arguments fmul : simpl never.
#[global] Arguments fquot : simpl never.
#[global] Arguments fltb : simpl never.
#[global] Arguments fleb : simpl never.
#[global] Arguments feqb : simpl never.
#[global] Arguments of_Z : simpl never.
#[global] Arguments lit : simpl never.
#[global] Arguments trunc : simpl never.
#[global] Arguments fdiv : simpl never.
