(* ===== verification/Resources.v ===== *)
(** * The data shared by the allocators

    Allocations, prices, the resource scale and the record of which resource
    limits were hit (the class [ResourceLimited] of
    allocators/ptas_algorithm.py). *)

From S2P Require Import Prelude PyDict PyFloat.

(** The two resources, the keys ["cache"] and ["mem_bw"] of the code's
    dictionaries. *)
Inductive kind := Cache | MemBw.

#[export] Instance kind_eq_dec : EqDecision kind.
Proof. solve_decision. Defined.

(** [{"cache": .., "mem_bw": ..}] used as a price. *)
Record price (F : Type) := Price { p_cache : F; p_mem_bw : F }.
Arguments Price {F}.
Arguments p_cache {F}.
Arguments p_mem_bw {F}.

(** The price vector of the binary search: the current price and the two ends
    of the searched segment. *)
Record price_vector (F : Type) := PriceVector {
  pv_cur : price F;
  pv_left : price F;
  pv_right : price F;
}.
Arguments PriceVector {F}.
Arguments pv_cur {F}.
Arguments pv_left {F}.
Arguments pv_right {F}.

(** A user's share: [{"cache": .., "mem_bw": ..}], with the key ["price"]
    once [SpiritAllocator.allocate] has added it. *)
Record alloc (F : Type) := Alloc {
  a_cache : F;
  a_mem_bw : F;
  a_price : option (price_vector F);
}.
Arguments Alloc {F}.
Arguments a_cache {F}.
Arguments a_mem_bw {F}.
Arguments a_price {F}.

Definition share {F} (c b : F) : alloc F := Alloc c b None.

Definition a_get {F} (k : kind) (a : alloc F) : F :=
  match k with Cache => a_cache a | MemBw => a_mem_bw a end.

Definition a_set {F} (k : kind) (x : F) (a : alloc F) : alloc F :=
  match k with
  | Cache => Alloc x (a_mem_bw a) (a_price a)
  | MemBw => Alloc (a_cache a) x (a_price a)
  end.

(** [old.update(new)] *)
Definition a_update {F} (old new : alloc F) : alloc F :=
  Alloc (a_cache new) (a_mem_bw new)
        (match a_price new with Some p => Some p | None => a_price old end).

(** The cluster's resources: total amounts, and the per-user minima and
    maxima, which may be absent keys. *)
Record scale (F : Type) := Scale {
  s_cache : F;
  s_mem_bw : F;
  s_min_cache : option F;
  s_max_cache : option F;
  s_min_mem_bw : option F;
  s_max_mem_bw : option F;
}.
Arguments Scale {F}.
Arguments s_cache {F}.
Arguments s_mem_bw {F}.
Arguments s_min_cache {F}.
Arguments s_max_cache {F}.
Arguments s_min_mem_bw {F}.
Arguments s_max_mem_bw {F}.

Definition s_get {F} (k : kind) (s : scale F) : F :=
  match k with Cache => s_cache s | MemBw => s_mem_bw s end.

(** A deployed allocation: MB of cache and Mbps of bandwidth, as integers. *)
Record units := Units { u_cache : Z; u_mem_bw : Z }.

Definition u_get (k : kind) (u : units) : Z :=
  match k with Cache => u_cache u | MemBw => u_mem_bw u end.

(** ** Which limits were hit *)

Record resource_limited := ResourceLimited {
  cache_min_limit : bool;
  cache_max_limit : bool;
  mem_bw_min_limit : bool;
  mem_bw_max_limit : bool;
}.

Definition no_limit : resource_limited := ResourceLimited false false false false.

Definition rl_update (self other : resource_limited) : resource_limited :=
  ResourceLimited
    (cache_min_limit self || cache_min_limit other)
    (cache_max_limit self || cache_max_limit other)
    (mem_bw_min_limit self || mem_bw_min_limit other)
    (mem_bw_max_limit self || mem_bw_max_limit other).

Definition is_resource_limited (r : resource_limited) : bool :=
  cache_min_limit r || cache_max_limit r || mem_bw_min_limit r || mem_bw_max_limit r.

(** [update] only ever adds limits. *)
Lemma rl_update_limited a b :
  is_resource_limited (rl_update a b) = is_resource_limited a || is_resource_limited b.
Proof. destruct a as [[] [] [] []], b as [[] [] [] []]; reflexivity. Qed.

Lemma rl_update_no_limit a : rl_update a no_limit = a.
Proof. destruct a as [[] [] [] []]; reflexivity. Qed.

(** ** Equal shares

    [int(scale / n)], with bandwidth converted from Gbps to Mbps: what every
    allocator hands out when it divides a VM's resources equally. *)
Section equal_share.
Context {F : Type} `{PyFloat F}.
Local Open Scope py_scope.

Definition equal_units (sc : scale F) (n : Z) : res units :=
  c ← s_cache sc / of_Z n;
  c ← trunc c;
  b ← s_mem_bw sc / of_Z n;
  b ← trunc (b * of_Z 1024);
  Ok (Units c b).

(** [int(share * scale)] of a computed share. *)
Definition scale_units (sc : scale F) (a : alloc F) : res units :=
  c ← trunc (a_cache a * s_cache sc);
  b ← trunc (a_mem_bw a * s_mem_bw sc * of_Z 1024);
  Ok (Units c b).
End equal_share.
