(* ===== verification/Ptas.v ===== *)
(** * The per-user price-taking search: allocators/ptas_algorithm.py

    Given prices, a budget and the estimator's utility, [ptas_algorithm] picks
    the share of one user: it scores the static allocation, the last
    allocation and the grid points of the search range, and returns the best
    one it can afford. *)

From S2P Require Import Prelude PyDict PyFloat Resources.

Section Ptas.
Context {F : Type} `{PyFloat F}.
Local Open Scope py_scope.

Definition micro : F := lit 1 1000000.

(** ** Resource limits *)

Definition scale_min (k : kind) (rs : scale F) : res F :=
  or_raise KeyError (match k with Cache => s_min_cache rs | MemBw => s_min_mem_bw rs end).
Definition scale_max (k : kind) (rs : scale F) : res F :=
  or_raise KeyError (match k with Cache => s_max_cache rs | MemBw => s_max_mem_bw rs end).

(** The keys the search needs, with the code's defaults. *)
Definition ensure_fields (rs : scale F) : scale F :=
  Scale (s_cache rs) (s_mem_bw rs)
    (Some (default (of_Z 0) (s_min_cache rs)))
    (Some (default finf (s_max_cache rs)))
    (Some (default (of_Z 0) (s_min_mem_bw rs)))
    (Some (default finf (s_max_mem_bw rs))).

(** [check_resource_limits]: the verdict, and the updated record of limits
    when one was passed. *)
Definition check_resource_limits (cache_alloc mem_bw_alloc : F) (rs : scale F)
    (max_util : bool) (rl : option resource_limited) (margin : price F)
    : res (bool * option resource_limited) :=
  let cache_actual := cache_alloc * s_cache rs in
  let mem_bw_actual := mem_bw_alloc * s_mem_bw rs in
  let cache_margin := p_cache margin * s_cache rs in
  let mem_bw_margin := p_mem_bw margin * s_mem_bw rs in
  min_c ← scale_min Cache rs;
  max_c ← scale_max Cache rs;
  min_b ← scale_min MemBw rs;
  max_b ← scale_max MemBw rs;
  let min_c := min_c - cache_margin in
  let max_c := max_c + cache_margin in
  let min_b := min_b - mem_bw_margin in
  let max_b := max_b + mem_bw_margin in
  let record l := match rl with
                  | Some r => Some (if max_util then rl_update r l else r)
                  | None => None
                  end in
  if (cache_actual <? min_c) || (cache_actual >? max_c) then
    Ok (false, record (ResourceLimited (cache_actual <? min_c) (cache_actual >? max_c) false false))
  else if (mem_bw_actual <? min_b) || (mem_bw_actual >? max_b) then
    Ok (false, record (ResourceLimited false false (mem_bw_actual <? min_b) (mem_bw_actual >? max_b)))
  else Ok (true, rl).

Definition no_margin : price F := Price (lit 0 1) (lit 0 1).

(** Cap a share at the per-user maxima. *)
Definition clip_allocation (cache_alloc mem_bw_alloc : F) (rs : scale F) : res (F * F) :=
  max_c ← scale_max Cache rs;
  max_b ← scale_max MemBw rs;
  c ← fmin max_c (cache_alloc * s_cache rs) / s_cache rs;
  b ← fmin max_b (mem_bw_alloc * s_mem_bw rs) / s_mem_bw rs;
  Ok (c, b).

(** ** Grid arithmetic *)

(** [max(1., min(int(1.0 / epsilon), m)) * epsilon] *)
Definition chunks_to_share (epsilon : F) (m : Z) : res F :=
  q ← of_Z 1 / epsilon;
  n ← trunc q;
  Ok (fmax (of_Z 1) (of_Z (Z.min n m)) * epsilon).

(** [int((budget - cache * price_c) / max(1e-6, price_b) / epsilon)]: the
    chunks of bandwidth the rest of the budget buys. *)
Definition affordable_chunks (budget epsilon cache_alloc : F) (pr : price F) : res Z :=
  q ← (budget - cache_alloc * p_cache pr) / fmax micro (p_mem_bw pr);
  q ← q / epsilon;
  trunc q.

(** ** The estimator's interface

    [est user cache_mb bw_gbps] is [estimator.get_estimation]. *)
Context (est : Z → F → F → res F).

Definition estimate (user : Z) (rs : scale F) (c b : F) : res F :=
  est user (c * s_cache rs) (b * s_mem_bw rs).

(** ** The last allocation *)

(** Not enough budget for the last cache share: keep the ratio of the two
    resources, subject to the minima (lines 152-203). *)
Definition ratio_alloc (last : alloc F) (budget epsilon : F) (pr : price F) (rs : scale F)
    : res (F * F) :=
  ratio ← a_cache last / a_mem_bw last;
  min_c ← scale_min Cache rs;
  min_cache_norm ← min_c / s_cache rs;
  min_b ← scale_min MemBw rs;
  min_mem_bw_norm ← min_b / s_mem_bw rs;
  let min_cache_alloc := fmax epsilon min_cache_norm in
  corresponding_mem_bw ← min_cache_alloc / ratio;
  let min_mem_bw_alloc := fmax epsilon min_mem_bw_norm in
  let corresponding_cache := min_mem_bw_alloc * ratio in
  let option1_cost := min_cache_alloc * p_cache pr + corresponding_mem_bw * p_mem_bw pr in
  let option2_cost := corresponding_cache * p_cache pr + min_mem_bw_alloc * p_mem_bw pr in
  '(c, b) ←
    (if (option1_cost >? budget) && (option2_cost >? budget) then
       if option1_cost <=? option2_cost then
         b ← (budget - min_cache_alloc * p_cache pr) / p_mem_bw pr;
         Ok (min_cache_alloc, b)
       else
         c ← (budget - min_mem_bw_alloc * p_mem_bw pr) / p_cache pr;
         Ok (c, min_mem_bw_alloc)
     else
       d ← p_mem_bw pr / ratio;
       c ← budget / (p_cache pr + d);
       b ← c / ratio;
       if c <? min_cache_norm then
         b' ← (budget - min_cache_norm * p_cache pr) / p_mem_bw pr;
         Ok (min_cache_norm, b')
       else if b <? min_mem_bw_norm then
         c' ← (budget - min_mem_bw_norm * p_mem_bw pr) / p_cache pr;
         Ok (c', min_mem_bw_norm)
       else Ok (c, b));
  qc ← c / epsilon;
  nc ← trunc qc;
  qb ← b / epsilon;
  nb ← trunc qb;
  Ok (fmax epsilon (of_Z nc * epsilon), fmax epsilon (of_Z nb * epsilon)).

(** The share the last allocation suggests under the current budget. *)
Definition last_candidate (last : alloc F) (budget epsilon : F) (pr : price F) (rs : scale F)
    : res (F * F) :=
  if (budget - a_cache last * p_cache pr) >? of_Z 0 then
    m ← affordable_chunks budget epsilon (a_cache last) pr;
    b ← chunks_to_share epsilon m;
    max_b ← scale_max MemBw rs;
    b ← fmin max_b (b * s_mem_bw rs) / s_mem_bw rs;
    Ok (a_cache last, b)
  else ratio_alloc last budget epsilon pr rs.

Definition check_last_allocation (user : Z) (last_allocation : option (dict Z (alloc F)))
    (budget epsilon : F) (pr : price F) (rs : scale F) (max_util : F)
    : res (option (alloc F) * F) :=
  match last_allocation ≫= (λ d, dget d user) with
  | None => Ok (None, max_util)
  | Some last =>
      '(c, b) ← last_candidate last budget epsilon pr rs;
      '(ok, _) ← check_resource_limits c b rs false None no_margin;
      if ok : bool then
        last_util ← estimate user rs c b;
        if last_util >? max_util then Ok (Some (share c b), last_util)
        else Ok (None, max_util)
      else Ok (None, max_util)
  end.

(** ** Parameters of the search *)

Record ptas_params := PtasParams {
  margin_in_budget : F;
  reallocation_threshold : F;
  prefer_last_allocation : bool;
  clip_to_min_max : bool;
}.

(** The default arguments, which every caller uses. *)
Definition default_params : ptas_params := PtasParams (lit 97 100) (lit 1005 1000) true true.

(** [search_range]: the interval of each resource. *)
Record search_dict := SearchDict { sr_cache : F * F; sr_mem_bw : F * F }.

Definition get_search_dict (cur : alloc F) (search_range : F) : search_dict :=
  SearchDict
    (fmax (lit 0 1) (a_cache cur - search_range), fmin (lit 1 1) (a_cache cur + search_range))
    (fmax (lit 0 1) (a_mem_bw cur - search_range), fmin (lit 1 1) (a_mem_bw cur + search_range)).

Definition get_static_allocation (num_users : Z) : res (alloc F) :=
  c ← lit 1 1 / of_Z num_users;
  b ← lit 1 1 / of_Z num_users;
  Ok (share c b).

(** ** The static allocation *)

(** Shift the static cache share into the search range. *)
Definition clamp_cache (c : F) (range : F * F) : F :=
  if c <? range.1 then range.1 else if c >? range.2 then range.2 else c.

(** A bandwidth share outside its limits is replaced, and the cache share
    with it (lines 344-365). *)
Definition repair_static (static : alloc F) (c b budget : F) (pr : price F) (rs : scale F)
    : res (F * F) :=
  max_b ← scale_max MemBw rs;
  min_b ← scale_min MemBw rs;
  if (max_b <? b * s_mem_bw rs) || (min_b >? b * s_mem_bw rs) then
    q ← fmin max_b (fmax min_b (b * s_mem_bw rs)) / s_mem_bw rs;
    b' ← trunc q;
    q ← (budget - of_Z b' * p_mem_bw pr) / p_cache pr;
    c' ← trunc q;
    max_c ← scale_max Cache rs;
    min_c ← scale_min Cache rs;
    if (max_c <? of_Z c' * s_cache rs) || (min_c >? of_Z c' * s_cache rs) then
      Ok (a_cache static, a_mem_bw static)
    else Ok (of_Z c', of_Z b')
  else Ok (c, b).

Definition static_candidate (user : Z) (last_static : option (dict Z (alloc F)))
    (budget epsilon : F) (pr : price F) (rs : scale F) (sr : search_dict) (P : ptas_params)
    : res (option (alloc F) * F) :=
  match last_static ≫= (λ d, dget d user) with
  | None => Ok (None, lit 0 1)
  | Some static =>
      let c := clamp_cache (a_cache static) (sr_cache sr) in
      m ← affordable_chunks budget epsilon c pr;
      b ← chunks_to_share epsilon m;
      '(c, b) ← repair_static static c b budget pr rs;
      util ← estimate user rs c b;
      util ← util / reallocation_threshold P;
      Ok (Some (share c b), util)
  end.

(** ** One grid point *)

(** The share of grid point [cache] (lines 421-431). *)
Definition grid_point (budget epsilon : F) (pr : price F) (cache : Z) : res (F * F) :=
  let c := of_Z cache * epsilon in
  m ← affordable_chunks budget epsilon c pr;
  q ← lit 1 1 / epsilon;
  n ← trunc q;
  let m := Z.min n m in
  m ← (if fabs (budget - c) <? micro then (q ← budget / epsilon; trunc q) else Ok m);
  Ok (c, of_Z m * epsilon).

(** [last_allocation and threshold > 1.0 and c < last_allocation[user]["cache"]]:
    the point takes cache away from the user. *)
Definition shrinks_cache (user : Z) (last_allocation : option (dict Z (alloc F)))
    (P : ptas_params) (c : F) : res bool :=
  match last_allocation with
  | None | Some [] => Ok false
  | Some d =>
      if reallocation_threshold P >? lit 1 1 then
        last ← dgetE d user;
        Ok (c <? a_cache last)
      else Ok false
  end.

(** The share and estimated utility of grid point [cache], or [None] when
    the point is skipped: far outside the limits, or over budget.  Nothing
    here depends on the points seen before (lines 421-470). *)
Definition eval_point (user : Z) (budget epsilon : F) (pr : price F)
    (last_allocation : option (dict Z (alloc F))) (rs : scale F) (P : ptas_params)
    (cache : Z) : res (option (alloc F * F)) :=
  '(c, b) ← grid_point budget epsilon pr cache;
  mem_bw_margin ← (lit 2 1 * epsilon * p_cache pr) / fmax micro (p_mem_bw pr);
  '(near, _) ← check_resource_limits c b rs false None
                 (Price (epsilon + micro) (mem_bw_margin + micro));
  if negb near then Ok None else
  '(c, b) ← (if clip_to_min_max P then clip_allocation c b rs else Ok (c, b));
  let total_cost := c * p_cache pr + b * p_mem_bw pr in
  if total_cost * margin_in_budget P <=? budget then
    est_util ← estimate user rs c b;
    shrinks ← shrinks_cache user last_allocation P c;
    est_util ← (if shrinks : bool then est_util / reallocation_threshold P else Ok est_util);
    Ok (Some (share c b, est_util))
  else Ok None.

(** ** The search loop *)

Record search_state := SearchState {
  best_alloc : option (alloc F);
  max_util : F;
  limited : resource_limited;
  checked_point : Z;
  closest_to_last : option (alloc F);
  closest_to_last_util : F;
  gap_to_last : F;
}.

Definition set_checked (n : Z) (s : search_state) : search_state :=
  SearchState (best_alloc s) (max_util s) (limited s) n
    (closest_to_last s) (closest_to_last_util s) (gap_to_last s).
Definition set_limited (l : resource_limited) (s : search_state) : search_state :=
  SearchState (best_alloc s) (max_util s) l (checked_point s)
    (closest_to_last s) (closest_to_last_util s) (gap_to_last s).
Definition set_best (a : alloc F) (u : F) (s : search_state) : search_state :=
  SearchState (Some a) u (limited s) (checked_point s)
    (closest_to_last s) (closest_to_last_util s) (gap_to_last s).
Definition set_closest (a : alloc F) (u gap : F) (s : search_state) : search_state :=
  SearchState (best_alloc s) (max_util s) (limited s) (checked_point s) (Some a) u gap.

(** Remember the accepted point closest to the last allocation. *)
Definition track_closest (user : Z) (last_allocation : option (dict Z (alloc F)))
    (a : alloc F) (u : F) (s : search_state) : search_state :=
  match last_allocation ≫= (λ d, dget d user) with
  | None => s
  | Some last =>
      let dc := a_cache a - a_cache last in
      let db := a_mem_bw a - a_mem_bw last in
      let distance := dc * dc + db * db in
      if distance <? gap_to_last s then set_closest a u distance s else s
  end.

(** What the loop does with an evaluated point (lines 472-518). *)
Definition visit_point (user : Z) (last_allocation : option (dict Z (alloc F)))
    (rs : scale F) (a : alloc F) (est_util : F) (s : search_state) : res (flow search_state) :=
  '(ok, l) ← check_resource_limits (a_cache a) (a_mem_bw a) rs
               (est_util >? max_util s) (Some (limited s)) no_margin;
  let s := set_limited (default (limited s) l) s in
  if negb ok then Ok (Next s) else
  let s := track_closest user last_allocation a est_util s in
  if est_util >? max_util s then
    let s := set_best a est_util s in
    if is_resource_limited (limited s) then Ok (Stop s) else Ok (Next s)
  else Ok (Next s).

Definition in_search_range (epsilon : F) (sr : search_dict) (cache : Z) : bool :=
  negb ((epsilon * of_Z cache <? (sr_cache sr).1) || (epsilon * of_Z cache >? (sr_cache sr).2)).

(** One iteration (lines 411-536). *)
Definition search_step (user : Z) (budget epsilon : F) (pr : price F)
    (last_allocation : option (dict Z (alloc F))) (rs : scale F) (sr : search_dict)
    (P : ptas_params) (cache : Z) (s : search_state) : res (flow search_state) :=
  if negb (in_search_range epsilon sr cache) then Ok (Next s) else
  let s := set_checked (checked_point s + 1) s in
  if of_Z cache * epsilon * p_cache pr >? budget then Ok (Stop s) else
  o ← eval_point user budget epsilon pr last_allocation rs P cache;
  match o with
  | None => Ok (Next s)
  | Some (a, u) => visit_point user last_allocation rs a u s
  end.

(** [range(1, int(1.0 / epsilon) + 1)] *)
Definition grid (epsilon : F) : res (list Z) :=
  q ← lit 1 1 / epsilon;
  n ← trunc q;
  Ok (seqZ 1 n).

Definition init_search (best : option (alloc F)) (util : F) : search_state :=
  SearchState best util no_limit 0 None fninf finf.

(** Prefer the point closest to the last allocation when the best one is not
    significantly better (lines 540-544). *)
Definition select_alloc (P : ptas_params) (s : search_state) : res (option (alloc F)) :=
  match closest_to_last s with
  | Some a =>
      if prefer_last_allocation P then
        q ← max_util s / reallocation_threshold P;
        if q <? closest_to_last_util s then Ok (Some a) else Ok (best_alloc s)
      else Ok (best_alloc s)
  | None => Ok (best_alloc s)
  end.

Definition ptas_search (user : Z) (epsilon budget : F) (pr : price F)
    (last_allocation last_static : option (dict Z (alloc F))) (rs : scale F)
    (sr : search_dict) (P : ptas_params) : res search_state :=
  '(best, util) ← static_candidate user last_static budget epsilon pr rs sr P;
  let budget := budget * margin_in_budget P in
  '(last, util) ← check_last_allocation user last_allocation budget epsilon pr rs util;
  let best := match last with Some a => Some a | None => best end in
  points ← grid epsilon;
  for_each (search_step user budget epsilon pr last_allocation rs sr P) points
    (init_search best util).

Definition ptas_algorithm (user : Z) (epsilon budget : F) (pr : price F)
    (last_allocation last_static : option (dict Z (alloc F))) (rs : scale F)
    (sr : search_dict) (P : ptas_params)
    : res (option (alloc F) * Z * resource_limited) :=
  let rs := ensure_fields rs in
  s ← ptas_search user epsilon budget pr last_allocation last_static rs sr P;
  a ← select_alloc P s;
  Ok (a, checked_point s, limited s).
End Ptas.

Arguments ptas_params : clear implicits.
Arguments search_dict : clear implicits.
Arguments search_state : clear implicits.
