(* ===== verification/PtasFacts.v ===== *)
(** * Correctness of the per-user search

    Where the returned share comes from, which limits and budget it respects,
    and how close to the best visited point it is.  Everything in section
    [generic] holds for any floats with the order laws, binary64 included. *)

From S2P Require Import Prelude PyDict PyFloat Exact Resources Ptas.

Section generic.
Context {F : Type} `{PyFloatLaws F}.
Context (est : Z → F → F → res F).

(** [x] times the total [total] of a resource lies between the per-user
    minimum [lo] and maximum [hi].  The code moves both bounds by a margin,
    0.0 of the total where it decides what may be returned. *)
Definition between (total lo hi x : F) : Prop :=
  let slack := (lit 0 1 * total)%py in
  fltb (x * total)%py (lo - slack)%py = false ∧ fltb (hi + slack)%py (x * total)%py = false.

(** Both resources of the share lie between the per-user minima and maxima
    the scale holds. *)
Definition within_limits (rs : scale F) (a : alloc F) : Prop :=
  ∃ min_cache max_cache min_bw max_bw,
    s_min_cache rs = Some min_cache ∧ s_max_cache rs = Some max_cache ∧
    s_min_mem_bw rs = Some min_bw ∧ s_max_mem_bw rs = Some max_bw ∧
    between (s_cache rs) min_cache max_cache (a_cache a) ∧
    between (s_mem_bw rs) min_bw max_bw (a_mem_bw a).

(** [check_resource_limits] without a margin decides it, whatever record of
    limits it is given. *)
Lemma check_resource_limits_spec c b rs mu rl v l :
  check_resource_limits c b rs mu rl no_margin = Ok (v, l) →
  v = true ↔ within_limits rs (share c b).
Proof.
  unfold check_resource_limits, scale_min, scale_max, within_limits, between. intros Hc. inv_ok.
  repeat match goal with E : or_raise _ _ = Ok _ |- _ => apply or_raise_Ok in E end.
  split.
  - intros ->. repeat case_match; simplify_eq.
    repeat match goal with E : _ || _ = false |- _ => apply orb_false_iff in E as [? ?] end.
    eauto 15.
  - intros (? & ? & ? & ? & ? & ? & ? & ? & [Hlc Hhc] & [Hlb Hhb]). simplify_eq.
    simpl in *. rewrite Hlc, Hhc, Hlb, Hhb in *. simpl in *. by simplify_eq.
Qed.

(** Limits are recorded only when the point is better than the best so far. *)
Lemma check_resource_limits_record c b rs mu r m v l :
  check_resource_limits c b rs mu (Some r) m = Ok (v, l) →
  ∃ r', l = Some (rl_update r r') ∧ (v = true ∨ mu = false → r' = no_limit)
    ∧ (v = false → mu = true → is_resource_limited r' = true).
Proof.
  unfold check_resource_limits. intros. inv_ok.
  repeat case_match; simplify_eq; unfold is_resource_limited; simpl.
  all: try (eexists (ResourceLimited _ _ _ _); split; [reflexivity|]; simpl; split; [naive_solver|]).
  all: try (exists no_limit; rewrite ?rl_update_no_limit; naive_solver).
  all: intros; repeat match goal with
    | E : _ || _ = true |- _ => apply orb_true_iff in E as [-> | ->] end;
    by rewrite ?orb_true_r.
Qed.

Section search.
Context (user : Z) (budget epsilon : F) (pr : price F).
Context (last_allocation : option (dict Z (alloc F))) (rs : scale F).
Context (sr : search_dict F) (P : ptas_params F).

Let step := search_step est user budget epsilon pr last_allocation rs sr P.
Let eval := eval_point est user budget epsilon pr last_allocation rs P.

(** The loop is left at grid point [cache]: its cache share alone is over
    the budget. *)
Definition over_budget (cache : Z) : Prop :=
  in_search_range epsilon sr cache = true ∧
  fltb budget (of_Z cache * epsilon * p_cache pr)%py = true.

(** An accepted grid point: evaluated, and within the limits. *)
Record grid_candidate (cache : Z) (a : alloc F) (u : F) : Prop := {
  gc_range : in_search_range epsilon sr cache = true;
  gc_afford : fltb budget (of_Z cache * epsilon * p_cache pr)%py = false;
  gc_eval : eval cache = Ok (Some (a, u));
  gc_limits : within_limits rs a;
}.

Lemma track_closest_inv a u s :
  best_alloc (track_closest user last_allocation a u s) = best_alloc s ∧
  max_util (track_closest user last_allocation a u s) = max_util s ∧
  limited (track_closest user last_allocation a u s) = limited s ∧
  (closest_to_last (track_closest user last_allocation a u s) = closest_to_last s ∧
   closest_to_last_util (track_closest user last_allocation a u s) = closest_to_last_util s ∨
   closest_to_last (track_closest user last_allocation a u s) = Some a ∧
   closest_to_last_util (track_closest user last_allocation a u s) = u).
Proof. unfold track_closest. repeat case_match; naive_solver. Qed.

(** What the loop body does with a point it evaluated. *)
Lemma visit_point_cases a u s fl :
  visit_point user last_allocation rs a u s = Ok fl →
  (¬ within_limits rs a ∧ ∃ l, flow_state fl = set_limited (rl_update (limited s) l) s ∧ fl = Next (flow_state fl))
  ∨ (within_limits rs a ∧
     let t := track_closest user last_allocation a u s in
     ((fltb (max_util s) u = true ∧ flow_state fl = set_best a u t ∧
       (is_resource_limited (limited s) = false → fl = Next (flow_state fl)))
      ∨ (fltb (max_util s) u = false ∧ fl = Next t))).
Proof.
  unfold visit_point. intros Hv. inv_ok. destruct x as [ok l].
  match goal with E : check_resource_limits _ _ _ _ _ _ = _ |- _ => rename E into Hc end.
  assert (Hv' : ok = true ↔ within_limits rs a) by exact (check_resource_limits_spec _ _ _ _ _ _ _ Hc).
  apply check_resource_limits_record in Hc as (r' & -> & Hr & _).
  destruct ok; simpl in *; [right|left].
  2: { inv_ok. split; [by rewrite <- Hv'|]. by exists r'. }
  split; [by apply Hv'|]. rewrite Hr, rl_update_no_limit in * by auto.
  replace (set_limited (limited s) s) with s in * by (by destruct s).
  destruct (track_closest_inv a u s) as (_ & Hmax & Hlim & _). rewrite Hmax in *.
  destruct (fltb (max_util s) u) eqn:Eu; [left|right; by inv_ok].
  split; [done|]. rewrite Hlim in *.
  destruct (is_resource_limited (limited s)); inv_ok; done.
Qed.

(** Where the two answers the loop may give come from. *)
Definition search_inv (best0 : option (alloc F)) (u0 : F) (points : list Z)
    (s : search_state F) : Prop :=
  (best_alloc s = best0 ∧ max_util s = u0 ∨
   ∃ c a, c ∈ points ∧ best_alloc s = Some a ∧ grid_candidate c a (max_util s)) ∧
  (∀ a, closest_to_last s = Some a →
    ∃ c, c ∈ points ∧ grid_candidate c a (closest_to_last_util s)).

(** The three ways an iteration goes. *)
Lemma search_step_cases cache s fl :
  step cache s = Ok fl →
  (fl = Next s ∧ in_search_range epsilon sr cache = false) ∨
  (fl = Stop (set_checked (checked_point s + 1) s) ∧ over_budget cache) ∨
  (¬ over_budget cache ∧ eval cache = Ok None ∧ fl = Next (set_checked (checked_point s + 1) s)) ∨
  (in_search_range epsilon sr cache = true ∧
   fltb budget (of_Z cache * epsilon * p_cache pr)%py = false ∧ ∃ a u, eval cache = Ok (Some (a, u)) ∧
    visit_point user last_allocation rs a u (set_checked (checked_point s + 1) s) = Ok fl).
Proof.
  unfold step, search_step, over_budget. fold eval.
  destruct (in_search_range epsilon sr cache) eqn:Er; simpl; [|intros; inv_ok; auto].
  destruct (fltb budget _) eqn:Eb; [intros; inv_ok; auto|].
  intros Hb. inv_ok. destruct x as [[a u]|]; [|inv_ok; naive_solver].
  right; right; right. eauto 10.
Qed.

Lemma search_step_inv best0 u0 points cache s fl :
  cache ∈ points → search_inv best0 u0 points s → step cache s = Ok fl →
  search_inv best0 u0 points (flow_state fl).
Proof.
  intros Hin [Hb Hc] Hs.
  apply search_step_cases in Hs as
    [[-> _]|[[-> _]|[(_ & _ & ->)|(Hr & Ha & a & u & He & Hv)]]]; try done.
  apply visit_point_cases in Hv as [(_ & l & -> & _)|(Hl & Hv)]; [done|].
  assert (Hg : grid_candidate cache a u) by done.
  destruct (track_closest_inv a u (set_checked (checked_point s + 1) s)) as (Eb & Em & _ & Ec).
  cbv zeta in Hv. set (t := track_closest _ _ _ _ _) in *. simpl in Eb, Em, Ec.
  assert (Hct : ∀ a', closest_to_last t = Some a' →
    ∃ c, c ∈ points ∧ grid_candidate c a' (closest_to_last_util t)).
  { intros a' Ha'. destruct Ec as [[E1 E2]|[E1 E2]]; rewrite E1 in Ha'; rewrite E2.
    - by apply Hc.
    - simplify_eq. by exists cache. }
  destruct Hv as [(_ & -> & _)|(_ & ->)]; simpl; split; simpl; try done.
  - right. by exists cache, a.
  - rewrite Eb, Em. done.
Qed.

Lemma search_provenance best0 u0 points s :
  for_each step points (init_search best0 u0) = Ok s → search_inv best0 u0 points s.
Proof.
  apply for_each_inv with (I := search_inv best0 u0 points).
  - intros. by eapply search_step_inv.
  - split; [by left|done].
Qed.

(** One iteration raises the best utility or keeps it, and never forgets a
    limit. *)
Lemma search_step_grows cache s fl :
  step cache s = Ok fl →
  let s' := flow_state fl in
  (max_util s' = max_util s ∨ fltb (max_util s) (max_util s') = true) ∧
  (is_resource_limited (limited s) = true → is_resource_limited (limited s') = true).
Proof.
  intros Hs. apply search_step_cases in Hs as
    [[-> _]|[[-> _]|[(_ & _ & ->)|(_ & _ & a & u & _ & Hv)]]]; simpl; auto.
  apply visit_point_cases in Hv as [(_ & l & -> & _)|(_ & Hv)]; simpl.
  { rewrite rl_update_limited. split; [auto|]. by intros ->. }
  destruct (track_closest_inv a u (set_checked (checked_point s + 1) s)) as (_ & Em & El & _).
  cbv zeta in Hv. set (t := track_closest _ _ _ _ _) in *. simpl in Em, El.
  destruct Hv as [(Hu & -> & _)|(_ & ->)]; simpl; rewrite ?Em, ?El; auto.
Qed.

Lemma search_grows points s0 s :
  for_each step points s0 = Ok s →
  (max_util s = max_util s0 ∨ fltb (max_util s0) (max_util s) = true) ∧
  (is_resource_limited (limited s0) = true → is_resource_limited (limited s) = true).
Proof.
  apply (for_each_inv (λ s : search_state F,
    (max_util s = max_util s0 ∨ fltb (max_util s0) (max_util s) = true) ∧
    (is_resource_limited (limited s0) = true → is_resource_limited (limited s) = true))).
  - intros c t fl _ [Hm Hl] [Hm' Hl']%search_step_grows.
    split; [|auto]. destruct Hm as [<-|Hm]; [done|].
    destruct Hm' as [->|Hm']; [auto|]. right. by eapply ltb_trans.
  - auto.
Qed.

(** No grid point visited before the loop is left has a greater utility
    than the best one found. *)
Lemma search_optimal pre c post s0 s a u :
  for_each step (pre ++ c :: post) s0 = Ok s →
  is_resource_limited (limited s) = false →
  Forall (λ c', ¬ over_budget c') pre →
  grid_candidate c a u →
  fltb (max_util s) u = false.
Proof.
  intros Hrun Hlim Hpre [Hr Ha He Hw]. revert s0 Hrun.
  induction Hpre as [|p pre Hp _ IH]; intros s0 Hrun; simpl in Hrun.
  - destruct (step c s0) as [fl|] eqn:Es; [|done].
    assert (Hu : fltb (max_util (flow_state fl)) u = false).
    { apply search_step_cases in Es as
        [[_ ?]|[[_ [_ ?]]|[(_ & ? & _)|(_ & _ & a' & u' & He' & Hv)]]]; try congruence.
      rewrite He in He'. simplify_eq.
      apply visit_point_cases in Hv as [(? & _)|(_ & Hv)]; [done|].
      destruct (track_closest_inv a' u' (set_checked (checked_point s0 + 1) s0)) as (_ & Em & _).
      cbv zeta in Hv. set (t := track_closest _ _ _ _ _) in *. simpl in Em.
      destruct Hv as [(_ & -> & _)|(Hu & ->)]; simpl; [apply ltb_irrefl|by rewrite Em]. }
    destruct fl as [s1|s1]; [|by simplify_eq].
    apply search_grows in Hrun as [[->|Hg] _]; [done|]. simpl in Hu.
    destruct (fltb (max_util s) u) eqn:E; [|done].
    rewrite <- Hu. symmetry. by eapply ltb_trans.
  - destruct (step p s0) as [fl|] eqn:Es; [|done].
    destruct fl as [s1|s1]; [by eapply IH|]. exfalso. simplify_eq.
    apply search_step_cases in Es as
      [[? _]|[[_ ?]|[(_ & _ & ?)|(_ & _ & a' & u' & _ & Hv)]]]; try done.
    apply visit_point_cases in Hv as [(_ & l & _ & ?)|(_ & Hv)]; [done|].
    destruct (track_closest_inv a' u' (set_checked (checked_point s0 + 1) s0)) as (_ & _ & El & _).
    cbv zeta in Hv. set (t := track_closest _ _ _ _ _) in *. simpl in El.
    destruct Hv as [(_ & Hs & Hn)|(_ & ?)]; [|done]. simpl in Hs. subst s.
    simpl in Hlim. rewrite El in Hlim. by specialize (Hn Hlim).
Qed.
End search.

(** ** The whole algorithm *)

Section algorithm.
Context (user : Z) (epsilon budget : F) (pr : price F).
Context (last_allocation last_static : option (dict Z (alloc F))) (rs : scale F).
Context (sr : search_dict F) (P : ptas_params F).

Let rs' := ensure_fields rs.
Let budget' := (budget * margin_in_budget P)%py.

(** The ways a share [a] of utility [u] is found. *)
Inductive origin (a : alloc F) (u : F) : Prop :=
  | from_static :
      static_candidate est user last_static budget epsilon pr rs' sr P = Ok (Some a, u) →
      origin a u
  | from_last last :
      last_allocation ≫= (λ d, dget d user) = Some last →
      last_candidate last budget' epsilon pr rs' = Ok (a_cache a, a_mem_bw a) →
      within_limits rs' a →
      estimate est user rs' (a_cache a) (a_mem_bw a) = Ok u →
      origin a u
  | from_grid c points :
      grid epsilon = Ok points → c ∈ points →
      grid_candidate user budget' epsilon pr last_allocation rs' sr P c a u →
      origin a u.

Lemma check_last_allocation_origin util last u :
  check_last_allocation est user last_allocation budget' epsilon pr rs' util = Ok (last, u) →
  match last with
  | Some a => origin a u ∧ fltb util u = true
  | None => u = util
  end.
Proof.
  unfold check_last_allocation.
  destruct (last_allocation ≫= _) as [l|] eqn:El; [|intros; by inv_ok].
  intros Hc. apply bind_Ok in Hc as ([c b] & Hl & Hc).
  apply bind_Ok in Hc as ([[] o] & Hk & Hc); [|by inv_ok].
  apply bind_Ok in Hc as (v & He & Hc). case_match; inv_ok; [|done].
  split; [|done]. eapply from_last; [done|done| |done].
  by apply check_resource_limits_spec in Hk as [Hk _]; apply Hk.
Qed.

Lemma ptas_algorithm_run o n rl :
  ptas_algorithm est user epsilon budget pr last_allocation last_static rs sr P = Ok (o, n, rl) →
  ∃ best u0 points s,
    grid epsilon = Ok points ∧ (∀ a, best = Some a → origin a u0) ∧
    for_each (search_step est user budget' epsilon pr last_allocation rs' sr P) points
      (init_search best u0) = Ok s ∧
    select_alloc P s = Ok o ∧ limited s = rl.
Proof.
  unfold ptas_algorithm, ptas_search. intros Hp.
  apply bind_Ok in Hp as (s & Hs & Hp).
  apply bind_Ok in Hp as (o' & Ho & Hp). injection Hp as <- <- <-.
  apply bind_Ok in Hs as ([best0 u0] & Hst & Hs).
  apply bind_Ok in Hs as ([last u1] & Hl & Hs).
  apply bind_Ok in Hs as (points & Hg & Hs).
  apply check_last_allocation_origin in Hl.
  exists (match last with Some a => Some a | None => best0 end), u1, points, s.
  repeat split; try done.
  destruct last as [a'|]; [naive_solver|]. subst. intros a ->. by apply from_static.
Qed.

Lemma best_origin best u0 points s :
  grid epsilon = Ok points → (∀ a, best = Some a → origin a u0) →
  best_alloc s = best ∧ max_util s = u0 ∨
  (∃ c a, c ∈ points ∧ best_alloc s = Some a ∧
     grid_candidate user budget' epsilon pr last_allocation rs' sr P c a (max_util s)) →
  ∀ a, best_alloc s = Some a → origin a (max_util s).
Proof.
  intros Hg Hb [[E ->]|(c & a1 & Hc & E & ?)] a Ha.
  - apply Hb. congruence.
  - simplify_eq. by eapply from_grid.
Qed.

(** Every share the search returns is the static candidate, the repriced
    last allocation or a grid point. *)
Lemma ptas_origin a n rl :
  ptas_algorithm est user epsilon budget pr last_allocation last_static rs sr P = Ok (Some a, n, rl) →
  ∃ u, origin a u.
Proof.
  intros (best & u0 & points & s & Hg & Hb & Hrun & Hsel & _)%ptas_algorithm_run.
  apply search_provenance in Hrun as [Hbest Hclosest].
  pose proof (best_origin _ _ _ _ Hg Hb Hbest) as Hbo.
  unfold select_alloc in Hsel.
  destruct (closest_to_last s) as [a1|] eqn:E; [|inv_ok; eauto].
  destruct (Hclosest a1 eq_refl) as (c & Hc & Hgc).
  repeat case_match; inv_ok; eauto using from_grid.
  case_match; inv_ok; eauto using from_grid.
Qed.

(** C9: a returned share satisfies the per-user minima and maxima, unless
    it is the static candidate: the cache of the share lies between the
    minimum and the maximum cache, and its bandwidth between the minimum and
    the maximum bandwidth. *)
Theorem ptas_respects_limits a n rl :
  ptas_algorithm est user epsilon budget pr last_allocation last_static rs sr P = Ok (Some a, n, rl) →
  within_limits rs' a ∨
  ∃ u, static_candidate est user last_static budget epsilon pr rs' sr P = Ok (Some a, u).
Proof. intros [u [? | ? ? ? ? ? | c points ? ? []]]%ptas_origin; eauto. Qed.

(** [u] is not beaten by [e] by more than the reallocation threshold. *)
Definition near_optimal (u e : F) : Prop :=
  fltb u e = false ∨
  ∃ m q, fltb m e = false ∧ (m / reallocation_threshold P)%py = Ok q ∧ fltb q u = true.

(** C8: when no limit was hit, no grid point visited before the loop is
    left has a utility exceeding that of the returned share by more than
    the reallocation threshold. *)
Theorem ptas_near_optimal a n rl points pre c post a' e :
  ptas_algorithm est user epsilon budget pr last_allocation last_static rs sr P = Ok (Some a, n, rl) →
  is_resource_limited rl = false →
  grid epsilon = Ok points → points = pre ++ c :: post →
  Forall (λ c', ¬ over_budget budget' epsilon pr sr c') pre →
  grid_candidate user budget' epsilon pr last_allocation rs' sr P c a' e →
  ∃ u, origin a u ∧ near_optimal u e.
Proof.
  intros Hp Hl Hg -> Hpre Hcand.
  apply ptas_algorithm_run in Hp as (best & u0 & points & s & Hg' & Hb & Hrun & Hsel & Hls).
  rewrite Hg in Hg'. simplify_eq.
  assert (Hopt : fltb (max_util s) e = false) by (by eapply search_optimal).
  apply search_provenance in Hrun as [Hbest Hclosest].
  pose proof (best_origin _ _ _ _ Hg Hb Hbest) as Hbo.
  unfold select_alloc in Hsel.
  destruct (closest_to_last s) as [a1|] eqn:E; [|inv_ok; exists (max_util s); split; [auto|by left]].
  destruct (prefer_last_allocation P); [|inv_ok; exists (max_util s); split; [auto|by left]].
  apply bind_Ok in Hsel as (q & Hq & Hsel).
  destruct (fltb q _) eqn:Eq; inv_ok; [|exists (max_util s); split; [auto|by left]].
  destruct (Hclosest a eq_refl) as (c1 & Hc & Hgc).
  exists (closest_to_last_util s). split; [by eapply from_grid|]. right. eauto.
Qed.
End algorithm.
End generic.
