(* ===== verification/PtasExact.v ===== *)
(** * The per-user search in exact arithmetic

    With positive prices and a positive granularity no division or conversion
    of the search fails, and a grid share costs at most the budget. *)

From S2P Require Import Prelude PyDict PyFloat Exact Resources Ptas PtasFacts.

(** A resource scale with every limit present. *)
Record scale_ok (rs : scale xnum) : Prop := {
  so_cache : pos (s_cache rs);
  so_mem_bw : pos (s_mem_bw rs);
  so_min_cache : ∀ m, s_min_cache rs = Some m → fin m;
  so_max_cache : ∀ m, s_max_cache rs = Some m → upper m;
  so_min_mem_bw : ∀ m, s_min_mem_bw rs = Some m → fin m;
  so_max_mem_bw : ∀ m, s_max_mem_bw rs = Some m → upper m;
}.

Record scale_full (rs : scale xnum) : Prop := {
  sf_ok : scale_ok rs;
  sf_min : ∀ k, returns (scale_min k rs) fin;
  sf_max : ∀ k, returns (scale_max k rs) upper;
}.

Lemma ensure_fields_full rs : scale_ok rs → scale_full (ensure_fields rs).
Proof.
  intros [Hc Hb H1 H2 H3 H4].
  assert (Hd : ∀ o, (∀ m, o = Some m → fin m) → fin (default (of_Z 0) o)).
  { intros [m|] Ho; simpl; [auto|apply fin_Num]. }
  assert (Hu : ∀ o, (∀ m, o = Some m → upper m) → upper (default finf o)).
  { intros [m|] Ho; simpl; [auto|by right]. }
  split; [split; simpl; try done; intros m [= <-]; auto| |];
    intros []; eexists; (split; [reflexivity|]; auto).
Qed.

(** Prices the search can divide by. *)
Definition price_pos (pr : price xnum) : Prop := pos (p_cache pr) ∧ pos (p_mem_bw pr).

Definition share_pos (a : alloc xnum) : Prop := pos (a_cache a) ∧ pos (a_mem_bw a).
Definition share_fin (a : alloc xnum) : Prop := fin (a_cache a) ∧ fin (a_mem_bw a).

(** What the search relies on of an estimator: it returns a finite utility
    for every finite share. *)
Class est_total (est : Z → xnum → xnum → res xnum) : Prop :=
  est_returns : ∀ u c b, fin c → fin b → returns (est u c b) fin.

Lemma pos_micro : pos (micro (F := xnum)).
Proof. eexists. split; [reflexivity|]. done. Qed.

#[export] Hint Resolve pos_micro pos_of_Z sf_min sf_max : fin.
#[export] Hint Extern 1 (_ < _)%Z => lia : fin.

Lemma check_resource_limits_total c b rs mu rl m :
  scale_full rs → returns (check_resource_limits c b rs mu rl m)
    (λ p, rl = None ↔ p.2 = None).
Proof.
  intros [_ Hmin Hmax]. unfold check_resource_limits.
  destruct (Hmin Cache) as (? & -> & _), (Hmax Cache) as (? & -> & _),
    (Hmin MemBw) as (? & -> & _), (Hmax MemBw) as (? & -> & _). simpl.
  repeat case_match; apply returns_ret; simpl; naive_solver.
Qed.

Lemma clip_allocation_total c b rs :
  scale_full rs → fin c → fin b →
  returns (clip_allocation c b rs) (λ p, fin p.1 ∧ fin p.2).
Proof.
  intros [[Hc Hb _ _ _ _] _ Hmax] ? ?. unfold clip_allocation.
  rbind (apply Hmax) as mc Hmc. rbind (apply Hmax) as mb Hmb.
  rbind (fin_auto) as c' Hc'. rbind (fin_auto) as b' Hb'.
  by apply returns_ret.
Qed.

Section total.
Context (est : Z → xnum → xnum → res xnum) (Hest : est_total est).
Context (rs : scale xnum) (Hrs : scale_full rs).
Context (pr : price xnum) (Hpr : price_pos pr).
Context (epsilon : xnum) (Heps : pos epsilon).

Lemma estimate_total u c b : fin c → fin b → returns (estimate est u rs c b) fin.
Proof. destruct Hrs as [[] _ _]. intros. unfold estimate. fin_auto. Qed.

Lemma affordable_chunks_total budget c :
  fin budget → fin c → returns (affordable_chunks budget epsilon c pr) (λ _, True).
Proof.
  destruct Hpr. intros. unfold affordable_chunks.
  rbind (fin_auto) as q Hq. rbind (fin_auto) as q' Hq'. fin_auto.
Qed.

Lemma chunks_to_share_total m : returns (chunks_to_share epsilon m) pos.
Proof.
  unfold chunks_to_share. rbind (fin_auto) as q Hq.
  rbind (fin_auto) as n Hn. apply returns_ret. fin_auto.
Qed.

Lemma ratio_alloc_total last budget :
  share_pos last → fin budget →
  returns (ratio_alloc last budget epsilon pr rs) (λ p, fin p.1 ∧ fin p.2).
Proof.
  destruct Hpr, Hrs as [[] Hmin _]. intros [] ?. unfold ratio_alloc.
  rbind (apply fdiv_pos; fin_auto) as r Hr. rbind (apply Hmin) as mc Hmc.
  rbind (fin_auto) as mcn Hmcn. rbind (apply Hmin) as mb Hmb.
  rbind (fin_auto) as mbn Hmbn.
  rbind (apply fdiv_pos; fin_auto) as cb Hcb.
  eapply returns_bind with (P := λ p : xnum * xnum, fin p.1 ∧ fin p.2).
  - case_match; [case_match|].
    + rbind (fin_auto) as b' Hb'. apply returns_ret; fin_auto.
    + rbind (fin_auto) as b' Hb'. apply returns_ret; fin_auto.
    + rbind (apply fdiv_pos; fin_auto) as d Hd. rbind (fin_auto) as c Hc.
      rbind (fin_auto) as b Hb.
      repeat case_match; [rbind (fin_auto) as x Hx..|]; apply returns_ret; fin_auto.
  - intros [c b] [Hc Hb]. simpl in *.
    rbind (fin_auto) as q Hq. rbind (fin_auto) as n Hn.
    rbind (fin_auto) as q' Hq'. rbind (fin_auto) as n' Hn'.
    apply returns_ret. simpl. fin_auto.
Qed.

Lemma last_candidate_total last budget :
  share_pos last → fin budget →
  returns (last_candidate last budget epsilon pr rs) (λ p, fin p.1 ∧ fin p.2).
Proof.
  intros Hl Hb. pose proof Hl as [Hlc Hlb]. unfold last_candidate.
  case_match; [|by apply ratio_alloc_total].
  destruct Hrs as [[] _ Hmax].
  rbind (apply affordable_chunks_total; fin_auto) as m Hm.
  rbind (apply chunks_to_share_total) as b Hb'. rbind (apply Hmax) as mb Hmb.
  rbind (fin_auto) as b' Hb''. apply returns_ret; simpl; fin_auto.
Qed.

(** An optional share map whose entry for [user], if any, is positive. *)
Definition entry_ok (user : Z) (o : option (dict Z (alloc xnum))) : Prop :=
  ∀ a, o ≫= (λ d, dget d user) = Some a → share_pos a.

Lemma check_last_allocation_total user last_allocation budget util :
  entry_ok user last_allocation → fin budget → fin util →
  returns (check_last_allocation est user last_allocation budget epsilon pr rs util)
    (λ p, fin p.2 ∧ ∀ a, p.1 = Some a → share_fin a).
Proof.
  intros Hl Hb Hu. unfold check_last_allocation.
  destruct (last_allocation ≫= _) as [l|] eqn:E; [|by apply returns_ret].
  rbind (apply last_candidate_total; [by apply Hl|done]) as [c b] [Hc Hb'].
  rbind (by apply check_resource_limits_total) as [[] o] _; [|by apply returns_ret].
  rbind (by apply estimate_total) as u Hu'.
  case_match; apply returns_ret; simpl; [|done].
  split; [done|]. intros a [= <-]. by split.
Qed.

Definition params_ok (P : ptas_params xnum) : Prop :=
  pos (margin_in_budget P) ∧ pos (reallocation_threshold P).

Lemma repair_static_total static c b budget :
  share_pos static → fin c → fin b → fin budget →
  returns (repair_static static c b budget pr rs) (λ p, fin p.1 ∧ fin p.2).
Proof.
  destruct Hpr, Hrs as [[] Hmin Hmax]. intros [] ? ? ?. unfold repair_static.
  rbind (apply Hmax) as mb Hmb. rbind (apply Hmin) as ib Hib.
  case_match; [|apply returns_ret; fin_auto].
  rbind (fin_auto) as q Hq. rbind (fin_auto) as b' Hb'.
  rbind (fin_auto) as q' Hq'. rbind (fin_auto) as c' Hc'.
  rbind (apply Hmax) as mc Hmc. rbind (apply Hmin) as ic Hic.
  case_match; apply returns_ret; fin_auto.
Qed.

Lemma clamp_cache_fin c (range : xnum * xnum) :
  fin c → fin range.1 → fin range.2 → fin (clamp_cache c range).
Proof. intros. unfold clamp_cache. repeat case_match; done. Qed.

Definition range_ok (sr : search_dict xnum) : Prop := fin (sr_cache sr).1 ∧ fin (sr_cache sr).2.

Lemma static_candidate_total user last_static budget sr P :
  entry_ok user last_static → fin budget → range_ok sr → params_ok P →
  returns (static_candidate est user last_static budget epsilon pr rs sr P)
    (λ p, fin p.2 ∧ (∀ a, p.1 = Some a → share_fin a) ∧
          (is_Some (last_static ≫= (λ d, dget d user)) → is_Some p.1)).
Proof.
  intros Hs Hb [] []. unfold static_candidate.
  destruct (last_static ≫= _) as [st|] eqn:E.
  2: { apply returns_ret. simpl. split; [fin_auto|split; [done|by intros []]]. }
  specialize (Hs _ E). destruct Hs as [Hsc Hsb].
  assert (fin (clamp_cache (a_cache st) (sr_cache sr))) by (apply clamp_cache_fin; fin_auto).
  rbind (by apply affordable_chunks_total) as m Hm.
  rbind (apply chunks_to_share_total) as b Hb'.
  rbind (apply repair_static_total; [done|fin_auto..]) as [c b'] [].
  rbind (by apply estimate_total) as u Hu. rbind (fin_auto) as u' Hu'.
  apply returns_ret. simpl. split; [done|]. split; [|done].
  intros a [= <-]. by split.
Qed.

Lemma grid_point_total budget cache :
  fin budget → returns (grid_point budget epsilon pr cache) (λ p, fin p.1 ∧ fin p.2).
Proof.
  intros. unfold grid_point.
  rbind (apply affordable_chunks_total; fin_auto) as m Hm.
  rbind (fin_auto) as q Hq. rbind (fin_auto) as n Hn.
  eapply returns_bind with (P := λ _, True).
  - case_match; [|by apply returns_ret]. rbind (fin_auto) as q' Hq'. fin_auto.
  - intros. apply returns_ret. fin_auto.
Qed.

(** A share map the search can read: empty, absent, or holding [user]. *)
Definition readable (user : Z) (o : option (dict Z (alloc xnum))) : Prop :=
  entry_ok user o ∧ (o = None ∨ o = Some [] ∨ is_Some (o ≫= (λ d, dget d user))).

Lemma eval_point_total user budget last_allocation P cache :
  readable user last_allocation → fin budget → params_ok P →
  returns (eval_point est user budget epsilon pr last_allocation rs P cache)
    (λ o, ∀ a u, o = Some (a, u) → share_fin a ∧ fin u).
Proof.
  destruct Hpr. intros [Hl Hr] Hb []. unfold eval_point.
  rbind (by apply grid_point_total) as [c b] [].
  rbind (fin_auto) as m Hm.
  rbind (by apply check_resource_limits_total) as [[] o] _; simpl; [|by apply returns_ret].
  eapply returns_bind with (P := λ p : xnum * xnum, fin p.1 ∧ fin p.2).
  { case_match; [by apply clip_allocation_total|by apply returns_ret]. }
  intros [c' b'] []. case_match; [|by apply returns_ret].
  rbind (by apply estimate_total) as u Hu.
  eapply returns_bind with (P := λ _, True).
  { unfold shrinks_cache. repeat case_match; try by apply returns_ret.
    destruct Hr as [?|[?|[l ?]]]; simplify_eq.
    rbind (by eapply returns_or_raise with (P := λ _, True)) as x Hx. by apply returns_ret. }
  intros sh _. eapply returns_bind with (P := fin).
  { case_match; [fin_auto|by apply returns_ret]. }
  intros u' Hu'. apply returns_ret. intros a v [= <- <-]. fin_auto.
Qed.

Definition search_fin (s : search_state xnum) : Prop :=
  fin (max_util s) ∧ (∀ a, best_alloc s = Some a → share_fin a) ∧
  (∀ a, closest_to_last s = Some a → share_fin a).

Lemma visit_point_total user last_allocation a u s :
  share_fin a → fin u → search_fin s →
  returns (visit_point user last_allocation rs a u s)
    (λ fl, search_fin (flow_state fl) ∧ (is_Some (best_alloc s) → is_Some (best_alloc (flow_state fl)))).
Proof.
  intros Ha Hu Hs. unfold visit_point.
  rbind (by apply check_resource_limits_total) as [[] o] _; simpl; [|by apply returns_ret].
  set (s1 := set_limited _ s). assert (Hs1 : search_fin s1) by done.
  assert (Ht : search_fin (track_closest user last_allocation a u s1) ∧
               best_alloc (track_closest user last_allocation a u s1) = best_alloc s).
  { unfold track_closest. repeat case_match; try done.
    split; [|done]. destruct Hs1 as (? & ? & _). split; [done|]. split; [done|].
    simpl. intros ? [= <-]. done. }
  destruct Ht as [(Hm & Hb & Hc) Hbest].
  repeat case_match; apply returns_ret; simpl; try (rewrite Hbest; done).
  all: split; [|done]; split; [done|]; split; [|done]; simpl; by intros ? [= <-].
Qed.

Lemma search_total user budget last_allocation sr P points s :
  readable user last_allocation → fin budget → params_ok P → search_fin s →
  returns (for_each (search_step est user budget epsilon pr last_allocation rs sr P) points s)
    (λ s', search_fin s' ∧ (is_Some (best_alloc s) → is_Some (best_alloc s'))).
Proof.
  intros Hl Hb HP Hs.
  apply (for_each_total (λ s', search_fin s' ∧ (is_Some (best_alloc s) → is_Some (best_alloc s')))); [|done].
  intros c t _ [Ht Hbt]. unfold search_step.
  repeat case_match; try (by eexists; split; [reflexivity|]).
  eapply returns_bind; [by apply eval_point_total|]. intros [[a u]|] Ho; [|by apply returns_ret].
  destruct (Ho a u eq_refl). eapply returns_mono; [by apply visit_point_total|].
  intros fl []. split; [done|]. auto.
Qed.
End total.

Lemma select_alloc_total P s :
  params_ok P → search_fin s →
  returns (select_alloc P s) (λ o, (∀ a, o = Some a → share_fin a) ∧
    (is_Some (best_alloc s) → is_Some o)).
Proof.
  intros [_ Ht] (Hm & Hb & Hc). unfold select_alloc.
  destruct (closest_to_last s) as [a|]; [|by apply returns_ret].
  case_match; [|by apply returns_ret].
  rbind (fin_auto) as q Hq. case_match; apply returns_ret; [|done].
  split; [|done]. intros ? [= <-]. by apply Hc.
Qed.

Lemma ptas_total est rs pr epsilon user budget last_allocation last_static sr P :
  est_total est → scale_ok rs → price_pos pr → pos epsilon → fin budget →
  readable user last_allocation → entry_ok user last_static → range_ok sr → params_ok P →
  returns (ptas_algorithm est user epsilon budget pr last_allocation last_static rs sr P)
    (λ r, (∀ a, r.1.1 = Some a → share_fin a) ∧
          (is_Some (last_static ≫= (λ d, dget d user)) → is_Some r.1.1)).
Proof.
  intros Hest Hrs%ensure_fields_full Hpr Heps Hb Hl Hs Hsr HP.
  assert (Hb' : fin (budget * margin_in_budget P)%py) by (destruct HP; fin_auto).
  unfold ptas_algorithm, ptas_search. eapply returns_bind with
    (P := λ s, search_fin s ∧ (is_Some (last_static ≫= (λ d, dget d user)) → is_Some (best_alloc s))).
  - rbind (by apply static_candidate_total) as [best u] (Hu & Hbest & Hsome).
    rbind (apply check_last_allocation_total; try done; by destruct Hl) as [last u'] [Hu' Hlast].
    eapply returns_bind with (P := λ _, True).
    { unfold grid. rbind (fin_auto) as q Hq. rbind (fin_auto) as n Hn. by apply returns_ret. }
    intros points _. eapply returns_mono.
    + apply search_total; try done. split; [done|]. split; [|done].
      simpl in *. destruct last; naive_solver.
    + simpl in *. intros s [Hf Hs']. split; [done|]. intros Hst. apply Hs'.
      destruct last; [done|auto].
  - intros s [Hf Hs']. rbind (by apply select_alloc_total) as o [Ho Ho'].
    apply returns_ret. simpl. auto.
Qed.

(** ** Where a share comes from, in numbers

    The scales of the theorems on whole rounds: every limit is positive and
    the maximum cache is at most the total, which is what [load_config] takes
    when the file names no maximum. *)
Definition positive_limits (rs : scale xnum) : Prop :=
  ∃ S B loc hic lob hib,
    rs = Scale (Num S) (Num B) (Some (Num loc)) (Some (Num hic)) (Some (Num lob)) (Some (Num hib)) ∧
    (0 < S ∧ 0 < B ∧ 0 < loc ∧ 0 < hic ∧ hic <= S ∧ 0 < lob ∧ 0 < hib)%Qc.

Lemma limits_scale_ok rs : positive_limits rs → scale_ok rs ∧ ensure_fields rs = rs.
Proof.
  intros (S & B & loc & hic & lob & hib & -> & ? & ? & ? & ? & ? & ? & ?).
  split; [|done]. split; simpl.
  1, 2: eexists; (split; [reflexivity|done]).
  all: intros m [= <-]; fin_auto.
Qed.

Lemma between_Num total lo hi x :
  between (Num total) (Num lo) (Num hi) (Num x) → (lo <= x * total ∧ x * total <= hi)%Qc.
Proof.
  intros [H1 H2].
  assert (E : (lit 0 1 * Num total)%py = Num 0%Qc).
  { change (lit 0 1 : xnum) with (Num 0%Qc). apply (f_equal Num), Qcmult_0_l. }
  rewrite E in H1, H2. apply xltb_Num_false in H1, H2. clear E. split; qc_lra.
Qed.

Section shares.
Context (S B loc hic lob hib : Qc).
Context (HS : (0 < S)%Qc) (HB : (0 < B)%Qc) (Hloc : (0 < loc)%Qc) (Hmax : (hic <= S)%Qc).
Context (Hlob : (0 < lob)%Qc) (Hhib : (0 < hib)%Qc).

Let rs : scale xnum :=
  Scale (Num S) (Num B) (Some (Num loc)) (Some (Num hic)) (Some (Num lob)) (Some (Num hib)).

Lemma within_limits_Num a c b :
  within_limits rs a → a_cache a = Num c → a_mem_bw a = Num b →
  (loc <= c * S ∧ c * S <= hic ∧ lob <= b * B ∧ b * B <= hib)%Qc.
Proof.
  intros (? & ? & ? & ? & [= <-] & [= <-] & [= <-] & [= <-] & H1 & H2) Hc Hb.
  rewrite Hc in H1. rewrite Hb in H2. apply between_Num in H1 as [? ?], H2 as [? ?]. by split_and!.
Qed.

(** The ways a share [a] is found for a user with the static share [static]
    when the search range holds the cache share [c0]. *)
Inductive candidate_share (c0 : xnum) (static a : alloc xnum) : Prop :=
  | found_within : share_fin a → within_limits rs a → candidate_share c0 static a
  | found_static : a_cache a = a_cache static → a_mem_bw a = a_mem_bw static → candidate_share c0 static a
  | found_clamped b :
      a_cache a = c0 → a_mem_bw a = Num b → (lob <= b * B)%Qc → (b * B <= hib)%Qc → candidate_share c0 static a
  | found_whole z :
      a_cache a = Num 1%Qc → (S <= hic)%Qc → a_mem_bw a = of_Z z → (0 <= z)%Z → candidate_share c0 static a.

(** A share that was repaired is the static one, or has the whole cache and
    a whole multiple of the bandwidth. *)
Lemma repair_static_found static c b budget pr c' b' :
  pos b → repair_static static c b budget pr rs = Ok (c', b') → candidate_share c static (share c' b').
Proof.
  intros (qb & -> & Hb) Hr. unfold repair_static in Hr.
  cbn -[fltb fsub fadd fmul lit fdiv trunc of_Z fmin fmax] in Hr.
  destruct (_ || _) eqn:E1.
  2: { injection Hr as <- <-. apply orb_false_iff in E1 as [E1 E2].
    apply xltb_Num_false in E1, E2. by eapply found_clamped. }
  clear E1. apply bind_Ok in Hr as (q & Hq & Hr). apply bind_Ok in Hr as (zb & Hzb & Hr).
  apply bind_Ok in Hr as (q' & _ & Hr). apply bind_Ok in Hr as (zc & _ & Hr).
  destruct (_ || _) eqn:E2; [injection Hr as <- <-; by apply found_static|].
  injection Hr as <- <-. apply orb_false_iff in E2 as [E2 E3].
  apply (xltb_Num_false hic (Q2Qc (inject_Z zc) * S)%Qc) in E2.
  apply (xltb_Num_false (Q2Qc (inject_Z zc) * S)%Qc loc) in E3.
  assert (Hz : zc = 1%Z).
  { qc_to_q. assert (0 < inject_Z zc)%Q by nra. assert (inject_Z zc < 2)%Q by nra.
    change 0%Q with (inject_Z 0) in *. change 2%Q with (inject_Z 2) in *.
    rewrite <- Zlt_Qlt in *. lia. }
  subst zc. apply (found_whole _ _ _ zb); try done.
  - change (Q2Qc (inject_Z 1)) with 1%Qc in E2. qc_lra.
  - change (Num qb * Num B)%py with (Num (qb * B)%Qc) in Hq.
    destruct (fmax_Num lob (qb * B)%Qc) as (x & Hx & [Hx1 _] & _). rewrite Hx in Hq.
    destruct (fmin_Num hib x) as (v & Hv & _ & Hv'). rewrite Hv in Hq.
    rewrite fdiv_Num in Hq by by apply pos_ne0. injection Hq as <-.
    destruct (trunc_nonneg (v / B)%Qc) as (z & Hz & Hz0 & _); [|by rewrite Hz in Hzb; simplify_eq].
    apply Qclt_le_weak, Qcdiv_pos; [|done]. destruct Hv' as [-> | ->]; [done|qc_lra].
Qed.

Lemma found_share c0 static a :
  pos c0 → share_pos static → candidate_share c0 static a →
  share_pos a ∨ (a_cache a = Num 1%Qc ∧ a_mem_bw a = Num 0%Qc ∧ (S <= hic)%Qc).
Proof.
  intros Hc0 Hst [[[c Hc] [b Hb]] Hw | Hc Hb | b Hc Hb Hlo _ | z Hc Hle Hb Hz].
  - destruct (within_limits_Num a c b Hw Hc Hb) as (? & _ & ? & _). left.
    split; eexists; (split; [done|]); qc_to_q; nra.
  - left. unfold share_pos. by rewrite Hc, Hb.
  - left. split; [by rewrite Hc|]. exists b. split; [done|]. qc_to_q; nra.
  - destruct (decide (z = 0)%Z) as [->|Hz']; [right|left].
    + by split_and!.
    + split; [rewrite Hc; by exists 1%Qc|]. rewrite Hb. apply pos_of_Z. lia.
Qed.

(** The cache shares exceed any [floor] that the minimum, the static share
    and the search range exceed. *)
Lemma found_floor floor c0 static a q0 qs :
  (floor * S < loc)%Qc → (floor < 1)%Qc → c0 = Num q0 → (floor < q0)%Qc →
  a_cache static = Num qs → (floor < qs)%Qc → candidate_share c0 static a →
  ∃ c, a_cache a = Num c ∧ (floor < c)%Qc.
Proof.
  intros Hf H1 -> H0 Hst Hs [[[c Hc] [b Hb]] Hw | Hc _ | b Hc _ _ _ | z Hc _ _ _].
  - destruct (within_limits_Num a c b Hw Hc Hb) as (Hlo & _). exists c. split; [done|].
    clear - Hf Hlo HS. qc_to_q. nra.
  - exists qs. by rewrite Hc.
  - exists q0. by rewrite Hc.
  - by exists 1%Qc.
Qed.

(** The static candidate of a user that has a VM for itself, whose bandwidth
    is limited by the total only: it keeps the range's cache share and gets
    all the chunks of the bandwidth, so it needs no repair. *)

Lemma whole_chunks eps :
  (0 < eps)%Qc → (eps <= 1)%Qc →
  ∃ n, trunc (Num (1 / eps)%Qc) = Ok n ∧ (1 <= n)%Z ∧
    (inject_Z n * this eps <= 1)%Q ∧ (1 - this eps <= inject_Z n * this eps)%Q ∧
    ∀ q m, (1 / eps <= q)%Qc → trunc (Num q) = Ok m → (n <= m)%Z.
Proof.
  intros He He1. clear - He He1.
  assert (Hinv : (1 <= this (1 / eps)%Qc)%Q) by (qc_to_q; apply Qle_shift_div_l; lra).
  assert (Ee : (this (1 / eps)%Qc * this eps == 1)%Q) by (qc_to_q; field; lra).
  destruct (trunc_nonneg (1 / eps)%Qc) as (n & Hn & Hn0 & Hn1 & Hn2); [unfold Qcle; rewrite this_0; lra|].
  unfold Qclt in He. rewrite this_0 in He. set (e := this (1 / eps)%Qc) in *.
  exists n. split_and!; [done| |nra|nra|].
  - assert (Hq : (0 < inject_Z n)%Q) by lra. change 0%Q with (inject_Z 0) in Hq. rewrite <- Zlt_Qlt in Hq. lia.
  - intros q m Hge Hm. unfold Qcle in Hge. fold e in Hge.
    destruct (trunc_nonneg q) as (m' & Hm' & _ & _ & Hq); [unfold Qcle; rewrite this_0; lra|].
    rewrite Hm' in Hm. injection Hm as <-.
    assert (Hlt : (inject_Z n < inject_Z m' + 1)%Q) by lra.
    change 1%Q with (inject_Z 1) in Hlt. rewrite <- inject_Z_plus, <- Zlt_Qlt in Hlt. lia.
Qed.

Lemma chunks_single eps c0 pc m b :
  (0 < eps)%Qc → (eps <= 1)%Qc → (0 < pc)%Qc → (Q2Qc (1 # 1000000) <= 1 - pc)%Qc → (c0 <= 1)%Qc →
  affordable_chunks (Num 1%Qc) (Num eps) (Num c0) (Price (Num pc) (Num (1 - pc)%Qc)) = Ok m →
  chunks_to_share (Num eps) m = Ok b →
  ∃ q, b = Num q ∧ (1 - eps <= q ∧ q <= 1)%Qc.
Proof.
  intros He He1 Hpc Hpb Hc0 Hm Hb. clear - He He1 Hpc Hpb Hc0 Hm Hb.
  destruct (whole_chunks eps He He1) as (n & Hn & Hn1 & Hn2 & Hn3 & Hnm).
  assert (Hle : (n <= m)%Z).
  { unfold affordable_chunks in Hm. simpl in Hm.
    change (micro (F := xnum)) with (Num (Q2Qc (1 # 1000000))) in Hm.
    destruct (fmax_Num (Q2Qc (1 # 1000000)) (1 - pc)%Qc) as (x & Hx & [Hx1 Hx2] & Hx3). rewrite Hx in Hm.
    assert (x = (1 - pc)%Qc) as -> by (destruct Hx3 as [->|]; [by apply Qcle_antisym|done]).
    change (Num 1 - Num c0 * Num pc)%py with (Num (1 - c0 * pc)%Qc) in Hm.
    assert (Hd0 : (0 < 1 - pc)%Qc) by (clear - Hpb; qc_lra).
    rewrite fdiv_Num in Hm by by apply pos_ne0. cbn [mbind res_bind] in Hm.
    rewrite fdiv_Num in Hm by by apply pos_ne0. cbn [mbind res_bind] in Hm.
    eapply Hnm; [|exact Hm]. clear - Hc0 Hpc Hd0 He. qc_to_q. apply Qle_shift_div_l; [lra|].
    assert (E : (1 / this eps * this eps == 1)%Q) by (field; lra). rewrite E.
    apply Qle_shift_div_l; [lra|]. nra. }
  unfold chunks_to_share in Hb. change (of_Z 1 / Num eps)%py with (Num 1%Qc / Num eps)%py in Hb.
  rewrite fdiv_Num in Hb by by apply pos_ne0. cbn [mbind res_bind] in Hb. rewrite Hn in Hb.
  cbn [mbind res_bind] in Hb. rewrite Z.min_l in Hb by lia. injection Hb as <-.
  set (zn := Q2Qc (inject_Z n)). assert (Ezn : (this zn == inject_Z n)%Q) by apply this_Q2Qc.
  change (of_Z 1 : xnum) with (Num 1%Qc). change (of_Z n : xnum) with (Num zn).
  destruct (fmax_Num 1 zn) as (x & -> & [_ Hzx] & Hx). exists (x * eps)%Qc. split; [done|].
  assert (x = zn) as ->.
  { destruct Hx as [->|]; [|done]. apply Qcle_antisym; [|done]. unfold Qcle. rewrite Ezn, this_1.
    change 1%Q with (inject_Z 1). by rewrite <- Zle_Qle. }
  unfold Qcle. autorewrite with qcs. rewrite Ezn. lra.
Qed.

Lemma repair_static_single eps c0 q static budget pr c' b' :
  (lob <= (1 - eps) * B)%Qc → hib = B → (1 - eps <= q ∧ q <= 1)%Qc →
  repair_static static c0 (Num q) budget pr rs = Ok (c', b') → c' = c0 ∧ b' = Num q.
Proof.
  intros Hlo HhB [Hq Hq1] Hr. unfold repair_static in Hr.
  cbn -[fltb fsub fadd fmul lit fdiv trunc of_Z fmin fmax] in Hr.
  change (Num q * Num B)%py with (Num (q * B)%Qc) in Hr.
  rewrite (proj2 (xltb_Num_false hib (q * B)%Qc)), (proj2 (xltb_Num_false (q * B)%Qc lob)) in Hr.
  - simpl in Hr. by injection Hr as <- <-.
  - clear - Hlo Hq HB. qc_to_q. nra.
  - rewrite HhB. clear - Hq1 HB. qc_to_q. nra.
Qed.

Section user.
Context (est : Z → xnum → xnum → res xnum) (pr : price xnum) (epsilon : xnum) (Heps : pos epsilon).
Context (user : Z) (budget : xnum) (sr : search_dict xnum) (P : ptas_params xnum).
Context (last_static : option (dict Z (alloc xnum))) (static : alloc xnum).
Context (Hstatic : last_static ≫= (λ d, dget d user) = Some static).

Let c0 := clamp_cache (a_cache static) (sr_cache sr).

Lemma static_candidate_found a u :
  static_candidate est user last_static budget epsilon pr rs sr P = Ok (Some a, u) →
  ∃ m b c' b', affordable_chunks budget epsilon c0 pr = Ok m ∧ chunks_to_share epsilon m = Ok b ∧
    repair_static static c0 b budget pr rs = Ok (c', b') ∧ a = share c' b' ∧ candidate_share c0 static a.
Proof.
  intros Hs. unfold static_candidate in Hs. rewrite Hstatic in Hs. fold c0 in Hs.
  apply bind_Ok in Hs as (m & Hm & Hs). apply bind_Ok in Hs as (b & Hb & Hs).
  apply bind_Ok in Hs as ([c' b'] & Hr & Hs).
  apply bind_Ok in Hs as (u' & _ & Hs). apply bind_Ok in Hs as (u'' & _ & Hs).
  injection Hs as <- <-. exists m, b, c', b'. split_and!; try done.
  destruct (chunks_to_share_total epsilon Heps m) as (b0 & Hb0 & Hpos).
  rewrite Hb in Hb0. injection Hb0 as <-. by apply repair_static_found in Hr.
Qed.

Context (Hest : est_total est) (Hpr : price_pos pr) (Hbud : fin budget).
Context (last_allocation : option (dict Z (alloc xnum))) (Hread : readable user last_allocation).
Context (Hpos : share_pos static) (Hsr : fin (sr_cache sr).1) (Hsr' : pos (sr_cache sr).2) (HP : params_ok P).

(** The share the search returns: within the limits, or the static
    candidate. *)
Lemma ptas_limits_or_static a n rl :
  ptas_algorithm est user epsilon budget pr last_allocation last_static rs sr P = Ok (Some a, n, rl) →
  (share_fin a ∧ within_limits rs a) ∨
  ∃ u, static_candidate est user last_static budget epsilon pr rs sr P = Ok (Some a, u).
Proof.
  intros Hp. assert (Hrs : scale_ok rs).
  { split; simpl; [by eexists|by eexists|..]; intros m [= <-]; fin_auto. }
  assert (Hfin : share_fin a).
  { destruct (ptas_total est rs pr epsilon user budget last_allocation last_static sr P)
      as (r & Hr & Hf & _); try done; [|by split; fin_auto|].
    - intros a'. rewrite Hstatic. by intros [= <-].
    - rewrite Hp in Hr. injection Hr as <-. by apply Hf. }
  apply ptas_origin in Hp as [u [Hst | last _ _ Hw _ | c points _ _ [_ _ _ Hw]]]; eauto.
Qed.

Lemma ptas_found a n rl :
  ptas_algorithm est user epsilon budget pr last_allocation last_static rs sr P = Ok (Some a, n, rl) →
  candidate_share c0 static a.
Proof.
  intros [[Hf Hw]|[u Hs]]%ptas_limits_or_static; [by apply found_within|].
  by apply static_candidate_found in Hs as (? & ? & ? & ? & _ & _ & _ & _ & ?).
Qed.

(** A user with a VM for itself gets a positive share of at most the VM. *)
Lemma ptas_single eps pc q0 a n rl :
  epsilon = Num eps → (eps <= 1)%Qc → (lob <= (1 - eps) * B)%Qc → hib = B → budget = Num 1%Qc →
  pr = Price (Num pc) (Num (1 - pc)%Qc) → (Q2Qc (1 # 1000000) <= 1 - pc)%Qc →
  c0 = Num q0 → (0 < q0 ∧ q0 <= 1)%Qc →
  ptas_algorithm est user epsilon budget pr last_allocation last_static rs sr P = Ok (Some a, n, rl) →
  ∃ c b, a_cache a = Num c ∧ a_mem_bw a = Num b ∧ (0 < c ∧ c <= 1 ∧ 0 < b ∧ b <= 1)%Qc.
Proof.
  intros Ee He1 Hlo HhB Eb Ep Hpb Ec [Hq0 Hq1] [[[[c Hc] [b Hb]] Hw]|[u Hs]]%ptas_limits_or_static.
  - destruct (within_limits_Num a c b Hw Hc Hb) as (H1 & H2 & H3 & H4). exists c, b.
    split_and!; try done; clear - H1 H2 H3 H4 Hloc Hlob HS HB Hmax HhB; qc_to_q; nra.
  - assert (He0 : (0 < eps)%Qc) by (destruct Heps as (? & E & ?); congruence).
    assert (Hpc : (0 < pc)%Qc) by (destruct Hpr as [(? & E & ?) _]; rewrite Ep in E; by injection E as ->).
    apply static_candidate_found in Hs as (m & b & c' & b' & Hm & Hb & Hr & -> & _).
    rewrite Ec, Ee, Eb, Ep in Hm. rewrite Ee in Hb.
    destruct (chunks_single eps q0 pc m b) as (q & -> & Hq); try done.
    rewrite Ec in Hr. destruct (repair_static_single _ _ _ _ _ _ _ _ Hlo HhB Hq Hr) as [-> ->].
    exists q0, q. split_and!; try done; [|apply Hq].
    clear - Hlo Hq Hlob HB. destruct Hq. qc_to_q. nra.
Qed.
End user.
End shares.

(** C28: with positive prices, granularity and resource scale, an
    estimator that returns and a readable last allocation, in exact arithmetic, the search raises no exception, and it returns a
    share whenever the user has a static allocation. *)
Theorem ptas_returns est rs pr epsilon user budget last_allocation last_static sr P :
  est_total est → scale_ok rs → price_pos pr → pos epsilon → fin budget →
  readable user last_allocation → entry_ok user last_static → range_ok sr → params_ok P →
  is_Some (last_static ≫= (λ d, dget d user)) →
  ∃ a n rl, ptas_algorithm est user epsilon budget pr last_allocation last_static rs sr P = Ok (Some a, n, rl).
Proof.
  intros H1 H2 H3 H4 H5 H6 H7 H8 H9 H10.
  destruct (ptas_total est rs pr epsilon user budget last_allocation last_static sr P)
    as ([[o n] rl] & -> & _ & Ho); try done.
  destruct (Ho H10) as [a Ha]. simpl in Ha. subst o. by exists a, n, rl.
Qed.

(** ** Cost of a grid share *)

(** C27: a grid share the search accepts for budget [B], the search having
    shrunk the budget by its safety margin, costs at most [B] at the current
    prices. *)
Theorem grid_share_affordable est rs pr pc pb m B user epsilon last_allocation P cache a u :
  scale_ok rs → pos epsilon →
  pr = Price (Num pc) (Num pb) → (0 < pc)%Qc → (0 < pb)%Qc →
  margin_in_budget P = Num m → (0 < m)%Qc →
  eval_point est user (Num B * margin_in_budget P)%py epsilon pr last_allocation (ensure_fields rs) P cache
    = Ok (Some (a, u)) →
  ∃ c b, a = share (Num c) (Num b) ∧ (c * pc + b * pb <= B)%Qc.
Proof.
  intros Hrs Heps -> Hpc Hpb Hm Hm0 He.
  assert (Hfull := ensure_fields_full _ Hrs). unfold eval_point in He.
  apply bind_Ok in He as ([c0 b0] & Hg & He).
  destruct (grid_point_total (Price (Num pc) (Num pb)) (conj (ex_intro _ pc (conj eq_refl Hpc))
    (ex_intro _ pb (conj eq_refl Hpb))) epsilon Heps (Num B * margin_in_budget P)%py cache)
    as ([c1 b1] & Hg' & Hc1 & Hb1); [rewrite Hm; fin_auto|].
  rewrite Hg in Hg'. injection Hg' as <- <-. simpl in Hc1, Hb1.
  apply bind_Ok in He as (mm & _ & He). apply bind_Ok in He as ([[] o] & _ & He); [|done].
  simpl in He. apply bind_Ok in He as ([c b] & Hcl & He).
  assert (Hcb : fin c ∧ fin b).
  { destruct (clip_to_min_max P); [|by inv_ok].
    destruct (clip_allocation_total c0 b0 _ Hfull Hc1 Hb1) as ([? ?] & Hcl' & ?).
    rewrite Hcl in Hcl'. by simplify_eq. }
  destruct Hcb as [[qc ->] [qb ->]].
  destruct (fleb _ _) eqn:Ele; [|done].
  apply bind_Ok in He as (? & _ & He). apply bind_Ok in He as (? & _ & He).
  apply bind_Ok in He as (? & _ & He). injection He as <- <-.
  exists qc, qb. split; [done|]. rewrite Hm in Ele. cbn in Ele. apply Qle_bool_iff in Ele.
  qc_to_q. nra.
Qed.

(** ** The repair of the static candidate *)

(** A bandwidth share outside its limits is never repaired to the limit:
    the clipped share is a fraction of the VM's bandwidth and [int] truncates
    it to zero, so the candidate is the unmodified static allocation or one
    without bandwidth. *)
Theorem repair_static_truncates static c b budget pr rs S lo hi c' b' :
  s_mem_bw rs = Num S → s_min_mem_bw rs = Some (Num lo) → s_max_mem_bw rs = Some (Num hi) →
  (0 < lo)%Qc → (lo <= hi)%Qc → (hi < S)%Qc → fin b →
  (fltb (Num hi) (b * Num S) || fltb (b * Num S) (Num lo))%py = true →
  repair_static static c b budget pr rs = Ok (c', b') →
  (c', b') = (a_cache static, a_mem_bw static) ∨ b' = of_Z 0.
Proof.
  intros HS Hlo Hhi Hlo0 Hle HhS [qb ->] Htrig Hr. unfold repair_static, scale_max, scale_min in Hr.
  rewrite Hlo, Hhi in Hr. simpl in Hr. rewrite HS, Htrig in Hr.
  apply bind_Ok in Hr as (q & Hq & Hr). apply bind_Ok in Hr as (z & Hz & Hr).
  enough (z = 0%Z) as ->.
  { inv_ok. case_match; inv_ok; auto. }
  destruct (fmax_Num lo (qb * S)%Qc) as (m & Hm & [Hm1 _] & _).
  destruct (fmin_Num hi m) as (v & Hv & [Hv1 Hv2] & Hcase).
  change (Num qb * Num S)%py with (Num (qb * S)%Qc) in Hq.
  rewrite Hm, Hv, fdiv_Num in Hq by (apply pos_ne0; qc_lra). injection Hq as <-.
  assert (Hvpos : (lo <= v)%Qc) by (destruct Hcase as [-> | ->]; qc_lra).
  destruct (trunc_nonneg (v / S)%Qc) as (z' & Hz' & Hnn & Hle' & _).
  { apply Qclt_le_weak, Qcdiv_pos; qc_lra. }
  rewrite Hz in Hz'. injection Hz' as <-.
  assert (Hlt : (this (v / S)%Qc < 1)%Q).
  { rewrite this_div. apply Qlt_shift_div_r; qc_lra. }
  assert (Hz1 : (inject_Z z < inject_Z 1)%Q) by (change (inject_Z 1) with 1%Q; lra).
  rewrite <- Zlt_Qlt in Hz1. lia.
Qed.
