(* ===== verification/Base.v ===== *)
(** * What the allocators share: allocators/allocator_base.py, utils/helpers.py

    The VM-to-application map, the number of VMs of the configuration, the
    applications of a VM, the flat division used when the map is incomplete,
    and maps up to order. *)

From S2P Require Import Prelude PyDict PyFloat Resources.
From stdpp Require Export sorting.
From Stdlib Require Import SetoidPermutation.

(** [vm_to_app_map]: VM id to application ids, in the controller's order. *)
Definition vm_map := dict Z (list Z).

(** ** Configuration *)

(** The part of the raw configuration [get_num_vms] reads: each level may be
    absent. *)
Record cluster_config := ClusterConfig { cluster_num_vms : option Z }.
Record raw_config := RawConfig { raw_cluster : option cluster_config }.

Definition get_num_vms (raw : option raw_config) : Z :=
  match raw with
  | Some (RawConfig (Some (ClusterConfig (Some n)))) => n
  | _ => 1
  end.

(** ** The VM map *)

(** [set(user for app_list in vm_to_app_map.values() for user in app_list)] *)
Definition mapped_users (m : vm_map) : list Z := concat (dvalues m).

(** [vm_to_app_map and set(users) - mapped == set()] *)
Definition is_complete_vm_map (m : vm_map) (users : list Z) : bool :=
  match m with
  | [] => false
  | _ => forallb (λ u, bool_decide (u ∈ mapped_users m)) users
  end.

(** [[a for a in app_ids if a in users]] *)
Definition filter_apps (app_ids users : list Z) : list Z :=
  filter (λ a, a ∈ users) app_ids.

(** The same list after [.sort()]. *)
Definition vm_apps (app_ids users : list Z) : list Z :=
  merge_sort Z.le (filter_apps app_ids users).

(** [create_app_to_vm_map]: the inverse map; a later VM wins. *)
Definition create_app_to_vm_map (m : vm_map) : dict Z Z :=
  foldl (λ acc p, foldl (λ acc app, dset acc app p.1) acc p.2) [] m.

(** ** Flat division

    Without a complete map the users are cut into [num_vms] groups of
    [users_per_vm]; [flat_group_size] is how many users share the resources
    with user number [idx] (static_allocator.py, spirit_allocator.py). *)
Definition py_floordiv (a b : Z) : res Z :=
  if (b =? 0)%Z then Err ZeroDivisionError else Ok (a / b)%Z.

Definition users_per_vm (n_users num_vms : Z) : res Z :=
  q ← py_floordiv n_users num_vms; Ok (Z.max 1 q).

Definition flat_group_size (n_users num_vms per_vm idx : Z) : Z :=
  let vm_idx := (idx / per_vm)%Z in
  if (vm_idx <? num_vms)%Z then per_vm else (n_users - vm_idx * per_vm)%Z.

(** [enumerate(users)] *)
Definition enumerate (users : list Z) : list (Z * Z) :=
  zip (seqZ 0 (Z.of_nat (length users))) users.

Section shares.
Context {F : Type} `{PyFloat F}.
Local Open Scope py_scope.

(** [{key: 1. / float(n)}] *)
Definition equal_share (n : Z) : res (alloc F) :=
  c ← lit 1 1 / of_Z n;
  b ← lit 1 1 / of_Z n;
  Ok (share c b).
End shares.

(** ** Facts *)

Lemma vm_apps_perm app_ids users : vm_apps app_ids users ≡ₚ filter_apps app_ids users.
Proof. apply merge_sort_Permutation. Qed.

Lemma elem_of_vm_apps a app_ids users :
  a ∈ vm_apps app_ids users ↔ a ∈ app_ids ∧ a ∈ users.
Proof. rewrite vm_apps_perm. unfold filter_apps. rewrite list_elem_of_filter. tauto. Qed.

Lemma NoDup_vm_apps app_ids users : NoDup app_ids → NoDup (vm_apps app_ids users).
Proof. intros. rewrite vm_apps_perm. by apply NoDup_filter. Qed.

Lemma is_complete_vm_map_true m users :
  is_complete_vm_map m users = true →
  ∀ u, u ∈ users → ∃ vm apps, (vm, apps) ∈ m ∧ u ∈ apps.
Proof.
  intros Hc u Hu. destruct m as [|p m]; [done|].
  set (m' := p :: m) in *. change (forallb (λ u, bool_decide (u ∈ mapped_users m')) users = true) in Hc.
  rewrite forallb_forall in Hc. specialize (Hc u ltac:(by apply list_elem_of_In)).
  apply bool_decide_eq_true in Hc. unfold mapped_users, dvalues in Hc.
  apply list_elem_of_In, in_concat in Hc as (apps & Hin & Ha).
  apply list_elem_of_In in Ha. apply list_elem_of_In in Hin.
  apply list_elem_of_fmap in Hin as ([vm apps'] & -> & ?). eauto.
Qed.

(** A map in which no application occurs twice. *)
Section distinct.
Context (m : vm_map) (Hm : NoDup (mapped_users m)).

Lemma vm_NoDup vm : vm ∈ m → NoDup vm.2.
Proof using Hm.
  intros Hvm. apply list_elem_of_split in Hvm as (m1 & m2 & E). unfold mapped_users, dvalues in Hm.
  rewrite E, fmap_app, concat_app in Hm. apply NoDup_app in Hm as (_ & _ & Hm2).
  simpl in Hm2. by apply NoDup_app in Hm2 as (? & _).
Qed.

(** An application belongs to one VM. *)
Lemma vm_disjoint p q u : p ∈ m → q ∈ m → u ∈ p.2 → u ∈ q.2 → p = q.
Proof using Hm.
  unfold mapped_users, dvalues in Hm. induction m as [|r m' IH]; [set_solver|].
  simpl in Hm. apply NoDup_app in Hm as (_ & Hdis & Hm').
  assert (Hin : ∀ t, t ∈ m' → u ∈ t.2 → u ∈ concat m'.*2).
  { intros t Ht Hu. apply list_elem_of_In, in_concat. exists t.2.
    split; apply list_elem_of_In; [|done]. apply list_elem_of_fmap. eauto. }
  intros [->|Hp]%elem_of_cons [->|Hq]%elem_of_cons Hup Huq; [done|..].
  - exfalso. by eapply Hdis; [|eapply (Hin q)].
  - exfalso. by eapply Hdis; [|eapply (Hin p)].
  - by apply IH.
Qed.
End distinct.

(** ** VM maps up to order

    The controller answers with Rust hash maps, whose iteration order differs
    from answer to answer.  [same_vms] relates the maps that list the same
    applications for the same VMs, in any order; what the allocators read of a
    map respects it. *)

(** The same VM, with the same applications. *)
Definition same_vm (p q : Z * list Z) : Prop := p.1 = q.1 ∧ p.2 ≡ₚ q.2.

#[export] Instance same_vm_equivalence : Equivalence same_vm.
Proof.
  split.
  - by intros p.
  - intros p q [? Hp]. by split.
  - intros p q r [? Hp] [? Hq]. split; [congruence|by etrans].
Qed.

Definition same_vms : relation vm_map := PermutationA same_vm.

#[export] Instance same_vms_equivalence : Equivalence same_vms.
Proof. unfold same_vms. apply _. Qed.

(** Reordering the VMs, and within each its applications. *)
Lemma same_vms_perm (m m' : vm_map) : m ≡ₚ m' → same_vms m m'.
Proof.
  induction 1 as [|x l l' _ IH|x y l|l1 l2 l3 _ IH1 _ IH2]; [constructor|by constructor|apply permA_swap|].
  exact (permA_trans IH1 IH2).
Qed.

Lemma same_vms_pointwise (m m' : vm_map) : Forall2 same_vm m m' → same_vms m m'.
Proof. induction 1; [constructor|by constructor]. Qed.

(** A VM of one map is a VM of the other. *)
Lemma same_vms_elem (m m' : vm_map) p : same_vms m m' → p ∈ m → ∃ q, q ∈ m' ∧ same_vm p q.
Proof.
  intros Hm. revert p. induction Hm as [|x y m m' Hxy Hm IH|x y m|m1 m2 m3 _ IH1 _ IH2]; intros p Hp.
  - set_solver.
  - apply elem_of_cons in Hp as [->|Hp]; [exists y; split; [left|done]|].
    destruct (IH p Hp) as (q & ? & ?). exists q. split; [by right|done].
  - exists p. split; [set_solver|done].
  - destruct (IH1 p Hp) as (q & Hq & Hpq). destruct (IH2 q Hq) as (r & ? & ?).
    exists r. split; [done|by etrans].
Qed.

#[export] Instance mapped_users_proper : Proper (same_vms ==> Permutation) mapped_users.
Proof.
  unfold mapped_users, dvalues. induction 1 as [|x y m m' [_ Hxy] _ IH|x y m|m1 m2 m3 _ IH1 _ IH2]; simpl.
  - done.
  - by rewrite Hxy, IH.
  - by rewrite !app_assoc, (Permutation_app_comm x.2).
  - by etrans.
Qed.

#[export] Instance is_complete_proper : Proper (same_vms ==> (=) ==> (=)) is_complete_vm_map.
Proof.
  intros m m' Hm users ? <-. assert (Hnil : ∀ m m', same_vms m m' → m = [] → m' = []).
  { clear. induction 1; naive_solver. }
  unfold is_complete_vm_map. destruct m as [|p m0] eqn:E, m' as [|p' m0'] eqn:E'; [done|..].
  - by specialize (Hnil _ _ Hm eq_refl).
  - by specialize (Hnil _ _ (symmetry Hm) eq_refl).
  - rewrite <- E, <- E' in *. clear E E' Hnil p p' m0 m0'. induction users as [|u users IH]; [done|].
    cbn [forallb]. rewrite IH. f_equal. apply bool_decide_ext. by rewrite Hm.
Qed.

(** The applications of a VM are sorted, so their order does not matter. *)
#[export] Instance vm_apps_proper : Proper (Permutation ==> (=) ==> (=)) vm_apps.
Proof.
  intros l l' Hl users ? <-. apply (Sorted_unique Z.le); [apply Sorted_merge_sort, _..|].
  rewrite !vm_apps_perm. unfold filter_apps. by rewrite Hl.
Qed.

Lemma same_vm_apps p q users : same_vm p q → vm_apps p.2 users = vm_apps q.2 users.
Proof. intros [_ Hpq]. by rewrite Hpq. Qed.

(** Maps with the same VMs, each with the same applications. *)
Lemma same_vms_keys (m m' : vm_map) :
  NoDup (dkeys m) → NoDup (dkeys m') → (∀ vm, vm ∈ dkeys m ↔ vm ∈ dkeys m') →
  (∀ p q, p ∈ m → q ∈ m' → p.1 = q.1 → p.2 ≡ₚ q.2) → same_vms m m'.
Proof.
  revert m'. induction m as [|p m IH]; intros m' Hnd Hnd' Hk Hv.
  - destruct m' as [|q m']; [done|]. exfalso. apply (not_elem_of_nil q.1), (Hk q.1). csimpl. by left.
  - unfold dkeys in *. csimpl in *. apply NoDup_cons in Hnd as [Hp Hnd].
    assert (Hin : p.1 ∈ m'.*1) by (apply Hk; by left).
    apply list_elem_of_fmap in Hin as (q & Epq & (l1 & l2 & ->)%list_elem_of_split).
    transitivity (q :: l1 ++ l2); [|symmetry; apply same_vms_perm; by rewrite Permutation_middle].
    assert (Hperm : (l1 ++ q :: l2).*1 ≡ₚ q.1 :: (l1 ++ l2).*1) by (by rewrite <- Permutation_middle).
    rewrite Hperm in Hnd'. apply NoDup_cons in Hnd' as [Hq Hnd'].
    constructor; [split; [done|]; apply Hv; [by left|set_solver|done]|]. apply IH; [done|done|..].
    + intros vm. specialize (Hk vm). rewrite Hperm, !elem_of_cons, Epq in Hk. rewrite Epq in Hp.
      split; intros Hvm; [destruct (proj1 Hk (or_intror Hvm)) as [->|?]|destruct (proj2 Hk (or_intror Hvm)) as [->|?]];
        try done; by destruct Hp || by destruct Hq.
    + intros p' q' Hp' Hq'. apply Hv; [by right|]. set_solver.
Qed.
