(* ===== verification/BaseExact.v ===== *)
(** * Equal division in exact arithmetic

    What [int(scale / n)] hands out: [n] equal shares are the whole resource,
    and their truncated units fit into it. *)

From S2P Require Import Prelude PyDict PyFloat Exact Resources Base.

(** The rational of an integer. *)
Definition zq (n : Z) : Qc := Q2Qc (inject_Z n).

Lemma zq_pos n : (0 < n)%Z → (0 < zq n)%Qc.
Proof. intros. unfold zq. qc_to_q. change 0%Q with (inject_Z 0). by rewrite <- Zlt_Qlt. Qed.

Lemma zq_le a b : (zq a <= zq b)%Qc ↔ (a <= b)%Z.
Proof. unfold zq. rewrite (Zle_Qle a b). split; intros; qc_to_q; done. Qed.

Lemma zq_lt a b : (zq a < zq b)%Qc ↔ (a < b)%Z.
Proof. unfold zq. rewrite (Zlt_Qlt a b). split; intros; qc_to_q; done. Qed.

Lemma zq_add a b : (zq (a + b) = zq a + zq b)%Qc.
Proof. unfold zq. apply Qc_is_canon. autorewrite with qcs. by rewrite inject_Z_plus. Qed.

Lemma zq_mul a b : (zq (a * b) = zq a * zq b)%Qc.
Proof. unfold zq. apply Qc_is_canon. autorewrite with qcs. by rewrite inject_Z_mult. Qed.

(** [sum] over integers and over their rationals. *)
Definition zsum (l : list Z) : Z := foldr Z.add 0%Z l.

Lemma zq_zsum l : zq (zsum l) = qsum (zq <$> l).
Proof.
  induction l as [|a l IH]; csimpl; [by rewrite qsum_nil|]. by rewrite qsum_cons, zq_add, IH.
Qed.

Definition inv_share (n : Z) : alloc xnum := share (Num (/ zq n)%Qc) (Num (/ zq n)%Qc).

Section equal.
Context (n : Z) (Hn : (0 < n)%Z).

Lemma fdiv_zq a : fdiv (Num a) (of_Z n) = Ok (Num (a / zq n)%Qc).
Proof. change (of_Z n : xnum) with (Num (zq n)). apply fdiv_Num, pos_ne0, zq_pos, Hn. Qed.

Lemma equal_share_Num : equal_share n = Ok (inv_share n).
Proof.
  unfold equal_share. change (lit 1 1 : xnum) with (Num 1%Qc). rewrite fdiv_zq. simpl.
  unfold inv_share. do 2 f_equal; apply (f_equal Num); unfold Qcdiv; ring.
Qed.

(** The units of an equal share are the truncated product of the share and
    the scale: both ways the code computes them agree. *)
Lemma equal_units_scale rs S B :
  s_cache rs = Num S → s_mem_bw rs = Num B →
  equal_units rs n = scale_units rs (inv_share n).
Proof.
  intros HS HB. unfold equal_units, scale_units. rewrite HS, HB, !fdiv_zq.
  assert (Hcomm : ∀ q, Num (q / zq n)%Qc = (Num (/ zq n)%Qc * Num q)%py).
  { intros q. apply (f_equal Num), Qcmult_comm. }
  by rewrite !Hcomm.
Qed.

Lemma inv_share_pos : pos (a_cache (inv_share n)) ∧ pos (a_mem_bw (inv_share n)).
Proof.
  assert (0 < / zq n)%Qc.
  { pose proof (Qcdiv_pos 1 (zq n) ltac:(done) (zq_pos n Hn)) as Hp. unfold Qcdiv in Hp.
    by rewrite Qcmult_1_l in Hp. }
  split; eexists; done.
Qed.
End equal.

(** The equal shares of [l] add up to the whole resource. *)
Lemma equal_shares_sum {A} (l : list A) :
  l ≠ [] → qsum ((λ _, (/ zq (Z.of_nat (length l)))%Qc) <$> l) = 1%Qc.
Proof.
  intros Hl. rewrite qsum_const. fold (zq (Z.of_nat (length l))).
  apply Qcmult_inv_r, pos_ne0, zq_pos. destruct l; [done|simpl; lia].
Qed.

(** Truncation only gives away: the units of a non-negative amount are at
    most the amount. *)
Lemma trunc_le_nonneg q z : (0 <= q)%Qc → trunc (Num q) = Ok z → (zq z <= q)%Qc ∧ (0 <= z)%Z.
Proof.
  intros Hq Hz. destruct (trunc_nonneg q) as (z' & Hz' & H); [done|].
  rewrite Hz in Hz'. injection Hz' as ->. unfold zq. split; [|lia]. qc_to_q; lra.
Qed.

(** ** Units of computed shares *)

(** One user's deployed units with the shares they come from. *)
Definition fits (S B : Qc) (t : units * Qc * Qc) : Prop :=
  let '(x, c, b) := t in
  (0 <= u_cache x)%Z ∧ (0 <= u_mem_bw x)%Z ∧
  (zq (u_cache x) <= c * S)%Qc ∧ (zq (u_mem_bw x) <= b * (B * zq 1024))%Qc.

Lemma scale_units_fits rs S B c b p x :
  s_cache rs = Num S → s_mem_bw rs = Num B → (0 <= S)%Qc → (0 <= B)%Qc →
  (0 <= c)%Qc → (0 <= b)%Qc →
  scale_units rs (Alloc (Num c) (Num b) p) = Ok x → fits S B (x, c, b).
Proof.
  intros HS HB HS0 HB0 Hc Hb Hx. unfold scale_units in Hx. simpl in Hx. rewrite HS, HB in Hx.
  apply bind_Ok in Hx as (zc & Hzc & Hx). apply bind_Ok in Hx as (zb & Hzb & Hx).
  injection Hx as <-.
  change (Num c * Num S)%py with (Num (c * S)%Qc) in Hzc.
  change (Num b * Num B * of_Z 1024)%py with (Num (b * B * zq 1024)%Qc) in Hzb.
  assert (Hk : (0 <= zq 1024)%Qc) by done.
  apply trunc_le_nonneg in Hzc as [Hzc Hzc0]; [|qc_to_q; nra].
  apply trunc_le_nonneg in Hzb as [Hzb Hzb0].
  - unfold fits. simpl. split; [done|]. split; [done|]. split; [done|].
    by rewrite Qcmult_assoc.
  - assert (0 <= b * B)%Qc by (qc_to_q; nra). clear - Hk H. qc_to_q. nra.
Qed.

Lemma qsum_fits S B ts :
  Forall (fits S B) ts →
  (zq (zsum ((λ t, u_cache t.1.1) <$> ts)) <= qsum ((λ t, t.1.2) <$> ts) * S)%Qc ∧
  (zq (zsum ((λ t, u_mem_bw t.1.1) <$> ts)) <= qsum ((λ t, t.2) <$> ts) * (B * zq 1024))%Qc.
Proof.
  induction 1 as [|[[x c] b] ts (_ & _ & Hc & Hb) _ [IH1 IH2]]; csimpl.
  - rewrite !qsum_nil. by split; rewrite Qcmult_0_l.
  - rewrite !qsum_cons, !zq_add, !Qcmult_plus_distr_l. split; by apply Qcplus_le_compat.
Qed.
