(* ===== verification/Params.v ===== *)
(** * Allocator parameters: [AllocatorParams] and its five subclasses

    Granularity, interval, length of the static phase, and the number of
    collections per round, [int(interval * rate)]. *)

From S2P Require Import Prelude PyDict PyFloat PyStr Json Exact BaseExact.

(** The attributes the control loop and the allocators read; the interval is
    the value of the configuration. *)
Record alloc_params (F : Type) := AllocParams {
  p_search_granularity : F;
  allocation_interval_in_sec : json F;
  retrain : bool;
  p_init_phase_interval : Z;
  p_search_range : option F;
  measurements_per_alloc : Z;
}.
Arguments AllocParams {F}.
Arguments p_search_granularity {F}.
Arguments allocation_interval_in_sec {F}.
Arguments retrain {F}.
Arguments p_init_phase_interval {F}.
Arguments p_search_range {F}.
Arguments measurements_per_alloc {F}.

Section params.
Context {F : Type} `{PyFloat F}.
Local Open Scope py_scope.

(** The collections of a round, at the default rate of 0.25 per second. *)
Definition measurement_rate : F := lit 25 100.

Definition measurements (interval : json F) : res Z :=
  x ← jnumber interval;
  trunc (x * measurement_rate).

(** [float(1. / 200.)], shared by three of the allocators; and [0.125 / 2.] *)
Definition fine_granularity : F := lit 1 200.
Definition coarse_granularity : F := lit 1 16.

Definition make_params (granularity : F) (search_range : option F) (interval : json F)
    (init_phase_interval : Z) : res (alloc_params F) :=
  n ← measurements interval;
  Ok (AllocParams granularity interval false init_phase_interval search_range n).

Definition SpiritAllocatorParams (interval : json F) (init_phase_interval : Z) : res (alloc_params F) :=
  make_params fine_granularity (Some (fine_granularity * of_Z 5)) interval init_phase_interval.

Definition StaticAllocatorParams (interval : json F) (init_phase_interval : Z) : res (alloc_params F) :=
  make_params coarse_granularity (Some (lit 1 10)) interval init_phase_interval.

Definition OracleAllocatorParams (interval : json F) (init_phase_interval : Z) : res (alloc_params F) :=
  make_params coarse_granularity (Some (lit 1 10)) interval init_phase_interval.

Definition IncrementalTradeAllocatorParams (interval : json F) (init_phase_interval : Z)
    : res (alloc_params F) :=
  make_params fine_granularity None interval init_phase_interval.

Definition FijTradeAllocatorParams (interval : json F) (init_phase_interval : Z) : res (alloc_params F) :=
  make_params fine_granularity None interval init_phase_interval.

(** The pause between two collections, [start] line 64. *)
Definition sleep_interval (p : alloc_params F) : res F :=
  x ← jnumber (allocation_interval_in_sec p);
  x / of_Z (measurements_per_alloc p).
End params.

(** ** In exact arithmetic *)

(** An interval of whole seconds. *)
Lemma measurements_seconds i : (0 <= i)%Z → measurements (F := xnum) (JInt i) = Ok (i / 4)%Z.
Proof.
  intros Hi. unfold measurements. cbn [jnumber mbind res_bind].
  change (of_Z i * measurement_rate)%py with (Num (zq i * Q2Qc (25 # 100))%Qc).
  assert (Hq : (this (zq i * Q2Qc (25 # 100))%Qc == inject_Z i * (1 # 4))%Q).
  { unfold zq. autorewrite with qcs. change (25 # 100) with (25 * (1 # 100))%Q. ring. }
  set (q := (zq i * Q2Qc (25 # 100))%Qc) in *. clearbody q.
  assert (Hi' : (0 <= inject_Z i)%Q) by (change 0%Q with (inject_Z 0); by rewrite <- Zle_Qle).
  destruct (trunc_nonneg q) as (z & -> & _ & H1 & H2); [unfold Qcle; rewrite Hq, this_0; lra|]. f_equal.
  assert (Hz : (inject_Z (4 * z) <= inject_Z i ∧ inject_Z i < inject_Z (4 * z + 4))%Q).
  { rewrite inject_Z_plus, inject_Z_mult. change (inject_Z 4) with 4%Q. rewrite Hq in *. split; lra. }
  rewrite <- Zle_Qle, <- Zlt_Qlt in Hz. apply Z.div_unique with (i - 4 * z)%Z; lia.
Qed.

Lemma make_params_seconds g r i n :
  (0 <= i)%Z →
  make_params (F := xnum) g r (JInt i) n = Ok (AllocParams g (JInt i) false n r (i / 4)).
Proof. intros Hi. unfold make_params. by rewrite measurements_seconds. Qed.

(** From 4 seconds on there is a pause, and the pauses of a round make up the
    interval. *)
Lemma sleep_interval_seconds g r i n :
  (4 <= i)%Z →
  ∃ t, sleep_interval (F := xnum) (AllocParams g (JInt i) false n r (i / 4)) = Ok (Num t) ∧
    (0 < t)%Qc ∧ (zq (i / 4) * t = zq i)%Qc.
Proof.
  intros Hi. assert (Hm : (0 < i / 4)%Z) by (apply Z.div_str_pos; lia).
  exists (zq i / zq (i / 4))%Qc. unfold sleep_interval. cbn [allocation_interval_in_sec measurements_per_alloc jnumber mbind res_bind].
  split; [|split].
  - change (of_Z i : xnum) with (Num (zq i)). by rewrite (fdiv_zq (i / 4) Hm).
  - apply Qcdiv_pos; apply zq_pos; lia.
  - apply Qcmult_div_r, pos_ne0, zq_pos, Hm.
Qed.

(** Below that there is none. *)
Lemma sleep_interval_short g r i n :
  (0 <= i < 4)%Z →
  sleep_interval (F := xnum) (AllocParams g (JInt i) false n r (i / 4)) = Err ZeroDivisionError.
Proof. intros Hi. unfold sleep_interval. rewrite Z.div_small by done. reflexivity. Qed.
