(* ===== verification/Spirit.v ===== *)
(** * The Spirit allocator: allocators/spirit_allocator.py

    Per VM, a binary search over prices: every round asks each user's best
    share at the current price ([Ptas]), sums the demand, and moves the price
    towards the scarce resource. *)

From S2P Require Import Prelude PyDict PyFloat Resources Ptas Base.

(** [search]: the strategy [allocate] is called with. *)
Inductive search_method := Linear | Binary.

(** The fields of [SpiritAllocatorParams] the allocator reads. *)
Record spirit_params (F : Type) := SpiritParams {
  init_phase_interval : Z;
  search_granularity : F;
  search_range : F;
  adaptive_iter : bool;
  min_iter_bound : Z;
  max_iter_bound : Z;
}.
Arguments SpiritParams {F}.
Arguments init_phase_interval {F}.
Arguments search_granularity {F}.
Arguments search_range {F}.
Arguments adaptive_iter {F}.
Arguments min_iter_bound {F}.
Arguments max_iter_bound {F}.

(** The mutable fields of [SpiritAllocator]. *)
Record spirit (F : Type) := SpiritState {
  last_allocation : option (dict Z (alloc F));
  last_static_allocation : option (dict Z (alloc F));
  num_conflict : Z;
  max_iteration : Z;
}.
Arguments SpiritState {F}.
Arguments last_allocation {F}.
Arguments last_static_allocation {F}.
Arguments num_conflict {F}.
Arguments max_iteration {F}.

Definition num_conflict_resolve_th : Z := 3.
Definition maximum_retry : Z := 3.

Section Spirit.
Context {F : Type} `{PyFloat F}.
Local Open Scope py_scope.

Definition set_last (d : dict Z (alloc F)) (s : spirit F) : spirit F :=
  SpiritState (Some d) (last_static_allocation s) (num_conflict s) (max_iteration s).
Definition set_num_conflict (n : Z) (s : spirit F) : spirit F :=
  SpiritState (last_allocation s) (last_static_allocation s) n (max_iteration s).
Definition set_max_iteration (n : Z) (s : spirit F) : spirit F :=
  SpiritState (last_allocation s) (last_static_allocation s) (num_conflict s) n.

(** [SpiritAllocator.__init__] *)
Definition new_spirit : spirit F := SpiritState None None 0 20.

(** [SpiritAllocatorParams(interval, ...)] with its default arguments and
    the [init_phase_interval] of main_memcached.py. *)
Definition base_search_granularity : F := lit 1 200.
Definition default_spirit_params : spirit_params F :=
  SpiritParams 3 base_search_granularity (base_search_granularity * of_Z 5) false 5 25.

(** [self.last_allocation[...]] on [None] is a [TypeError]. *)
Definition last_dict (s : spirit F) : res (dict Z (alloc F)) :=
  or_raise TypeError (last_allocation s).

Context (est : Z → F → F → res F) (rs : scale F) (par : spirit_params F).

(** ** One round of demands *)

(** [compute_resource_usage]: the demand for each resource. *)
Definition compute_resource_usage (allocation : dict Z (alloc F)) : price F :=
  Price (fsum (a_cache <$> dvalues allocation)) (fsum (a_mem_bw <$> dvalues allocation)).

(** One user of [find_best_allocation_per_user]. *)
Definition best_for_user (pr : price F) (n_users : Z) (weights : dict Z F) (s : spirit F)
    (user : Z) (acc : dict Z (alloc F) * list Z * resource_limited)
    : res (dict Z (alloc F) * list Z * resource_limited) :=
  let '(allocations, num_iter_list, rl) := acc in
  last ← last_dict s;
  cur ← dgetE last user;
  let sr := get_search_dict cur (search_range par) in
  w ← dgetE weights user;
  '(o, num_iter, rl') ← ptas_algorithm est user (search_granularity par) w pr
     (Some last) (last_static_allocation s) rs sr default_params;
  a ← match o with
      | Some a => Ok a
      | None => get_static_allocation n_users
      end;
  Ok (dset allocations user a, num_iter_list ++ [num_iter], rl_update rl rl').

Definition find_best_allocation_per_user (pr : price F) (users : list Z) (weights : dict Z F)
    (s : spirit F) : res (dict Z (alloc F) * list Z * resource_limited) :=
  for_all (best_for_user pr (Z.of_nat (length users)) weights s) users ([], [], no_limit).

(** ** Moving the price *)

Definition mid_price (l r : price F) : res (price F) :=
  c ← (p_cache l + p_cache r) / lit 2 1;
  b ← (p_mem_bw l + p_mem_bw r) / lit 2 1;
  Ok (Price c b).

(** [compute_and_update_mid] *)
Definition compute_and_update_mid (v : price_vector F) : res (price_vector F) :=
  m ← mid_price (pv_left v) (pv_right v);
  Ok (PriceVector m (pv_left v) (pv_right v)).

Definition float_precision : F := lit 1 100000.
Definition clipping_res_decrease_ratio : F := lit 25 100.

(** [x + (cur - x) * clipping_res_decrease_ratio] per resource *)
Definition towards (x cur : price F) : price F :=
  Price (p_cache x + (p_cache cur - p_cache x) * clipping_res_decrease_ratio)
        (p_mem_bw x + (p_mem_bw cur - p_mem_bw x) * clipping_res_decrease_ratio).

Definition set_left (p : price F) (v : price_vector F) : price_vector F :=
  PriceVector (pv_cur v) p (pv_right v).
Definition set_right (p : price F) (v : price_vector F) : price_vector F :=
  PriceVector (pv_cur v) (pv_left v) p.

Definition over (x : F) : bool := x >? lit 1 1 + float_precision.

(** The binary update (lines 336-378): [None] when the prices have
    converged. *)
Definition update_binary (rl : resource_limited) (sum : price F) (v : price_vector F)
    : option (price_vector F) :=
  if is_resource_limited rl then
    if mem_bw_max_limit rl || mem_bw_min_limit rl then
      if over (p_cache sum) then Some (set_right (towards (pv_right v) (pv_cur v)) v)
      else Some (set_left (towards (pv_left v) (pv_cur v)) v)
    else if cache_max_limit rl || cache_min_limit rl then
      if over (p_mem_bw sum) then Some (set_left (towards (pv_left v) (pv_cur v)) v)
      else Some (set_right (towards (pv_right v) (pv_cur v)) v)
    else Some v
  else if over (p_cache sum) then Some (set_right (pv_cur v) v)
  else if over (p_mem_bw sum) then Some (set_left (pv_cur v) v)
  else None.

(** The linear update (lines 311-335) of the price, its step and the set of
    prices already searched. *)
Definition update_linear (sum : price F) (v : price_vector F) (coef : F)
    (searched : list (F * F)) : res (price_vector F * F * list (F * F)) :=
  let p := pv_cur v in
  let '(p', reduce) :=
    if over (p_cache sum) then (Price (p_cache p + coef) (p_mem_bw p - coef), false)
    else if over (p_mem_bw sum) then (Price (p_cache p - coef) (p_mem_bw p + coef), false)
    else (p, true) in
  let v' := PriceVector p' (pv_left v) (pv_right v) in
  if bool_decide ((p_cache p', p_mem_bw p') ∈ searched) || reduce then
    c ← coef / lit 2 1; Ok (v', c, [])
  else Ok (v', coef, searched).

(** ** The price search of one VM *)

Record price_state := PriceState {
  ps_vector : price_vector F;
  ps_coef : F;
  ps_searched : list (F * F);
  ps_iteration : Z;
}.

(** How the [while True] loop is left: the allocation (the search's own, or
    [self.last_allocation] itself) and whether it converged. *)
Record search_result := SearchResult {
  sr_alloc : dict Z (alloc F);
  sr_is_last : bool;
  sr_converged : bool;
  sr_vector : price_vector F;
  sr_spirit : spirit F;
}.

Inductive round_result :=
  | Again (ps : price_state)
  | Leave (r : search_result).

Definition fall_back (v : price_vector F) (s : spirit F) : res search_result :=
  s ← (if adaptive_iter par then
         n ← trunc (of_Z (max_iteration s) * lit 3 2);
         Ok (set_max_iteration (Z.min n (max_iter_bound par)) s)
       else Ok s);
  let n := (num_conflict s + 1)%Z in
  let s := set_num_conflict (if (num_conflict_resolve_th <? n)%Z then 0%Z else n) s in
  last ← last_dict s;
  Ok (SearchResult last true false v s).

(** After the price update: the checks at the end of the loop body
    (lines 380-427). *)
Definition end_of_round (cur : dict Z (alloc F)) (sum : price F) (maximum_iteration : Z)
    (ps : price_state) (s : spirit F) : res round_result :=
  let v := ps_vector ps in
  if (p_cache (pv_cur v) <? float_precision) && (p_mem_bw (pv_cur v) <? float_precision) then
    s ← (if adaptive_iter par then
           q ← of_Z (max_iteration s) / lit 3 2;
           n ← trunc q;
           Ok (set_max_iteration (Z.max n (min_iter_bound par)) s)
         else Ok s);
    Ok (Leave (SearchResult cur false false v s))
  else if (maximum_iteration <=? ps_iteration ps)%Z then
    if over (p_cache sum) || over (p_mem_bw sum) then
      if (ps_iteration ps <=? maximum_iteration + maximum_retry)%Z then Ok (Again ps)
      else r ← fall_back v s; Ok (Leave r)
    else Ok (Leave (SearchResult cur false true v s))
  else Ok (Again ps).

(** The body of [while True]. *)
Definition price_round (search : search_method) (users : list Z) (weights : dict Z F)
    (maximum_iteration : Z) (ps : price_state) (s : spirit F) : res round_result :=
  v ← match search with
      | Binary => compute_and_update_mid (ps_vector ps)
      | Linear => Ok (ps_vector ps)
      end;
  let searched := ps_searched ps ++ [(p_cache (pv_cur v), p_mem_bw (pv_cur v))] in
  let iteration := (ps_iteration ps + 1)%Z in
  '(cur, _, rl) ← find_best_allocation_per_user (pv_cur v) users weights s;
  let sum := compute_resource_usage cur in
  match search with
  | Linear =>
      '(v', coef, searched') ← update_linear sum v (ps_coef ps) searched;
      end_of_round cur sum maximum_iteration (PriceState v' coef searched' iteration) s
  | Binary =>
      match update_binary rl sum v with
      | None => Ok (Leave (SearchResult cur false true v (set_num_conflict 0 s)))
      | Some v' =>
          end_of_round cur sum maximum_iteration (PriceState v' (ps_coef ps) searched iteration) s
      end
  end.

(** [while True] with fuel; [None] when the fuel runs out. *)
Fixpoint price_loop (fuel : nat) (search : search_method) (users : list Z) (weights : dict Z F)
    (maximum_iteration : Z) (ps : price_state) (s : spirit F) : res (option search_result) :=
  match fuel with
  | O => Ok None
  | S fuel' =>
      r ← price_round search users weights maximum_iteration ps s;
      match r with
      | Leave r => Ok (Some r)
      | Again ps' => price_loop fuel' search users weights maximum_iteration ps' s
      end
  end.

Definition init_price (search : search_method) : price_state :=
  let half := Price (lit 1 2) (lit 1 2) in
  let left := Price (lit 1 1) (lit 0 1) in
  let right := Price (lit 0 1) (lit 1 1) in
  PriceState (PriceVector half left right) (lit 5 100) [] 0.

(** The loop leaves in round [max(1, max_iteration + maximum_retry + 1)] at
    the latest. *)
Definition price_fuel (s : spirit F) : nat :=
  Z.to_nat (Z.max 1 (max_iteration s + maximum_retry + 1)).

(** [cur_alloc[user_id]["price"] = price_vector] for each user *)
Definition set_price (v : price_vector F) (user : Z) (d : dict Z (alloc F))
    : res (dict Z (alloc F)) :=
  a ← dgetE d user;
  Ok (dset d user (Alloc (a_cache a) (a_mem_bw a) (Some v))).

(** [allocate]: the allocation of one VM's users, whether the prices
    converged, and the new state; [None] when the fuel runs out.  When the
    search gives up, the allocation is [self.last_allocation] itself, and the
    prices are stored in it. *)
Definition allocate (search : search_method) (users : list Z) (weights : dict Z F) (s : spirit F)
    : res (option (dict Z (alloc F) * bool * spirit F)) :=
  o ← price_loop (price_fuel s) search users weights (max_iteration s) (init_price search) s;
  match o with
  | None => Ok None
  | Some r =>
      cur ← for_all (set_price (sr_vector r)) users (sr_alloc r);
      let s' := if sr_is_last r then set_last cur (sr_spirit r) else sr_spirit r in
      Ok (Some (cur, sr_converged r, s'))
  end.

(** ** A whole allocation round *)

(** Both results of the static branch: units to deploy and shares to
    remember. *)
Definition static_entry (user n : Z) (acc : dict Z units * dict Z (alloc F))
    : res (dict Z units * dict Z (alloc F)) :=
  u ← equal_units rs n;
  a ← equal_share n;
  Ok (dset acc.1 user u, dset acc.2 user a).

(** No complete map: equal division over the configured number of VMs
    (lines 98-117). *)
Definition static_flat (users : list Z) (num_vms : Z) : res (dict Z units * dict Z (alloc F)) :=
  let n := Z.of_nat (length users) in
  per_vm ← users_per_vm n num_vms;
  for_all (λ p, static_entry p.2 (flat_group_size n num_vms per_vm p.1)) (enumerate users) ([], []).

(** One VM of a complete map: its applications share it equally. *)
Definition static_vm (users : list Z) (vm : Z * list Z) (acc : dict Z units * dict Z (alloc F))
    : res (dict Z units * dict Z (alloc F)) :=
  let apps := vm_apps vm.2 users in
  for_all (λ user, static_entry user (Z.of_nat (length apps))) apps acc.

Definition static_mapped (users : list Z) (m : vm_map) : res (dict Z units * dict Z (alloc F)) :=
  for_all (static_vm users) m ([], []).

(** Whether the static allocation is still used (lines 76-91);
    [total_record u] is [monitor.collected_data[u]["total_record"]]. *)
Definition use_static (skip_monitoring : bool) (users : list Z) (total_record : Z → option Z)
    (s : spirit F) : bool :=
  if skip_monitoring then match last_static_allocation s with None => true | Some _ => false end
  else
    bool_decide (users = []) ||
    match total_record 1%Z with
    | None => true
    | Some n => (n <? init_phase_interval par)%Z
    end.

(** [dict.fromkeys(vm_apps, 1 / len(vm_apps))] *)
Definition equal_weights (apps : list Z) : res (dict Z F) :=
  w ← of_Z 1 / of_Z (Z.of_nat (length apps));
  Ok (foldl (λ d u, dset d u w) [] apps).

(** Store one user's share and convert it to units (lines 193-209). *)
Definition record_user (p : Z * alloc F) (acc : dict Z units * spirit F)
    : res (dict Z units * spirit F) :=
  let '(allocation, s) := acc in
  last ← last_dict s;
  let s := set_last (dset last p.1 (match dget last p.1 with
                                    | Some old => a_update old p.2
                                    | None => p.2
                                    end)) s in
  u ← scale_units rs p.2;
  Ok (dset allocation p.1 u, s).

(** One VM of the dynamic branch; [None] when the price search runs out of
    fuel. *)
Definition allocate_vm (users : list Z) (vm : Z * list Z)
    (acc : option (dict Z units * spirit F)) : res (option (dict Z units * spirit F)) :=
  match acc with
  | None => Ok None
  | Some (allocation, s) =>
      match vm_apps vm.2 users with
      | [] => Ok (Some (allocation, s))
      | apps =>
          w ← equal_weights apps;
          o ← allocate Binary apps w s;
          match o with
          | None => Ok None
          | Some (cur, _, s) => r ← for_all record_user cur (allocation, s); Ok (Some r)
          end
      end
  end.

(** [allocate_and_parse]: the units to deploy and the new state. *)
Definition allocate_and_parse (skip_monitoring : bool) (m : vm_map) (users : list Z)
    (num_vms : Z) (total_record : Z → option Z) (s : spirit F)
    : res (option (dict Z units * spirit F)) :=
  let complete := is_complete_vm_map m users in
  if use_static skip_monitoring users total_record s || negb complete then
    '(allocation, last) ← (if complete then static_mapped users m else static_flat users num_vms);
    Ok (Some (allocation, SpiritState (Some last) (Some last) (num_conflict s) (max_iteration s)))
  else for_all (allocate_vm users) m (Some ([], s)).
End Spirit.
Arguments price_state : clear implicits.
Arguments search_result : clear implicits.
Arguments round_result : clear implicits.
