(* ===== verification/SpiritFacts.v ===== *)
(** * The price search terminates, and converged prices clear

    Everything here holds for any floats, binary64 included. *)

From S2P Require Import Prelude PyDict PyFloat Resources Ptas Base Spirit.

Section generic.
Context {F : Type} `{PyFloat F}.
Context (est : Z → F → F → res F) (rs : scale F) (par : spirit_params F).

(** The users' cache shares add up to at most 1 + 1e-5, and so do their
    bandwidth shares. *)
Definition clears (d : dict Z (alloc F)) : Prop :=
  let limit := (lit 1 1 + lit 1 100000)%py in
  fltb limit (foldl fadd (of_Z 0) (a_cache <$> d.*2)) = false ∧
  fltb limit (foldl fadd (of_Z 0) (a_mem_bw <$> d.*2)) = false.

(** It is what the search tests. *)
Lemma clears_usage d :
  clears d ↔ over (p_cache (compute_resource_usage d)) = false ∧
             over (p_mem_bw (compute_resource_usage d)) = false.
Proof. done. Qed.

Lemma update_binary_None rl sum (v : price_vector F) :
  update_binary rl sum v = None →
  is_resource_limited rl = false ∧ over (p_cache sum) = false ∧ over (p_mem_bw sum) = false.
Proof. unfold update_binary. repeat case_match; done. Qed.

(** How the loop may be left with allocation [r] when the round's own
    allocation was [cur]. *)
Definition leaves (cur : dict Z (alloc F)) (s : spirit F) (r : search_result F) : Prop :=
  (sr_is_last r = false ∧ sr_alloc r = cur ∧ last_allocation (sr_spirit r) = last_allocation s ∧
    (sr_converged r = true → clears cur)) ∨
  (sr_is_last r = true ∧ sr_converged r = false ∧ last_allocation s = Some (sr_alloc r) ∧
    last_allocation (sr_spirit r) = last_allocation s).

Lemma fall_back_leaves v s r cur :
  fall_back par v s = Ok r →
  leaves cur s r ∧ last_static_allocation (sr_spirit r) = last_static_allocation s ∧ sr_is_last r = true.
Proof.
  unfold fall_back. intros Hg. apply bind_Ok in Hg as (s1 & Hs1 & Hg).
  assert (Hl : last_allocation s1 = last_allocation s ∧
               last_static_allocation s1 = last_static_allocation s).
  { destruct (adaptive_iter par); [|by inv_ok].
    apply bind_Ok in Hs1 as (n & _ & Hs1). by inv_ok. }
  destruct Hl as [Hl Hls].
  apply bind_Ok in Hg as (last & Hlast & Hg). injection Hg as <-.
  apply or_raise_Ok in Hlast. simpl in Hlast.
  split; [right|done]. simpl. rewrite <- Hl. done.
Qed.

Lemma end_of_round_cases cur maximum_iteration ps s r :
  end_of_round par cur (compute_resource_usage cur) maximum_iteration ps s = Ok r →
  match r with
  | Again ps' => ps' = ps ∧ (ps_iteration ps <= Z.max maximum_iteration (maximum_iteration + maximum_retry))%Z
  | Leave r => leaves cur s r ∧ last_static_allocation (sr_spirit r) = last_static_allocation s
  end.
Proof.
  unfold end_of_round. destruct (_ && _).
  { intros Hr. apply bind_Ok in Hr as (s1 & Hs1 & Hr). injection Hr as <-.
    assert (Hl : last_allocation s1 = last_allocation s ∧
                 last_static_allocation s1 = last_static_allocation s).
    { destruct (adaptive_iter par); [|by inv_ok].
      apply bind_Ok in Hs1 as (q & _ & Hs1). apply bind_Ok in Hs1 as (n & _ & Hs1). by inv_ok. }
    destruct Hl. split; [left|done]. done. }
  destruct (Z.leb_spec maximum_iteration (ps_iteration ps)) as [Hge|Hlt].
  2: { intros [= <-]. split; [done|lia]. }
  destruct (_ || _) eqn:Eo.
  - destruct (Z.leb_spec (ps_iteration ps) (maximum_iteration + maximum_retry)).
    + intros [= <-]. split; [done|lia].
    + intros Hr. apply bind_Ok in Hr as (r' & Hg & Hr). injection Hr as <-.
      by apply (fall_back_leaves _ _ _ cur) in Hg as (? & ? & _).
  - intros [= <-]. apply orb_false_iff in Eo. split; [left|done]. done.
Qed.

Lemma price_round_cases search users weights maximum_iteration ps s r :
  price_round est rs par search users weights maximum_iteration ps s = Ok r →
  match r with
  | Again ps' =>
      ps_iteration ps' = (ps_iteration ps + 1)%Z ∧
      (ps_iteration ps' <= Z.max maximum_iteration (maximum_iteration + maximum_retry))%Z
  | Leave r =>
      ∃ pr cur ns rl,
        find_best_allocation_per_user est rs par pr users weights s = Ok (cur, ns, rl) ∧
        leaves cur s r ∧ last_static_allocation (sr_spirit r) = last_static_allocation s
  end.
Proof.
  unfold price_round. intros Hr. apply bind_Ok in Hr as (v & Hv & Hr).
  apply bind_Ok in Hr as ([[cur ns] rl] & Hf & Hr).
  assert (Hend : ∀ ps', ps_iteration ps' = (ps_iteration ps + 1)%Z →
    end_of_round par cur (compute_resource_usage cur) maximum_iteration ps' s = Ok r →
    match r with
    | Again ps' => ps_iteration ps' = (ps_iteration ps + 1)%Z ∧
        (ps_iteration ps' <= Z.max maximum_iteration (maximum_iteration + maximum_retry))%Z
    | Leave r => ∃ pr cur ns rl,
        find_best_allocation_per_user est rs par pr users weights s = Ok (cur, ns, rl) ∧
        leaves cur s r ∧ last_static_allocation (sr_spirit r) = last_static_allocation s
    end).
  { intros ps' Hi He%end_of_round_cases.
    destruct r as [ps''|r]; [|by exists (pv_cur v), cur, ns, rl].
    destruct He as [-> ?]. done. }
  destruct search.
  - apply bind_Ok in Hr as ([[v' coef] se] & _ & Hr). (eapply Hend; [|exact Hr]; done).
  - destruct (update_binary rl _ v) as [v'|] eqn:Eu; [eapply Hend; [|exact Hr]; done|].
    injection Hr as <-. exists (pv_cur v), cur, ns, rl. split; [done|]. split; [left|done].
    apply update_binary_None in Eu as (_ & ? & ?). done.
Qed.

Lemma price_loop_leaves fuel search users weights maximum_iteration ps s r :
  price_loop est rs par fuel search users weights maximum_iteration ps s = Ok (Some r) →
  ∃ pr cur ns rl,
    find_best_allocation_per_user est rs par pr users weights s = Ok (cur, ns, rl) ∧
    leaves cur s r ∧ last_static_allocation (sr_spirit r) = last_static_allocation s.
Proof.
  revert ps. induction fuel as [|fuel IH]; intros ps; simpl; [done|].
  intros Hr. apply bind_Ok in Hr as (r' & Hr' & Hr).
  apply price_round_cases in Hr'. destruct r' as [ps'|r']; [by eapply IH|by simplify_eq].
Qed.

(** A round that starts before the last retry leaves fuel for the next. *)
Lemma price_loop_fuel fuel search users weights maximum_iteration ps s o :
  (1 <= fuel)%nat →
  (maximum_iteration + maximum_retry + 1 <= ps_iteration ps + Z.of_nat fuel)%Z →
  price_loop est rs par fuel search users weights maximum_iteration ps s = Ok o → is_Some o.
Proof.
  revert ps. induction fuel as [|fuel IH]; intros ps H1 H2; simpl; [lia|].
  intros Hr. apply bind_Ok in Hr as (r' & Hr' & Hr).
  apply price_round_cases in Hr'. destruct r' as [ps'|r']; [|by simplify_eq].
  destruct Hr' as [Hi Hle]. unfold maximum_retry in *.
  eapply IH; [| |done]; lia.
Qed.

(** ** The shape of the allocation *)

(** The shares of an allocation, prices aside. *)
Definition shares (d : dict Z (alloc F)) : list (Z * (F * F)) :=
  (λ p : Z * alloc F, (p.1, (a_cache p.2, a_mem_bw p.2))) <$> d.

Lemma shares_usage d d' :
  shares d = shares d' → compute_resource_usage d = compute_resource_usage d'.
Proof.
  intros Hs. unfold compute_resource_usage, dvalues.
  assert (Hc : ∀ e : dict Z (alloc F), a_cache <$> e.*2 = (λ q, q.2.1) <$> shares e).
  { intros. unfold shares. by rewrite <- !list_fmap_compose. }
  assert (Hb : ∀ e : dict Z (alloc F), a_mem_bw <$> e.*2 = (λ q, q.2.2) <$> shares e).
  { intros. unfold shares. by rewrite <- !list_fmap_compose. }
  by rewrite !Hc, !Hb, Hs.
Qed.

Lemma shares_keys d : dkeys d = (shares d).*1.
Proof. unfold shares, dkeys. by rewrite <- list_fmap_compose. Qed.

Lemma shares_dset d k a a' :
  dget d k = Some a → a_cache a' = a_cache a → a_mem_bw a' = a_mem_bw a →
  shares (dset d k a') = shares d.
Proof.
  intros Hg Hc Hb. induction d as [|[k1 a1] d IH]; [done|]. simpl in *.
  case_decide; simplify_eq; csimpl; [by rewrite Hc, Hb|by rewrite IH].
Qed.

Lemma shares_get d d' k a :
  shares d = shares d' → dget d k = Some a →
  ∃ a', dget d' k = Some a' ∧ a_cache a' = a_cache a ∧ a_mem_bw a' = a_mem_bw a.
Proof.
  revert d'. induction d as [|[k1 a1] d IH]; intros [|[k2 a2] d'] Hs Hg; try done.
  injection Hs as -> Hc Hb Hs. simpl in *.
  case_decide; simplify_eq; [by exists a2|]. by apply IH.
Qed.

Lemma set_prices_shares v us d d' :
  for_all (set_price v) us d = Ok d' → shares d' = shares d.
Proof.
  apply (for_all_inv (λ e, shares e = shares d)); [|done].
  intros u t t' _ Ht Hs. unfold set_price in Hs. apply bind_Ok in Hs as (a & Ha & Hs).
  injection Hs as <-. apply or_raise_Ok in Ha. rewrite <- Ht. by eapply shares_dset.
Qed.

Lemma best_for_user_keys pr n weights s us acc acc' :
  NoDup us → (∀ u, u ∈ us → u ∉ dkeys acc.1.1) →
  for_all (best_for_user est rs par pr n weights s) us acc = Ok acc' →
  dkeys acc'.1.1 = dkeys acc.1.1 ++ us.
Proof.
  revert acc. induction us as [|u us IH]; intros acc Hnd Hdis Hr; simpl in Hr.
  { inv_ok. by rewrite app_nil_r. }
  apply bind_Ok in Hr as (acc1 & Hu & Hr). apply NoDup_cons in Hnd as [Hu' Hnd].
  assert (Hk : dkeys acc1.1.1 = dkeys acc.1.1 ++ [u]).
  { destruct acc as [[al ns] rl]. unfold best_for_user in Hu.
    apply bind_Ok in Hu as (l & _ & Hu). apply bind_Ok in Hu as (c & _ & Hu).
    apply bind_Ok in Hu as (w & _ & Hu). apply bind_Ok in Hu as ([[o ni] rl'] & _ & Hu).
    apply bind_Ok in Hu as (a & _ & Hu). injection Hu as <-. simpl in *.
    rewrite dkeys_dset. rewrite (proj2 (dmem_false al u)); [done|]. apply Hdis. left. }
  apply IH in Hr; [|done|].
  - rewrite Hr, Hk, <- app_assoc. done.
  - intros x Hx. rewrite Hk. rewrite elem_of_app, list_elem_of_singleton.
    intros [Hin| ->]; [|done]. eapply Hdis; [by right|done].
Qed.

Lemma find_best_keys pr users weights s cur ns rl :
  NoDup users →
  find_best_allocation_per_user est rs par pr users weights s = Ok (cur, ns, rl) →
  dkeys cur = users.
Proof.
  intros Hnd Hf. apply best_for_user_keys in Hf; [done|done|].
  simpl. intros. apply not_elem_of_nil.
Qed.

Lemma allocate_inv search users weights s o :
  allocate est rs par search users weights s = Ok o →
  ∃ r cur, o = Some (cur, sr_converged r, if sr_is_last r then set_last cur (sr_spirit r) else sr_spirit r) ∧
    price_loop est rs par (price_fuel s) search users weights (max_iteration s) (init_price search) s = Ok (Some r) ∧
    shares cur = shares (sr_alloc r).
Proof.
  unfold allocate. intros Ha. apply bind_Ok in Ha as (o' & Hl & Ha).
  assert (Ho : is_Some o').
  { eapply price_loop_fuel; [| |exact Hl]; unfold price_fuel; simpl; lia. }
  destruct Ho as [r ->]. apply bind_Ok in Ha as (cur & Hc & Ha). injection Ha as <-.
  apply set_prices_shares in Hc. eauto.
Qed.

(** C18: the price search of a VM always terminates: within
    [max_iteration + 4] rounds the loop is left, whatever the estimator
    returns. *)
Theorem allocate_terminates search users weights s :
  allocate est rs par search users weights s ≠ Ok None.
Proof. intros (r & cur & [=] & _)%allocate_inv. Qed.

(** C12: a converged allocation serves exactly the VM's users, and the sums
    of their cache shares and of their bandwidth shares, each added up in the
    allocation's order, are at most 1 + 1e-5. *)
Theorem allocate_converged search users weights s cur s' :
  NoDup users →
  allocate est rs par search users weights s = Ok (Some (cur, true, s')) →
  dkeys cur = users ∧ clears cur.
Proof.
  intros Hnd (r & cur' & [= -> Hc _] & Hl & Hs)%allocate_inv.
  apply price_loop_leaves in Hl as (pr & cur0 & ns & rl & Hf & [(_ & E & _ & Hcl)|(_ & E & _)] & _);
    [|congruence].
  rewrite E in Hs. split.
  - rewrite shares_keys, Hs, <- shares_keys. by eapply find_best_keys.
  - rewrite clears_usage. erewrite shares_usage by exact Hs. by apply clears_usage, Hcl.
Qed.
End generic.
