(* ===== verification/SpiritExact.v ===== *)
(** * The Spirit allocator in exact arithmetic

    The prices of the binary search stay on the unit simplex and positive, so
    the search never raises, never takes the "price too small" exit, and the
    allocation of every VM stays within its resources round after round. *)

From S2P Require Import Prelude PyDict PyFloat Exact Resources Ptas PtasFacts PtasExact Base BaseExact Spirit SpiritFacts.

(** ** Prices on the simplex *)

Definition simplex (c : Qc) : price xnum := Price (Num c) (Num (1 - c)%Qc).

(** The two ends of the searched segment. *)
Definition segment (v : price_vector xnum) (l r : Qc) : Prop :=
  pv_left v = simplex l ∧ pv_right v = simplex r ∧ (0 <= r ∧ r < l ∧ l <= 1)%Qc.

Lemma segment_unique v l r l' r' : segment v l r → segment v l' r' → l = l' ∧ r = r'.
Proof. intros (Hl & Hr & _) (Hl' & Hr' & _). rewrite Hl in Hl'. rewrite Hr in Hr'. unfold simplex in *. by simplify_eq. Qed.

Definition half : Qc := Q2Qc (1 # 2).

Lemma simplex_eq a b : a = b → simplex a = simplex b.
Proof. by intros ->. Qed.

Lemma mid_price_simplex l r :
  mid_price (simplex l) (simplex r) = Ok (simplex ((l + r) * half)%Qc).
Proof.
  unfold mid_price, simplex. simpl.
  repeat match goal with |- context [fquot (Num ?a + Num ?b)%py (lit 2 1)] =>
    change (fquot (Num a + Num b)%py (lit 2 1)) with (Num ((a + b) / Q2Qc (2 # 1))%Qc) end.
  do 2 f_equal; apply (f_equal Num), Qc_is_canon; unfold half; autorewrite with qcs; field.
Qed.

Lemma compute_mid_segment v l r :
  segment v l r →
  ∃ v', compute_and_update_mid v = Ok v' ∧ segment v' l r ∧ pv_cur v' = simplex ((l + r) * half)%Qc.
Proof.
  intros (Hl & Hr & H). unfold compute_and_update_mid. rewrite Hl, Hr, mid_price_simplex.
  simpl. eexists. split; [reflexivity|]. done.
Qed.

Definition quarter : Qc := Q2Qc (25 # 100).

Lemma towards_simplex x c : towards (simplex x) (simplex c) = simplex (x + (c - x) * quarter)%Qc.
Proof.
  unfold towards, simplex. simpl. f_equal. apply (f_equal Num). unfold quarter.
  apply Qc_is_canon. autorewrite with qcs. ring.
Qed.

Lemma update_binary_segment rl sum v v' l r :
  segment v l r → pv_cur v = simplex ((l + r) * half)%Qc →
  update_binary rl sum v = Some v' →
  pv_cur v' = pv_cur v ∧ ∃ l' r', segment v' l' r'.
Proof.
  intros (Hl & Hr & H0 & H1 & H2) Hc Hu.
  assert (Hh : this half == 1 # 2) by reflexivity.
  assert (Hq : this quarter == 1 # 4) by reflexivity.
  assert (Hseg : ∀ l' r' c, (0 <= r' ∧ r' < l' ∧ l' <= 1)%Qc →
    segment (PriceVector c (simplex l') (simplex r')) l' r') by (by intros).
  assert (Hleft : ∀ x, (r < x ∧ x <= 1)%Qc → ∃ l' r', segment (set_left (simplex x) v) l' r').
  { intros x Hx. exists x, r. unfold set_left. rewrite Hr. apply Hseg.
    destruct Hx. split; [done|]. split; [done|done]. }
  assert (Hright : ∀ x, (0 <= x ∧ x < l)%Qc → ∃ l' r', segment (set_right (simplex x) v) l' r').
  { intros x Hx. exists l, x. unfold set_right. rewrite Hl. apply Hseg.
    destruct Hx. split; [done|]. split; [done|done]. }
  unfold update_binary in Hu. rewrite Hl, Hr, Hc, !towards_simplex in Hu.
  repeat case_match; simplify_eq; (split; [done|]).
  all: first [ apply Hleft; qc_to_q; rewrite ?Hh, ?Hq in *; lra
             | apply Hright; qc_to_q; rewrite ?Hh, ?Hq in *; lra
             | exists l, r; done ].
Qed.

(** A round in which neither resource is over-allocated keeps seven eighths of
    the segment. *)
Lemma update_binary_width rl sum v v' l r :
  segment v l r → pv_cur v = simplex ((l + r) * half)%Qc →
  over (p_cache sum) = false → over (p_mem_bw sum) = false →
  update_binary rl sum v = Some v' →
  ∃ l' r', segment v' l' r' ∧ ((l - r) * Q2Qc (7 # 8) <= l' - r')%Qc.
Proof.
  intros (Hl & Hr & H0 & H1 & H2) Hc Hoc Hob Hu.
  assert (Hh : this half == 1 # 2) by reflexivity.
  assert (Hq : this quarter == 1 # 4) by reflexivity.
  unfold update_binary in Hu. rewrite Hoc, Hob, Hl, Hr, Hc, !towards_simplex in Hu.
  repeat case_match; simplify_eq.
  - eexists _, r. split; [split_and!; [done|exact Hr|done|..]|]; qc_to_q; rewrite ?Hh, ?Hq in *; lra.
  - eexists l, _. split; [split_and!; [exact Hl|done|..|done]|]; qc_to_q; rewrite ?Hh, ?Hq in *; lra.
  - exists l, r. split; [done|]. qc_lra.
Qed.

Lemma simplex_pos p : (0 < p)%Qc → (p < 1)%Qc → price_pos (simplex p).
Proof. intros. split; simpl; eexists; (split; [reflexivity|]); qc_lra. Qed.

Lemma simplex_mid_pos l r :
  (0 <= r ∧ r < l ∧ l <= 1)%Qc → price_pos (simplex ((l + r) * half)%Qc).
Proof.
  intros (? & ? & ?). assert (Hh : this half == 1 # 2) by reflexivity.
  split; simpl; eexists; (split; [reflexivity|]); qc_to_q; rewrite Hh; lra.
Qed.

Lemma mid_inside l r : (0 <= r ∧ r < l ∧ l <= 1)%Qc → (0 < (l + r) * half ∧ (l + r) * half < 1)%Qc.
Proof.
  intros (? & ? & ?). assert (Hh : this half == 1 # 2) by reflexivity.
  split; qc_to_q; rewrite Hh; lra.
Qed.

(** The bandwidth price is at least half the width of the segment. *)
Lemma mid_above l r w :
  (Q2Qc (2 # 1000000) <= w)%Qc → (w <= l - r)%Qc → (0 <= r ∧ r < l ∧ l <= 1)%Qc →
  (Q2Qc (1 # 1000000) <= 1 - (l + r) * half)%Qc.
Proof.
  intros ? ? (? & ? & ?). assert (Hh : this half == 1 # 2) by reflexivity.
  qc_to_q; rewrite Hh; lra.
Qed.

(** The two prices cannot both be below the precision. *)
Lemma simplex_not_small c :
  (fltb (p_cache (simplex c)) float_precision && fltb (p_mem_bw (simplex c)) float_precision) = false.
Proof.
  destruct (fltb (p_cache (simplex c)) _) eqn:E; [|done]. simpl.
  change (fltb (Num c) (Num (Q2Qc (1 # 100000))) = true) in E. apply xltb_Num in E.
  change (fltb (Num (1 - c)%Qc) (Num (Q2Qc (1 # 100000))) = false). apply xltb_Num_false.
  qc_lra.
Qed.

(** ** The binary search only leaves with a cleared or the last allocation *)

Section search.
Context (est : Z → xnum → xnum → res xnum) (rs : scale xnum) (par : spirit_params xnum).

Definition on_segment (ps : price_state xnum) : Prop := ∃ l r, segment (ps_vector ps) l r.

Lemma init_price_segment : on_segment (init_price Binary).
Proof.
  exists 1%Qc, 0%Qc. unfold segment. simpl. repeat split; try done.
  all: unfold simplex; f_equal; apply (f_equal Num), Qc_is_canon; reflexivity.
Qed.

Lemma end_of_round_exact cur sum maximum_iteration ps s c r :
  pv_cur (ps_vector ps) = simplex c →
  end_of_round par cur sum maximum_iteration ps s = Ok r →
  match r with
  | Again ps' => ps' = ps
  | Leave r => sr_is_last r = false → sr_converged r = true
  end.
Proof.
  intros Hc. unfold end_of_round. rewrite Hc, simplex_not_small.
  destruct (_ <=? _)%Z; [|by intros [= <-]].
  destruct (_ || _); [|by intros [= <-]].
  destruct (_ <=? _)%Z; [by intros [= <-]|].
  intros Hr. apply bind_Ok in Hr as (r' & Hg & Hr). injection Hr as <-.
  apply (fall_back_leaves _ _ _ _ cur) in Hg as (_ & _ & ->). done.
Qed.

Lemma price_round_exact users weights maximum_iteration ps s r :
  on_segment ps →
  price_round est rs par Binary users weights maximum_iteration ps s = Ok r →
  match r with
  | Again ps' => on_segment ps'
  | Leave r => sr_is_last r = false → sr_converged r = true
  end.
Proof.
  intros (l & r0 & Hseg) Hr. unfold price_round in Hr.
  destruct (compute_mid_segment _ _ _ Hseg) as (v & Hv & Hsv & Hcur). rewrite Hv in Hr.
  simpl in Hr. apply bind_Ok in Hr as ([[cur ns] rl] & Hf & Hr).
  destruct (update_binary rl _ v) as [v'|] eqn:Eu; [|by simplify_eq].
  destruct (update_binary_segment _ _ _ _ _ _ Hsv Hcur Eu) as [Hc' (l' & r' & Hseg')].
  eapply end_of_round_exact in Hr; [|simpl; by rewrite Hc', Hcur].
  destruct r as [ps'|r]; [|done]. subst. by exists l', r'.
Qed.

Lemma price_loop_exact fuel users weights maximum_iteration ps s r :
  on_segment ps →
  price_loop est rs par fuel Binary users weights maximum_iteration ps s = Ok (Some r) →
  sr_is_last r = false → sr_converged r = true.
Proof.
  revert ps. induction fuel as [|fuel IH]; intros ps Hps Hr; [done|]. simpl in Hr.
  apply bind_Ok in Hr as (r' & Hr' & Hr). apply price_round_exact in Hr'; [|done].
  destruct r' as [ps'|r']; [by eapply IH|by simplify_eq].
Qed.

(** The allocation of a VM either clears or repeats the last one. *)
Lemma allocate_clears_or_last users weights s cur conv s' :
  NoDup users →
  allocate est rs par Binary users weights s = Ok (Some (cur, conv, s')) →
  (conv = true ∧ dkeys cur = users ∧ clears cur ∧ last_allocation s' = last_allocation s) ∨
  (conv = false ∧ ∃ last, last_allocation s = Some last ∧ shares cur = shares last ∧
     last_allocation s' = Some cur).
Proof.
  intros Hnd (r & cur' & [= -> -> ->] & Hl & Hs)%allocate_inv.
  pose proof (price_loop_exact _ _ _ _ _ _ _ init_price_segment Hl) as Hconv.
  apply price_loop_leaves in Hl
    as (pr & cur0 & ns & rl & Hf & [(Elast & E & Hla & Hcl)|(Elast & E & Hla & _)] & _).
  - left. rewrite Elast, E in *. specialize (Hconv eq_refl). split; [done|]. split.
    + rewrite shares_keys, Hs, <- shares_keys. by eapply find_best_keys.
    + split; [|done]. rewrite clears_usage. erewrite shares_usage by exact Hs. by apply clears_usage, Hcl.
  - right. split; [done|]. exists (sr_alloc r). rewrite Elast. done.
Qed.
End search.

(** ** Every call returns

    The configurations for which it does.  Where the maximum cache is the
    total, the repair of a static candidate may propose the whole cache and no
    bandwidth; several applications never clear with such a share, and an
    application alone on its VM is never given one while its bandwidth is
    limited by the total only. *)

(** The search's precision, 1e-5. *)
Definition precision : Qc := Q2Qc (1 # 100000).

(** The maximum cache is below the total. *)
Definition capped (S hic : Qc) : Prop := (hic < S)%Qc.

(** Several applications share the VM, and the minimum cache and the search
    range exceed the precision. *)
Definition shared (n : nat) (S loc range : Qc) : Prop :=
  (2 <= Z.of_nat n < 100000)%Z ∧ (precision * S < loc)%Qc ∧ (precision < range)%Qc.

(** One application has the VM, whose maximum bandwidth is the total, and the
    minimum leaves room for a grid step. *)
Definition alone (n : nat) (B lob hib eps range : Qc) : Prop :=
  n = 1%nat ∧ hib = B ∧ (lob <= (1 - eps) * B)%Qc ∧ (eps <= 1)%Qc ∧ (precision <= range)%Qc.

(** The configuration serves a VM of [n] applications. *)
Definition can_serve (rs : scale xnum) (par : spirit_params xnum) (n : nat) : Prop :=
  ∃ S B loc hic lob hib eps range,
    rs = Scale (Num S) (Num B) (Some (Num loc)) (Some (Num hic)) (Some (Num lob)) (Some (Num hib)) ∧
    search_granularity par = Num eps ∧ search_range par = Num range ∧
    (0 < eps)%Qc ∧ (0 <= range)%Qc ∧
    (capped S hic ∨ shared n S loc range ∨ alone n B lob hib eps range).

Definition all_pos (d : dict Z (alloc xnum)) : Prop := ∀ u a, dget d u = Some a → share_pos a.

(** [d] has a positive share for every user in [us]. *)
Definition covers (d : dict Z (alloc xnum)) (us : list Z) : Prop :=
  ∀ u, u ∈ us → ∃ a, dget d u = Some a ∧ share_pos a.

Lemma all_pos_dset d u a : all_pos d → share_pos a → all_pos (dset d u a).
Proof. intros Hd Ha u' a'. rewrite dget_dset. case_decide; [by intros [= <-]|apply Hd]. Qed.

(** The bound on [max_iteration]: within 93 rounds the prices of a VM with one
    application stay above 1e-6.  The code starts at 20 and adapts between 5
    and 25. *)
Definition iteration_cap : Z := 90.

(** [ds] holds the equal shares of [us]. *)
Definition equal_shares (ds : dict Z (alloc xnum)) (us : list Z) : Prop :=
  ∀ u, u ∈ us → dget ds u = Some (inv_share (Z.of_nat (length us))).

(** The state the allocator needs to serve [us]. *)
Record serves (s : spirit xnum) (us : list Z) : Prop := {
  sv_last : ∃ d, last_allocation s = Some d ∧ all_pos d ∧ covers d us ∧
    ∀ u a c, us = [u] → dget d u = Some a → a_cache a = Num c → (c <= 1 + precision)%Qc;
  sv_static : ∃ ds, last_static_allocation s = Some ds ∧ equal_shares ds us;
  sv_iter : (max_iteration s <= iteration_cap)%Z;
}.

(** A budget for every user; all of it for a single one. *)
Definition weighted (weights : dict Z xnum) (us : list Z) : Prop :=
  ∀ u, u ∈ us → ∃ w, dget weights u = Some w ∧ fin w ∧ (length us = 1%nat → w = Num 1%Qc).

Lemma default_params_ok : params_ok default_params.
Proof. split; (eexists; split; [reflexivity|done]). Qed.

(** ** The width of the price segment *)

Fixpoint width (k : nat) : Qc :=
  match k with O => 1%Qc | Datatypes.S k => (width k * Q2Qc (7 # 8))%Qc end.

Lemma width_antitone j k : (j <= k)%nat → (width k <= width j)%Qc.
Proof.
  assert (Hp : ∀ k, (0 <= width k)%Qc).
  { clear. intros k. induction k as [|k IH]; [done|]. cbn [width]. qc_to_q. lra. }
  induction 1 as [|k _ IH]; [apply Qcle_refl|]. cbn [width]. specialize (Hp k). qc_to_q. lra.
Qed.

Lemma width_floor k : (k <= 93)%nat → (Q2Qc (2 # 1000000) <= width k)%Qc.
Proof.
  intros Hk%width_antitone. eapply Qcle_trans; [|exact Hk]. by vm_compute.
Qed.

(** ** The shares of a round *)

(** A whole share and another one above [floor] sum up to more. *)
Lemma qsum_exceeds floor l :
  (0 < floor)%Qc → Forall (λ c, floor < c)%Qc l → 1%Qc ∈ l → (2 <= length l)%nat → (1 + floor < qsum l)%Qc.
Proof.
  intros Hf. induction 1 as [|x l Hx Hl IH]; [by intros ?%not_elem_of_nil|].
  intros Hin Hlen. rewrite qsum_cons. destruct l as [|y l]; [simpl in Hlen; lia|].
  assert (Hrest : (floor < qsum (y :: l))%Qc).
  { clear - Hl Hf. apply Forall_cons in Hl as [Hy Hl]. rewrite qsum_cons.
    assert (0 <= qsum l)%Qc by (apply qsum_nonneg; eapply Forall_impl; [exact Hl|]; intros z Hz; qc_lra). qc_lra. }
  apply elem_of_cons in Hin as [<-|Hin]; [clear - Hrest; qc_lra|].
  destruct l as [|z l].
  - apply list_elem_of_singleton in Hin as <-. rewrite qsum_cons, qsum_nil. clear - Hx. qc_lra.
  - specialize (IH Hin ltac:(simpl; lia)). clear - IH Hx Hf. qc_lra.
Qed.

Lemma length_pos_elem (u : Z) us : u ∈ us → (0 < Z.of_nat (length us))%Z.
Proof. destruct us; [set_solver|simpl; lia]. Qed.

Lemma length_one_elem (u : Z) us : length us = 1%nat → u ∈ us → us = [u].
Proof. destruct us as [|v [|]]; try done. by intros _ ->%list_elem_of_singleton. Qed.

Section total.
Context (est : Z → xnum → xnum → res xnum) (Hest : est_total est).
Context (S B loc hic lob hib eps range : Qc).
Context (HS : (0 < S)%Qc) (HB : (0 < B)%Qc) (Hloc : (0 < loc)%Qc) (Hmax : (hic <= S)%Qc).
Context (Hlob : (0 < lob)%Qc) (Hhib : (0 < hib)%Qc) (Heps : (0 < eps)%Qc) (Hrange : (0 <= range)%Qc).
Context (par : spirit_params xnum).
Context (Egran : search_granularity par = Num eps) (Erange : search_range par = Num range).
Context (users : list Z) (Hnd : NoDup users).

Let rs : scale xnum :=
  Scale (Num S) (Num B) (Some (Num loc)) (Some (Num hic)) (Some (Num lob)) (Some (Num hib)).
Let n := length users.
Let is_shared := shared n S loc range.
Let is_alone := alone n B lob hib eps range.

Context (Hcase : capped S hic ∨ is_shared ∨ is_alone).

Lemma inv_floor : is_shared → (precision < / zq (Z.of_nat n))%Qc.
Proof.
  intros ([H2 Hlt] & _). assert (Hz : (0 < zq (Z.of_nat n))%Qc) by (apply zq_pos; lia).
  set (s := (/ zq (Z.of_nat n))%Qc).
  assert (Hsn : (s * zq (Z.of_nat n) = 1)%Qc) by (apply Qcmult_inv_l; by apply pos_ne0).
  assert (Hle : (zq (Z.of_nat n) <= zq 99999)%Qc) by (apply zq_le; lia).
  assert (Hp : (precision * zq 99999 < 1)%Qc) by done. clear - Hle Hp Hsn Hz.
  apply Qcnot_le_lt. intros Hsp. apply (Qclt_not_le _ _ Hp). rewrite <- Hsn.
  apply Qcle_trans with (precision * zq (Z.of_nat n))%Qc.
  - apply Qcmult_le_compat_r; [done|by apply Qclt_le_weak].
  - rewrite !(Qcmult_comm precision). by apply Qcmult_le_compat_r.
Qed.

(** The cache share of the static candidate. *)
Lemma clamp_bounds last u :
  u ∈ users → pos last → (is_alone → ∀ c, last = Num c → (c <= 1 + precision)%Qc) →
  ∃ q, clamp_cache (a_cache (inv_share (Z.of_nat n)))
         (fmax (lit 0 1) (last - Num range), fmin (lit 1 1) (last + Num range))%py = Num q ∧
    (0 < q)%Qc ∧ (is_shared → (precision < q)%Qc) ∧ (is_alone → (q <= 1)%Qc).
Proof.
  intros Hu (c & -> & Hc) Hal.
  pose proof (length_pos_elem u users Hu) as Hn. fold n in Hn.
  pose proof (zq_pos _ Hn) as Hz. set (s := (/ zq (Z.of_nat n))%Qc).
  assert (Hs : (0 < s)%Qc) by (pose proof (inv_share_pos _ Hn) as [(? & [= <-] & ?) _]; done).
  assert (Hsn : (s * zq (Z.of_nat n) = 1)%Qc) by (apply Qcmult_inv_l; by apply pos_ne0).
  assert (Hss : is_shared → (precision < s)%Qc) by exact inv_floor.
  assert (Hp1 : (0 < precision ∧ precision < 1)%Qc) by done.
  change (lit 0 1 : xnum) with (Num 0%Qc). change (lit 1 1 : xnum) with (Num 1%Qc).
  change (Num c - Num range)%py with (Num (c - range)%Qc). change (Num c + Num range)%py with (Num (c + range)%Qc).
  destruct (fmax_Num 0 (c - range)%Qc) as (lo & -> & _ & Hlo).
  destruct (fmin_Num 1 (c + range)%Qc) as (hi & -> & [Hhi _] & Hhi').
  unfold clamp_cache. cbn [inv_share share a_cache fst snd]. fold s.
  destruct (fltb (Num s) (Num lo)) eqn:E1.
  { apply xltb_Num in E1. exists lo. split; [done|]. split; [clear - Hs E1; qc_lra|]. split.
    - intros Hsh%Hss. clear - Hsh E1. qc_lra.
    - intros Ha. exfalso. specialize (Hal Ha c eq_refl). destruct Ha as (E & _ & _ & _ & Hr).
      assert (s = 1%Qc) as -> by (rewrite <- Hsn, E; ring_simplify; unfold zq; qc_to_q; change (inject_Z (Z.of_nat 1)) with 1%Q; ring).
      destruct Hlo as [->| ->]; clear - E1 Hal Hr; qc_lra. }
  destruct (fltb (Num hi) (Num s)) eqn:E2.
  { exists hi. split; [done|]. split; [destruct Hhi' as [->| ->]; [done|clear - Hc Hrange; qc_lra]|].
    split; [|done]. intros (_ & _ & Hr). destruct Hhi' as [->| ->]; [apply Hp1|clear - Hc Hr; qc_lra]. }
  exists s. split; [done|]. split; [done|]. split; [done|]. intros _. apply xltb_Num_false in E2. clear - E2 Hhi. qc_lra.
Qed.

(** What is known of each share a round finds. *)
Record entry (a : alloc xnum) : Prop := {
  en_pos : share_pos a ∨ (is_shared ∧ a_cache a = Num 1%Qc);
  en_floor : is_shared → ∃ c, a_cache a = Num c ∧ (precision < c)%Qc;
  en_alone : is_alone → ∃ c b, a_cache a = Num c ∧ a_mem_bw a = Num b ∧ (c <= 1 ∧ b <= 1)%Qc;
}.

Definition all_entries (d : dict Z (alloc xnum)) : Prop := ∀ u a, dget d u = Some a → entry a.

(** The prices of a round. *)
Definition price_ok (p : Qc) : Prop :=
  (0 < p ∧ p < 1)%Qc ∧ (is_alone → (Q2Qc (1 # 1000000) <= 1 - p)%Qc).

Lemma price_ok_pos p : price_ok p → price_pos (simplex p).
Proof. intros [[H0 H1] _]. by apply simplex_pos. Qed.

Lemma search_entry p u w d ds last a k rl :
  price_ok p → u ∈ users → dget d u = Some last → share_pos last → all_pos d →
  (is_alone → ∀ c, a_cache last = Num c → (c <= 1 + precision)%Qc) →
  equal_shares ds users → fin w → (length users = 1%nat → w = Num 1%Qc) →
  ptas_algorithm est u (Num eps) w (simplex p) (Some d) (Some ds) rs
    (get_search_dict last (Num range)) default_params = Ok (Some a, k, rl) →
  entry a.
Proof.
  intros Hp Hu Hd Hlast Hall Hbound Hds Hw Hw1 Hrun.
  pose proof (length_pos_elem u users Hu) as Hn. fold n in Hn.
  destruct (clamp_bounds (a_cache last) u Hu (proj1 Hlast) Hbound) as (q & Hq & Hq0 & Hqs & Hqa).
  pose proof (price_ok_pos p Hp) as Hpp. pose proof (inv_share_pos _ Hn) as Hst.
  assert (Hread : readable u (Some d)).
  { split; [|right; right; by exists last]. intros a' Ha'. by apply (Hall u). }
  assert (Hgran : pos (Num eps)) by (by eexists).
  set (sr := get_search_dict last (Num range)) in *.
  assert (Hsr : fin (sr_cache sr).1 ∧ pos (sr_cache sr).2).
  { destruct Hlast as [(c & Hc & Hc0) _]. unfold sr. simpl. rewrite Hc. split; [fin_auto|].
    change (Num c + Num range)%py with (Num (c + range)%Qc). change (lit 1 1 : xnum) with (Num 1%Qc).
    destruct (fmin_Num 1 (c + range)%Qc) as (x & -> & _ & Hx). exists x. split; [done|].
    destruct Hx as [-> | ->]; [done|]. clear - Hc0 Hrange. qc_lra. }
  destruct Hsr as [Hsr Hsr'].
  assert (Hfound : candidate_share S B loc hic lob hib (Num q) (inv_share (Z.of_nat n)) a).
  { rewrite <- Hq. change (fmax _ _, fmin _ _) with (sr_cache sr).
    eapply (ptas_found _ _ _ _ _ _ HS HB Hloc Hmax Hlob Hhib est (simplex p) _ Hgran u w sr default_params
      (Some ds) _ (Hds u Hu)); try done; apply default_params_ok. }
  assert (Halone : is_alone → ∃ c b, a_cache a = Num c ∧ a_mem_bw a = Num b ∧ (0 < c ∧ c <= 1 ∧ 0 < b ∧ b <= 1)%Qc).
  { intros Ha. destruct Hp as [_ Hp]. specialize (Hp Ha). specialize (Hqa Ha). pose proof Ha as (E1 & EhB & Hlo & He1 & _).
    eapply (ptas_single _ _ _ _ _ _ HS HB Hloc Hmax Hlob Hhib est (simplex p) _ Hgran u w sr default_params
      (Some ds) _ (Hds u Hu)); try done; [apply default_params_ok|by apply Hw1]. }
  split.
  - eapply found_share in Hfound as [?|(Hc & _ & Hle)]; try done; [by left| |by eexists].
    destruct Hcase as [Hlt|[Hsh|Ha]]; [|by right|].
    + exfalso. clear - Hlt Hle. unfold capped in Hlt. qc_lra.
    + left. destruct (Halone Ha) as (c & b & Hc' & Hb' & ? & _ & ? & _). by split; eexists.
  - intros Hsh. eapply found_floor with (floor := precision) in Hfound; try done;
      [apply Hsh|by apply Hqs|by apply inv_floor].
  - intros Ha. destruct (Halone Ha) as (c & b & Hc' & Hb' & _ & ? & _ & ?). by exists c, b.
Qed.

Lemma find_best_total p weights s :
  price_ok p → serves s users → weighted weights users →
  returns (find_best_allocation_per_user est rs par (simplex p) users weights s)
    (λ r, dkeys r.1.1 = users ∧ all_entries r.1.1).
Proof.
  intros Hp [(d & Hd & Hap & Hcov & Hone) (ds & Hds & Heq) _] Hw.
  assert (Hrs : scale_ok rs) by (split; simpl; [by eexists..| | | |]; intros m [= <-]; fin_auto).
  destruct (for_all_total (λ acc : dict Z (alloc xnum) * list Z * resource_limited, all_entries acc.1.1)
    (best_for_user est rs par (simplex p) (Z.of_nat (length users)) weights s) users ([], [], no_limit))
    as (r & Hr & He); [|by intros u a [=]|].
  - intros u [[al ns] rl] Hu Hal. simpl in Hal. unfold best_for_user, last_dict.
    destruct (Hcov u Hu) as (a & Ha & Hpa), (Hw u Hu) as (w & Hwu & Hwf & Hw1).
    rewrite Hd. simpl. unfold dgetE. rewrite Ha, Hwu. simpl. rewrite Hds, Egran, Erange.
    destruct (ptas_total est rs (simplex p) (Num eps) u w (Some d) (Some ds)
      (get_search_dict a (Num range)) default_params) as ([[o k] rl'] & Hrun & _ & Ho); try done.
    + by apply price_ok_pos.
    + by eexists.
    + split; [intros a' Ha'; by apply (Hap u)|right; right; by exists a].
    + intros a'. simpl. rewrite (Heq u Hu). intros [= <-]. by apply inv_share_pos, (length_pos_elem u).
    + split; simpl; destruct Hpa as [(c & -> & _) _]; fin_auto.
    + apply default_params_ok.
    + destruct Ho as [a' Ha']; [simpl; by rewrite (Heq u Hu)|]. simpl in Ha'. subst o. rewrite Hrun. simpl.
      eexists. split; [reflexivity|]. simpl. intros u' a1. rewrite dget_dset.
      case_decide; [|by apply Hal]. intros [= <-].
      eapply search_entry; [exact Hp|exact Hu|exact Ha|exact Hpa|exact Hap| |exact Heq|exact Hwf|exact Hw1|exact Hrun].
      intros (E & _) c Hc. eapply Hone; [by apply (length_one_elem u)|done|done].
  - exists r. split; [exact Hr|]. split; [|done]. destruct r as [[cur ns] rl]. simpl.
    eapply find_best_keys; [exact Hnd|exact Hr].
Qed.

(** Shares that clear are positive. *)
Lemma entries_pos d : dkeys d = users → all_entries d → clears d → all_pos d.
Proof.
  intros Hk He [Hc _] u a Ha. destruct (en_pos a (He u a Ha)) as [?|[Hsh H1]]; [done|]. exfalso.
  assert (Hl : ∃ l, a_cache <$> d.*2 = Num <$> l ∧ Forall (λ c, precision < c)%Qc l).
  { assert (Hall : Forall (λ a, ∃ c, a_cache a = Num c ∧ (precision < c)%Qc) d.*2).
    { apply Forall_fmap, Forall_forall. intros [v x] Hin. simpl.
      apply (en_floor x); [|done]. apply (He v). apply dget_In; [by rewrite Hk|done]. }
    clear - Hall. induction Hall as [|x l (c & Hc & Hlt) _ (k & Hk & Hf)]; [by exists []|].
    exists (c :: k). split; [by csimpl; rewrite Hc, Hk|by constructor]. }
  destruct Hl as (l & El & Hf). rewrite El in Hc. change (foldl fadd (of_Z 0)) with (fsum (F := xnum)) in Hc.
  rewrite fsum_Num in Hc. change (lit 1 1 + lit 1 100000)%py with (Num (1 + precision)%Qc) in Hc.
  apply xltb_Num_false in Hc. apply (Qclt_not_le (1 + precision) (qsum l)); [|done].
  apply qsum_exceeds; [done|done| |].
  - assert (Hin : Num 1%Qc ∈ Num <$> l).
    { rewrite <- El. apply list_elem_of_fmap. exists a. split; [done|]. apply list_elem_of_fmap.
      exists (u, a). split; [done|]. by apply dget_Some_elem. }
    apply list_elem_of_fmap in Hin as (x & [= <-] & Hin). done.
  - assert (E : length l = length users).
    { rewrite <- Hk. unfold dkeys. rewrite length_fmap, <- (length_fmap snd d), <- (length_fmap a_cache), El. by rewrite length_fmap. }
    destruct Hsh as [[H2 _] _]. unfold n in H2. lia.
Qed.

(** An application alone on its VM never over-allocates it. *)
Lemma entries_alone d : dkeys d = users → all_entries d → is_alone → clears d.
Proof.
  intros Hk He Ha. pose proof Ha as (E & _). unfold n in E. rewrite <- Hk in E. unfold dkeys in E.
  rewrite length_fmap in E. destruct d as [|[u a] [|]]; try done.
  destruct (en_alone a (He u a ltac:(simpl; by rewrite decide_True)) Ha) as (c & b & Hc & Hb & Hc1 & Hb1).
  unfold clears. cbn [fmap list_fmap snd foldl]. rewrite Hc, Hb.
  change (lit 1 1 + lit 1 100000)%py with (Num (1 + precision)%Qc).
  change (of_Z 0 + Num c)%py with (Num (0 + c)%Qc). change (of_Z 0 + Num b)%py with (Num (0 + b)%Qc).
  assert (Hp : (0 < precision)%Qc) by done.
  split; apply xltb_Num_false; clear - Hc1 Hb1 Hp; qc_lra.
Qed.

(** ** The loop *)

(** The searched segment after [k] rounds. *)
Definition narrow (ps : price_state xnum) : Prop :=
  ∃ l r k, segment (ps_vector ps) l r ∧ ps_iteration ps = Z.of_nat k ∧ (k <= 93)%nat ∧
    (is_alone → (width k <= l - r)%Qc).

Lemma narrow_segment ps : narrow ps → on_segment ps.
Proof. intros (l & r & k & Hs & _). by exists l, r. Qed.

Lemma init_price_narrow : narrow (init_price Binary).
Proof.
  exists 1%Qc, 0%Qc, 0%nat. split; [|split; [done|split; [lia|by intros _]]].
  unfold segment. simpl. repeat split; try done.
  all: unfold simplex; f_equal; apply (f_equal Num), Qc_is_canon; reflexivity.
Qed.

Lemma narrow_price l r k :
  (0 <= r ∧ r < l ∧ l <= 1)%Qc → (k <= 93)%nat → (is_alone → (width k <= l - r)%Qc) →
  price_ok ((l + r) * half)%Qc.
Proof.
  intros Hseg Hk Hw. split; [by apply mid_inside|]. intros Ha. specialize (Hw Ha).
  apply (mid_above _ _ (width k)); [by apply width_floor|done|done].
Qed.

Lemma fall_back_total v s d :
  last_allocation s = Some d → returns (fall_back par v s) (λ r, sr_alloc r = d).
Proof.
  intros Hd. unfold fall_back. eapply returns_bind with (P := λ s', last_allocation s' = Some d).
  - case_match; [|by apply returns_ret]. rbind (fin_auto) as k Hk. by apply returns_ret.
  - intros s' Hs'. unfold last_dict. simpl. rewrite Hs'. by eexists.
Qed.

Lemma end_of_round_total cur maximum_iteration ps s d c :
  last_allocation s = Some d → pv_cur (ps_vector ps) = simplex c →
  (clears cur → all_pos cur) → all_pos d →
  returns (end_of_round par cur (compute_resource_usage cur) maximum_iteration ps s)
    (λ r, match r with
          | Again ps' => ps' = ps ∧ (ps_iteration ps <= Z.max maximum_iteration (maximum_iteration + maximum_retry))%Z
          | Leave r => all_pos (sr_alloc r)
          end).
Proof.
  intros Hd Hc Hcur Had. unfold end_of_round. rewrite Hc, simplex_not_small.
  destruct (Z.leb_spec maximum_iteration (ps_iteration ps)); [|apply returns_ret; split; [done|lia]].
  destruct (_ || _) eqn:Eo.
  - destruct (Z.leb_spec (ps_iteration ps) (maximum_iteration + maximum_retry)); [apply returns_ret; split; [done|lia]|].
    rbind (by apply fall_back_total) as r Hr. apply returns_ret. by rewrite Hr.
  - apply returns_ret. apply orb_false_iff in Eo. by apply Hcur, clears_usage.
Qed.

Lemma price_round_total weights ps s :
  narrow ps → serves s users → weighted weights users →
  returns (price_round est rs par Binary users weights (max_iteration s) ps s)
    (λ r, match r with Again ps' => narrow ps' | Leave r => all_pos (sr_alloc r) end).
Proof.
  intros (l & r & k & Hseg & Hk & Hk93 & Hwid) Hs Hw. pose proof Hs as [(d & Hd & Had & _) _ Hit].
  destruct (compute_mid_segment _ _ _ Hseg) as (v & Hv & Hsv & Hcur).
  assert (Hp : price_ok ((l + r) * half)%Qc) by (apply (narrow_price l r k); [apply Hseg|done..]).
  destruct (find_best_total _ weights s Hp Hs Hw) as ([[cur ns] rl] & Hf & Hkeys & Hent).
  simpl in Hkeys, Hent. pose proof (entries_pos cur Hkeys Hent) as Hpos.
  unfold price_round. rewrite Hv. cbn [mbind res_bind]. rewrite Hcur, Hf. cbn [mbind res_bind].
  destruct (update_binary rl _ v) as [v'|] eqn:Eu.
  2: { apply returns_ret. simpl. apply update_binary_None in Eu as (_ & ?). by apply Hpos, clears_usage. }
  destruct (update_binary_segment _ _ _ _ _ _ Hsv Hcur Eu) as [Hc' (l' & r' & Hseg')].
  eapply returns_mono; [eapply end_of_round_total; [exact Hd| |exact Hpos|exact Had]; simpl; by rewrite Hc'|].
  intros [ps'|r0]; [|done]. intros [-> Hle]. simpl in Hle. rewrite Hk in Hle.
  exists l', r', (Datatypes.S k). simpl. split; [done|]. split; [lia|].
  split; [unfold maximum_retry, iteration_cap in *; lia|].
  intros Ha. destruct (proj1 (clears_usage cur) (entries_alone cur Hkeys Hent Ha)) as [Hoc Hob].
  destruct (update_binary_width _ _ _ _ _ _ Hsv Hcur Hoc Hob Eu) as (l2 & r2 & Hseg2 & Hw2).
  destruct (segment_unique _ _ _ _ _ Hseg' Hseg2) as [-> ->]. specialize (Hwid Ha).
  eapply Qcle_trans; [|exact Hw2]. by apply Qcmult_le_compat_r.
Qed.

Lemma price_loop_total fuel weights ps s :
  narrow ps → serves s users → weighted weights users →
  returns (price_loop est rs par fuel Binary users weights (max_iteration s) ps s)
    (λ o, ∀ r, o = Some r → all_pos (sr_alloc r)).
Proof.
  revert ps. induction fuel as [|fuel IH]; intros ps Hps Hs Hw; simpl; [by apply returns_ret|].
  rbind (by apply price_round_total) as r Hr. destruct r as [ps'|r]; [by apply IH|].
  apply returns_ret. by intros r' [= <-].
Qed.

Lemma set_prices_total v us d :
  all_pos d → covers d us → returns (for_all (set_price v) us d) all_pos.
Proof.
  intros Hp Hc. eapply returns_mono; [apply (for_all_total (λ e, all_pos e ∧ covers e us))|].
  - intros u e Hu [He Hce]. destruct (Hce u Hu) as (a & Ha & Hpa).
    unfold set_price, dgetE. rewrite Ha. simpl. eexists. split; [reflexivity|].
    split; [by apply all_pos_dset|].
    intros u' Hu'. rewrite dget_dset. case_decide; [by eexists|by apply Hce].
  - done.
  - by intros e [? _].
Qed.

Lemma allocate_total weights s :
  serves s users → weighted weights users →
  returns (allocate est rs par Binary users weights s)
    (λ o, ∃ cur conv s', o = Some (cur, conv, s') ∧ all_pos cur).
Proof.
  intros Hs Hw. unfold allocate.
  destruct (price_loop_total (price_fuel s) weights (init_price Binary) s)
    as (o & Hl & Hpos); [apply init_price_narrow|done..|].
  rewrite Hl. simpl. destruct o as [r|].
  2: { exfalso. eapply price_loop_fuel in Hl as [? [=]]; unfold price_fuel; simpl; lia. }
  specialize (Hpos r eq_refl).
  assert (Hcov : covers (sr_alloc r) users).
  { apply price_loop_leaves in Hl as (pr & cur & ns & rl & Hf & [(_ & E & _)|(_ & _ & E & _)] & _).
    - apply find_best_keys in Hf; [|done]. rewrite <- E in Hf. intros u Hu.
      rewrite <- Hf in Hu. apply dget_is_Some_keys in Hu as [a Ha]. eauto.
    - destruct Hs as [(d & Hd & _ & Hc & _) _ _]. rewrite Hd in E. by injection E as <-. }
  rbind (by apply set_prices_total) as cur Hcur. apply returns_ret. eauto 10.
Qed.
End total.

(** The same for a configuration that serves a VM of this size. *)
Lemma vm_allocate_total est rs par users weights s :
  est_total est → positive_limits rs → can_serve rs par (length users) → NoDup users →
  serves s users → weighted weights users →
  returns (allocate est rs par Binary users weights s)
    (λ o, ∃ cur conv s', o = Some (cur, conv, s') ∧ all_pos cur).
Proof.
  intros Hest (S & B & loc & hic & lob & hib & -> & ? & ? & ? & ? & ? & ? & ?)
    (? & ? & ? & ? & ? & ? & eps & range & E & Eg & Er & ? & ? & Hcase) Hnd Hs Hw.
  injection E as <- <- <- <- <- <-. by eapply allocate_total.
Qed.

Lemma allocate_static est rs par search users weights s cur conv s' :
  allocate (F := xnum) est rs par search users weights s = Ok (Some (cur, conv, s')) →
  last_static_allocation s' = last_static_allocation s.
Proof.
  intros (r & cur' & [= -> -> ->] & Hl & _)%allocate_inv.
  apply price_loop_leaves in Hl as (pr & cur0 & ns & rl & _ & _ & Hst). by case_match.
Qed.

(** ** The bound on the rounds *)

Section cap.
Context (est : Z → xnum → xnum → res xnum) (rs : scale xnum) (par : spirit_params xnum).
Context (Hcap : (max_iter_bound par <= iteration_cap)%Z).

Lemma fall_back_cap v s r :
  (max_iteration s <= iteration_cap)%Z → fall_back par v s = Ok r →
  (max_iteration (sr_spirit r) <= iteration_cap)%Z.
Proof.
  intros Hs Hr. unfold fall_back in Hr. apply bind_Ok in Hr as (s1 & Hs1 & Hr).
  apply bind_Ok in Hr as (last & _ & Hr). injection Hr as <-. simpl.
  destruct (adaptive_iter par); [|by injection Hs1 as <-].
  apply bind_Ok in Hs1 as (k & _ & Hs1). injection Hs1 as <-. simpl. lia.
Qed.

Lemma price_round_cap users weights maximum_iteration ps s r :
  on_segment ps → (max_iteration s <= iteration_cap)%Z →
  price_round est rs par Binary users weights maximum_iteration ps s = Ok (Leave r) →
  (max_iteration (sr_spirit r) <= iteration_cap)%Z.
Proof.
  intros (l & r0 & Hseg) Hs Hr. unfold price_round in Hr.
  destruct (compute_mid_segment _ _ _ Hseg) as (v & Hv & Hsv & Hcur). rewrite Hv in Hr.
  simpl in Hr. apply bind_Ok in Hr as ([[cur ns] rl] & Hf & Hr).
  destruct (update_binary rl _ v) as [v'|] eqn:Eu; [|by simplify_eq].
  destruct (update_binary_segment _ _ _ _ _ _ Hsv Hcur Eu) as [Hc' _].
  unfold end_of_round in Hr. simpl in Hr. rewrite Hc', Hcur, simplex_not_small in Hr.
  destruct (_ <=? _)%Z; [|done]. destruct (_ || _); [|by injection Hr as <-].
  destruct (_ <=? _)%Z; [done|].
  apply bind_Ok in Hr as (r1 & Hg & Hr). injection Hr as <-. by eapply fall_back_cap.
Qed.

Lemma price_loop_cap fuel users weights maximum_iteration ps s r :
  on_segment ps → (max_iteration s <= iteration_cap)%Z →
  price_loop est rs par fuel Binary users weights maximum_iteration ps s = Ok (Some r) →
  (max_iteration (sr_spirit r) <= iteration_cap)%Z.
Proof.
  revert ps. induction fuel as [|fuel IH]; intros ps Hps Hs Hr; [done|]. simpl in Hr.
  apply bind_Ok in Hr as (r' & Hr' & Hr). destruct r' as [ps'|r'].
  - apply price_round_exact in Hr'; [|done]. by eapply IH.
  - injection Hr as <-. by eapply price_round_cap.
Qed.

Lemma allocate_cap users weights s cur conv s' :
  (max_iteration s <= iteration_cap)%Z →
  allocate est rs par Binary users weights s = Ok (Some (cur, conv, s')) →
  (max_iteration s' <= iteration_cap)%Z.
Proof.
  intros Hs (r & cur' & [= -> -> ->] & Hl & _)%allocate_inv.
  apply price_loop_cap in Hl; [|apply init_price_segment|done]. by case_match.
Qed.
End cap.

Lemma equal_weights_total apps :
  apps ≠ [] → returns (equal_weights apps) (λ w : dict Z xnum, weighted w apps).
Proof.
  intros Hne. unfold equal_weights.
  assert (Hn : (0 < Z.of_nat (length apps))%Z) by (destruct apps; [done|simpl; lia]).
  change (of_Z 1 : xnum) with (Num 1%Qc). rewrite (fdiv_zq _ Hn). cbn [mbind res_bind].
  set (w := Num (1 / zq (Z.of_nat (length apps)))%Qc). apply returns_ret.
  assert (Hgen : ∀ (l : list Z) (d : dict Z xnum) u,
    (u ∈ l ∨ dget d u = Some w) → dget (foldl (λ d u, dset d u w) d l) u = Some w).
  { induction l as [|x l IH]; intros d u Hu; simpl; [set_solver|]. apply IH.
    rewrite dget_dset. case_decide; [by right|set_solver]. }
  intros u Hu. exists w. split; [apply Hgen; by left|]. split; [apply fin_Num|].
  intros E. unfold w. rewrite E. by apply (f_equal Num).
Qed.
