(* ===== verification/SpiritRounds.v ===== *)
(** * Allocation rounds of the Spirit allocator

    Once a static round has run on a complete VM map, every later round on
    that map returns, and what it deploys on a VM never exceeds the VM's
    resources beyond the search's precision: an invariant of the allocator's
    state, proved over all sequences of rounds. *)

From S2P Require Import Prelude PyDict PyFloat Exact Resources Ptas PtasFacts PtasExact Base BaseExact Spirit SpiritFacts SpiritExact.

(** ** Shares by user *)

Definition share_at (d : dict Z (alloc xnum)) (u : Z) : option (xnum * xnum) :=
  (λ a, (a_cache a, a_mem_bw a)) <$> dget d u.

(** The shares of [apps] do not over-allocate a VM. *)
Definition vm_clears (d : dict Z (alloc xnum)) (apps : list Z) : Prop :=
  ∃ l, Forall2 (λ u x, share_at d u = Some x) apps l ∧
       over (fsum l.*1) = false ∧ over (fsum l.*2) = false.

Lemma vm_clears_ext d d' apps :
  (∀ u, u ∈ apps → share_at d u = share_at d' u) → vm_clears d apps → vm_clears d' apps.
Proof.
  intros He (l & Hl & Hov). exists l. split; [|done].
  apply Forall2_same_length_lookup_2; [by eapply Forall2_length|].
  intros i u x Hu Hx. rewrite <- He by by eapply list_elem_of_lookup_2.
  eapply Forall2_lookup_lr in Hl; done.
Qed.

Lemma shares_share_at d d' u : shares d = shares d' → share_at d u = share_at d' u.
Proof.
  intros Hs. unfold share_at. destruct (dget d u) as [a|] eqn:E.
  - destruct (shares_get _ _ _ _ Hs E) as (a' & -> & Ec & Eb). simpl. by rewrite Ec, Eb.
  - destruct (dget d' u) as [a|] eqn:E'; [|done]. symmetry in Hs.
    destruct (shares_get _ _ _ _ Hs E') as (a' & ? & _). congruence.
Qed.

Lemma clears_vm_clears d apps :
  NoDup apps → dkeys d = apps → clears d → vm_clears d apps.
Proof.
  intros Hnd <- [Hc Hb]. exists ((λ a, (a_cache a, a_mem_bw a)) <$> dvalues d).
  rewrite <- !list_fmap_compose. split; [|done].
  unfold dkeys, dvalues. rewrite <- list_fmap_compose. apply Forall2_fmap, Forall_Forall2_diag.
  apply Forall_forall. intros [u a] Hin. simpl. unfold share_at.
  by rewrite (dget_In d u a Hnd Hin).
Qed.

Lemma vm_clears_covers d apps : all_pos d → vm_clears d apps → covers d apps.
Proof.
  intros Hp (l & Hl & _) u Hu. apply list_elem_of_lookup in Hu as [i Hi].
  eapply Forall2_lookup_l in Hl as (x & _ & Hx); [|done].
  unfold share_at in Hx. destruct (dget d u) as [a|] eqn:E; [|done]. eauto.
Qed.

Lemma over_bound q : over (Num q) = false → (q <= 1 + Q2Qc (1 # 100000))%Qc.
Proof.
  unfold over. intros Ho. change (lit 1 1 + float_precision)%py with (Num (1 + Q2Qc (1 # 100000))%Qc) in Ho.
  by apply xltb_Num_false in Ho.
Qed.

Lemma vm_clears_single d u a c :
  vm_clears d [u] → dget d u = Some a → a_cache a = Num c → (c <= 1 + precision)%Qc.
Proof.
  intros (l & Hl & Ho & _) Ha Hc. apply Forall2_cons_inv_l in Hl as (x & k & Hx & Hk & ->).
  apply Forall2_nil_inv_l in Hk as ->. unfold share_at in Hx. rewrite Ha in Hx. injection Hx as <-.
  cbn [fmap list_fmap fst] in Ho. rewrite Hc in Ho. change [Num c] with (Num <$> [c]) in Ho.
  rewrite fsum_Num, qsum_cons, qsum_nil, Qcplus_0_r in Ho. by apply over_bound.
Qed.

(** ** Storing a VM's allocation *)

(** [al] holds the units of the shares in [d]. *)
Definition agree (rs : scale xnum) (al : dict Z units) (d : dict Z (alloc xnum)) : Prop :=
  ∀ u x, dget al u = Some x → ∃ a, dget d u = Some a ∧ scale_units rs a = Ok x.

Lemma agree_dset rs al d u x a :
  agree rs al d → scale_units rs a = Ok x → agree rs (dset al u x) (dset d u a).
Proof.
  intros Hag Hx u' x'. rewrite !dget_dset. case_decide; [|by apply Hag].
  intros [= <-]. eauto.
Qed.

Lemma scale_units_share rs a a' :
  a_cache a = a_cache a' → a_mem_bw a = a_mem_bw a' → scale_units rs a = scale_units rs a'.
Proof. unfold scale_units. by intros -> ->. Qed.

Lemma agree_shares rs al d d' : shares d = shares d' → agree rs al d → agree rs al d'.
Proof.
  intros Hs Hag u x Hx. destruct (Hag u x Hx) as (a & Ha & Hu).
  destruct (shares_get _ _ _ _ Hs Ha) as (a' & Ha' & Ec & Eb). exists a'. split; [done|].
  by rewrite (scale_units_share rs a' a).
Qed.

Lemma scale_units_total rs a : scale_ok rs → share_pos a → ∃ u, scale_units rs a = Ok u.
Proof.
  intros [HS HB _ _ _ _] [Hc Hb].
  destruct (trunc_fin (a_cache a * s_cache rs)%py) as (zc & Hzc & _); [fin_auto|].
  destruct (trunc_fin (a_mem_bw a * s_mem_bw rs * of_Z 1024)%py) as (zb & Hzb & _); [fin_auto|].
  exists (Units zc zb). unfold scale_units. by rewrite Hzc, Hzb.
Qed.

Section record.
Context (rs : scale xnum) (Hrs : scale_ok rs).

(** What the loop of lines 193-209 has done to the dictionaries. *)
Record recorded (cur d d' : dict Z (alloc xnum)) (al al' : dict Z units) : Prop := {
  rec_share : ∀ u, share_at d' u = if decide (u ∈ dkeys cur) then share_at cur u else share_at d u;
  rec_agree : agree rs al d → agree rs al' d';
  rec_keys : ∀ u, u ∈ dkeys al' ↔ u ∈ dkeys cur ∨ u ∈ dkeys al;
  rec_pos : all_pos d → all_pos cur → all_pos d';
  rec_nodup : NoDup (dkeys d) → NoDup (dkeys d');
}.

Lemma record_users cur d al s :
  NoDup (dkeys cur) → all_pos cur → last_allocation s = Some d →
  returns (for_all (record_user rs) cur (al, s)) (λ r,
    ∃ d', last_allocation r.2 = Some d' ∧
          last_static_allocation r.2 = last_static_allocation s ∧
          max_iteration r.2 = max_iteration s ∧ recorded cur d d' al r.1).
Proof.
  revert d al s. induction cur as [|[u a] cur IH]; intros d al s Hnd Hpos Hd.
  { apply returns_ret. exists d. split_and!; try done.
    split; try done. intros u. set_solver. }
  apply NoDup_cons in Hnd as [Hu Hnd].
  assert (Ha : share_pos a) by (apply (Hpos u); simpl; by rewrite decide_True).
  assert (Hpos' : all_pos cur).
  { intros u' a' Hg. apply (Hpos u'). simpl. rewrite decide_False; [done|].
    intros ->. apply Hu. apply dget_is_Some_keys. eauto. }
  destruct (scale_units_total rs a Hrs Ha) as [x Hx].
  set (a1 := match dget d u with Some old => a_update old a | None => a end).
  assert (Ea : a_cache a1 = a_cache a ∧ a_mem_bw a1 = a_mem_bw a) by (subst a1; by case_match).
  destruct Ea as [Eac Eab].
  assert (Hr : record_user rs (u, a) (al, s) = Ok (dset al u x, set_last (dset d u a1) s)).
  { unfold record_user, last_dict. rewrite Hd. simpl. by rewrite Hx. }
  change (for_all (record_user rs) ((u, a) :: cur) (al, s)) with
    (st ← record_user rs (u, a) (al, s); for_all (record_user rs) cur st).
  rewrite Hr. eapply returns_mono; [apply (IH (dset d u a1)); done|]. simpl.
  intros [al' s'] (d' & Hd' & Hst & Hi & [Hsh Hag Hk Hp Hn]). simpl in *.
  exists d'. split; [done|]. split; [done|]. split; [done|]. split.
  - intros u'. rewrite Hsh. unfold share_at at 2 3 4. simpl. rewrite dget_dset.
    destruct (decide (u = u')) as [<-|Hne].
    + rewrite !decide_False by (try done). rewrite (decide_True (P := u ∈ u :: _)) by left.
      rewrite decide_True by done. simpl. by rewrite Eac, Eab.
    + rewrite (decide_False (P := u' = u)) by done.
      destruct (decide (u' ∈ dkeys cur)); [rewrite decide_True by (by right); done|].
      rewrite decide_False; [done|]. set_solver.
  - intros H0. apply Hag, agree_dset; [done|]. by rewrite (scale_units_share rs a1 a).
  - intros u'. rewrite Hk, elem_of_dkeys_dset, dkeys_cons. set_solver.
  - intros Hd0 _. apply Hp; [|done]. apply all_pos_dset; [done|].
    unfold share_pos. by rewrite Eac, Eab.
  - intros Hd0. by apply Hn, NoDup_dset.
Qed.
End record.

(** ** From shares to deployed units *)

(** The VM's applications have their units, and within its capacity. *)
Definition within_capacity (S B : Qc) (al : dict Z units) (apps : list Z) : Prop :=
  let slack := (1 + Q2Qc (1 # 100000))%Qc in
  ∃ us, Forall2 (λ u x, dget al u = Some x) apps us ∧
    Forall (λ x, 0 <= u_cache x ∧ 0 <= u_mem_bw x)%Z us ∧
    (zq (zsum (u_cache <$> us)) <= slack * S)%Qc ∧
    (zq (zsum (u_mem_bw <$> us)) <= slack * (B * zq 1024))%Qc.

Lemma units_of_shares rs S B al d apps l :
  s_cache rs = Num S → s_mem_bw rs = Num B → (0 <= S)%Qc → (0 <= B)%Qc →
  agree rs al d → all_pos d → (∀ u, u ∈ apps → u ∈ dkeys al) →
  Forall2 (λ u x, share_at d u = Some x) apps l →
  ∃ ts, l = (λ t, (Num t.1.2, Num t.2)) <$> ts ∧
        Forall2 (λ u t, dget al u = Some t.1.1) apps ts ∧ Forall (fits S B) ts.
Proof.
  intros HS HB HS0 HB0 Hag Hpos Hk Hl. induction Hl as [|u x apps l Hu Hl IH].
  { exists []. done. }
  destruct IH as (ts & -> & Hts & Hf); [set_solver|].
  assert (Hin : u ∈ dkeys al) by (apply Hk; left). apply dget_is_Some_keys in Hin as [x' Hx'].
  destruct (Hag u x' Hx') as (a & Ha & Hsc). unfold share_at in Hu. rewrite Ha in Hu.
  injection Hu as <-. destruct (Hpos u a Ha) as [(c & Hc & Hc0) (b & Hb & Hb0)].
  destruct a as [ac ab ap]. simpl in *. subst.
  exists ((x', c, b) :: ts). split; [done|]. split; [by constructor|]. constructor; [|done].
  eapply scale_units_fits; eauto using Qclt_le_weak.
Qed.

Lemma units_within_capacity rs S B al d apps :
  s_cache rs = Num S → s_mem_bw rs = Num B → (0 <= S)%Qc → (0 <= B)%Qc →
  agree rs al d → all_pos d → (∀ u, u ∈ apps → u ∈ dkeys al) →
  vm_clears d apps → within_capacity S B al apps.
Proof.
  intros HS HB HS0 HB0 Hag Hpos Hk (l & Hl & Hoc & Hob).
  destruct (units_of_shares rs S B al d apps l) as (ts & -> & Hts & Hf); try done.
  rewrite <- !list_fmap_compose in Hoc, Hob.
  change (fst ∘ λ t : units * Qc * Qc, (Num t.1.2, Num t.2)) with (Num ∘ (λ t : units * Qc * Qc, t.1.2)) in Hoc.
  change (snd ∘ λ t : units * Qc * Qc, (Num t.1.2, Num t.2)) with (Num ∘ (λ t : units * Qc * Qc, t.2)) in Hob.
  rewrite list_fmap_compose, fsum_Num in Hoc, Hob. apply over_bound in Hoc, Hob.
  destruct (qsum_fits S B ts Hf) as [Hc Hb].
  exists ((λ t, t.1.1) <$> ts). rewrite <- !list_fmap_compose. split; [by apply Forall2_fmap_r|].
  split; [|split; eapply Qcle_trans; [exact Hc| |exact Hb|]].
  - apply Forall_fmap. eapply Forall_impl; [exact Hf|]. intros [[x c] b] (? & ? & _). done.
  - by apply Qcmult_le_compat_r.
  - apply Qcmult_le_compat_r; [done|]. apply (Qcle_trans _ (0 * zq 1024)); [done|].
    by apply Qcmult_le_compat_r.
Qed.

(** ** The state invariant *)

Section rounds.
Context (rs : scale xnum) (Hrs : positive_limits rs) (par : spirit_params xnum).
Context (Hcap : (max_iter_bound par <= iteration_cap)%Z).
Context (m : vm_map) (users : list Z).
Context (Hm : NoDup (mapped_users m)) (Hcomplete : is_complete_vm_map m users = true).
Context (Hvms : ∀ vm, vm ∈ m → vm_apps vm.2 users ≠ [] → can_serve rs par (length (vm_apps vm.2 users))).

Let apps_of (vm : Z * list Z) : list Z := vm_apps vm.2 users.

Record spirit_inv (s : spirit xnum) (d : dict Z (alloc xnum)) : Prop := {
  si_last : last_allocation s = Some d;
  si_nodup : NoDup (dkeys d);
  si_pos : all_pos d;
  si_clears : ∀ vm, vm ∈ m → vm_clears d (apps_of vm);
  si_static : ∃ ds, last_static_allocation s = Some ds ∧ ∀ vm, vm ∈ m → equal_shares ds (apps_of vm);
  si_iter : (max_iteration s <= iteration_cap)%Z;
}.

(** What a round has deployed, and the state it leaves. *)
Record round_ok (al : dict Z units) (s : spirit xnum) (d : dict Z (alloc xnum)) : Prop := {
  ro_inv : spirit_inv s d;
  ro_agree : agree rs al d;
}.

Lemma spirit_inv_serves s d vm : spirit_inv s d → vm ∈ m → serves s (apps_of vm).
Proof.
  intros [Hl _ Hp Hc (ds & Hs & Heq) Hi] Hvm. split; [|eauto|done].
  exists d. split; [done|]. split; [done|]. split; [apply vm_clears_covers; auto|].
  intros u a c Eu Ha Ec. eapply vm_clears_single; [|done..]. rewrite <- Eu. by apply Hc.
Qed.

(** Replacing the allocation of one VM, or of none, keeps the others. *)
Lemma vm_clears_recorded cur d d' al al' vm :
  (∀ q, q ∈ m → vm_clears d (apps_of q)) → vm ∈ m →
  recorded rs cur d d' al al' →
  (dkeys cur = apps_of vm ∧ clears cur ∧ NoDup (dkeys cur)) ∨ shares cur = shares d →
  ∀ q, q ∈ m → vm_clears d' (apps_of q).
Proof.
  intros Hd Hvm [Hsh _ _ _ _] [(Hk & Hcl & Hnd)|Hsame] q Hq.
  - destruct (decide (q = vm)) as [->|Hne].
    + eapply vm_clears_ext; [|by apply clears_vm_clears, Hcl; [rewrite <- Hk|]].
      intros u Hu. rewrite Hsh, decide_True; [done|]. by rewrite Hk.
    + eapply vm_clears_ext; [|by apply Hd]. intros u Hu. rewrite Hsh, decide_False; [done|].
      rewrite Hk. intros Hu'. apply Hne. apply elem_of_vm_apps in Hu as [Hu _], Hu' as [Hu' _].
      by apply (vm_disjoint m Hm _ _ u).
  - eapply vm_clears_ext; [|by apply Hd]. intros u _. rewrite Hsh.
    case_decide; [|done]. by apply shares_share_at.
Qed.

(** ** A static round *)

Let n_apps (vm : Z * list Z) : Z := Z.of_nat (length (apps_of vm)).

(** Every entry is the equal share of its VM, and deployed. *)
Record static_ok (acc : dict Z units * dict Z (alloc xnum)) : Prop := {
  so_nodup : NoDup (dkeys acc.2);
  so_agree : agree rs acc.1 acc.2;
  so_share : ∀ vm u a, vm ∈ m → u ∈ apps_of vm → dget acc.2 u = Some a → a = inv_share (n_apps vm);
  so_pos : all_pos acc.2;
}.

Definition has (acc : dict Z units * dict Z (alloc xnum)) (u : Z) : Prop :=
  u ∈ dkeys acc.1 ∧ u ∈ dkeys acc.2.

Lemma apps_nonempty vm u : u ∈ apps_of vm → (0 < n_apps vm)%Z.
Proof. unfold n_apps. destruct (apps_of vm); [set_solver|simpl; lia]. Qed.

Lemma static_entry_ok vm u acc :
  vm ∈ m → u ∈ apps_of vm → static_ok acc →
  ∃ acc', static_entry rs u (n_apps vm) acc = Ok acc' ∧ static_ok acc' ∧
          has acc' u ∧ ∀ v, has acc v → has acc' v.
Proof.
  intros Hvm Hu [Hnd Hag Hsh Hpos]. pose proof (apps_nonempty vm u Hu) as Hn.
  pose proof (inv_share_pos _ Hn) as Hp. destruct (limits_scale_ok rs Hrs) as [Hok _].
  destruct (scale_units_total rs _ Hok Hp) as [x Hx].
  unfold static_entry. rewrite equal_share_Num by done.
  destruct Hok as [(S & HS & _) (B & HB & _) _ _ _ _]. rewrite (equal_units_scale _ Hn rs S B HS HB), Hx.
  simpl. eexists. split; [reflexivity|]. split; [split; simpl|].
  - by apply NoDup_dset.
  - by apply agree_dset.
  - intros vm' u' a Hvm' Hu'. rewrite dget_dset. case_decide; [|by apply Hsh]. subst u'.
    assert (vm = vm') as <-.
    { apply elem_of_vm_apps in Hu as [Hu _], Hu' as [Hu' _]. by apply (vm_disjoint m Hm _ _ u). }
    by intros [= <-].
  - by apply all_pos_dset.
  - unfold has. simpl. setoid_rewrite elem_of_dkeys_dset. tauto.
Qed.

Lemma static_mapped_ok :
  returns (static_mapped rs users m)
    (λ acc, static_ok acc ∧ ∀ vm u, vm ∈ m → u ∈ apps_of vm → has acc u).
Proof.
  unfold static_mapped.
  destruct (for_all_cover static_ok (λ vm acc, ∀ u, u ∈ apps_of vm → has acc u)
    (static_vm rs users) m ([], [])) as (acc & Hr & Hok & Hall & _).
  - intros vm acc Hvm Hok. unfold static_vm.
    destruct (for_all_cover static_ok (λ u acc, has acc u)
      (λ user, static_entry rs user (n_apps vm)) (apps_of vm) acc) as (acc' & Hr & Hok' & Hc & Hk).
    + intros u t Hu Ht. by apply static_entry_ok.
    + done.
    + exists acc'. split; [done|]. split; [done|]. split; [done|]. auto.
  - split; simpl; [constructor|intros u x [=]|done|intros u a [=]].
  - exists acc. split; [done|]. split; [done|]. intros vm u Hvm. by apply Hall.
Qed.

Lemma over_one : over (Num 1%Qc) = false.
Proof. reflexivity. Qed.

Lemma static_clears acc vm :
  static_ok acc → vm ∈ m → (∀ u, u ∈ apps_of vm → has acc u) → vm_clears acc.2 (apps_of vm).
Proof.
  intros [_ _ Hsh _] Hvm Hhas. set (q := (/ zq (n_apps vm))%Qc).
  exists ((λ _, (Num q, Num q)) <$> apps_of vm). split.
  - apply Forall2_fmap_r, Forall_Forall2_diag, Forall_forall. intros u Hu.
    destruct (Hhas u Hu) as [_ [a Ha]%dget_is_Some_keys]. unfold share_at. rewrite Ha.
    by rewrite (Hsh vm u a Hvm Hu Ha).
  - rewrite <- !list_fmap_compose.
    change ((fst ∘ λ _ : Z, (Num q, Num q)) <$> apps_of vm) with (Num ∘ (λ _, q) <$> apps_of vm).
    change ((snd ∘ λ _ : Z, (Num q, Num q)) <$> apps_of vm) with (Num ∘ (λ _, q) <$> apps_of vm).
    rewrite list_fmap_compose, fsum_Num.
    destruct (decide (apps_of vm = [])) as [->|Hne]; [split; reflexivity|].
    unfold q, n_apps. rewrite (equal_shares_sum (apps_of vm)) by done. split; apply over_one.
Qed.

Lemma static_round_ok est skip num_vms total_record s :
  use_static par skip users total_record s = true → (max_iteration s <= iteration_cap)%Z →
  returns (allocate_and_parse est rs par skip m users num_vms total_record s) (λ o,
    ∃ al s' d, o = Some (al, s') ∧ round_ok al s' d ∧
      ∀ vm u, vm ∈ m → u ∈ apps_of vm → u ∈ dkeys al).
Proof.
  intros Hst Hi. unfold allocate_and_parse. rewrite Hst, Hcomplete. simpl.
  rbind (apply static_mapped_ok) as [al last] [Hok Hhas]. apply returns_ret.
  assert (Hcl : ∀ vm, vm ∈ m → vm_clears last (apps_of vm)).
  { intros vm Hvm. apply (static_clears (al, last)); [done|done|]. intros u. by apply Hhas. }
  pose proof Hok as [Hnd Hag Hsh Hpos]. simpl in *.
  eexists _, _, last. split; [done|]. split; [|by intros vm u Hvm Hu; destruct (Hhas vm u Hvm Hu)].
  split; [|done]. split; simpl; try done. exists last. split; [done|].
  intros vm Hvm u Hu. destruct (Hhas vm u Hvm Hu) as [_ [a Ha]%dget_is_Some_keys].
  simpl in Ha. by rewrite Ha, (Hsh vm u a Hvm Hu Ha).
Qed.

(** ** A dynamic round *)

Section dynamic.
Context (est : Z → xnum → xnum → res xnum) (Hest : est_total est).

Definition vm_state (o : option (dict Z units * spirit xnum)) : Prop :=
  ∃ al s d, o = Some (al, s) ∧ round_ok al s d.

Definition deployed (u : Z) (o : option (dict Z units * spirit xnum)) : Prop :=
  ∃ al s, o = Some (al, s) ∧ u ∈ dkeys al.

Lemma allocate_vm_ok vm o :
  vm ∈ m → vm_state o →
  returns (allocate_vm est rs par users vm o) (λ o',
    vm_state o' ∧ (∀ u, u ∈ apps_of vm → deployed u o') ∧ ∀ u, deployed u o → deployed u o').
Proof.
  intros Hvm (al & s & d & -> & [Hinv Hag]). unfold allocate_vm.
  change (vm_apps vm.2 users) with (apps_of vm).
  destruct (apps_of vm) as [|x apps] eqn:Ea.
  { apply returns_ret. split; [by exists al, s, d|]. split; [|done]. intros u Hu. set_solver. }
  rewrite <- Ea. assert (Hne : apps_of vm ≠ []) by (by rewrite Ea). clear x apps Ea.
  rbind (by apply equal_weights_total) as w Hw.
  assert (Hnd : NoDup (apps_of vm)) by (by apply NoDup_vm_apps, (vm_NoDup m)).
  pose proof (spirit_inv_serves _ _ _ Hinv Hvm) as Hserve.
  destruct (vm_allocate_total est rs par (apps_of vm) _ _ Hest Hrs (Hvms vm Hvm Hne) Hnd Hserve Hw)
    as (o & Ho & cur & conv & s' & -> & Hcur).
  rewrite Ho. simpl. pose proof (allocate_static _ _ _ _ _ _ _ _ _ _ Ho) as Hst.
  pose proof (allocate_cap _ _ _ Hcap _ _ _ _ _ _ (si_iter _ _ Hinv) Ho) as Hi'.
  apply allocate_clears_or_last in Ho; [|done].
  destruct Hinv as [Hl Hndd Hpos Hcl Hstat _].
  (* the last allocation the record loop starts from, and its keys *)
  assert (Hd : ∃ d', last_allocation s' = Some d' ∧ shares d' = shares d ∧ all_pos d' ∧
    NoDup (dkeys cur) ∧ (∀ u, u ∈ apps_of vm → u ∈ dkeys cur) ∧
    (dkeys cur = apps_of vm ∧ clears cur ∧ NoDup (dkeys cur) ∨ shares cur = shares d')).
  { destruct Ho as [(-> & Hk & Hc & E)|(-> & d0 & E0 & Hsh & E)].
    - exists d. rewrite E, Hk. eauto 10.
    - rewrite Hl in E0. injection E0 as <-. exists cur.
      assert (Hk : dkeys cur = dkeys d) by (by rewrite shares_keys, Hsh, <- shares_keys).
      rewrite Hk. split_and!; try done; [|by right].
      intros u Hu. destruct (vm_clears_covers d _ Hpos (Hcl vm Hvm) u Hu) as (a & Ha & _).
      apply dget_is_Some_keys. eauto. }
  destruct Hd as (d' & Hd' & Hshd & Hposd & Hndc & Hin & Hcase).
  destruct (limits_scale_ok rs Hrs) as [Hok _].
  rbind (by apply (record_users rs Hok cur d' al s')) as [al' s2] (d2 & Hd2 & Hst2 & Hi2 & Hrec).
  simpl in *. apply returns_ret. pose proof Hrec as [_ Hag' Hkeys Hpos' Hnd'].
  assert (Hag2 : agree rs al d') by (by eapply agree_shares).
  assert (Hcl2 : ∀ q, q ∈ m → vm_clears d' (apps_of q)).
  { intros q Hq. eapply vm_clears_ext; [|by apply Hcl]. intros u _. by apply shares_share_at. }
  assert (Hndd' : NoDup (dkeys d')) by (by rewrite shares_keys, Hshd, <- shares_keys).
  split; [exists al', s2, d2; split; [done|]; split; [split|]; auto|].
  - intros q Hq. by apply (vm_clears_recorded cur d' d2 al al' vm).
  - by rewrite Hst2, Hst.
  - by rewrite Hi2.
  - split; [intros u Hu | intros u (al0 & s0 & [= <- <-] & Hu)]; exists al', s2;
      (split; [done|]); apply Hkeys; auto.
Qed.

Lemma dynamic_round_ok s d :
  spirit_inv s d →
  returns (for_all (allocate_vm est rs par users) m (Some ([], s))) (λ o,
    vm_state o ∧ ∀ vm u, vm ∈ m → u ∈ apps_of vm → deployed u o).
Proof.
  intros Hinv.
  destruct (for_all_cover vm_state (λ vm o, ∀ u, u ∈ apps_of vm → deployed u o)
    (allocate_vm est rs par users) m (Some ([], s))) as (o & Hr & Ho & Hall & _).
  - intros vm o Hvm Ho. destruct (allocate_vm_ok vm o Hvm Ho) as (o' & Hr & Ho' & Hd & Hk).
    exists o'. auto 10.
  - exists [], s, d. split; [done|]. split; [done|]. intros u x [=].
  - exists o. split; [done|]. split; [done|]. intros vm u Hvm. by apply Hall.
Qed.
End dynamic.

(** ** Reachable states

    The allocator after a static round on the complete map, followed by any
    number of rounds on that map, whatever the monitor and the estimator
    report in between.  Its [max_iteration] is at most 90 before the static
    round; the constructor sets 20. *)
Inductive steady : dict Z units → spirit xnum → Prop :=
  | steady_static est skip num_vms total_record s al s' :
      use_static par skip users total_record s = true → (max_iteration s <= iteration_cap)%Z →
      allocate_and_parse est rs par skip m users num_vms total_record s = Ok (Some (al, s')) →
      steady al s'
  | steady_round est skip num_vms total_record al0 s al s' :
      est_total est → steady al0 s →
      allocate_and_parse est rs par skip m users num_vms total_record s = Ok (Some (al, s')) →
      steady al s'.

Definition served (al : dict Z units) (s : spirit xnum) : Prop :=
  ∃ d, round_ok al s d ∧ ∀ vm u, vm ∈ m → u ∈ apps_of vm → u ∈ dkeys al.

Lemma round_served est skip num_vms total_record s d :
  est_total est → spirit_inv s d →
  returns (allocate_and_parse est rs par skip m users num_vms total_record s)
    (λ o, ∃ al s', o = Some (al, s') ∧ served al s').
Proof.
  intros Hest Hinv. destruct (use_static par skip users total_record s) eqn:Est.
  - eapply returns_mono; [apply static_round_ok; [done|by apply Hinv]|].
    intros o (al & s' & d' & -> & Hok & Hk). exists al, s'. split; [done|]. by exists d'.
  - unfold allocate_and_parse. rewrite Est, Hcomplete. simpl.
    eapply returns_mono; [by eapply dynamic_round_ok|].
    intros o [(al & s' & d' & -> & Hok) Hk]. exists al, s'. split; [done|]. exists d'.
    split; [done|]. intros vm u Hvm Hu. by destruct (Hk vm u Hvm Hu) as (? & ? & [= <- <-] & ?).
Qed.

Lemma steady_served al s : steady al s → served al s.
Proof.
  induction 1 as [est skip nv tr s al s' Hst Hi Hr | est skip nv tr al0 s al s' Hest _ (d & Hok & _) Hr].
  - destruct (static_round_ok est skip nv tr s Hst Hi) as (o & Ho & al1 & s1 & d & -> & Hok & Hk).
    rewrite Ho in Hr. injection Hr as <- <-. by exists d.
  - destruct (round_served est skip nv tr s d Hest (ro_inv _ _ _ Hok)) as (o & Ho & al1 & s1 & -> & Hsv).
    rewrite Ho in Hr. by injection Hr as <- <-.
Qed.

Lemma served_within_capacity S B al s :
  s_cache rs = Num S → s_mem_bw rs = Num B →
  served al s → ∀ vm, vm ∈ m → within_capacity S B al (vm_apps vm.2 users).
Proof.
  intros HS HB (d & [[_ _ Hpos Hcl _] Hag] & Hk) vm Hvm.
  assert (Hnn : (0 <= S)%Qc ∧ (0 <= B)%Qc).
  { destruct (limits_scale_ok rs Hrs) as [[(S' & HS' & ?) (B' & HB' & ?) _ _ _ _] _].
    rewrite HS in HS'. rewrite HB in HB'. simplify_eq. split; by apply Qclt_le_weak. }
  destruct Hnn. eapply units_within_capacity; try done; [by intros u; apply Hk|by apply Hcl].
Qed.

End rounds.

(** ** The configurations *)

(** What the theorems on rounds ask of the resource scale, the parameters and
    the VM map: positive limits, a maximum cache at most the total, at most 90
    iterations, a map that names each user once and all of them, and for each
    VM one of the three cases of [can_serve]. *)
Record usable (rs : scale xnum) (par : spirit_params xnum) (m : vm_map) (users : list Z) : Prop := {
  us_limits : positive_limits rs;
  us_cap : (max_iter_bound par <= iteration_cap)%Z;
  us_distinct : NoDup (mapped_users m);
  us_complete : is_complete_vm_map m users = true;
  us_serve : ∀ vm, vm ∈ m → vm_apps vm.2 users ≠ [] → can_serve rs par (length (vm_apps vm.2 users));
}.

(** C6: on a usable configuration, in exact arithmetic: from any reachable
    state, for any estimator that returns values, a round on the VM map returns
    an allocation (no exception, and the price searches end).  Usable means
    positive per-user limits, a maximum cache at most the total, at most 90
    iterations of a price search, a complete map that names no user twice, and
    for each VM a maximum cache below the total, or several applications, or
    one application and a maximum bandwidth equal to the total. *)
Theorem spirit_round_returns rs par m users est skip num_vms total_record al0 s :
  usable rs par m users → steady rs par m users al0 s → est_total est →
  ∃ al s', allocate_and_parse est rs par skip m users num_vms total_record s = Ok (Some (al, s')).
Proof.
  intros [Hrs Hcap Hm Hc Hvms] Hst Hest.
  destruct (steady_served rs Hrs par Hcap m users Hm Hc Hvms _ _ Hst) as (d & Hok & _).
  destruct (round_served rs Hrs par Hcap m users Hm Hc Hvms est skip num_vms total_record s d Hest (ro_inv _ _ _ _ _ _ Hok))
    as (o & Ho & al & s' & -> & _). eauto.
Qed.

(** C5: on a usable configuration (see [spirit_round_returns]), in exact
    arithmetic, in every reachable state each application of each VM has an
    allocation, and together the applications of a VM are given at most its
    cache and its bandwidth, up to the search's precision of 1e-5. *)
Theorem spirit_within_capacity rs par m users S B al s :
  usable rs par m users → s_cache rs = Num S → s_mem_bw rs = Num B →
  steady rs par m users al s →
  ∀ vm, vm ∈ m → within_capacity S B al (vm_apps vm.2 users).
Proof.
  intros [Hrs Hcap Hm Hc Hvms] HS HB Hst. eapply served_within_capacity; try done.
  by eapply steady_served.
Qed.
