(* ===== verification/StaticAlloc.v ===== *)
(** * The static allocator: allocators/static_allocator.py

    Equal division per VM, and the flat division used before the VM map is
    known. *)

From S2P Require Import Prelude PyDict PyFloat Exact Resources Base BaseExact.

Module Static.
Section operations.
Context {F : Type} `{PyFloat F}.
Context (rs : scale F).

(** [allocation[user] = {...}] with [n] users sharing a VM *)
Definition assign_equal (n user : Z) (allocation : dict Z units) : res (dict Z units) :=
  u ← equal_units rs n; Ok (dset allocation user u).

(** No VM map: lines 46-57. *)
Definition allocate_flat (users : list Z) (num_vms : Z) : res (dict Z units) :=
  let n := Z.of_nat (length users) in
  per_vm ← users_per_vm n num_vms;
  for_all (λ p, assign_equal (flat_group_size n num_vms per_vm p.1) p.2) (enumerate users) [].

(** One VM of the map: lines 62-77. *)
Definition allocate_vm (users : list Z) (vm : Z * list Z) (allocation : dict Z units)
    : res (dict Z units) :=
  let apps := filter_apps vm.2 users in
  for_all (assign_equal (Z.of_nat (length apps))) apps allocation.

(** [set(users) - set(mapped users)], in the order of [users]. *)
Definition unassigned_users (m : vm_map) (users : list Z) : list Z :=
  remove_dups (filter (λ u, u ∉ mapped_users m) users).

(** [StaticAllocator.allocate_and_parse] *)
Definition allocate_and_parse (m : vm_map) (users : list Z) (num_vms : Z) : res (dict Z units) :=
  match m with
  | [] => allocate_flat users num_vms
  | _ =>
      allocation ← for_all (allocate_vm users) m [];
      let rest := unassigned_users m users in
      for_all (assign_equal (Z.of_nat (length rest))) rest allocation
  end.
End operations.

(** ** One group of users with equal units *)

Section groups.
Context {F : Type} `{PyFloat F}.
Context (rs : scale F).

Lemma assign_group n us al x :
  equal_units rs n = Ok x →
  ∃ al', for_all (assign_equal rs n) us al = Ok al' ∧
    ∀ u, dget al' u = if decide (u ∈ us) then Some x else dget al u.
Proof.
  intros Hx. revert al. induction us as [|v us IH]; intros al.
  { exists al. split; [done|]. intros u. by rewrite decide_False by apply not_elem_of_nil. }
  destruct (IH (dset al v x)) as (al' & Hr & Hget). exists al'.
  split.
  { change (for_all (assign_equal rs n) (v :: us) al) with
      (al1 ← (u ← equal_units rs n; Ok (dset al v u)); for_all (assign_equal rs n) us al1).
    rewrite Hx. exact Hr. }
  intros u. rewrite Hget, dget_dset.
  destruct (decide (u ∈ us)); [rewrite decide_True by (by right); done|].
  destruct (decide (v = u)) as [->|]; [by rewrite decide_True by left|].
  rewrite decide_False; [done|]. set_solver.
Qed.
End groups.

(** ** Exact division *)

Section exact.
Context (rs : scale xnum) (S B : Qc).
Context (HS : s_cache rs = Num S) (HB : s_mem_bw rs = Num B) (HS0 : (0 <= S)%Qc) (HB0 : (0 <= B)%Qc).

(** [n] users of equal units fit into the resource. *)
Definition equal_fit (n : Z) (x : units) : Prop :=
  (0 <= u_cache x)%Z ∧ (0 <= u_mem_bw x)%Z ∧
  (zq (n * u_cache x) <= S)%Qc ∧ (zq (n * u_mem_bw x) <= B * zq 1024)%Qc.

Lemma mul_div_le n a z :
  (0 < n)%Z → (0 <= a)%Qc → trunc (Num (a / zq n)%Qc) = Ok z → (zq (n * z) <= a)%Qc ∧ (0 <= z)%Z.
Proof.
  intros Hn Ha Hz. pose proof (zq_pos n Hn) as Hp.
  assert (Hq : (0 <= a / zq n)%Qc).
  { apply (Qcle_trans _ (0 / zq n)); [unfold Qcdiv; by rewrite Qcmult_0_l|].
    apply Qcmult_le_compat_r; [done|]. apply Qclt_le_weak. rewrite <- (Qcmult_1_l (/ zq n)).
    by apply Qcdiv_pos. }
  apply trunc_le_nonneg in Hz as [Hz ?]; [|done]. split; [|done].
  rewrite zq_mul, Qcmult_comm.
  apply (Qcle_trans _ (a / zq n * zq n)).
  - apply Qcmult_le_compat_r; [done|]. by apply Qclt_le_weak.
  - rewrite Qcmult_comm, Qcmult_div_r; [apply Qcle_refl|]. by apply pos_ne0.
Qed.

Lemma equal_units_fit n : (0 < n)%Z → returns (equal_units rs n) (equal_fit n).
Proof.
  intros Hn. destruct (trunc_fin (Num (S / zq n)%Qc)) as (zc & Hzc & _); [fin_auto|].
  assert (Hb : (Num (B / zq n)%Qc * of_Z 1024)%py = Num (B * zq 1024 / zq n)%Qc).
  { change (Num (B / zq n * zq 1024)%Qc = Num (B * zq 1024 / zq n)%Qc). f_equal. unfold Qcdiv. ring. }
  destruct (trunc_fin (Num (B * zq 1024 / zq n)%Qc)) as (zb & Hzb & _); [fin_auto|].
  exists (Units zc zb). unfold equal_units. rewrite HS, HB, !(fdiv_zq n Hn). cbn [mbind res_bind].
  rewrite Hzc. cbn [mbind res_bind]. rewrite Hb, Hzb. split; [done|].
  apply mul_div_le in Hzc as [? ?]; [|done|done].
  apply mul_div_le in Hzb as [? ?]; [done|done|].
  apply (Qcle_trans _ (0 * zq 1024)); [done|]. by apply Qcmult_le_compat_r.
Qed.

(** ** The whole allocation *)

(** Everyone named by [apps] has the same units, which fit together. *)
Definition group_fits (al : dict Z units) (apps : list Z) : Prop :=
  ∃ x, (∀ u, u ∈ apps → dget al u = Some x) ∧ equal_fit (Z.of_nat (length apps)) x.

Lemma group_fits_nil al : group_fits al [].
Proof.
  exists (Units 0 0). split; [set_solver|]. split; [done|]. split; [done|]. simpl.
  split; [done|]. apply (Qcle_trans _ (0 * zq 1024)); [done|]. by apply Qcmult_le_compat_r.
Qed.

Lemma assign_group_fits us al :
  ∃ al', for_all (assign_equal rs (Z.of_nat (length us))) us al = Ok al' ∧ group_fits al' us ∧
    ∀ u, u ∉ us → dget al' u = dget al u.
Proof.
  destruct us as [|v us]; [exists al; split; [done|]; split; [apply group_fits_nil|done]|].
  set (n := Z.of_nat (length (v :: us))).
  destruct (equal_units_fit n) as (x & Hx & Hfit); [subst n; simpl; lia|].
  destruct (assign_group rs n (v :: us) al x Hx) as (al' & Hr & Hget).
  exists al'. split; [exact Hr|]. split.
  - exists x. split; [|done]. intros u Hu. by rewrite Hget, decide_True.
  - intros u Hu. by rewrite Hget, decide_False.
Qed.

Lemma group_fits_keep al al' us :
  (∀ u, u ∈ us → dget al' u = dget al u) → group_fits al us → group_fits al' us.
Proof. intros Hk (x & Hx & Hf). exists x. split; [|done]. intros u Hu. rewrite Hk; auto. Qed.

Context (users : list Z).

Lemma allocate_vms_fit (m : vm_map) al :
  NoDup (mapped_users m) →
  ∃ al', for_all (allocate_vm rs users) m al = Ok al' ∧
    (∀ vm, vm ∈ m → group_fits al' (filter_apps vm.2 users)) ∧
    ∀ u, u ∉ mapped_users m → dget al' u = dget al u.
Proof.
  revert al. induction m as [|vm m IH]; intros al Hnd; [exists al; set_solver|].
  unfold mapped_users, dvalues in Hnd. csimpl in Hnd. apply NoDup_app in Hnd as (Hvm & Hdis & Hnd).
  destruct (assign_group_fits (filter_apps vm.2 users) al) as (al1 & H1 & Hfit & Hk1).
  destruct (IH al1 Hnd) as (al2 & H2 & Hall & Hk2).
  assert (Hsub : ∀ u, u ∈ filter_apps vm.2 users → u ∈ vm.2).
  { intros u. unfold filter_apps. rewrite list_elem_of_filter. tauto. }
  exists al2. split; [|split].
  - change (allocate_vm rs users vm al = Ok al1) in H1.
    change ((al1 ← allocate_vm rs users vm al; for_all (allocate_vm rs users) m al1) = Ok al2).
    rewrite H1. exact H2.
  - intros vm' [->|Hin]%elem_of_cons; [|by apply Hall].
    eapply group_fits_keep; [|exact Hfit]. intros u Hu. apply Hk2. intros Hu'.
    by apply (Hdis u); [apply Hsub|].
  - intros u Hu. unfold mapped_users, dvalues in Hu. csimpl in Hu.
    apply not_elem_of_app in Hu as [Hu1 Hu2].
    rewrite Hk2 by done. apply Hk1. intros Hu. by apply Hu1, Hsub.
Qed.

(** C31: with a VM map in which no application occurs twice, the static
    allocation is total; the applications of a VM get equal units that
    together fit into the VM, and so do the users that belong to no VM. *)
Theorem static_allocation_fits (m : vm_map) num_vms :
  m ≠ [] → NoDup (mapped_users m) →
  ∃ al, allocate_and_parse rs m users num_vms = Ok al ∧
    (∀ vm, vm ∈ m → group_fits al (filter_apps vm.2 users)) ∧
    group_fits al (unassigned_users m users).
Proof.
  intros Hm Hnd. destruct (allocate_vms_fit m [] Hnd) as (al & Hr & Hfit & _).
  destruct (assign_group_fits (unassigned_users m users) al) as (al' & Hr' & Hfit' & Hk).
  exists al'. split; [|split; [|done]].
  - unfold allocate_and_parse. destruct m; [done|]. rewrite Hr. exact Hr'.
  - intros vm Hvm. eapply group_fits_keep; [|by apply Hfit]. intros u Hu. apply Hk.
    unfold unassigned_users. rewrite elem_of_remove_dups, list_elem_of_filter. intros [Hn _].
    apply Hn. unfold filter_apps in Hu. apply list_elem_of_filter in Hu as [_ Hu].
    apply list_elem_of_In, in_concat. exists vm.2. split; apply list_elem_of_In; [|done].
    apply list_elem_of_fmap. eauto.
Qed.
End exact.

(** ** The flat division *)

(** The VM's worth of resources user number [idx] is given. *)
Definition flat_share (n num_vms per_vm idx : Z) : Qc := (/ zq (flat_group_size n num_vms per_vm idx))%Qc.

Lemma flat_group_pos n num_vms per_vm idx :
  (0 < per_vm)%Z → (0 <= idx < n)%Z → (0 < flat_group_size n num_vms per_vm idx)%Z.
Proof.
  intros Hp Hi. unfold flat_group_size. pose proof (Z.mul_div_le idx per_vm Hp). case_match; lia.
Qed.

Lemma flat_share_pos n num_vms per_vm idx :
  (0 < per_vm)%Z → (0 <= idx < n)%Z → (0 < flat_share n num_vms per_vm idx)%Qc.
Proof.
  intros Hp Hi. unfold flat_share. rewrite <- (Qcmult_1_l (/ _)).
  apply Qcdiv_pos; [done|]. apply zq_pos. by apply flat_group_pos.
Qed.

(** The users the division has a VM for. *)
Lemma flat_share_head n num_vms per_vm (k : nat) :
  (0 < per_vm)%Z → (Z.of_nat k <= num_vms * per_vm)%Z →
  qsum (flat_share n num_vms per_vm <$> seqZ 0 (Z.of_nat k)) = (zq (Z.of_nat k) * / zq per_vm)%Qc.
Proof.
  intros Hp Hk. transitivity (qsum ((λ _, (/ zq per_vm)%Qc) <$> seqZ 0 (Z.of_nat k))).
  - f_equal. apply list_fmap_ext. intros i x Hx. apply lookup_seqZ in Hx as [-> Hi].
    unfold flat_share, flat_group_size. rewrite (proj2 (Z.ltb_lt _ _)); [done|].
    apply Z.div_lt_upper_bound; lia.
  - rewrite qsum_const, length_seqZ. by rewrite Z2Nat.id by lia.
Qed.

(** Before the VM map is known, the flat division gives away exactly the
    configured VMs when their number divides the number of users, and more
    resources than there are in every other case. *)
Theorem flat_division_total n num_vms per_vm :
  (0 < num_vms <= n)%Z → users_per_vm n num_vms = Ok per_vm →
  let total := qsum (flat_share n num_vms per_vm <$> seqZ 0 n) in
  (n mod num_vms = 0 → total = zq num_vms)%Z ∧ ((n mod num_vms ≠ 0)%Z → (zq num_vms < total)%Qc).
Proof.
  intros Hn Hper total. unfold users_per_vm, py_floordiv in Hper.
  rewrite (proj2 (Z.eqb_neq _ _)) in Hper by lia. injection Hper as Hper.
  assert (Hq : (1 <= n / num_vms)%Z) by (apply Z.div_le_lower_bound; lia).
  rewrite Z.max_r in Hper by done. subst per_vm.
  pose proof (Z.div_mod n num_vms ltac:(lia)) as Hdm.
  pose proof (Z.mod_pos_bound n num_vms ltac:(lia)) as Hmod.
  set (per := (n / num_vms)%Z) in *. set (h := (num_vms * per)%Z) in *.
  assert (Hh : qsum (flat_share n num_vms per <$> seqZ 0 h) = zq num_vms).
  { rewrite <- (Z2Nat.id h) by nia. rewrite flat_share_head by nia.
    rewrite Z2Nat.id by nia. unfold h. rewrite zq_mul, <- Qcmult_assoc, Qcmult_inv_r; [ring|].
    apply pos_ne0, zq_pos. lia. }
  assert (Hsplit : total = (zq num_vms + qsum (flat_share n num_vms per <$> seqZ h (n mod num_vms)))%Qc).
  { unfold total. replace n with (h + n mod num_vms)%Z at 2 by lia.
    rewrite seqZ_app by nia. rewrite fmap_app, qsum_app, Hh. done. }
  rewrite Hsplit. split; intros Hr.
  - rewrite Hr. simpl. rewrite qsum_nil. ring.
  - assert (Hpos : (0 < qsum (flat_share n num_vms per <$> seqZ h (n mod num_vms)))%Qc).
    { rewrite seqZ_cons by lia. csimpl. rewrite qsum_cons.
      assert (0 < flat_share n num_vms per h)%Qc by (apply flat_share_pos; nia).
      assert (0 <= qsum (flat_share n num_vms per <$> seqZ (Z.succ h) (Z.pred (n mod num_vms))))%Qc.
      { apply qsum_nonneg, Forall_fmap, Forall_forall. intros i [Hi1 Hi2]%elem_of_seqZ.
        apply Qclt_le_weak, flat_share_pos; nia. }
      qc_lra. }
    qc_lra.
Qed.

(** ** The allocator always returns *)

Section total.
Context (rs : scale xnum) (S B : Qc).
Context (HS : s_cache rs = Num S) (HB : s_mem_bw rs = Num B) (HS0 : (0 <= S)%Qc) (HB0 : (0 <= B)%Qc).
Context (users : list Z) (Husers : users ≠ []).

Lemma assign_equal_total n user al :
  (0 < n)%Z → NoDup (dkeys al) →
  ∃ al', assign_equal rs n user al = Ok al' ∧ NoDup (dkeys al') ∧ user ∈ dkeys al' ∧
    ∀ u, u ∈ dkeys al → u ∈ dkeys al'.
Proof.
  intros Hn Hnd. destruct (equal_units_fit rs S B HS HB HS0 HB0 n Hn) as (x & Hx & _).
  exists (dset al user x). unfold assign_equal. rewrite Hx. split; [done|].
  split; [by apply NoDup_dset|]. setoid_rewrite elem_of_dkeys_dset. auto.
Qed.

Lemma assign_all_total us al :
  NoDup (dkeys al) →
  ∃ al', for_all (assign_equal rs (Z.of_nat (length us))) us al = Ok al' ∧ NoDup (dkeys al') ∧
    (∀ u, u ∈ us → u ∈ dkeys al') ∧ ∀ u, u ∈ dkeys al → u ∈ dkeys al'.
Proof.
  intros Hnd. apply (for_all_cover (λ al, NoDup (dkeys al)) (λ u al, u ∈ dkeys al)); [|done].
  intros u t Hu Ht. apply assign_equal_total; [|done]. destruct us; [set_solver|simpl; lia].
Qed.

Lemma allocate_flat_total num_vms :
  num_vms ≠ 0%Z → returns (allocate_flat rs users num_vms) (λ al, NoDup (dkeys al) ∧ al ≠ []).
Proof.
  intros Hv. unfold allocate_flat, users_per_vm, py_floordiv.
  rewrite (proj2 (Z.eqb_neq _ _)) by done. cbn [mbind res_bind].
  set (n := Z.of_nat (length users)). set (per := Z.max 1 (n / num_vms)).
  destruct (for_all_cover (λ al, NoDup (dkeys al)) (λ p al, p.2 ∈ dkeys al)
    (λ p, assign_equal rs (flat_group_size n num_vms per p.1) p.2) (enumerate users) [])
    as (al & Hr & Hnd & Hall & _).
  - intros [i u] t Hp Ht. unfold enumerate in Hp. apply elem_of_zip_l in Hp as Hi.
    apply elem_of_seqZ in Hi.
    destruct (assign_equal_total (flat_group_size n num_vms per i) u t) as (t' & ? & ? & ? & Hk);
      [apply flat_group_pos; lia|done|]. exists t'. auto.
  - constructor.
  - exists al. split; [done|]. split; [done|]. intros ->.
    destruct users as [|u us]; [done|].
    assert (Hin : (0%Z, u) ∈ enumerate (u :: us)) by (unfold enumerate; rewrite seqZ_cons by (simpl; lia); left).
    apply Hall in Hin. by apply not_elem_of_nil in Hin.
Qed.

Lemma static_total m num_vms :
  num_vms ≠ 0%Z →
  returns (allocate_and_parse rs m users num_vms) (λ al, NoDup (dkeys al) ∧ al ≠ []).
Proof.
  intros Hv. unfold allocate_and_parse. destruct m as [|p m0] eqn:Em; [by apply allocate_flat_total|].
  rewrite <- Em. clear p m0 Em.
  destruct (for_all_cover (λ al, NoDup (dkeys al)) (λ vm al, ∀ u, u ∈ filter_apps vm.2 users → u ∈ dkeys al)
    (allocate_vm rs users) m []) as (al & Hr & Hnd & Hall & _).
  - intros vm t _ Ht. destruct (assign_all_total (filter_apps vm.2 users) t Ht) as (t' & ? & ? & ? & ?).
    exists t'. auto 10.
  - constructor.
  - rewrite Hr. cbn [mbind res_bind].
    destruct (assign_all_total (unassigned_users m users) al Hnd) as (al' & Hr' & Hnd' & Hrest & Hkeep).
    exists al'. split; [exact Hr'|]. split; [done|]. intros ->.
    destruct users as [|u us] eqn:Eu; [done|]. rewrite <- Eu in *.
    assert (Hu : u ∈ users) by (rewrite Eu; left).
    apply (not_elem_of_nil u). change (u ∈ dkeys ([] : dict Z units)).
    destruct (decide (u ∈ mapped_users m)) as [Hin|Hout].
    + unfold mapped_users, dvalues in Hin. apply list_elem_of_In, in_concat in Hin as (apps & Ha & Hx).
      apply list_elem_of_In, list_elem_of_fmap in Ha as (vm & -> & Hvm).
      apply list_elem_of_In in Hx. apply Hkeep, (Hall vm Hvm). by apply list_elem_of_filter.
    + apply Hrest. unfold unassigned_users. rewrite elem_of_remove_dups. by apply list_elem_of_filter.
Qed.
End total.
End Static.
