(* ===== verification/Monitor.v ===== *)
(** * The resource monitor: resource_monitor.py ([MemcachedMindMonitor])

    The monitor buffers the measurements the controller reports, merges them
    once per allocation round into per-application records, and keeps the
    miss-ratio curves, the last usage and a window of recent measurements the
    allocators read. *)

From S2P Require Import Prelude PyDict Nested PyFloat Resources Base.

(** A miss-ratio curve: [[cache size, miss rate]] pairs. *)
Abbreviation mrc_data F := (list (F * F)).

(** One application of [collected_data]. *)
Record app_data (F : Type) := AppData {
  total_record : Z;
  total_datapoint : Z;
  datapoints : dict Z (dict Z (list (F * Z)));   (* cache, bandwidth: (value, timestamp) *)
  last_updated : dict Z (dict Z Z);
  last_update_iteration : Z;
  last_mrc : mrc_data F;
}.
Arguments AppData {F}.
Arguments total_record {F}.
Arguments total_datapoint {F}.
Arguments datapoints {F}.
Arguments last_updated {F}.
Arguments last_update_iteration {F}.
Arguments last_mrc {F}.

(** One entry of [recent_measurement]. *)
Record measurement (F : Type) := Measurement {
  ms_cache_size : Z;
  ms_mem_bw_in_gbps : F;
  ms_perf : F;
}.
Arguments Measurement {F}.
Arguments ms_cache_size {F}.
Arguments ms_mem_bw_in_gbps {F}.
Arguments ms_perf {F}.

Record monitor (F : Type) := MonitorState {
  collected_data : dict Z (app_data F);
  buffered_data : dict Z (dict Z (dict Z (list Z)));
  buffered_mrc : dict Z (dict Z (dict Z (mrc_data F)));
  collection_iteration_count : Z;
  mon_last_allocation : dict Z units;
  last_usage : dict Z (F * F);                   (* cache, mem_bw *)
  num_buffered_data : Z;
  recent_measurement : dict Z (list (list (measurement F)));
  vm_to_app_map : vm_map;
}.
Arguments MonitorState {F}.
Arguments collected_data {F}.
Arguments buffered_data {F}.
Arguments buffered_mrc {F}.
Arguments collection_iteration_count {F}.
Arguments mon_last_allocation {F}.
Arguments last_usage {F}.
Arguments num_buffered_data {F}.
Arguments recent_measurement {F}.
Arguments vm_to_app_map {F}.

(** An entry of the list [buffer_collected_data] is given: every field is read
    with [entry.get], so any of them may be [None]. *)
Record entry (F : Type) := Entry {
  e_app_id : option Z;
  e_cache_size : option Z;
  e_cache_raw : option Z;
  e_bandwidth : option Z;
  e_mem_bw_raw : option Z;
  e_perf : option Z;
  e_mrc : option (mrc_data F);
}.
Arguments Entry {F}.
Arguments e_app_id {F}.
Arguments e_cache_size {F}.
Arguments e_cache_raw {F}.
Arguments e_bandwidth {F}.
Arguments e_mem_bw_raw {F}.
Arguments e_perf {F}.
Arguments e_mrc {F}.

(** One application of the controller's response. *)
Record raw_entry (F : Type) := RawEntry {
  mem_mb : Z;
  bw_mbps : Z;
  cache_mbps : Z;
  access_rate_ops_sec : Z;
  raw_mrc : option (mrc_data F);
}.
Arguments RawEntry {F}.
Arguments mem_mb {F}.
Arguments bw_mbps {F}.
Arguments cache_mbps {F}.
Arguments access_rate_ops_sec {F}.
Arguments raw_mrc {F}.

Definition recent_window : Z := 24.
Definition recent_data_count : Z := 2.

Section Monitor.
Context {F : Type} `{PyFloat F}.
Local Open Scope py_scope.

(** [MemcachedMindMonitor.__init__] *)
Definition new_monitor : monitor F := MonitorState [] [] [] 0 [] [] 0 [] [].

Definition set_buffers bd bm (m : monitor F) : monitor F :=
  MonitorState (collected_data m) bd bm (collection_iteration_count m) (mon_last_allocation m)
    (last_usage m) (num_buffered_data m) (recent_measurement m) (vm_to_app_map m).
Definition set_collected cd (m : monitor F) : monitor F :=
  MonitorState cd (buffered_data m) (buffered_mrc m) (collection_iteration_count m)
    (mon_last_allocation m) (last_usage m) (num_buffered_data m) (recent_measurement m)
    (vm_to_app_map m).
Definition set_usage lu (m : monitor F) : monitor F :=
  MonitorState (collected_data m) (buffered_data m) (buffered_mrc m) (collection_iteration_count m)
    (mon_last_allocation m) lu (num_buffered_data m) (recent_measurement m) (vm_to_app_map m).
Definition set_num_buffered n (m : monitor F) : monitor F :=
  MonitorState (collected_data m) (buffered_data m) (buffered_mrc m) (collection_iteration_count m)
    (mon_last_allocation m) (last_usage m) n (recent_measurement m) (vm_to_app_map m).
Definition set_recent rm (m : monitor F) : monitor F :=
  MonitorState (collected_data m) (buffered_data m) (buffered_mrc m) (collection_iteration_count m)
    (mon_last_allocation m) (last_usage m) (num_buffered_data m) rm (vm_to_app_map m).
Definition set_count n (m : monitor F) : monitor F :=
  MonitorState (collected_data m) (buffered_data m) (buffered_mrc m) n
    (mon_last_allocation m) (last_usage m) (num_buffered_data m) (recent_measurement m)
    (vm_to_app_map m).
Definition set_last_allocation al (m : monitor F) : monitor F :=
  MonitorState (collected_data m) (buffered_data m) (buffered_mrc m) (collection_iteration_count m)
    al (last_usage m) (num_buffered_data m) (recent_measurement m) (vm_to_app_map m).
Definition set_vm_map vm (m : monitor F) : monitor F :=
  MonitorState (collected_data m) (buffered_data m) (buffered_mrc m) (collection_iteration_count m)
    (mon_last_allocation m) (last_usage m) (num_buffered_data m) (recent_measurement m) vm.

(** ** Smoothing *)

Definition ewma_alpha : F := lit 95 100.

Definition smooth (alpha old new : F) : F := alpha * new + (lit 1 1 - alpha) * old.

(** [np.array_equal] of the first columns *)
Definition same_keys (old new : mrc_data F) : bool :=
  bool_decide (length old = length new) &&
  forallb (λ p : F * F, feqb p.1 p.2) (zip old.*1 new.*1).

(** [_weighted_update_list] *)
Definition weighted_update_list (old new : mrc_data F) : mrc_data F :=
  match new with
  | [] => old
  | _ =>
      let old := match old with [] => (λ p : F * F, (p.1, lit 0 1)) <$> new | _ => old end in
      if same_keys old new then
        zip_with (λ o n : F * F, (o.1, smooth ewma_alpha o.2 n.2)) old new
      else old
  end.

(** [_weighted_update_value] on values that are not [None] *)
Definition weighted_update_value (old new : F) : F := smooth ewma_alpha old new.

(** ** Buffering *)

Record point := Point {
  pt_cache : Z;
  pt_mem_bw : Z;
  pt_perf : Z;
  pt_cache_raw : Z;
  pt_mem_bw_raw : Z;
}.

(** The checks of one entry (lines 279-332): [None] when the entry is
    skipped, an exception where a comparison or an assertion fails (the
    enclosing [try] logs it and goes on). *)
Definition entry_point (use_raw : bool) (raw_rounded : Z) (verification_th : F) (e : entry F)
    : res (option point) :=
  let no_raw := if use_raw then AssertionError else TypeError in
  match e_cache_size e with
  | None => Ok None
  | Some cache_alloc =>
      cache_raw ← or_raise no_raw (e_cache_raw e);
      if of_Z cache_raw >? of_Z cache_alloc * (lit 1 1 + verification_th) then Ok None else
      let cache_raw := Z.min cache_alloc cache_raw in
      match e_bandwidth e with
      | None => Ok None
      | Some bw_alloc =>
          bw_raw ← or_raise no_raw (e_mem_bw_raw e);
          if of_Z bw_raw >? of_Z bw_alloc * (lit 1 1 + verification_th) then Ok None else
          let bw_raw := Z.min bw_alloc bw_raw in
          match e_perf e with
          | None => Ok None
          | Some perf =>
              if use_raw then
                c ← py_floordiv cache_raw raw_rounded;
                b ← py_floordiv bw_raw raw_rounded;
                Ok (Some (Point (c * raw_rounded)%Z (b * raw_rounded)%Z perf cache_raw bw_raw))
              else Ok (Some (Point cache_alloc bw_alloc perf cache_raw bw_raw))
          end
      end
  end.

(** [last_usage[user]] after a new measurement *)
Definition update_usage (user : Z) (pt : point) (m : monitor F) : monitor F :=
  let cache := of_Z (pt_cache_raw pt) in
  let bw := of_Z (pt_mem_bw_raw pt) in
  set_usage (dset (last_usage m) user
    (match dget (last_usage m) user with
     | None => (cache, bw)
     | Some (oc, ob) => (weighted_update_value oc cache, weighted_update_value ob bw)
     end)) m.

(** The rest of the entry's processing (lines 333-368). *)
Definition buffer_point (user : Z) (pt : point) (mrc : option (mrc_data F)) (m : monitor F)
    : monitor F :=
  let c := pt_cache pt in
  let b := pt_mem_bw pt in
  let bd := at3 [] user c b id (buffered_data m) in
  let bm := at3 [] user c b id (buffered_mrc m) in
  if bool_decide (last (default [] (get3 bd user c b)) = Some (pt_perf pt)) then set_buffers bd bm m
  else
    let bd := at3 [] user c b (λ l, l ++ [pt_perf pt]) bd in
    match mrc with
    | None | Some [] => set_buffers bd bm m
    | Some curve =>
        let bm := at3 [] user c b (λ old, weighted_update_list old curve) bm in
        update_usage user pt (set_buffers bd bm m)
    end.

Definition buffer_entry (use_raw : bool) (raw_rounded : Z) (verification_th : F) (e : entry F)
    (m : monitor F) : monitor F :=
  match e_app_id e with
  | None => m
  | Some user =>
      match entry_point use_raw raw_rounded verification_th e with
      | Ok (Some pt) => buffer_point user pt (e_mrc e) m
      | Ok None | Err _ => m
      end
  end.

(** [buffer_collected_data]; [interval] is [allocation_interval_in_sec]. *)
Definition buffer_collected_data (interval : Z) (data : list (entry F)) (use_raw : bool)
    (raw_rounded skip_noise_after_alloc : Z) (verification_th : F) (m : monitor F) : monitor F :=
  match data with
  | [] => m
  | _ =>
      let m := set_num_buffered (num_buffered_data m + 1)%Z m in
      if (num_buffered_data m <=? skip_noise_after_alloc)%Z &&
         ((interval <? 0)%Z || (skip_noise_after_alloc * 5 * 2 <? interval)%Z)
      then m
      else foldl (λ m e, buffer_entry use_raw raw_rounded verification_th e m) m data
  end.

(** ** Consuming *)

(** [statistics.median] of a list of integers, 0 for an empty list. *)
Definition median_perf (l : list Z) : F :=
  match merge_sort Z.le l with
  | [] => of_Z 0
  | s =>
      let n := length s in
      if Nat.odd n then of_Z (nth (n / 2) s 0%Z)
      else fquot (of_Z (nth (n / 2 - 1) s 0 + nth (n / 2) s 0)%Z) (of_Z 2)
  end.

Definition push_recent (old : list (list (measurement F))) (new : list (measurement F))
    : list (list (measurement F)) :=
  (if (recent_window <? Z.of_nat (length old))%Z then tail old else old) ++ [new].

Definition new_measurements (user_data : dict Z (dict Z (list Z))) : list (measurement F) :=
  (λ t : Z * Z * list Z,
     Measurement t.1.1 (fquot (of_Z t.1.2) (lit 1024 1)) (median_perf t.2)) <$> flat2 user_data.

(** [_update_recent_measurement] *)
Definition update_recent_measurement (m : monitor F) : monitor F :=
  set_recent
    (foldl (λ rm p, at_key [] p.1 (λ old, push_recent old (new_measurements p.2)) rm)
       (recent_measurement m) (buffered_data m)) m.

Definition empty_app : app_data F := AppData 0 0 [] [] 0 [].

(** One measured (cache, bandwidth) pair of one application (lines 417-454). *)
Definition consume_point (user cache_size mem_bw : Z) (perf_list : list Z) (m : monitor F)
    : res (monitor F) :=
  let median := median_perf perf_list in
  let count := collection_iteration_count m in
  let ad := default empty_app (dget (collected_data m) user) in
  let '(dp, lu, is_new) :=
    if dmem (datapoints ad) cache_size then (datapoints ad, last_updated ad, false)
    else (dset (datapoints ad) cache_size [], dset (last_updated ad) cache_size [], true) in
  cache_data ← dgetE dp cache_size;
  '(dp, lu, is_new) ←
    (if dmem cache_data mem_bw then Ok (dp, lu, is_new)
     else
       lu_c ← dgetE lu cache_size;
       Ok (dset dp cache_size (dset cache_data mem_bw []),
           dset lu cache_size (dset lu_c mem_bw 0%Z), true));
  cache_data ← dgetE dp cache_size;
  records ← dgetE cache_data mem_bw;
  lu_c ← dgetE lu cache_size;
  mrc_u ← dgetE (buffered_mrc m) user;
  mrc_c ← dgetE mrc_u cache_size;
  mrc ← dgetE mrc_c mem_bw;
  Ok (set_collected (dset (collected_data m) user
    (AppData (total_record ad + 1)%Z
             (total_datapoint ad + if (is_new : bool) then 1 else 0)%Z
             (dset dp cache_size (dset cache_data mem_bw (records ++ [(median, count)])))
             (dset lu cache_size (dset lu_c mem_bw count))
             (last_update_iteration ad) mrc)) m).

Definition stamp_user (user : Z) (m : monitor F) : monitor F :=
  match dget (collected_data m) user with
  | None => m
  | Some ad =>
      set_collected (dset (collected_data m) user
        (AppData (total_record ad) (total_datapoint ad) (datapoints ad) (last_updated ad)
           (collection_iteration_count m) (last_mrc ad))) m
  end.

Definition consume_user (p : Z * dict Z (dict Z (list Z))) (m : monitor F) : res (monitor F) :=
  m ← for_all (λ q : Z * dict Z (list Z), for_all (λ r : Z * list Z, consume_point p.1 q.1 r.1 r.2) q.2)
       p.2 m;
  Ok (stamp_user p.1 m).

(** [comsume_collected_data] *)
Definition consume_collected_data (m : monitor F) : res (monitor F) :=
  let m := set_count (collection_iteration_count m + 1)%Z m in
  let m := update_recent_measurement m in
  m ← for_all consume_user (buffered_data m) m;
  Ok (set_num_buffered 0 (set_buffers [] (buffered_mrc m) m)).

(** ** The controller's response *)

(** One application of the response as an entry: the deployed allocation
    replaces the reported one (lines 495-533). *)
Definition log_entry (use_bw_as_perf : bool) (allocation : dict Z units) (app_id : Z)
    (r : raw_entry F) : entry F :=
  let '(cache, bw) :=
    match dget allocation app_id with
    | Some u => (u_cache u, u_mem_bw u)
    | None => (mem_mb r, bw_mbps r)
    end in
  Entry (Some app_id) (Some cache) (Some (mem_mb r)) (Some bw) (Some (bw_mbps r))
    (Some (if use_bw_as_perf then cache_mbps r else access_rate_ops_sec r)) (raw_mrc r).

(** [parse_log_entries] on the decoded response. *)
Definition parse_log_entries (use_bw_as_perf : bool) (response : dict Z (dict Z (raw_entry F)))
    (m : monitor F) : list (entry F) * monitor F :=
  let vm := (λ p : Z * dict Z (raw_entry F), (p.1, dkeys p.2)) <$> response in
  (response ≫= λ p, (λ q, log_entry use_bw_as_perf (mon_last_allocation m) q.1 q.2) <$> p.2,
   set_vm_map vm m).

(** [collect]: [None] for a failed request or an empty response. *)
Definition collect (interval : Z) (verification_th : F)
    (response : option (dict Z (dict Z (raw_entry F)))) (m : monitor F) : monitor F :=
  match response with
  | None => m
  | Some r =>
      let '(data, m) := parse_log_entries true r m in
      buffer_collected_data interval data false 8 1 verification_th m
  end.

(** ** Resetting *)

(** [if app in d: d[app] = v] *)
Definition clear_key {V} (app : Z) (v : V) (d : dict Z V) : dict Z V :=
  if dmem d app then dset d app v else d.

(** [reset_metrics_for_app]: the new state and whether anything was reset. *)
Definition reset_metrics_for_app (app : Z) (m : monitor F) : monitor F * bool :=
  (MonitorState
     (clear_key app (AppData 0 0 [] [] (collection_iteration_count m) []) (collected_data m))
     (clear_key (V := dict Z (dict Z (list Z))) app [] (buffered_data m))
     (clear_key (V := dict Z (dict Z (mrc_data F))) app [] (buffered_mrc m))
     (collection_iteration_count m) (mon_last_allocation m)
     (clear_key app (of_Z 0, of_Z 0) (last_usage m))
     (num_buffered_data m)
     (clear_key app [] (recent_measurement m))
     (vm_to_app_map m),
   dmem (collected_data m) app || dmem (buffered_data m) app || dmem (buffered_mrc m) app ||
   dmem (last_usage m) app || dmem (recent_measurement m) app).

(** ** Readers *)

Definition get_last_mrc (m : monitor F) (user : Z) : mrc_data F :=
  match dget (collected_data m) user with Some ad => last_mrc ad | None => [] end.

Definition get_last_usage (m : monitor F) (user : Z) : option (F * F) := dget (last_usage m) user.

Definition get_num_datapoints (m : monitor F) (user : Z) : Z :=
  match dget (collected_data m) user with Some ad => total_datapoint ad | None => 0 end.

Definition get_app_ids (m : monitor F) : list Z := dkeys (collected_data m).

Definition get_apps_for_vm (m : monitor F) (vm : Z) : list Z :=
  default [] (dget (vm_to_app_map m) vm).

(** [collected_data[user]["total_record"]], [None] for an absent user: what
    the Spirit allocator asks before leaving the static phase. *)
Definition total_record_of (m : monitor F) (user : Z) : option Z :=
  total_record <$> dget (collected_data m) user.

(** The values of the records that pass [keep], by cache size and bandwidth. *)
Definition values_of (keep : Z → bool) (dp : dict Z (dict Z (list (F * Z))))
    (acc : dict Z (dict Z (list F))) : dict Z (dict Z (list F)) :=
  foldl (λ acc t,
    foldl (λ acc rec,
      if keep rec.2 then at2 [] t.1.1 t.1.2 (λ l, l ++ [rec.1]) acc
      else at_key [] t.1.1 id acc) acc t.2) acc (flat2 dp).

(** The ["datapoints"] of [get_datapoints_base] *)
Definition get_datapoints_base (m : monitor F) (user : Z) : res (dict Z (dict Z (list F))) :=
  ad ← or_raise AssertionError (dget (collected_data m) user);
  Ok (values_of (λ _, true) (datapoints ad) []).

Definition get_datapoints_with_memory_limit (m : monitor F) (user memory_limit : Z)
    : res (dict Z (dict Z (list F))) :=
  ad ← dgetE (collected_data m) user;
  Ok (values_of (λ t, negb (t <? last_update_iteration ad - memory_limit)%Z) (datapoints ad) []).

(** [collect_recent_measurement]: keyed by the float bandwidth in Gbps. *)
Definition collect_recent_measurement (m : monitor F) (user : Z) : dict Z (dict F (list F)) :=
  match dget (recent_measurement m) user with
  | None => []
  | Some window =>
      foldl (λ acc e,
        at_key [] (ms_cache_size e)
          (at_key [] (ms_mem_bw_in_gbps e) (λ l, l ++ [ms_perf e])) acc) [] (concat window)
  end.

Definition get_num_recent_data (m : monitor F) (user : Z) : Z :=
  match dget (recent_measurement m) user with
  | None => 0
  | Some window =>
      Z.of_nat (length (remove_dups
        ((λ e, (ms_cache_size e, ms_mem_bw_in_gbps e)) <$> concat window)))
  end.

(** [has_enough_data]: measurements of the recent window at the rounded
    allocation, at least [recent_data_count] of them. *)
Definition has_enough_data (m : monitor F) (user cache_in_mb mem_bw_in_mbps : Z) : res bool :=
  let raw_rounded := 8%Z in
  let cache_rounded := (cache_in_mb / raw_rounded * raw_rounded)%Z in
  let mem_bw_rounded := (mem_bw_in_mbps / raw_rounded * raw_rounded)%Z in
  match dget (recent_measurement m) user with
  | None => Ok false
  | Some window =>
      data_cnt ← for_all (λ e cnt,
        if (ms_cache_size e =? cache_rounded)%Z then
          bw ← trunc (ms_mem_bw_in_gbps e);
          Ok (if (bw =? mem_bw_rounded)%Z then cnt + 1 else cnt)%Z
        else Ok cnt) (concat window) 0%Z;
      Ok (2 <=? data_cnt)%Z
  end.
End Monitor.
