(* ===== verification/MonitorFacts.v ===== *)
(** * The monitor's invariant

    Every sequence of whole calls (collections of decoded answers,
    consumptions, resets and allocation updates) keeps the buffers and the
    per-application records consistent; after such a sequence a consumption
    that no reset interrupts returns, and adds exactly one record per buffered
    pair.  A reset that falls into a consumption makes it raise. *)

From S2P Require Import Prelude PyDict Nested PyFloat Resources Base Monitor.

Section facts.
Context {F : Type} `{PyFloat F}.
Implicit Types (m : monitor F) (ad : app_data F) (cd : dict Z (app_data F)).

(** ** One application's records *)

(** The counters count, and [last_updated] is the time of the last record. *)
Record app_ok ad : Prop := {
  ao_keys : ∀ c, dmem (last_updated ad) c = dmem (datapoints ad) c;
  ao_records : total_record ad = sum2 (λ l, Z.of_nat (length l)) (datapoints ad);
  ao_pairs : total_datapoint ad = npairs (datapoints ad);
  ao_times : ∀ c b, get2 (last_updated ad) c b = get2 (datapoints ad) c b ≫= λ l, snd <$> last l;
  ao_filled : ∀ c b, get2 (datapoints ad) c b ≠ Some [];
}.

(** The records of application [u] at a cache size and a bandwidth. *)
Definition records cd (u c b : Z) : list (F * Z) :=
  default [] (dget cd u ≫= λ ad, get2 (datapoints ad) c b).

Definition app_of cd (u : Z) : app_data F := default empty_app (dget cd u).

Lemma app_ok_empty t (r : mrc_data F) : app_ok (AppData 0 0 [] [] t r).
Proof. by split. Qed.

Definition all_ok cd : Prop := ∀ u ad, dget cd u = Some ad → app_ok ad.

Lemma app_of_ok cd u : all_ok cd → app_ok (app_of cd u).
Proof.
  intros Hcd. unfold app_of. destruct (dget cd u) eqn:E; simpl; [by eapply Hcd|].
  apply app_ok_empty.
Qed.

Lemma records_app_of cd u c b : records cd u c b = default [] (get2 (datapoints (app_of cd u)) c b).
Proof. unfold records, app_of. by destruct (dget cd u). Qed.

(** What one measured pair does to an application. *)
Definition add_record (c b : Z) (x : F * Z) (mrc : mrc_data F) ad : app_data F :=
  AppData (total_record ad + 1)
    (total_datapoint ad + match get2 (datapoints ad) c b with Some _ => 0 | None => 1 end)
    (at2 [] c b (λ l, l ++ [x]) (datapoints ad))
    (at2 0%Z c b (λ _, x.2) (last_updated ad))
    (last_update_iteration ad) mrc.

Lemma add_record_ok c b x mrc ad : app_ok ad → app_ok (add_record c b x mrc ad).
Proof.
  intros [Hk Hr Hp Ht Hf]. split; simpl.
  - intros c'. unfold at2, at_key. by rewrite !dmem_dset, Hk.
  - rewrite sum2_at2, Hr by done. rewrite length_app. simpl. lia.
  - rewrite npairs_at2, Hp. done.
  - intros c' b'. rewrite !get2_at2. case_decide; [|apply Ht]. simpl. by rewrite last_snoc.
  - intros c' b'. rewrite get2_at2. case_decide; [|apply Hf]. intros [= Hl].
    by apply app_nil in Hl as [_ [=]].
Qed.

Lemma consume_point_eq u c b l m mrc :
  app_ok (app_of (collected_data m) u) → get3 (buffered_mrc m) u c b = Some mrc →
  consume_point u c b l m =
    Ok (set_collected (dset (collected_data m) u
      (add_record c b (median_perf l, collection_iteration_count m) mrc
         (app_of (collected_data m) u))) m).
Proof.
  intros [Hk _ _ _ _] Hm. unfold consume_point. fold (app_of (collected_data m) u).
  set (ad := app_of (collected_data m) u) in *. specialize (Hk c).
  unfold get3, get2 in Hm. destruct (dget (buffered_mrc m) u) as [mu|] eqn:E1; [|done].
  simpl in Hm. destruct (dget mu c) as [mc|] eqn:E2; [|done]. simpl in Hm.
  unfold dgetE. rewrite E1. simpl. rewrite E2. simpl. rewrite Hm.
  unfold add_record, at2, at_key, get2, dmem in *. simpl.
  destruct (dget (datapoints ad) c) as [dc|] eqn:E3, (dget (last_updated ad) c) as [lc|] eqn:E4;
    try done; simpl.
  1: destruct (dget dc b) as [rec|] eqn:E5.
  all: repeat (progress (rewrite ?E3, ?E4, ?E5, ?dget_dset_eq; simpl)).
  all: repeat (rewrite (decide_True (P := b = b)) by done; simpl); by rewrite ?dset_dset.
Qed.

(** ** The loops of [comsume_collected_data] *)

Lemma records_dset cd u u' ad c b :
  records (dset cd u ad) u' c b =
    if decide (u = u') then default [] (get2 (datapoints ad) c b) else records cd u' c b.
Proof. unfold records. rewrite dget_dset. by case_decide. Qed.

Lemma records_add cd u c b x mrc u' c' b' :
  records (dset cd u (add_record c b x mrc (app_of cd u))) u' c' b' =
    records cd u' c' b' ++ if decide (u = u' ∧ c = c' ∧ b = b') then [x] else [].
Proof.
  rewrite records_dset. destruct (decide (u = u')) as [<-|Hu].
  - rewrite records_app_of. simpl. rewrite get2_at2.
    destruct (decide (c = c' ∧ b = b')) as [[<- <-]|Hcb]; simpl.
    + by rewrite decide_True by done.
    + rewrite decide_False by tauto. by rewrite app_nil_r.
  - rewrite decide_False by tauto. by rewrite app_nil_r.
Qed.

Lemma all_ok_dset cd u ad : all_ok cd → app_ok ad → all_ok (dset cd u ad).
Proof. intros Hcd Had u' ad'. rewrite dget_dset. case_decide; [by intros [= <-]|apply Hcd]. Qed.

(** The record a buffered list of measurements becomes. *)
Definition new_record (count : Z) (l : list Z) : F * Z := (median_perf l, count).

Lemma consume_points u pts m :
  all_ok (collected_data m) →
  (∀ c b l, (c, b, l) ∈ pts → is_Some (get3 (buffered_mrc m) u c b)) →
  ∃ cd, for_all (λ t, consume_point u t.1.1 t.1.2 t.2) pts m = Ok (set_collected cd m) ∧
    all_ok cd ∧
    (∀ v c b, records cd v c b = records (collected_data m) v c b ++
      if decide (u = v) then new_record (collection_iteration_count m) <$> found pts c b else []).
Proof.
  revert m. induction pts as [|[[c b] l] pts IH]; intros m Hok Hm.
  { exists (collected_data m). split; [by destruct m|]. split; [done|].
    intros v c b. simpl. case_decide; by rewrite app_nil_r. }
  destruct (Hm c b l) as [mrc Hmrc]; [left|].
  set (x := new_record (collection_iteration_count m) l).
  set (m1 := set_collected (dset (collected_data m) u
    (add_record c b x mrc (app_of (collected_data m) u))) m).
  destruct (IH m1) as (cd & Hr & Hcd & Hrec).
  { by apply all_ok_dset, add_record_ok, app_of_ok. }
  { intros c' b' l' Hin. apply (Hm c' b' l'). by right. }
  exists cd. split; [|split; [done|]].
  - simpl. by rewrite (consume_point_eq u c b l m mrc (app_of_ok _ _ Hok) Hmrc).
  - intros v c' b'. rewrite Hrec. simpl. rewrite records_add, <- app_assoc. f_equal.
    unfold found. csimpl. destruct (decide (u = v)) as [<-|Hv].
    + destruct (decide (c = c' ∧ b = b')) as [Hcb|Hcb].
      * rewrite decide_True by tauto. done.
      * rewrite decide_False by tauto. done.
    + rewrite decide_False by tauto. done.
Qed.

Lemma stamp_user_ok u m :
  all_ok (collected_data m) →
  ∃ cd, stamp_user u m = set_collected cd m ∧ all_ok cd ∧
    ∀ v c b, records cd v c b = records (collected_data m) v c b.
Proof.
  intros Hok. unfold stamp_user. destruct (dget (collected_data m) u) as [ad|] eqn:E.
  - eexists. split; [reflexivity|]. split.
    + apply all_ok_dset; [done|]. destruct (Hok u ad E). by split.
    + intros v c b. rewrite records_dset. case_decide; [|done]. subst. unfold records. by rewrite E.
  - exists (collected_data m). split; [by destruct m|]. done.
Qed.

Lemma consume_users bd m :
  all_ok (collected_data m) → wf3 bd →
  (∀ u c b l, get3 bd u c b = Some l → is_Some (get3 (buffered_mrc m) u c b)) →
  ∃ cd, for_all consume_user bd m = Ok (set_collected cd m) ∧ all_ok cd ∧
    ∀ u c b, records cd u c b = records (collected_data m) u c b ++
      (new_record (collection_iteration_count m) <$> option_list (get3 bd u c b)).
Proof.
  revert m. induction bd as [|[u ud] bd IH]; intros m Hok [Hnd Hwf] Hm.
  { exists (collected_data m). split; [by destruct m|]. split; [done|].
    intros u c b. simpl. by rewrite app_nil_r. }
  rewrite dkeys_cons in Hnd. apply NoDup_cons in Hnd as [Hu Hnd].
  apply dget_None_keys in Hu.
  assert (Hud : wf2 ud) by (apply (Hwf u); simpl; by rewrite decide_True).
  destruct (consume_points u (flat2 ud) m Hok) as (cd & Hr & Hcd & Hrec).
  { intros c b l Hl. apply (Hm u c b l). unfold get3. simpl. rewrite decide_True by done. simpl.
    apply elem_of_found in Hl. rewrite found_flat2 in Hl by done.
    destruct (get2 ud c b); set_solver. }
  destruct (stamp_user_ok u (set_collected cd m) Hcd) as (cd1 & Hst & Hcd1 & Hrec1).
  destruct (IH (set_collected cd1 m)) as (cd2 & Hr2 & Hcd2 & Hrec2).
  { done. }
  { split; [done|]. intros v e He. apply (Hwf v). simpl. rewrite decide_False; [done|]. congruence. }
  { intros v c b l Hl. apply (Hm v c b l). unfold get3 in *. simpl. rewrite decide_False; [done|].
    intros ->. by rewrite Hu in Hl. }
  exists cd2. split; [|split; [done|]].
  - assert (Hcu : consume_user (u, ud) m = Ok (set_collected cd1 m)).
    { unfold consume_user. change ((u, ud).1) with u. change ((u, ud).2) with ud.
      rewrite (for_all_flat2 (consume_point u)), Hr. cbn [mbind res_bind]. by rewrite Hst. }
    simpl. rewrite Hcu. exact Hr2.
  - intros v c b. rewrite Hrec2. simpl. rewrite Hrec1. simpl. rewrite Hrec, <- app_assoc. f_equal.
    unfold get3. simpl. destruct (decide (u = v)) as [<-|Hv].
    + rewrite decide_True by done. simpl. rewrite found_flat2 by done. unfold get3. rewrite Hu.
      simpl. by rewrite app_nil_r.
    + rewrite decide_False by done. done.
Qed.

(** ** The invariant *)

(** No measurement repeats the one before it. *)
Definition no_repeat (l : list Z) : Prop := ∀ i x, l !! i = Some x → l !! S i ≠ Some x.

Lemma no_repeat_snoc l x : no_repeat l → last l ≠ Some x → no_repeat (l ++ [x]).
Proof.
  intros Hl Hx i y Hi Hy. rewrite last_lookup in Hx.
  apply lookup_app_Some in Hy as [Hy|[Hlen Hy]].
  - apply (Hl i y); [|done]. rewrite lookup_app_l in Hi; [done|].
    apply lookup_lt_Some in Hy. lia.
  - apply list_lookup_singleton_Some in Hy as [Hz ->].
    assert (Hlen' : length l = S i) by lia. rewrite Hlen' in Hx. simpl in Hx.
    rewrite lookup_app_l in Hi by lia. done.
Qed.

Record buffers_ok m : Prop := {
  bo_wf : wf3 (buffered_data m);
  bo_mrc : ∀ u c b l, get3 (buffered_data m) u c b = Some l → is_Some (get3 (buffered_mrc m) u c b);
  bo_perf : ∀ u c b l, get3 (buffered_data m) u c b = Some l → l ≠ [] ∧ no_repeat l;
}.

Definition times_ok (count : Z) cd : Prop :=
  ∀ u c b, StronglySorted Z.lt (records cd u c b).*2 ∧
           Forall (λ t, t <= count)%Z (records cd u c b).*2.

Definition window_ok (rm : dict Z (list (list (measurement F)))) : Prop :=
  ∀ u w, dget rm u = Some w → (Z.of_nat (length w) <= recent_window + 1)%Z.

Record mon_ok m : Prop := {
  mo_buffers : buffers_ok m;
  mo_apps : all_ok (collected_data m);
  mo_times : times_ok (collection_iteration_count m) (collected_data m);
  mo_window : window_ok (recent_measurement m);
}.

Lemma mon_ok_new : mon_ok new_monitor.
Proof.
  split; [split; [apply wf3_nil|done|done]|by intros u ad|intros u c b; split; constructor|by intros u w].
Qed.

(** ** Buffering *)

Lemma buffers_ok_set bd bm m :
  buffers_ok (set_buffers bd bm m) ↔
  wf3 bd ∧ (∀ u c b l, get3 bd u c b = Some l → is_Some (get3 bm u c b)) ∧
  (∀ u c b l, get3 bd u c b = Some l → l ≠ [] ∧ no_repeat l).
Proof. split; [by intros [? ? ?]|intros (? & ? & ?); by split]. Qed.

Lemma buffer_point_ok u pt mrc m : buffers_ok m → buffers_ok (buffer_point u pt mrc m).
Proof.
  intros [Hwf Hm Hp]. unfold buffer_point.
  set (c := pt_cache pt). set (b := pt_mem_bw pt).
  set (bd := at3 [] u c b id (buffered_data m)). set (bm := at3 [] u c b id (buffered_mrc m)).
  assert (Hbm : ∀ u' c' b' f, (u = u' ∧ c = c' ∧ b = b') ∨ is_Some (get3 (buffered_mrc m) u' c' b') →
    is_Some (get3 (at3 [] u c b f bm) u' c' b') ∧ is_Some (get3 bm u' c' b')).
  { intros u' c' b' f Hor. unfold bm. rewrite !get3_at3. case_decide; [by eauto|].
    destruct Hor as [?|?]; [done|by eauto]. }
  assert (Hbd : default [] (get3 bd u c b) = default [] (get3 (buffered_data m) u c b)).
  { unfold bd. rewrite get3_at3. by rewrite decide_True. }
  case_bool_decide as Hlast.
  - rewrite Hbd in Hlast. apply buffers_ok_set.
    assert (Hget : ∀ u' c' b' l, get3 bd u' c' b' = Some l → get3 (buffered_data m) u' c' b' = Some l).
    { intros u' c' b' l. unfold bd. rewrite get3_at3. case_decide as Hd; [|done].
      destruct Hd as (<- & <- & <-). destruct (get3 (buffered_data m) u c b); [done|].
      by intros [= <-]. }
    split; [by apply wf3_at3|]. split; intros u' c' b' l Hl%Hget; [|by eapply Hp].
    apply (Hbm u' c' b' id). right. by eapply Hm.
  - assert (Hbuf : ∀ bm', (∀ u' c' b', (u = u' ∧ c = c' ∧ b = b') ∨ is_Some (get3 (buffered_mrc m) u' c' b') →
        is_Some (get3 bm' u' c' b')) →
      buffers_ok (set_buffers (at3 [] u c b (λ l, l ++ [pt_perf pt]) bd) bm' m)).
    { intros bm' Hbm'. apply buffers_ok_set. split; [by do 2 apply wf3_at3|].
      split; intros u' c' b' l; rewrite get3_at3; case_decide as Hd.
      - intros _. apply Hbm'. by left.
      - unfold bd. rewrite get3_at3, decide_False by done. intros Hl. apply Hbm'. right. by eapply Hm.
      - rewrite Hbd in *. intros [= <-]. split; [by intros [_ [=]]%app_nil|].
        apply no_repeat_snoc; [|done]. destruct (get3 (buffered_data m) u c b) eqn:E; simpl; [by eapply Hp|].
        by intros i x.
      - unfold bd. rewrite get3_at3, decide_False by done. apply Hp. }
    destruct mrc as [[|p curve]|]; [apply Hbuf|unfold update_usage|apply Hbuf].
    1, 3: intros u' c' b' Hor; by apply (Hbm u' c' b' id).
    destruct (Hbuf (at3 [] u c b (λ old, weighted_update_list old (p :: curve)) bm)) as [? ? ?].
    { intros u' c' b' Hor. by apply Hbm. }
    by split.
Qed.

(** What buffering leaves alone. *)
Definition same_records m m' : Prop :=
  collected_data m' = collected_data m ∧ recent_measurement m' = recent_measurement m ∧
  collection_iteration_count m' = collection_iteration_count m.

Lemma buffer_point_same u pt mrc m : same_records m (buffer_point u pt mrc m).
Proof. unfold buffer_point. repeat case_match; by split. Qed.

Lemma buffer_entry_ok ur rr th e m :
  buffers_ok m → buffers_ok (buffer_entry ur rr th e m) ∧ same_records m (buffer_entry ur rr th e m).
Proof.
  intros Hm. unfold buffer_entry. repeat case_match; try by split.
  split; [by apply buffer_point_ok|apply buffer_point_same].
Qed.

Lemma buffer_collected_data_ok interval data ur rr sk th m :
  mon_ok m → mon_ok (buffer_collected_data interval data ur rr sk th m).
Proof.
  intros Hok. unfold buffer_collected_data. destruct data as [|e data]; [done|].
  set (m0 := set_num_buffered _ m).
  assert (H0 : buffers_ok m0 ∧ same_records m m0) by (destruct Hok as [[? ? ?] ? ? ?]; split; by split).
  assert (Hgen : ∀ l m1, buffers_ok m1 ∧ same_records m m1 →
    buffers_ok (foldl (λ m e, buffer_entry ur rr th e m) m1 l) ∧
    same_records m (foldl (λ m e, buffer_entry ur rr th e m) m1 l)).
  { induction l as [|x l IH]; intros m1 [Hb Hs]; [done|]. simpl. apply IH.
    destruct (buffer_entry_ok ur rr th x m1 Hb) as [? (E1 & E2 & E3)]. split; [done|].
    destruct Hs as (? & ? & ?). repeat split; congruence. }
  assert (Hfin : ∀ m1, buffers_ok m1 ∧ same_records m m1 → mon_ok m1).
  { intros m1 [Hb (E1 & E2 & E3)]. destruct Hok as [_ Ha Ht Hw].
    split; [done|by rewrite E1|by rewrite E1, E3|by rewrite E2]. }
  case_match; apply Hfin; [done|]. by apply (Hgen (e :: data)).
Qed.

(** ** Consuming *)

Lemma update_recent_frame m :
  update_recent_measurement m = set_recent (recent_measurement (update_recent_measurement m)) m.
Proof. done. Qed.

Lemma push_recent_window old new :
  (Z.of_nat (length old) <= recent_window + 1)%Z →
  (Z.of_nat (length (push_recent (F := F) old new)) <= recent_window + 1)%Z.
Proof.
  intros Hold. unfold push_recent. rewrite length_app. simpl.
  unfold recent_window in *. case_match eqn:E; [|apply Z.ltb_ge in E; lia]. destruct old; simpl in *; lia.
Qed.

Lemma update_recent_window m :
  window_ok (recent_measurement m) → window_ok (recent_measurement (update_recent_measurement m)).
Proof.
  unfold update_recent_measurement. simpl. generalize (recent_measurement m).
  induction (buffered_data m) as [|[u ud] bd IH]; intros rm Hrm; [done|]. simpl. apply IH.
  intros u' w. rewrite dget_at_key. case_decide; [|apply Hrm]. intros [= <-].
  apply push_recent_window. destruct (dget rm u) eqn:E; simpl; [by eapply Hrm|].
  unfold recent_window. lia.
Qed.

(** The pointwise effect of a consumption: one record per buffered pair, with
    the time of this consumption, and nothing else. *)
Lemma consume_spec m :
  mon_ok m →
  ∃ m', consume_collected_data m = Ok m' ∧ mon_ok m' ∧
    collection_iteration_count m' = (collection_iteration_count m + 1)%Z ∧
    buffered_data m' = [] ∧ mon_last_allocation m' = mon_last_allocation m ∧
    ∀ u c b, records (collected_data m') u c b = records (collected_data m) u c b ++
      (new_record (collection_iteration_count m') <$> option_list (get3 (buffered_data m) u c b)).
Proof.
  intros [[Hwf Hm Hp] Ha Ht Hw]. unfold consume_collected_data.
  set (m1 := update_recent_measurement _).
  destruct (consume_users (buffered_data m1) m1) as (cd & Hr & Hcd & Hrec); try done.
  rewrite Hr. simpl. eexists. split; [reflexivity|]. simpl.
  split; [|split; [done|split; [done|split; [done|exact Hrec]]]].
  split; simpl; [split; [apply wf3_nil|done|done]|done| |by apply update_recent_window].
  intros u c b. rewrite Hrec. simpl. destruct (Ht u c b) as [Hs Hb].
  assert (Hb' : Forall (λ t, t < collection_iteration_count m + 1)%Z (records (collected_data m) u c b).*2).
  { eapply Forall_impl; [exact Hb|]. intros t Hle. simpl in Hle. lia. }
  rewrite fmap_app. split.
  - apply StronglySorted_app_2; [|done|].
    + intros t t' Hin Hin'. rewrite Forall_forall in Hb'. specialize (Hb' t Hin).
      destruct (get3 (buffered_data m) u c b); simpl in Hin'; [|set_solver].
      apply list_elem_of_singleton in Hin' as ->. done.
    + destruct (get3 (buffered_data m) u c b); simpl; repeat constructor.
  - apply Forall_app. split; [eapply Forall_impl; [exact Hb'|]; intros t Hlt; simpl in Hlt; lia|].
    destruct (get3 (buffered_data m) u c b); simpl; repeat constructor; lia.
Qed.

(** ** Resetting *)

Lemma dget_clear_key {V} (d : dict Z V) app v u :
  dget (clear_key app v d) u = if decide (app = u) then (λ _, v) <$> dget d u else dget d u.
Proof.
  unfold clear_key, dmem. destruct (dget d app) as [x|] eqn:E.
  - rewrite dget_dset. case_decide; [|done]. subst. by rewrite E.
  - case_decide; [|done]. subst. by rewrite E.
Qed.

Lemma get3_clear_key {A} (d : dict Z (dict Z (dict Z A))) app u c b :
  get3 (clear_key (V := dict Z (dict Z A)) app [] d) u c b = if decide (app = u) then None else get3 d u c b.
Proof. unfold get3. rewrite dget_clear_key. case_decide; [|done]. by destruct (dget d u). Qed.

Lemma reset_ok app m : mon_ok m → mon_ok (reset_metrics_for_app app m).1.
Proof.
  intros [[Hwf Hm Hp] Ha Ht Hw]. split; simpl; [split; simpl|..].
  - unfold clear_key. case_match; [by apply wf3_clear|done].
  - intros u c b l. rewrite !get3_clear_key. case_decide; [done|apply Hm].
  - intros u c b l. rewrite get3_clear_key. case_decide; [done|apply Hp].
  - intros u ad. rewrite dget_clear_key. case_decide; [|apply Ha].
    destruct (dget (collected_data m) u); [|done]. intros [= <-]. apply app_ok_empty.
  - intros u c b. unfold records. rewrite dget_clear_key. case_decide; [|apply Ht].
    destruct (dget (collected_data m) u); simpl; repeat constructor.
  - intros u w. rewrite dget_clear_key. case_decide; [|apply Hw].
    destruct (dget (recent_measurement m) u); [|done]. intros [= <-]. unfold recent_window. simpl. lia.
Qed.

(** ** All sequences of operations

    The calls the monitor gets, each run to its end before the next.  A
    collection starts from a decoded answer, or none; refused connections and
    texts that do not decode raise before, in [Wire.collect_answer].  Of the
    four only the consumption looks up keys that may be missing, so only it is
    fallible. *)
Inductive mon_op :=
  | OpCollect (interval : Z) (th : F) (response : option (dict Z (dict Z (raw_entry F))))
  | OpConsume
  | OpReset (app : Z)
  | OpSetAllocation (al : dict Z units).

Definition mon_step (o : mon_op) m : res (monitor F) :=
  match o with
  | OpCollect interval th response => Ok (collect interval th response m)
  | OpConsume => consume_collected_data m
  | OpReset app => Ok (reset_metrics_for_app app m).1
  | OpSetAllocation al => Ok (set_last_allocation al m)
  end.

Inductive mon_reach : monitor F → Prop :=
  | reach_new : mon_reach new_monitor
  | reach_step o m m' : mon_reach m → mon_step o m = Ok m' → mon_reach m'.

Lemma mon_ok_frame m m' :
  same_records m m' → buffered_data m' = buffered_data m → buffered_mrc m' = buffered_mrc m →
  mon_ok m → mon_ok m'.
Proof.
  intros (E1 & E2 & E3) E4 E5 [[? ? ?] ? ? ?].
  split; [split; by rewrite E4, ?E5|by rewrite E1|by rewrite E1, E3|by rewrite E2].
Qed.

Lemma mon_step_ok o m m' : mon_ok m → mon_step o m = Ok m' → mon_ok m'.
Proof.
  intros Hm. destruct o as [interval th [r|]| |app|al]; simpl.
  - intros [= <-]. apply buffer_collected_data_ok. by eapply mon_ok_frame; [..|exact Hm].
  - by intros [= <-].
  - intros Hc. destruct (consume_spec m Hm) as (m1 & Hc' & Hok & _). congruence.
  - intros [= <-]. by apply reset_ok.
  - intros [= <-]. by eapply mon_ok_frame; [..|exact Hm].
Qed.

Lemma mon_reach_ok m : mon_reach m → mon_ok m.
Proof. induction 1; [apply mon_ok_new|by eapply mon_step_ok]. Qed.

Lemma mon_reach_run ops m m' : mon_reach m → for_all mon_step ops m = Ok m' → mon_reach m'.
Proof. intros Hm. apply (for_all_inv mon_reach); [|done]. intros o t t' _. apply reach_step. Qed.

(** C25: after any sequence of whole calls of the monitor (collections of
    decoded answers, consumptions, resets, allocation updates) a consumption
    that is not interrupted finds every key it looks up: it returns, with the
    buffer emptied and the consumption counted. *)
Theorem consume_returns m :
  mon_reach m →
  ∃ m', consume_collected_data m = Ok m' ∧ buffered_data m' = [] ∧
    collection_iteration_count m' = (collection_iteration_count m + 1)%Z.
Proof. intros Hm%mon_reach_ok. destruct (consume_spec m Hm) as (m' & ? & _ & ? & ? & _). eauto. Qed.

(** C24: in every reachable state the counters of an application count its
    records and its (cache, bandwidth) pairs, [last_updated] is the time of
    the last record of each pair, and no pair is without records. *)
Theorem monitor_counters m u ad :
  mon_reach m → dget (collected_data m) u = Some ad →
  total_record ad = sum2 (λ l, Z.of_nat (length l)) (datapoints ad) ∧
  total_datapoint ad = npairs (datapoints ad) ∧
  ∀ c b, get2 (last_updated ad) c b = (get2 (datapoints ad) c b ≫= λ l, snd <$> last l) ∧
         get2 (datapoints ad) c b ≠ Some [].
Proof. intros [_ Ha _ _]%mon_reach_ok Hu. destruct (Ha u ad Hu) as [_ ? ? ? ?]. auto. Qed.

(** C23: consuming adds to each application exactly one record per buffered
    (cache, bandwidth) pair: the median of its measurements with the number
    of the consumption, later than every record before it; all other records
    are kept, and the buffer is emptied. *)
Theorem consume_adds_medians m m' u c b :
  mon_reach m → mon_step OpConsume m = Ok m' →
  records (collected_data m') u c b =
    records (collected_data m) u c b ++
      ((λ l, (median_perf l, collection_iteration_count m + 1)%Z) <$> option_list (get3 (buffered_data m) u c b)) ∧
  StronglySorted Z.lt (records (collected_data m') u c b).*2 ∧ buffered_data m' = [].
Proof.
  intros Hm%mon_reach_ok Hc. destruct (consume_spec m Hm) as (m1 & Hc' & [_ _ Ht _] & En & Eb & _ & Hrec).
  simpl in Hc. rewrite Hc in Hc'. injection Hc' as <-.
  rewrite Hrec, En. split; [done|]. split; [|done].
  destruct (Ht u c b) as [Hs _]. by rewrite Hrec, En in Hs.
Qed.

(** C32: in every reachable state a buffered list of measurements is not
    empty and never repeats a value twice in a row, and the window of recent
    measurements has at most [recent_window + 1] = 25 rounds. *)
Theorem monitor_buffers m u :
  mon_reach m →
  (∀ c b l, get3 (buffered_data m) u c b = Some l → l ≠ [] ∧ no_repeat l) ∧
  (∀ w, dget (recent_measurement m) u = Some w → (Z.of_nat (length w) <= 25)%Z).
Proof. intros [[_ _ Hp] _ _ Hw]%mon_reach_ok. split; [intros c b l; apply Hp|apply Hw]. Qed.
End facts.

(** ** A reset in the middle of a consumption

    The reset API runs in a thread of its own and takes no lock. *)

(** C38: when an application is reset while its buffered pairs are being
    consumed, consuming the next of them raises [KeyError]. *)
Theorem reset_during_consume_raises {F} `{PyFloat F} (m : monitor F) u c b l :
  consume_point u c b l (reset_metrics_for_app u m).1 = Err KeyError.
Proof.
  unfold consume_point, dgetE. simpl. rewrite !dget_clear_key, !decide_True by done.
  set (ad := default empty_app _).
  assert (Had : datapoints ad = [] ∧ last_updated ad = []).
  { subst ad. by destruct (dget (collected_data m) u). }
  destruct Had as [-> ->]. simpl.
  repeat (rewrite decide_True by done; simpl).
  by destruct (dget (buffered_mrc m) u).
Qed.
