(* ===== verification/Estimator.v ===== *)
(** * The runtime estimator: estimators/runtime_estimator.py

    The utility of an allocation is the relative performance predicted from
    the application's last miss-ratio curve and its last measured usage. *)

From S2P Require Import Prelude PyDict PyFloat Resources Monitor.

Section Estimator.
Context {F : Type} `{PyFloat F}.
Local Open Scope py_scope.

(** ** The miss-ratio curve *)

(** The [for] loop: the first interval whose right end is not below [x]. *)
Fixpoint find_interval (mrc : mrc_data F) (x : F) : option ((F * F) * (F * F)) :=
  match mrc with
  | p0 :: ((p1 :: _) as rest) => if x <=? p1.1 then Some (p0, p1) else find_interval rest x
  | _ => None
  end.

(** The two points of the curve [estimate_miss_rate] interpolates between. *)
Definition segment_of (mrc : mrc_data F) (x : F) : res ((F * F) * (F * F)) :=
  let n := length mrc in
  first ← or_raise IndexError (head mrc);
  final ← or_raise IndexError (last mrc);
  if x <=? first.1 then p1 ← or_raise IndexError (mrc !! 1%nat); Ok (first, p1)
  else if x >=? final.1 then
    p0 ← or_raise IndexError (if decide (2 <= n) then mrc !! (n - 2)%nat else None);
    Ok (p0, final)
  else or_raise UnboundLocalError (find_interval mrc x).

Definition interpolate (p0 p1 : F * F) (x : F) : res F :=
  q ← (p1.2 - p0.2) * (x - p0.1) / fmax (p1.1 - p0.1) (lit 1 1000000);
  Ok (p0.2 + q).

(** [estimate_miss_rate] *)
Definition estimate_miss_rate (mrc : mrc_data F) (cache_size : F) : res F :=
  '(p0, p1) ← segment_of mrc cache_size;
  interpolate p0 p1 cache_size.

(** ** The slow-down model *)

Definition slow_margin : F := lit 8 10.
Definition loc_to_ret_slowdown : F := of_Z 100.

(** The bandwidth the application is predicted to use (lines 72-80). *)
Definition estimate_bw (cur_mr tar_mr cur_bw tar_bw cur_alloc_bw : F) : res F :=
  if (cur_bw <=? cur_alloc_bw * slow_margin) || (cur_bw >? tar_bw) then
    q ← tar_mr / cur_mr; Ok (cur_bw * q)
  else
    let cur_bw := if cur_bw >=? cur_alloc_bw * slow_margin then cur_alloc_bw else cur_bw in
    r ← cur_bw / cur_alloc_bw;
    q ← tar_mr / cur_mr;
    Ok (tar_bw * fmin (lit 1 1) r * q).

(** [_estimate_slow_down] *)
Definition estimate_slow_down (cur_mr tar_mr cur_bw tar_bw cur_alloc_bw : F) : res (F * F) :=
  let tar_bw := fmax (of_Z 1) tar_bw in
  let cur_bw := fmax (of_Z 1) cur_bw in
  bw_est ← estimate_bw cur_mr tar_mr cur_bw tar_bw cur_alloc_bw;
  r ← bw_est / cur_alloc_bw;
  let cur_slowdown := lit 1 1 + cur_mr * loc_to_ret_slowdown * fmax (of_Z 1) r in
  r ← bw_est / tar_bw;
  let slowdown := lit 1 1 + tar_mr * loc_to_ret_slowdown * fmax (of_Z 1) r in
  s ← slowdown / cur_slowdown;
  Ok (s, bw_est).

(** ** The estimate *)

Definition mr_floor : F := lit 1 1000000000000.
Definition no_estimate : F := of_Z (-1).

(** The part of [get_estimation] after its guards: current allocation,
    curve and usage are known. *)
Definition relative_perf (alloc : units) (mrc : mrc_data F) (usage_bw cache_in_mb bw_in_gbps : F)
    : res F :=
  cur_mr ← estimate_miss_rate mrc (of_Z (u_cache alloc));
  tar_mr ← estimate_miss_rate mrc cache_in_mb;
  if (cur_mr <? of_Z 0) || (tar_mr <? of_Z 0) then Ok no_estimate
  else
    let cur_mr := if cur_mr <=? mr_floor then mr_floor else cur_mr in
    let tar_mr := if tar_mr <=? mr_floor then mr_floor else tar_mr in
    '(slowdown, _) ← estimate_slow_down cur_mr tar_mr usage_bw (bw_in_gbps * of_Z 1024)
                       (of_Z (u_mem_bw alloc));
    lit 1 1 / fmax (lit 1 10000) slowdown.

(** [get_estimation]; [e2e_last] is the allocator's [e2e_last_allocation]. *)
Definition get_estimation (e2e_last : option (dict Z units)) (m : monitor F)
    (user : Z) (cache_in_mb bw_in_gbps : F) : res F :=
  current ← or_raise TypeError e2e_last;
  match dget current user with
  | None => Ok no_estimate
  | Some alloc =>
      match get_last_mrc m user with
      | [] => Ok no_estimate
      | mrc =>
          match get_last_usage m user with
          | None => Ok no_estimate
          | Some usage => relative_perf alloc mrc usage.2 cache_in_mb bw_in_gbps
          end
      end
  end.

(** [get_util_from_allocation] *)
Definition get_util_from_allocation (e2e_last : option (dict Z units)) (m : monitor F)
    (rs : scale F) (allocation : dict Z (alloc F)) : res (dict Z F) :=
  for_all (λ p utility,
    util ← get_estimation e2e_last m p.1 (a_cache p.2 * s_cache rs) (a_mem_bw p.2 * s_mem_bw rs);
    Ok (dset utility p.1 util)) allocation [].
End Estimator.
