(* ===== verification/EstimatorExact.v ===== *)
(** * The estimator

    In any floats, binary64 included: a miss rate is interpolated between the
    two measured points that enclose the cache size.  In exact arithmetic:
    interpolation on a well-formed curve is monotone and agrees with the
    measured points; the estimator always answers, which is what the price
    search asks of it; and at the current allocation it predicts no change. *)

From S2P Require Import Prelude PyDict PyFloat Exact Resources PtasExact Base BaseExact Monitor Estimator.

(** ** The segment, in any floats *)

Lemma last_two {A} (l : list A) :
  (2 <= length l)%nat → ∃ l1 p0 p1, l = l1 ++ [p0; p1].
Proof.
  intros Hlen. destruct l as [|x l _] using rev_ind; [simpl in Hlen; lia|].
  destruct l as [|y l _] using rev_ind; [simpl in Hlen; lia|].
  exists l, y, x. by rewrite <- app_assoc.
Qed.

Section segment.
Context {F : Type} `{PyFloatLaws F}.
Implicit Types (mrc : mrc_data F) (x : F) (p q : F * F).

(** [p0] and [p1] are neighbours on the curve that enclose [x], or its first
    or last two points when [x] is outside. *)
Definition encloses mrc x p0 p1 : Prop :=
  ∃ l1 l2, mrc = l1 ++ p0 :: p1 :: l2 ∧
    (l1 = [] ∨ fltb x p0.1 = false) ∧ (l2 = [] ∨ fltb p1.1 x = false).

(** Cache sizes increase. *)
Definition sizes_increase mrc : Prop := StronglySorted (λ p q, fltb p.1 q.1 = true) mrc.

Lemma leb_false_lt x y : PyFloat.num x → PyFloat.num y → fleb x y = false → fltb y x = true.
Proof. intros Hx Hy. rewrite leb_ltb by done. by intros ?%negb_false_iff. Qed.

Lemma leb_true_ltb x y : fleb x y = true → fltb y x = false.
Proof. intros Hle. destruct (leb_num _ _ Hle). rewrite leb_ltb in Hle by done. by apply negb_true_iff. Qed.

Lemma sizes_num p0 p1 mrc : sizes_increase (p0 :: p1 :: mrc) → Forall (λ p, PyFloat.num p.1) (p0 :: p1 :: mrc).
Proof.
  intros [_ Hall]%StronglySorted_inv. pose proof (Forall_inv Hall) as [Hp0 _]%ltb_num.
  constructor; [done|]. eapply Forall_impl; [exact Hall|]. by intros q [_ ?]%ltb_num.
Qed.

Lemma find_interval_encloses mrc p x :
  PyFloat.num x → Forall (λ p, PyFloat.num p.1) mrc → fltb x p.1 = false →
  (∃ q, q ∈ mrc ∧ fltb q.1 x = false) →
  ∃ p0 p1, find_interval (p :: mrc) x = Some (p0, p1) ∧
    ∃ l1 l2, p :: mrc = l1 ++ p0 :: p1 :: l2 ∧ fltb x p0.1 = false ∧ fltb p1.1 x = false.
Proof.
  intros Hx Hall. revert p. induction Hall as [|r mrc Hr Hall IH]; intros p Hp (q & Hq & Hqx); [set_solver|].
  cbn [find_interval]. destruct (fleb x r.1) eqn:E.
  - exists p, r. split; [done|]. exists [], mrc. split; [done|]. split; [done|]. by apply leb_true_ltb.
  - apply leb_false_lt in E; [|done..].
    destruct (IH r) as (p0 & p1 & Hf & l1 & l2 & El & ? & ?).
    + by apply ltb_asym.
    + apply elem_of_cons in Hq as [->|Hq]; [congruence|by exists q].
    + exists p0, p1. split; [exact Hf|]. exists (p :: l1), l2. by rewrite El.
Qed.

Lemma segment_encloses mrc x :
  (2 <= length mrc)%nat → sizes_increase mrc → PyFloat.num x →
  ∃ p0 p1, segment_of mrc x = Ok (p0, p1) ∧ encloses mrc x p0 p1.
Proof.
  intros Hlen Hs Hx. destruct (last_two mrc Hlen) as (l & a & z & Ez).
  assert (Hlast : last mrc = Some z) by (by rewrite Ez, last_app).
  assert (Hsnd : mrc !! (length mrc - 2)%nat = Some a).
  { rewrite Ez, length_app. cbn [length]. replace (length l + 2 - 2)%nat with (length l) by lia.
    by apply list_lookup_middle. }
  unfold segment_of. rewrite Hlast, Hsnd, decide_True by done.
  destruct mrc as [|p [|q rest]]; simpl in Hlen; try lia. pose proof (sizes_num _ _ _ Hs) as Hnum.
  cbn [head or_raise mbind res_bind]. change ((p :: q :: rest) !! 1%nat) with (Some q).
  destruct (fleb x p.1) eqn:E1; [apply leb_true_ltb in E1|].
  { exists p, q. split; [done|]. exists [], rest. split; [done|]. split; [by left|right].
    apply StronglySorted_inv in Hs as [_ Hall]. apply Forall_inv in Hall.
    destruct (fltb q.1 x) eqn:E; [|done]. rewrite <- E1. symmetry. by eapply ltb_trans. }
  apply leb_false_lt in E1; [|done|by apply Forall_inv in Hnum].
  destruct (fleb z.1 x) eqn:E2; [apply leb_true_ltb in E2|].
  - exists a, z. split; [done|]. exists l, []. split; [done|]. split; [right|by left].
    unfold sizes_increase in Hs. rewrite Ez in Hs. apply StronglySorted_app in Hs as (_ & _ & Hs).
    apply StronglySorted_inv in Hs as [_ Hall]. apply Forall_inv in Hall. by eapply ltb_false_lt.
  - assert (Hz : z ∈ q :: rest) by (destruct l as [|y l]; injection Ez as -> Ez; rewrite Ez; set_solver).
    apply Forall_cons in Hnum as [_ Hnum].
    apply leb_false_lt in E2; [|by eapply Forall_forall in Hnum|done].
    destruct (find_interval_encloses (q :: rest) p x) as (p0 & p1 & -> & l1 & l2 & El & ? & ?); [done|done|by apply ltb_asym| |].
    { exists z. split; [done|]. by apply ltb_asym. }
    exists p0, p1. split; [done|]. exists l1, l2. auto.
Qed.
End segment.

(** In binary64 the divisor of the interpolation is never zero. *)
Lemma b64_divisor (d : b64) : feqb (fmax d (lit 1 1000000)) (of_Z 0) = false.
Proof.
  unfold fmax. destruct (fltb d (lit 1 1000000)) eqn:E; [by vm_compute|].
  destruct d as [s|s| |s m e]; [destruct s; by vm_compute in E|by destruct s|done|by destruct s].
Qed.

(** C29: in binary64 arithmetic, on a curve with at least two points and
    increasing cache sizes, the estimate of a cache size that is a number
    returns: it is the value at that size of the line through two neighbouring
    points, those that enclose the size, or the first two below the curve and
    the last two above it. *)
Theorem miss_rate_interpolates (mrc : mrc_data b64) (x : b64) :
  (2 <= length mrc)%nat → sizes_increase mrc → PyFloat.num x →
  ∃ p0 p1, encloses mrc x p0 p1 ∧
    estimate_miss_rate mrc x =
      Ok (p0.2 + fquot ((p1.2 - p0.2) * (x - p0.1)) (fmax (p1.1 - p0.1) (lit 1 1000000)))%py.
Proof.
  intros Hlen Hs Hx. destruct (segment_encloses mrc x Hlen Hs Hx) as (p0 & p1 & Hseg & Henc).
  exists p0, p1. split; [done|]. unfold estimate_miss_rate, interpolate, fdiv. rewrite Hseg. cbn [mbind res_bind].
  by rewrite b64_divisor.
Qed.

(** ** Curves *)

(** The curve of the rational points [pts]. *)
Definition curve (pts : list (Qc * Qc)) : mrc_data xnum := (λ p, (Num p.1, Num p.2)) <$> pts.

Definition step : Qc := Q2Qc (1 # 1000000).

(** Cache sizes increase by at least a millionth of a megabyte, miss rates do
    not increase. *)
Definition before (p q : Qc * Qc) : Prop := (p.1 + step <= q.1 ∧ q.2 <= p.2)%Qc.

Definition curve_ok (pts : list (Qc * Qc)) : Prop := StronglySorted before pts.

Definition line (p0 p1 : Qc * Qc) (x : Qc) : Qc :=
  (p0.2 + (p1.2 - p0.2) * (x - p0.1) / (p1.1 - p0.1))%Qc.

Lemma step_pos : (0 < step)%Qc.
Proof. done. Qed.

Lemma before_lt p q : before p q → (0 < q.1 - p.1)%Qc.
Proof. intros [H1 _]. pose proof step_pos. qc_lra. Qed.

Lemma interpolate_line p0 p1 x :
  before p0 p1 →
  interpolate (Num p0.1, Num p0.2) (Num p1.1, Num p1.2) (Num x) = Ok (Num (line p0 p1 x)).
Proof.
  intros Hb. unfold interpolate. simpl.
  assert (Hm : fmax (Num p1.1 - Num p0.1)%py (lit 1 1000000) = Num (p1.1 - p0.1)%Qc).
  { change (fmax (Num (p1.1 - p0.1)%Qc) (Num step) = Num (p1.1 - p0.1)%Qc). unfold fmax.
    rewrite (proj2 (xltb_Num_false _ _)); [done|]. destruct Hb as [Hb _]. qc_lra. }
  rewrite Hm.
  change ((Num p1.2 - Num p0.2) * (Num x - Num p0.1))%py with (Num ((p1.2 - p0.2) * (x - p0.1))%Qc).
  rewrite fdiv_Num by (by apply pos_ne0, before_lt). done.
Qed.

(** The segment that is used: inner ends bound [x]. *)
Definition uses (pts : list (Qc * Qc)) (x : Qc) (l1 l2 : list (Qc * Qc)) (p0 p1 : Qc * Qc) : Prop :=
  pts = l1 ++ p0 :: p1 :: l2 ∧ (l1 = [] ∨ p0.1 <= x)%Qc ∧ (l2 = [] ∨ x <= p1.1)%Qc.

Lemma curve_cons p pts : curve (p :: pts) = (Num p.1, Num p.2) :: curve pts.
Proof. done. Qed.

Lemma find_interval_uses pts p x :
  (p.1 <= x)%Qc → (∃ q, q ∈ pts ∧ x <= q.1)%Qc →
  ∃ l1 l2 p0 p1, uses (p :: pts) x l1 l2 p0 p1 ∧
    find_interval (curve (p :: pts)) (Num x) = Some ((Num p0.1, Num p0.2), (Num p1.1, Num p1.2)).
Proof.
  revert p. induction pts as [|r pts IH]; intros p Hp (q & Hq & Hx); [set_solver|].
  rewrite !curve_cons. cbn [find_interval]. destruct (fleb (Num x) (Num r.1, Num r.2).1) eqn:E; simpl in E.
  - apply xleb_Num in E. exists [], pts, p, r. split; [|done]. split; [done|]. auto.
  - assert (Hr : (r.1 <= x)%Qc).
    { apply Qclt_le_weak, Qcnot_le_lt. intros Hle. apply xleb_Num in Hle. congruence. }
    destruct (IH r Hr) as (l1 & l2 & p0 & p1 & (Hpts & Hl & Hu) & Hf).
    { apply elem_of_cons in Hq as [->|Hq]; [|by exists q]. exfalso. apply xleb_Num in Hx. congruence. }
    exists (p :: l1), l2, p0, p1. split; [|exact Hf].
    split; [by rewrite Hpts|]. split; [|done]. destruct Hl as [->|Hl]; [|by right].
    right. injection Hpts as -> _. done.
Qed.

Lemma curve_app l k : curve (l ++ k) = curve l ++ curve k.
Proof. apply fmap_app. Qed.

Lemma segment_uses pts x :
  (2 <= length pts)%nat → curve_ok pts →
  ∃ l1 l2 p0 p1, uses pts x l1 l2 p0 p1 ∧
    segment_of (curve pts) (Num x) = Ok ((Num p0.1, Num p0.2), (Num p1.1, Num p1.2)).
Proof.
  intros Hlen Hok. destruct (last_two pts Hlen) as (l & a & z & Ez).
  assert (Hlast : last (curve pts) = Some (Num z.1, Num z.2)).
  { rewrite Ez, curve_app. simpl. by rewrite last_app. }
  assert (Hsnd : curve pts !! (length (curve pts) - 2)%nat = Some (Num a.1, Num a.2)).
  { rewrite Ez, curve_app, length_app. change (length (curve [a; z])) with 2%nat.
    replace (length (curve l) + 2 - 2)%nat with (length (curve l)) by lia.
    exact (list_lookup_middle (curve l) (curve [z]) _ _ eq_refl). }
  destruct pts as [|p [|q pts]]; simpl in Hlen; try lia.
  unfold segment_of. rewrite Hlast, Hsnd. rewrite decide_True by (simpl; lia).
  change (head (curve (p :: q :: pts))) with (Some (Num p.1, Num p.2)).
  change (curve (p :: q :: pts) !! 1%nat) with (Some (Num q.1, Num q.2)).
  cbn [or_raise mbind res_bind fst snd].
  destruct (fleb (Num x) (Num p.1)) eqn:E1; [apply xleb_Num in E1|].
  { exists [], pts, p, q. split; [|done]. split; [done|]. split; [by left|right].
    apply StronglySorted_inv in Hok as [_ Hall]. apply Forall_inv in Hall as [Hpq _].
    pose proof step_pos. qc_lra. }
  assert (Hp : (p.1 <= x)%Qc).
  { apply Qclt_le_weak, Qcnot_le_lt. intros Hle. apply xleb_Num in Hle. congruence. }
  destruct (fleb (Num z.1) (Num x)) eqn:E2; [apply xleb_Num in E2|].
  - exists l, [], a, z. split; [|done]. split; [done|]. split; [right|by left].
    unfold curve_ok in Hok. rewrite Ez in Hok. apply StronglySorted_app in Hok as (_ & _ & Hok).
    apply StronglySorted_inv in Hok as [_ Hall]. apply Forall_inv in Hall as [Hpq _].
    pose proof step_pos. qc_lra.
  - assert (Hz : (x <= z.1)%Qc).
    { apply Qclt_le_weak, Qcnot_le_lt. intros Hle. apply xleb_Num in Hle. congruence. }
    destruct (find_interval_uses (q :: pts) p x Hp) as (l1 & l2 & p0 & p1 & Hu & ->); [|by eauto 10].
    exists z. split; [|done]. destruct l as [|y l]; injection Ez as -> Ez; rewrite Ez; set_solver.
Qed.

(** ** Linear pieces *)

Lemma line_le p0 p1 x y : before p0 p1 → (x <= y)%Qc → (line p0 p1 y <= line p0 p1 x)%Qc.
Proof.
  intros Hb Hxy. pose proof (before_lt _ _ Hb) as Hd. destruct Hb as [_ Hm].
  assert (Hk : (0 < / (p1.1 - p0.1))%Qc).
  { rewrite <- (Qcmult_1_l (/ _)). by apply Qcdiv_pos. }
  unfold line, Qcdiv. set (k := (/ (p1.1 - p0.1))%Qc) in *. clearbody k. clear Hd.
  assert (0 <= (p0.2 - p1.2) * k)%Qc by (qc_to_q; nra).
  assert (0 <= (p0.2 - p1.2) * k * (y - x))%Qc.
  { set (j := ((p0.2 - p1.2) * k)%Qc) in *. clearbody j. qc_to_q. nra. }
  qc_to_q. lra.
Qed.

Lemma line_left p0 p1 : line p0 p1 p0.1 = p0.2.
Proof. unfold line, Qcdiv. ring. Qed.

Lemma line_right p0 p1 : before p0 p1 → line p0 p1 p1.1 = p1.2.
Proof.
  intros Hb%before_lt%pos_ne0. unfold line, Qcdiv.
  rewrite <- Qcmult_assoc, Qcmult_inv_r by done. ring.
Qed.

(** ** The estimated miss rate *)

Lemma uses_before pts x l1 l2 p0 p1 : curve_ok pts → uses pts x l1 l2 p0 p1 → before p0 p1.
Proof.
  intros Hok (-> & _). apply StronglySorted_app in Hok as (_ & _ & Hok).
  apply StronglySorted_inv in Hok as [_ Hall]. by apply Forall_inv in Hall.
Qed.

Lemma estimate_uses pts x :
  (2 <= length pts)%nat → curve_ok pts →
  ∃ l1 l2 p0 p1, uses pts x l1 l2 p0 p1 ∧
    estimate_miss_rate (curve pts) (Num x) = Ok (Num (line p0 p1 x)).
Proof.
  intros Hlen Hok. destruct (segment_uses pts x Hlen Hok) as (l1 & l2 & p0 & p1 & Hu & Hs).
  exists l1, l2, p0, p1. split; [done|]. unfold estimate_miss_rate. rewrite Hs.
  by apply interpolate_line, (uses_before pts x l1 l2).
Qed.

(** Points at increasing positions of the curve. *)
Lemma curve_lookup pts i j p q :
  curve_ok pts → (i < j)%nat → pts !! i = Some p → pts !! j = Some q → before p q.
Proof.
  intros Hok Hij Hp Hq. revert i j Hij Hp Hq. induction Hok as [|r pts Hok IH Hall]; [done|].
  intros [|i] [|j] Hij Hp Hq; try lia; simpl in *.
  - injection Hp as ->. eapply Forall_forall; [exact Hall|]. by eapply list_elem_of_lookup_2.
  - eapply (IH i j); [lia|done|done].
Qed.

Lemma before_pos pts i j p q :
  curve_ok pts → pts !! i = Some p → pts !! j = Some q → (p.1 <= q.1)%Qc → (i <= j)%nat ∧ (q.2 <= p.2)%Qc.
Proof.
  intros Hok Hp Hq Hle. destruct (Nat.lt_trichotomy i j) as [Hij|[->|Hij]].
  - split; [lia|]. by destruct (curve_lookup pts i j p q Hok Hij Hp Hq).
  - rewrite Hp in Hq. injection Hq as ->. split; [lia|apply Qcle_refl].
  - destruct (curve_lookup pts j i q p Hok Hij Hq Hp) as [Hlt _]. pose proof step_pos. qc_lra.
Qed.

Lemma uses_lookup pts x l1 l2 p0 p1 :
  uses pts x l1 l2 p0 p1 → pts !! length l1 = Some p0 ∧ pts !! S (length l1) = Some p1.
Proof.
  intros (-> & _). split; [by apply list_lookup_middle|].
  rewrite lookup_app_r by lia. by replace (S (length l1) - length l1)%nat with 1%nat by lia.
Qed.

Lemma uses_le pts x y l1 l2 p0 p1 k1 k2 q0 q1 :
  curve_ok pts → uses pts x l1 l2 p0 p1 → uses pts y k1 k2 q0 q1 → (x <= y)%Qc →
  (line q0 q1 y <= line p0 p1 x)%Qc.
Proof.
  intros Hok Hx Hy Hxy.
  pose proof (uses_before _ _ _ _ _ _ Hok Hx) as Hb. pose proof (uses_before _ _ _ _ _ _ Hok Hy) as Hb'.
  pose proof (uses_lookup _ _ _ _ _ _ Hx) as [Hp0 Hp1]. pose proof (uses_lookup _ _ _ _ _ _ Hy) as [Hq0 Hq1].
  destruct (Nat.lt_trichotomy (length l1) (length k1)) as [Hlt|[Heq|Hgt]].
  - (* an earlier segment: through the two inner ends *)
    destruct Hx as (Ex & _ & [->|Hx]).
    { apply lookup_lt_Some in Hq1. rewrite Ex, length_app in Hq1. simpl in Hq1. lia. }
    destruct Hy as (Ey & [->|Hy] & _); [simpl in Hlt; lia|].
    apply (Qcle_trans _ q0.2); [rewrite <- (line_left q0 q1); by apply line_le|].
    apply (Qcle_trans _ p1.2); [|rewrite <- (line_right p0 p1) by done; by apply line_le].
    destruct (decide (S (length l1) = length k1)) as [E|Hne].
    + rewrite E, Hq0 in Hp1. injection Hp1 as ->. apply Qcle_refl.
    + by destruct (curve_lookup pts (S (length l1)) (length k1) p1 q0 Hok ltac:(lia) Hp1 Hq0).
  - rewrite Heq in *. rewrite Hp0 in Hq0. rewrite Hp1 in Hq1. simplify_eq. by apply line_le.
  - (* a later segment: both values are the same measured point *)
    destruct Hy as (Ey & _ & [->|Hy]).
    { apply lookup_lt_Some in Hp1. rewrite Ey, length_app in Hp1. simpl in Hp1. lia. }
    destruct Hx as (Ex & [->|Hx] & _); [simpl in Hgt; lia|].
    destruct (before_pos pts (length l1) (S (length k1)) p0 q1 Hok Hp0 Hq1) as [Hpos _].
    { eapply Qcle_trans; [exact Hx|]. by eapply Qcle_trans. }
    assert (E : length l1 = S (length k1)) by lia. rewrite E, Hq1 in Hp0. injection Hp0 as ->.
    assert (x = p0.1) as ->.
    { apply Qcle_antisym; [|done]. by eapply Qcle_trans. }
    assert (y = p0.1) as -> by by apply Qcle_antisym.
    rewrite line_left, line_right by done. apply Qcle_refl.
Qed.

(** In exact arithmetic, on a curve with at least two points, increasing cache
    sizes and miss rates that do not increase, a larger cache is never
    estimated to miss more, inside and outside the measured range.  Rounding
    breaks this by a unit in the last place ([Examples.miss_rate_rounds]). *)
Theorem miss_rate_monotone pts x y :
  (2 <= length pts)%nat → curve_ok pts → (x <= y)%Qc →
  ∃ a b, estimate_miss_rate (curve pts) (Num x) = Ok (Num a) ∧
         estimate_miss_rate (curve pts) (Num y) = Ok (Num b) ∧ (b <= a)%Qc.
Proof.
  intros Hlen Hok Hxy.
  destruct (estimate_uses pts x Hlen Hok) as (l1 & l2 & p0 & p1 & Hx & ->).
  destruct (estimate_uses pts y Hlen Hok) as (k1 & k2 & q0 & q1 & Hy & ->).
  eexists _, _. split; [done|]. split; [done|]. by eapply uses_le.
Qed.

(** At a measured cache size the estimate is the measured miss rate. *)
Theorem miss_rate_at_points pts p :
  (2 <= length pts)%nat → curve_ok pts → p ∈ pts →
  estimate_miss_rate (curve pts) (Num p.1) = Ok (Num p.2).
Proof.
  intros Hlen Hok Hp. destruct (estimate_uses pts p.1 Hlen Hok) as (l1 & l2 & p0 & p1 & Hx & ->).
  pose proof (uses_before _ _ _ _ _ _ Hok Hx) as Hb. pose proof (uses_lookup _ _ _ _ _ _ Hx) as [Hp0 Hp1].
  apply list_elem_of_lookup in Hp as [i Hi]. destruct Hx as (Ex & Hl & Hr).
  destruct (Nat.le_gt_cases i (length l1)) as [Hle|Hgt].
  - assert (i = length l1) as ->.
    { destruct Hl as [->|Hl]; [simpl in *; lia|].
      destruct (before_pos pts (length l1) i p0 p Hok Hp0 Hi Hl). lia. }
    rewrite Hp0 in Hi. injection Hi as ->. by rewrite line_left.
  - assert (i = S (length l1)) as ->.
    { destruct Hr as [->|Hr].
      - apply lookup_lt_Some in Hi. rewrite Ex, length_app in Hi. simpl in Hi. lia.
      - destruct (before_pos pts i (S (length l1)) p p1 Hok Hi Hp1 Hr). lia. }
    rewrite Hp1 in Hi. injection Hi as ->. by rewrite line_right.
Qed.

(** ** The estimator always answers *)

(** A finite point of a curve. *)
Definition fin_point (p : xnum * xnum) : Prop := fin p.1 ∧ fin p.2.

Definition fin_curve (mrc : mrc_data xnum) : Prop := (2 <= length mrc)%nat ∧ Forall fin_point mrc.

Lemma find_interval_total mrc x z :
  Forall fin_point mrc → last mrc = Some z → fleb x z.1 = true → (2 <= length mrc)%nat →
  ∃ p0 p1, find_interval mrc x = Some (p0, p1) ∧ fin_point p0 ∧ fin_point p1.
Proof.
  induction mrc as [|p [|q mrc] IH]; intros Hf Hz Hx Hlen; simpl in Hlen; try lia.
  apply Forall_cons in Hf as [Hp Hf]. pose proof (Forall_inv Hf) as Hq.
  cbn [find_interval]. destruct (fleb x q.1) eqn:E; [by exists p, q|].
  rewrite last_cons_cons in Hz. destruct mrc as [|r mrc].
  - simpl in Hz. injection Hz as ->. congruence.
  - apply IH; [done|done|done|simpl; lia].
Qed.

Lemma segment_total mrc x :
  fin_curve mrc → fin x →
  returns (segment_of mrc x) (λ r, fin_point r.1 ∧ fin_point r.2).
Proof.
  intros [Hlen Hf] [qx ->].
  assert (Hget : ∀ i, (i < length mrc)%nat → ∃ p, mrc !! i = Some p ∧ fin_point p).
  { intros i [p Hp]%lookup_lt_is_Some_2. exists p. split; [done|]. by eapply Forall_lookup_1. }
  destruct (Hget 0%nat) as (p & Hp & Hpf); [lia|]. destruct (Hget 1%nat) as (q & Hq & Hqf); [lia|].
  destruct (Hget (length mrc - 2)%nat) as (y & Hy & Hyf); [lia|].
  destruct (Hget (pred (length mrc))) as (z & Hz & Hzf); [lia|].
  rewrite <- last_lookup in Hz. unfold segment_of. rewrite head_lookup, Hp, Hq, Hy, Hz.
  cbn [or_raise mbind res_bind].
  case_match; [by apply returns_ret|]. rewrite decide_True by done. simpl.
  destruct (fleb z.1 (Num qx)) eqn:E; [by apply returns_ret|].
  destruct (find_interval_total mrc (Num qx) z) as (p0 & p1 & -> & ? & ?); try done.
  - destruct Hzf as [[zq1 Ez] _]. rewrite Ez in *. apply xleb_Num. apply Qclt_le_weak, Qcnot_le_lt.
    intros Hle%xleb_Num. congruence.
  - by apply returns_ret.
Qed.

Lemma miss_rate_total mrc x : fin_curve mrc → fin x → returns (estimate_miss_rate mrc x) fin.
Proof.
  intros Hc Hx. unfold estimate_miss_rate.
  rbind (by apply segment_total) as [p0 p1] [[? ?] [? ?]]. simpl in *. unfold interpolate.
  rbind (apply fdiv_fin; [fin_auto|]; apply pos_max_r; [fin_auto|by apply pos_lit]) as q Hq.
  apply returns_ret. fin_auto.
Qed.

Lemma estimate_bw_total cur_mr tar_mr cur_bw tar_bw alloc :
  pos cur_mr → pos tar_mr → pos cur_bw → pos tar_bw → pos alloc →
  returns (estimate_bw cur_mr tar_mr cur_bw tar_bw alloc) pos.
Proof.
  intros Hcm Htm Hc Ht Ha. unfold estimate_bw. destruct (_ || _).
  - rbind (by apply fdiv_pos) as q Hq. apply returns_ret. fin_auto.
  - rbind (apply fdiv_pos; [by case_match|done]) as r Hr. rbind (by apply fdiv_pos) as q Hq.
    apply returns_ret. pose proof (pos_lit 1 1 ltac:(lia)). fin_auto.
Qed.

Lemma slow_down_total cur_mr tar_mr cur_bw tar_bw alloc :
  pos cur_mr → pos tar_mr → fin cur_bw → fin tar_bw → pos alloc →
  returns (estimate_slow_down cur_mr tar_mr cur_bw tar_bw alloc) (λ r, pos r.1).
Proof.
  intros Hcm Htm Hc Ht Ha. unfold estimate_slow_down.
  pose proof (pos_of_Z 1 ltac:(lia)) as H1. pose proof (pos_of_Z 100 ltac:(lia)) as H100.
  pose proof (pos_lit 1 1 ltac:(lia)) as Hl1. change (of_Z 100) with (loc_to_ret_slowdown (F := xnum)) in H100.
  rbind (apply estimate_bw_total; fin_auto) as bw Hbw.
  rbind (by apply fdiv_pos) as r Hr. rbind (apply fdiv_pos; fin_auto) as r' Hr'.
  rbind (apply fdiv_pos; fin_auto) as s Hs. by apply returns_ret.
Qed.

Lemma floored_pos x : fin x → pos (if fleb x mr_floor then mr_floor else x).
Proof.
  intros [q ->]. destruct (fleb (Num q) mr_floor) eqn:E; [by apply pos_lit|]. exists q. split; [done|].
  change (mr_floor (F := xnum)) with (Num (Q2Qc (1 # 1000000000000))) in E.
  assert (Hn : ¬ (q <= Q2Qc (1 # 1000000000000))%Qc) by (intros Hle%xleb_Num; congruence).
  apply Qcnot_le_lt in Hn. eapply Qclt_trans; [|exact Hn]. done.
Qed.

(** What the controller has reported so far is usable: curves of at least two
    finite points, a finite usage, and a positive deployed bandwidth. *)
Definition readings_ok (current : dict Z units) (m : monitor xnum) : Prop :=
  ∀ u a usage, dget current u = Some a → get_last_usage m u = Some usage → get_last_mrc m u ≠ [] →
    (0 < u_mem_bw a)%Z ∧ fin usage.2 ∧ fin_curve (get_last_mrc m u).

(** A finite value other than zero. *)
Definition nonzero (x : xnum) : Prop := ∃ q, x = Num q ∧ q ≠ 0%Qc.

Lemma pos_nonzero x : pos x → nonzero x.
Proof. intros (q & -> & Hq). exists q. split; [done|by apply pos_ne0]. Qed.

Lemma nonzero_fin x : nonzero x → fin x.
Proof. intros (q & -> & _). by exists q. Qed.

Lemma no_estimate_nonzero : nonzero no_estimate.
Proof. exists (Q2Qc (inject_Z (-1))). by split. Qed.

Lemma relative_perf_total a mrc bw c b :
  (0 < u_mem_bw a)%Z → fin bw → fin_curve mrc → fin c → fin b →
  returns (relative_perf a mrc bw c b) nonzero.
Proof.
  intros Ha Hbw Hcurve Hc Hb. unfold relative_perf.
  rbind (apply miss_rate_total; [done|fin_auto]) as cm Hcm. rbind (by apply miss_rate_total) as tm Htm.
  destruct (_ || _); [apply returns_ret, no_estimate_nonzero|].
  rbind (apply slow_down_total; [by apply floored_pos|by apply floored_pos|done|fin_auto|by apply pos_of_Z]) as [s bw'] Hs.
  simpl in Hs. eapply returns_mono; [apply fdiv_pos|by apply pos_nonzero].
  - by apply pos_lit.
  - apply pos_max_r; fin_auto.
Qed.

Lemma get_estimation_total current m u c b :
  readings_ok current m → fin c → fin b → returns (get_estimation (Some current) m u c b) nonzero.
Proof.
  intros Hok Hc Hb. unfold get_estimation. simpl.
  destruct (dget current u) as [a|] eqn:Ea; [|apply returns_ret, no_estimate_nonzero].
  destruct (get_last_mrc m u) as [|p mrc] eqn:Em; [apply returns_ret, no_estimate_nonzero|].
  destruct (get_last_usage m u) as [usage|] eqn:Eu; [|apply returns_ret, no_estimate_nonzero].
  destruct (Hok u a usage) as (? & ? & ?); [done|done|by rewrite Em|].
  rewrite <- Em. by apply relative_perf_total.
Qed.

#[export] Instance runtime_estimator_total current m :
  readings_ok current m → est_total (get_estimation (Some current) m).
Proof.
  intros Hok u c b Hc Hb. eapply returns_mono; [by apply get_estimation_total|apply nonzero_fin].
Qed.

(** ** No change at the current allocation *)

Lemma slow_down_same mr bw alloc :
  pos mr → fin bw → (exists B, alloc = Num B ∧ 1 <= B)%Qc →
  returns (estimate_slow_down mr mr bw alloc alloc) (λ r, r.1 = Num 1%Qc).
Proof.
  intros Hmr Hbw (B & -> & HB). unfold estimate_slow_down.
  assert (HBp : pos (Num B)) by (exists B; split; [done|]; qc_lra).
  pose proof (pos_of_Z 1 ltac:(lia)) as H1. pose proof (pos_of_Z 100 ltac:(lia)) as H100.
  pose proof (pos_lit 1 1 ltac:(lia)) as Hl1. change (of_Z 100) with (loc_to_ret_slowdown (F := xnum)) in H100.
  assert (Hm : fmax (of_Z 1) (Num B) = Num B).
  { change (fmax (Num (zq 1)) (Num B) = Num B). unfold fmax. destruct (fltb _ _) eqn:E; [done|].
    apply xltb_Num_false in E. f_equal. apply Qcle_antisym; [|done]. exact HB. }
  rewrite Hm. rbind (apply estimate_bw_total; fin_auto) as bw' Hbw'.
  destruct (fdiv_pos bw' (Num B) Hbw' HBp) as (r & -> & Hr). cbn [mbind res_bind].
  assert (Hs : pos (lit 1 1 + mr * loc_to_ret_slowdown * fmax (of_Z 1) r)%py) by fin_auto.
  destruct Hs as (s & -> & Hs). rewrite fdiv_Num by by apply pos_ne0.
  apply returns_ret. simpl. f_equal. unfold Qcdiv. apply Qcmult_inv_r. by apply pos_ne0.
Qed.

(** For the allocation that is deployed, the estimator predicts exactly
    the current performance, whatever the measured usage. *)
Theorem estimate_at_current a mrc bw b mr :
  (1 <= u_mem_bw a)%Z → fin bw →
  (b * of_Z 1024)%py = of_Z (u_mem_bw a) →
  estimate_miss_rate mrc (of_Z (u_cache a)) = Ok (Num mr) → (0 <= mr)%Qc →
  relative_perf a mrc bw (of_Z (u_cache a)) b = Ok (Num 1%Qc).
Proof.
  intros Ha Hbw Hb Hmr Hnn. unfold relative_perf. rewrite Hmr. cbn [mbind res_bind].
  assert (Hneg : fltb (Num mr) (of_Z 0) = false).
  { change (of_Z 0 : xnum) with (Num 0%Qc). by apply xltb_Num_false. }
  rewrite Hneg, Hb. cbn [orb].
  destruct (slow_down_same (if fleb (Num mr) mr_floor then mr_floor else Num mr) bw (of_Z (u_mem_bw a)))
    as ([s bw'] & -> & Hs); [apply floored_pos; fin_auto|done| |].
  - exists (zq (u_mem_bw a)). split; [done|]. apply (zq_le 1). done.
  - cbn [mbind res_bind]. simpl in Hs. subst s. reflexivity.
Qed.
