(* ===== verification/System.v ===== *)
(** * The controller: deployer.py, and [ResourceAllocator.start] of
      allocators/allocator_base.py

    A round asks the allocator for an allocation, deploys it, tells the
    monitor, collects measurements and consumes them. *)

From S2P Require Import Prelude PyDict Nested PyFloat Resources Base Json Params Monitor MonitorFacts.

(** ** The deployer *)

(** A value of a resource entry: [isinstance(value, int)] or not. *)
Inductive pyval := PyInt (z : Z) | PyOther.

(** [{"cache": .., "mem_bw": ..}] with either key possibly absent. *)
Record resources := Resources { r_cache : option pyval; r_mem_bw : option pyval }.

(** What is handed to the deployer: [None] where a value is not a [dict]. *)
Definition resource_alloc := option (dict Z (option resources)).

(** [MemcachedDeployer.allocation_map], with integer keys. *)
Definition allocation_map := dict Z (Z * Z).

(** The map a deployer starts with. *)
Definition initial_allocation_map : allocation_map :=
  [(1, (420, 540)); (2, (730, 910)); (3, (100, 270)); (4, (500, 620)); (5, (910, 100))]%Z.

Definition deploy_entry (acc : allocation_map) (p : Z * option resources) : allocation_map :=
  match p.2 with
  | None => acc
  | Some r =>
      match default (PyInt 0) (r_cache r), default (PyInt 0) (r_mem_bw r) with
      | PyInt c, PyInt b => dset acc p.1 (c, b)
      | _, _ => acc
      end
  end.

(** [update_allocation_map] *)
Definition update_allocation_map (ra : resource_alloc) (old : allocation_map) : allocation_map :=
  match ra with
  | None | Some [] => old
  | Some d => foldl deploy_entry [] d
  end.

(** [deploy]: the command that is posted, if any, and the new map. *)
Definition deploy (ra : resource_alloc) (old : allocation_map) : option allocation_map * allocation_map :=
  match ra with
  | None | Some [] => (None, old)
  | _ => let new := update_allocation_map ra old in (Some new, new)
  end.

(** The allocators' results as resource entries. *)
Definition of_units (u : units) : option resources :=
  Some (Resources (Some (PyInt (u_cache u))) (Some (PyInt (u_mem_bw u)))).

Definition of_allocation (al : dict Z units) : resource_alloc :=
  Some ((λ p : Z * units, (p.1, of_units p.2)) <$> al).

(** ** The control loop *)

Section controller.
Context {F : Type} `{PyFloat F}.

(** The allocator: its state, and [allocate_and_parse] given the controller's
    last allocation and the monitor it reads. *)
Context {A : Type}.
Context (allocate : option (dict Z units) → monitor F → A → res (dict Z units * A)).

Record system := System {
  sys_alloc : A;
  e2e_last_allocation : option (dict Z units);
  sys_monitor : monitor F;
  sys_deployed : allocation_map;
}.

(** Allocate, deploy, remember, tell the monitor (lines 57-63 and 72-77). *)
Definition allocate_and_deploy (s : system) : res system :=
  '(al, a) ← allocate (e2e_last_allocation s) (sys_monitor s) (sys_alloc s);
  let '(_, deployed) := deploy (of_allocation al) (sys_deployed s) in
  Ok (System a (Some al) (set_last_allocation al (sys_monitor s)) deployed).

(** One iteration of the main loop; [responses] are what the controller
    answers to the collections of this round. *)
Definition controller_round (skip_monitoring : bool) (interval : Z) (verification_th : F)
    (responses : list (option (dict Z (dict Z (raw_entry F))))) (s : system) : res system :=
  s ← allocate_and_deploy s;
  let m := foldl (λ m r, collect interval verification_th r m) (sys_monitor s) responses in
  m ← (if skip_monitoring then Ok m else consume_collected_data m);
  Ok (System (sys_alloc s) (e2e_last_allocation s) m (sys_deployed s)).

(** [start]: the initial allocation, the pause between collections, then one
    round per element of [rounds], each with an answer per collection.
    [params] is [None] before [initialize]; [update_profile], called with
    [retrain], prints a message. *)
Definition start (params : option (alloc_params F)) (skip_monitoring : bool) (interval : Z) (verification_th : F)
    (rounds : list (list (option (dict Z (dict Z (raw_entry F)))))) (s : system) : res system :=
  p ← or_raise ValueError params;
  s ← allocate_and_deploy s;
  _ ← sleep_interval p;
  for_all (controller_round skip_monitoring interval verification_th) rounds s.

(** ** What the loop maintains *)

Lemma foldl_deploy (al : dict Z units) (acc : allocation_map) :
  NoDup (dkeys al) → (∀ u, u ∈ dkeys al → u ∉ dkeys acc) →
  foldl deploy_entry acc ((λ p : Z * units, (p.1, of_units p.2)) <$> al) =
  acc ++ ((λ p : Z * units, (p.1, (u_cache p.2, u_mem_bw p.2))) <$> al).
Proof.
  revert acc. induction al as [|[u x] al IH]; intros acc Hnd Hdis; csimpl; [by rewrite app_nil_r|].
  rewrite dkeys_cons in Hnd. apply NoDup_cons in Hnd as [Hu Hnd].
  assert (Hset : dset acc u (u_cache x, u_mem_bw x) = acc ++ [(u, (u_cache x, u_mem_bw x))]).
  { assert (Hn : u ∉ dkeys acc) by (apply Hdis; rewrite dkeys_cons; left). clear -Hn.
    induction acc as [|[v y] acc IH]; [done|]. rewrite dkeys_cons in Hn. simpl.
    rewrite decide_False by set_solver. f_equal. apply IH. set_solver. }
  unfold deploy_entry at 2. simpl. rewrite Hset, IH; [by rewrite <- app_assoc|done|].
  intros v Hv. unfold dkeys. rewrite fmap_app. apply not_elem_of_app. split; [apply Hdis|simpl].
  - rewrite dkeys_cons. by right.
  - intros ->%list_elem_of_singleton. done.
Qed.

(** The map posted for a non-empty allocation. *)
Definition command (al : dict Z units) : allocation_map :=
  (λ p : Z * units, (p.1, (u_cache p.2, u_mem_bw p.2))) <$> al.

Lemma deploy_allocation al old :
  NoDup (dkeys al) → al ≠ [] → deploy (of_allocation al) old = (Some (command al), command al).
Proof.
  intros Hnd Hne. unfold deploy, of_allocation, update_allocation_map.
  destruct al as [|p al]; [done|]. csimpl.
  pose proof (foldl_deploy (p :: al) [] Hnd) as Hf. csimpl in Hf. rewrite Hf; [done|].
  intros u _. apply not_elem_of_nil.
Qed.

(** What the loop needs of an allocator whose states satisfy [I]: for any
    monitor the loop can have, it returns a non-empty allocation. *)
Class TotalAllocator (I : A → Prop) : Prop := {
  alloc_total : ∀ e m a, mon_reach m → I a →
    returns (allocate e m a) (λ r, NoDup (dkeys r.1) ∧ r.1 ≠ [] ∧ I r.2);
}.

(** [al] is in force: it was computed by the call that left the allocator in
    its present state, it is what is deployed, entry by entry, and what the
    monitor and the estimator see. *)
Record in_force (al : dict Z units) (s : system) : Prop := {
  if_computed : ∃ e m a, allocate e m a = Ok (al, sys_alloc s);
  if_monitor : mon_last_allocation (sys_monitor s) = al;
  if_e2e : e2e_last_allocation s = Some al;
  if_deployed : sys_deployed s = command al;
}.

(** A computed allocation is in force, in a state the monitor can have. *)
Record synced (s : system) : Prop := {
  sy_monitor : mon_reach (sys_monitor s);
  sy_force : in_force (mon_last_allocation (sys_monitor s)) s;
}.

Lemma sy_e2e s : synced s → e2e_last_allocation s = Some (mon_last_allocation (sys_monitor s)).
Proof. intros [_ Hf]. apply Hf. Qed.

(** Nothing but the monitor's records has changed. *)
Lemma synced_monitor s m :
  synced s → mon_reach m → mon_last_allocation m = mon_last_allocation (sys_monitor s) →
  synced (System (sys_alloc s) (e2e_last_allocation s) m (sys_deployed s)).
Proof. intros [_ [Hc _ He Hd]] Hm E. split; [done|]. split; simpl; by rewrite ?E. Qed.

Lemma collects_reach interval th rs m :
  mon_reach m →
  mon_reach (foldl (λ m r, collect interval th r m) m rs) ∧
  mon_last_allocation (foldl (λ m r, collect interval th r m) m rs) = mon_last_allocation m.
Proof.
  revert m. induction rs as [|r rs IH]; intros m Hm; [done|]. simpl.
  destruct (IH (collect interval th r m)) as [H1 H2].
  { by apply (reach_step (OpCollect interval th r) m). }
  split; [done|]. rewrite H2. destruct r as [r|]; [|done]. simpl.
  unfold buffer_collected_data. case_match; [done|]. case_match; [done|].
  match goal with |- mon_last_allocation (foldl ?f _ _) = _ =>
    assert (Hgen : ∀ es m1, mon_last_allocation (foldl f m1 es) = mon_last_allocation m1) end.
  { clear. induction es as [|e es IH]; intros m1; [done|]. simpl. rewrite IH.
    unfold buffer_entry, buffer_point, update_usage. by repeat case_match. }
  by rewrite Hgen.
Qed.

Section total.
Context (I : A → Prop) `{!TotalAllocator I}.

(** What one allocation puts in force. *)
Definition deploys (s s' : system) : Prop :=
  ∃ al, allocate (e2e_last_allocation s) (sys_monitor s) (sys_alloc s) = Ok (al, sys_alloc s') ∧ in_force al s'.

Lemma allocate_and_deploy_synced s :
  mon_reach (sys_monitor s) → I (sys_alloc s) →
  returns (allocate_and_deploy s) (λ s', synced s' ∧ I (sys_alloc s') ∧ deploys s s').
Proof.
  intros Hm Hi. unfold allocate_and_deploy.
  destruct (alloc_total (e2e_last_allocation s) (sys_monitor s) (sys_alloc s) Hm Hi)
    as ([al a] & Ha & Hnd & Hne & Hi'). rewrite Ha. cbn [mbind res_bind fst snd] in *.
  rewrite deploy_allocation by done. apply returns_ret.
  assert (Hf : in_force al (System a (Some al) (set_last_allocation al (sys_monitor s)) (command al)))
    by (split; eauto).
  split; [split; [|exact Hf]; by apply (reach_step (OpSetAllocation al) (sys_monitor s))|].
  split; [done|]. by exists al.
Qed.

Lemma round_synced skip interval th rs s :
  mon_reach (sys_monitor s) → I (sys_alloc s) →
  returns (controller_round skip interval th rs s) (λ s', synced s' ∧ I (sys_alloc s') ∧ deploys s s').
Proof.
  intros Hm Hi. unfold controller_round.
  rbind (by apply allocate_and_deploy_synced) as s1 (Hsy & Hi1 & al & Ha & Hf).
  destruct (collects_reach interval th rs _ (sy_monitor _ Hsy)) as [Hm2 El]. set (m2 := foldl _ _ _) in *.
  eapply returns_bind with (P := λ m3, mon_reach m3 ∧ mon_last_allocation m3 = mon_last_allocation m2).
  { destruct skip; [by apply returns_ret|].
    destruct (consume_spec m2 (mon_reach_ok _ Hm2)) as (m3 & Hc & _ & _ & _ & E & _).
    exists m3. split; [done|]. split; [|done]. by apply (reach_step OpConsume m2). }
  intros m3 [Hm3 E3]. apply returns_ret.
  split; [apply synced_monitor; [done|done|congruence]|]. split; [done|]. exists al. split; [done|].
  destruct Hf as [Hc Hmon He Hd]. split; [done| |done|done]. cbn [sys_monitor]. congruence.
Qed.
End total.

(** The rounds of the loop, one after another. *)
Lemma rounds_synced (I : A → Prop) skip interval th rounds s :
  TotalAllocator I → synced s → I (sys_alloc s) →
  returns (for_all (controller_round skip interval th) rounds s) (λ s', synced s' ∧ I (sys_alloc s')).
Proof.
  intros HI Hs Hi. apply (for_all_total (λ t, synced t ∧ I (sys_alloc t))); [|done].
  intros rs t' _ [[Hm' _] Hit]. eapply returns_mono; [by apply (round_synced I)|]. by intros s' (? & ? & _).
Qed.

(** The whole loop from any monitor it can have. *)
Lemma start_synced (I : A → Prop) p t skip interval th rounds s :
  TotalAllocator I → sleep_interval p = Ok t → mon_reach (sys_monitor s) → I (sys_alloc s) →
  returns (start (Some p) skip interval th rounds s) (λ s', synced s' ∧ I (sys_alloc s')).
Proof.
  intros HI Ht Hm Hi. unfold start. cbn [or_raise mbind res_bind].
  destruct (allocate_and_deploy_synced I s Hm Hi) as (s1 & -> & Hsy & Hi1 & _). cbn [mbind res_bind]. rewrite Ht.
  by apply rounds_synced.
Qed.

(** C26: with an allocator that always returns and a pause between
    collections, the control loop runs through any number of rounds, whatever
    the controller answers; and what the last round's call of the allocator
    returned, on the state the rounds before left, is in force at the end: it
    is the deployed map, the monitor's and the estimator's allocation. *)
Theorem controller_synced (I : A → Prop) p t skip interval th rounds r s :
  TotalAllocator I → sleep_interval p = Ok t → mon_reach (sys_monitor s) → I (sys_alloc s) →
  ∃ s0 s' al, start (Some p) skip interval th rounds s = Ok s0 ∧
    start (Some p) skip interval th (rounds ++ [r]) s = Ok s' ∧
    allocate (e2e_last_allocation s0) (sys_monitor s0) (sys_alloc s0) = Ok (al, sys_alloc s') ∧
    mon_last_allocation (sys_monitor s') = al ∧ e2e_last_allocation s' = Some al ∧
    sys_deployed s' = command al.
Proof.
  intros HI Ht Hm Hi. unfold start. cbn [or_raise mbind res_bind].
  destruct (allocate_and_deploy_synced I s Hm Hi) as (s1 & -> & Hsy & Hi1 & _). cbn [mbind res_bind]. rewrite Ht.
  cbn [mbind res_bind]. rewrite for_all_app.
  destruct (rounds_synced I skip interval th rounds s1 HI Hsy Hi1) as (s0 & -> & [Hm0 _] & Hi0).
  cbn [mbind res_bind for_all].
  destruct (round_synced I skip interval th r s0 Hm0 Hi0) as (s' & -> & _ & _ & al & Ha & [_ ? ? ?]).
  exists s0, s', al. by split_and!.
Qed.
End controller.
