(* ===== verification/Controllers.v ===== *)
(** * The control loop with its allocators

    The static allocator fulfils what the loop asks of an allocator; the
    Spirit allocator, reading the runtime estimator, keeps serving every VM
    within its capacity as long as the controller's reports are usable. *)

From S2P Require Import Prelude PyDict PyFloat Exact Resources PtasExact Base BaseExact Spirit SpiritRounds StaticAlloc Monitor MonitorFacts Estimator EstimatorExact System.

(** ** Static allocation *)

(** The static allocator as the loop calls it; it keeps no state. *)
Definition static_allocate (rs : scale xnum) (users : list Z) (num_vms : Z)
    (e : option (dict Z units)) (m : monitor xnum) (a : unit) : res (dict Z units * unit) :=
  al ← Static.allocate_and_parse rs (vm_to_app_map m) users num_vms; Ok (al, a).

#[export] Instance static_total_allocator rs users num_vms :
  scale_ok rs → users ≠ [] → num_vms ≠ 0%Z →
  TotalAllocator (static_allocate rs users num_vms) (λ _, True).
Proof.
  intros [(S & HS & HS0) (B & HB & HB0) _ _ _ _] Hu Hv. split. intros e m a _ _.
  unfold static_allocate. eapply returns_bind.
  - eapply (Static.static_total rs S B); try done; by apply Qclt_le_weak.
  - intros al [Hnd Hne]. apply returns_ret. done.
Qed.

(** ** Spirit allocation *)

(** The Spirit allocator as the loop calls it: the users' utilities are the
    runtime estimator's, and the monitor counts the records. *)
Definition spirit_allocate (rs : scale xnum) (par : spirit_params xnum) (users : list Z)
    (num_vms : Z) (skip_monitoring : bool)
    (e : option (dict Z units)) (m : monitor xnum) (s : spirit xnum)
    : res (option (dict Z units * spirit xnum)) :=
  allocate_and_parse (get_estimation e m) rs par skip_monitoring (vm_to_app_map m) users num_vms
    (total_record_of m) s.

(** [get_static_allocation] of the allocator: every user the same share *)
Definition get_static_allocations (users_ids : list Z) : res (dict Z (alloc xnum)) :=
  for_all (λ u al, a ← Ptas.get_static_allocation (Z.of_nat (length users_ids)); Ok (dset al u a)) users_ids [].

(** [get_static_utility] *)
Definition get_static_utility (rs : scale xnum) (e : option (dict Z units)) (m : monitor xnum) (users_ids : list Z)
    : res (dict Z xnum) :=
  al ← get_static_allocations users_ids; get_util_from_allocation e m rs al.

(** A loop that stores a value for every key of a list without repetitions. *)
Lemma for_all_dset {X V} (key : X → Z) (f : X → res V) (P : V → Prop) xs (d : dict Z V) :
  NoDup (dkeys d ++ (key <$> xs)) → (∀ x, x ∈ xs → returns (f x) P) →
  returns (for_all (λ x d, v ← f x; Ok (dset d (key x) v)) xs d)
    (λ d', dkeys d' = dkeys d ++ (key <$> xs) ∧ ∀ p, p ∈ d' → p ∈ d ∨ P p.2).
Proof.
  revert d. induction xs as [|x xs IH]; intros d Hnd Hf.
  { apply returns_ret. rewrite app_nil_r. auto. }
  cbn [for_all fmap list_fmap] in *. destruct (Hf x) as (v & -> & Hv); [left|]. cbn [mbind res_bind].
  apply NoDup_app in Hnd as (Hd1 & Hd2 & Hd3).
  rewrite dset_fresh by (intros Hin; apply (Hd2 _ Hin); left).
  eapply returns_mono; [apply IH|].
  - unfold dkeys. rewrite fmap_app, <- app_assoc. apply NoDup_app. auto.
  - intros y Hy. apply Hf. by right.
  - intros d' [Hk Hp]. unfold dkeys in *. rewrite Hk, fmap_app, <- app_assoc. split; [done|].
    intros p [Hin|Hin]%Hp; [|auto]. rewrite elem_of_app, list_elem_of_singleton in Hin.
    destruct Hin as [Hin| ->]; auto.
Qed.

(** With an estimate for every user and share there is a utility for each
    user, under an equal and positive share. *)
Lemma static_utility_total rs e m users :
  users ≠ [] → NoDup users → scale_ok rs →
  (∀ u c b, u ∈ users → fin c → pos b → returns (get_estimation e m u c b) (λ _, True)) →
  returns (get_static_utility rs e m users) (λ d, dkeys d = users).
Proof.
  intros Hne Hnd [(S & HS & HS0) (B & HB & HB0) _ _ _ _] Hest.
  assert (Hn : (0 < Z.of_nat (length users))%Z) by (destruct users; [done|simpl; lia]).
  unfold get_static_utility, get_static_allocations. eapply returns_bind.
  { apply (for_all_dset id _ (λ a, fin (a_cache a) ∧ pos (a_mem_bw a))); [by rewrite list_fmap_id|].
    intros u _. unfold Ptas.get_static_allocation.
    destruct (fdiv_pos (lit 1 1 : xnum) (of_Z (Z.of_nat (length users)))) as (q & -> & Hq);
      [by apply pos_lit|by apply pos_of_Z|]. apply returns_ret. split; [by apply pos_fin|done]. }
  intros al [Hk Hal]. rewrite list_fmap_id in Hk. cbn [dkeys fmap list_fmap app] in Hk.
  unfold get_util_from_allocation. eapply returns_mono; [apply (for_all_dset fst _ (λ _, True))|].
  - cbn [dkeys fmap list_fmap app]. unfold dkeys in Hk. by rewrite Hk.
  - intros p Hp. destruct (Hal p Hp) as [Hin|[Hc Hb]]; [by apply elem_of_nil in Hin|].
    apply Hest; [rewrite <- Hk; by apply (list_elem_of_fmap_2 fst)|rewrite HS; fin_auto|].
    rewrite HB. apply pos_mul; [done|by eexists].
  - intros d [-> _]. exact Hk.
Qed.

(** In a reachable state, on a usable configuration, with usable reports in
    the monitor, the Spirit allocator driven by the runtime estimator returns
    an allocation that gives every VM at most its capacity, and stays in a
    reachable state. *)
Theorem spirit_serves rs par users num_vms skip S B current m al0 s :
  usable rs par (vm_to_app_map m) users → s_cache rs = Num S → s_mem_bw rs = Num B →
  readings_ok current m → steady rs par (vm_to_app_map m) users al0 s →
  ∃ al s', spirit_allocate rs par users num_vms skip (Some current) m s = Ok (Some (al, s')) ∧
    steady rs par (vm_to_app_map m) users al s' ∧
    ∀ vm, vm ∈ vm_to_app_map m → within_capacity S B al (vm_apps vm.2 users).
Proof.
  intros [Hrs Hcap Hnd Hc Hvms] HS HB Hread Hst.
  pose proof (runtime_estimator_total current m Hread) as Hest.
  pose proof (steady_served rs Hrs par Hcap _ _ Hnd Hc Hvms _ _ Hst) as (d & Hok & _).
  destruct (round_served rs Hrs par Hcap _ _ Hnd Hc Hvms _ skip num_vms (total_record_of m) s d Hest
    (ro_inv _ _ _ _ _ _ Hok)) as (o & Ho & al & s' & -> & Hsv).
  exists al, s'. split; [done|]. split; [by eapply steady_round|].
  by eapply served_within_capacity.
Qed.
