(* ===== verification/SpiritRoom.v ===== *)
(** * The bandwidth the Spirit allocator deploys

    The estimator divides by the deployed bandwidth.  Under a configuration
    whose minimum bandwidth per user is at least 1 Mbps, and that has at least
    1 Mbps per user, every round deploys at least 1 Mbps for every user: an
    invariant of the allocator's two stored allocations. *)

From S2P Require Import Prelude PyDict PyFloat Exact Resources Ptas PtasFacts PtasExact Base BaseExact Spirit SpiritFacts SpiritExact SpiritRounds StaticAlloc.

(** The minimum bandwidth, in Gbps, is at least 1 Mbps. *)
Definition wide_minimum (rs : scale xnum) : Prop :=
  ∀ lob, s_min_mem_bw rs = Some (Num lob) → (1 <= lob * zq 1024)%Qc.

(** A share of the bandwidth that is at least 1 Mbps. *)
Definition roomy (rs : scale xnum) (a : alloc xnum) : Prop :=
  ∀ b B, a_mem_bw a = Num b → s_mem_bw rs = Num B → (1 <= b * B * zq 1024)%Qc.

(** ... or no bandwidth at all: what a round may find on its way. *)
Definition roomy0 (rs : scale xnum) (a : alloc xnum) : Prop := roomy rs a ∨ a_mem_bw a = Num 0%Qc.

Lemma roomy_pos rs a : roomy0 rs a → share_pos a → roomy rs a.
Proof. intros [?|E]; [done|]. intros [_ (b & Hb & Hb0)]. rewrite E in Hb. injection Hb as <-. by apply Qclt_not_eq in Hb0. Qed.

Lemma roomy0_share rs a a' : a_mem_bw a = a_mem_bw a' → roomy0 rs a → roomy0 rs a'.
Proof. unfold roomy0, roomy. by intros ->. Qed.

Definition all_roomy (rs : scale xnum) (d : dict Z (alloc xnum)) : Prop :=
  Forall (λ p : Z * alloc xnum, roomy rs p.2) d.

Lemma all_roomy_dset rs d u a : all_roomy rs d → roomy rs a → all_roomy rs (dset d u a).
Proof.
  intros Hd Ha. induction Hd as [|[u' a'] d H' Hd IH]; simpl; [by repeat constructor|].
  case_decide; by constructor.
Qed.

Lemma all_roomy_get rs d u a : all_roomy rs d → dget d u = Some a → roomy rs a.
Proof.
  intros Hd Hg. induction Hd as [|[u' a'] d H' Hd IH]; [done|]. simpl in Hg.
  case_decide; [by simplify_eq|auto].
Qed.

Lemma roomy_share rs a a' : a_mem_bw a = a_mem_bw a' → roomy rs a → roomy rs a'.
Proof. unfold roomy. by intros ->. Qed.

Definition all_roomy0 (rs : scale xnum) (d : dict Z (alloc xnum)) : Prop :=
  Forall (λ p : Z * alloc xnum, roomy0 rs p.2) d.

Lemma all_roomy0_dset rs d u a : all_roomy0 rs d → roomy0 rs a → all_roomy0 rs (dset d u a).
Proof.
  intros Hd Ha. induction Hd as [|[u' a'] d H' Hd IH]; simpl; [by apply Forall_singleton|].
  case_decide; by constructor.
Qed.

Lemma all_roomy0_get rs d u a : all_roomy0 rs d → dget d u = Some a → roomy0 rs a.
Proof. intros Hd Ha%dget_Some_elem. by eapply (Forall_forall _ d) in Hd; [|exact Ha]. Qed.

Lemma all_roomy0_shares rs d d' : shares d = shares d' → all_roomy0 rs d → all_roomy0 rs d'.
Proof.
  revert d'. induction d as [|[u a] d IH]; intros [|[u' a'] d'] Hs Hd; try done.
  injection Hs as -> _ E Hs. apply Forall_cons in Hd as [Ha Hd].
  constructor; [by apply (roomy0_share rs a)|by apply IH].
Qed.

(** A conversion to an integer only succeeds on finite factors. *)
Lemma fin_mul_inv (x y : xnum) : fin (x * y)%py → fin x.
Proof.
  intros [q Hq]. assert (Hinf : ∀ s, xinf s ≠ Num q) by (by intros []).
  destruct x; [by eexists|..]; destruct y; try done; by apply Hinf in Hq.
Qed.

Lemma trunc_Ok_fin (x : xnum) z : trunc x = Ok z → fin x.
Proof. destruct x; try done. intros _. by eexists. Qed.

(** The units of a roomy share. *)
Lemma scale_units_roomy rs a x :
  positive_limits rs → roomy rs a → scale_units rs a = Ok x → (1 <= u_mem_bw x)%Z.
Proof.
  intros (S & B & loc & hic & lob & hib & -> & _) Hr Hx. unfold scale_units in Hx. simpl in Hx.
  apply bind_Ok in Hx as (zc & _ & Hx). apply bind_Ok in Hx as (zb & Hzb & Hx). injection Hx as <-. simpl.
  assert (Hfin : fin (a_mem_bw a)) by (by eapply fin_mul_inv, fin_mul_inv, trunc_Ok_fin).
  destruct Hfin as [b Eb]. rewrite Eb in Hzb.
  change (Num b * Num B * of_Z 1024)%py with (Num (b * B * zq 1024)%Qc) in Hzb.
  specialize (Hr b B Eb eq_refl). set (q := (b * B * zq 1024)%Qc) in *.
  destruct (trunc_nonneg q) as (z & Hz & _ & _ & Hlt); [qc_lra|]. rewrite Hz in Hzb. injection Hzb as ->.
  clearbody q. assert (0 < zb)%Z; [|lia]. rewrite Zlt_Qlt. change (inject_Z 0) with 0%Q. qc_lra.
Qed.

(** ** The share of one user *)

Section user.
Context (rs : scale xnum) (Hrs : positive_limits rs) (Hmin : wide_minimum rs).
Context (Hmbps : ∀ B, s_mem_bw rs = Num B → (1 <= B * zq 1024)%Qc).

Lemma within_limits_roomy a : within_limits rs a → roomy rs a.
Proof.
  destruct Hrs as (S & B & loc & hic & lob & hib & -> & ? & ? & ? & ? & ? & ? & ?).
  intros (? & ? & ? & ? & [= <-] & [= <-] & [= <-] & [= <-] & _ & Hb) b B' Eb [= <-].
  specialize (Hmin lob eq_refl). rewrite Eb in Hb. apply between_Num in Hb as [Hb _]. qc_to_q. nra.
Qed.

Lemma found_roomy S B loc hic lob hib c0 static a :
  rs = Scale (Num S) (Num B) (Some (Num loc)) (Some (Num hic)) (Some (Num lob)) (Some (Num hib)) → (0 < B)%Qc →
  roomy rs static → candidate_share S B loc hic lob hib c0 static a → roomy0 rs a.
Proof.
  intros E HB Hst [_ Hw | _ Hb | b _ Hb Hlo _ | z _ _ Hb Hz].
  - left. rewrite <- E in Hw. by apply within_limits_roomy.
  - left. by apply (roomy_share rs static).
  - left. intros b' B'. rewrite Hb, E. intros [= <-] [= <-]. specialize (Hmin lob). rewrite E in Hmin.
    specialize (Hmin eq_refl). eapply Qcle_trans; [exact Hmin|]. by apply Qcmult_le_compat_r.
  - destruct (decide (z = 0)%Z) as [->|Hne]; [right; by rewrite Hb|left].
    intros b' B'. rewrite Hb. intros [= <-] EB. specialize (Hmbps B' EB).
    assert (Hz1 : (1 <= zq z)%Qc) by (change 1%Qc with (zq 1); apply zq_le; lia).
    unfold zq in Hz1. set (q := Q2Qc (inject_Z z)) in *. set (k := zq 1024) in *. clear - Hmbps Hz1. qc_to_q. nra.
Qed.

Lemma ptas_roomy est user epsilon budget pr last_allocation last_static sr P a n rl :
  pos epsilon →
  (∀ st, last_static ≫= (λ d, dget d user) = Some st → roomy rs st) →
  ptas_algorithm est user epsilon budget pr last_allocation last_static rs sr P = Ok (Some a, n, rl) →
  roomy0 rs a.
Proof.
  intros Heps Hst [u [Hs | last _ _ Hw _ | c points _ _ [_ _ _ Hw]]]%ptas_origin;
    destruct (limits_scale_ok rs Hrs) as [_ Hens]; rewrite Hens in *; [|left; by apply within_limits_roomy..].
  pose proof Hrs as (S & B & loc & hic & lob & hib & E & ? & ? & ? & ? & ? & ? & ?).
  destruct (last_static ≫= _) as [st|] eqn:Est; [|by unfold static_candidate in Hs; rewrite Est in Hs].
  rewrite E in Hs. eapply static_candidate_found in Hs as (? & ? & ? & ? & _ & _ & _ & _ & Hf); try done.
  eapply found_roomy; [exact E|done| |exact Hf]. by apply Hst.
Qed.
End user.

(** ** Rounds *)

Section rounds.
Context (rs : scale xnum) (Hrs : positive_limits rs) (Hmin : wide_minimum rs).
Context (B : Qc) (HB : s_mem_bw rs = Num B).
Context (par : spirit_params xnum) (Hgran : pos (search_granularity par)) (users : list Z).
Context (Hroom : (zq (Z.of_nat (length users)) <= B * zq 1024)%Qc).

Let n_users := Z.of_nat (length users).

Lemma inv_share_roomy n : (0 < n <= n_users)%Z → roomy rs (inv_share n).
Proof.
  intros [Hn Hle] b B' Hb HB'. rewrite HB in HB'. injection HB' as <-.
  simpl in Hb. injection Hb as <-. pose proof (zq_pos n Hn) as Hp.
  apply zq_le in Hle. fold n_users in Hroom.
  assert (Hk : (0 < / zq n)%Qc).
  { rewrite <- (Qcmult_1_l (/ _)). by apply Qcdiv_pos. }
  rewrite <- (Qcmult_inv_l (zq n)) by by apply pos_ne0.
  rewrite <- Qcmult_assoc, !(Qcmult_comm (/ zq n)). apply Qcmult_le_compat_r; [|by apply Qclt_le_weak].
  by eapply Qcle_trans.
Qed.

Lemma equal_share_roomy n a : (0 < n <= n_users)%Z → equal_share n = Ok a → roomy rs a.
Proof. intros Hn. rewrite equal_share_Num by lia. intros [= <-]. by apply inv_share_roomy. Qed.

(** The units deployed so far. *)
Definition units_roomy (al : dict Z units) : Prop :=
  NoDup (dkeys al) ∧ ∀ u x, dget al u = Some x → (1 <= u_mem_bw x)%Z.

Lemma units_roomy_dset al u x : units_roomy al → (1 <= u_mem_bw x)%Z → units_roomy (dset al u x).
Proof.
  intros [Hnd Hal] Hx. split; [by apply NoDup_dset|].
  intros u' x'. rewrite dget_dset. case_decide; [by intros [= <-]|apply Hal].
Qed.

Lemma units_roomy_nil : units_roomy [].
Proof. split; [constructor|done]. Qed.

(** Both allocations the state holds. *)
Record state_roomy (s : spirit xnum) : Prop := {
  sr_last : ∀ d, last_allocation s = Some d → all_roomy0 rs d;
  sr_static : ∀ d, last_static_allocation s = Some d → all_roomy rs d;
}.

(** *** Static rounds *)

Definition static_roomy (acc : dict Z units * dict Z (alloc xnum)) : Prop :=
  units_roomy acc.1 ∧ all_roomy rs acc.2.

Lemma static_entry_roomy u n acc acc' :
  (0 < n <= n_users)%Z → static_roomy acc → static_entry rs u n acc = Ok acc' → static_roomy acc'.
Proof.
  intros Hn [Hu Hd] He. unfold static_entry in He. apply bind_Ok in He as (x & Hx & He).
  apply bind_Ok in He as (a & Ha & He). injection He as <-.
  pose proof Hrs as (S & B' & ? & ? & ? & ? & E & _).
  rewrite (equal_units_scale n ltac:(lia) rs S B') in Hx by (by rewrite E).
  pose proof (scale_units_roomy _ _ _ Hrs (inv_share_roomy n Hn) Hx).
  split; simpl; [by apply units_roomy_dset|].
  apply all_roomy_dset; [done|]. by eapply equal_share_roomy.
Qed.

Lemma length_vm_apps (vm : Z * list Z) :
  NoDup vm.2 → (Z.of_nat (length (vm_apps vm.2 users)) <= n_users)%Z.
Proof.
  intros Hnd. apply inj_le, submseteq_length, NoDup_submseteq; [by apply NoDup_vm_apps|].
  by intros u [_ ?]%elem_of_vm_apps.
Qed.

Lemma static_mapped_roomy m acc :
  NoDup (mapped_users m) → static_mapped rs users m = Ok acc → static_roomy acc.
Proof.
  intros Hm. apply (for_all_inv static_roomy); [|split; [apply units_roomy_nil|constructor]].
  intros vm t t' Hvm Ht. unfold static_vm. apply (for_all_inv static_roomy); [|done].
  intros u r r' Hu. apply static_entry_roomy.
  pose proof (length_vm_apps vm (vm_NoDup m Hm vm Hvm)).
  destruct (vm_apps vm.2 users); [set_solver|simpl in *; lia].
Qed.

Lemma flat_group_le num_vms i :
  (0 < num_vms)%Z → (0 <= i < n_users)%Z →
  (0 < flat_group_size n_users num_vms (Z.max 1 (n_users / num_vms)) i <= n_users)%Z.
Proof.
  intros Hv Hi. split; [apply Static.flat_group_pos; lia|].
  assert (n_users / num_vms <= n_users)%Z by (apply Z.div_le_upper_bound; nia).
  unfold flat_group_size. set (per := Z.max 1 _) in *.
  assert (0 <= i / per)%Z by (apply Z.div_pos; lia). case_match; nia.
Qed.

Lemma static_flat_roomy num_vms acc :
  (0 < num_vms)%Z → static_flat rs users num_vms = Ok acc → static_roomy acc.
Proof.
  intros Hv. unfold static_flat, users_per_vm, py_floordiv.
  rewrite (proj2 (Z.eqb_neq _ _)) by lia. cbn [mbind res_bind].
  apply (for_all_inv static_roomy); [|split; [apply units_roomy_nil|constructor]].
  intros [i u] t t' Hp. unfold enumerate in Hp. apply elem_of_zip_l, elem_of_seqZ in Hp.
  by apply static_entry_roomy, flat_group_le.
Qed.

(** *** Dynamic rounds *)

Section dynamic.
Context (est : Z → xnum → xnum → res xnum).

Lemma find_best_roomy pr us weights s cur ns rl :
  (Z.of_nat (length us) <= n_users)%Z → state_roomy s →
  find_best_allocation_per_user est rs par pr us weights s = Ok (cur, ns, rl) → all_roomy0 rs cur.
Proof.
  intros Hlen Hs. unfold find_best_allocation_per_user.
  apply (for_all_inv (λ acc : dict Z (alloc xnum) * list Z * resource_limited, all_roomy0 rs acc.1.1)); [|constructor].
  intros u [[al ns0] rl0] acc' Hu Hal Hb. unfold best_for_user in Hb.
  apply bind_Ok in Hb as (last & _ & Hb). apply bind_Ok in Hb as (c & _ & Hb).
  apply bind_Ok in Hb as (w & _ & Hb). apply bind_Ok in Hb as ([[o ni] rl'] & Hp & Hb).
  apply bind_Ok in Hb as (a & Ha & Hb). injection Hb as <-. simpl in *.
  pose proof (length_pos_elem u us Hu) as Hn. apply all_roomy0_dset; [done|]. destruct o as [a'|].
  - injection Ha as <-. eapply ptas_roomy; [done|done| |done| |exact Hp].
    + intros B'. rewrite HB. intros [= <-]. eapply Qcle_trans; [|exact Hroom].
      change 1%Qc with (zq 1). apply zq_le. fold n_users. lia.
    + intros st Hst. destruct (last_static_allocation s) as [d|] eqn:E; [|done].
      simpl in Hst. eapply all_roomy_get; [|done]. by apply Hs.
  - left. apply (equal_share_roomy (Z.of_nat (length us))); [lia|exact Ha].
Qed.

Lemma allocate_roomy us weights s cur conv s' :
  (Z.of_nat (length us) <= n_users)%Z → state_roomy s →
  allocate est rs par Binary us weights s = Ok (Some (cur, conv, s')) →
  all_roomy0 rs cur ∧ state_roomy s'.
Proof.
  intros Hlen Hs (r & cur' & [= -> -> ->] & Hl & Hsh)%allocate_inv.
  apply price_loop_leaves in Hl as (pr & cur0 & ns & rl & Hf & Hleave & Hst).
  assert (Hr : all_roomy0 rs (sr_alloc r)).
  { destruct Hleave as [(_ & -> & _)|(_ & _ & E & _)]; [by eapply find_best_roomy|]. by apply Hs. }
  assert (Hcur : all_roomy0 rs cur') by (by eapply all_roomy0_shares).
  split; [done|]. destruct Hs as [Hlast Hstat].
  destruct Hleave as [(El & _ & E & _)|(El & _)]; rewrite El; split; simpl.
  - by rewrite E.
  - by rewrite Hst.
  - by intros d [= <-].
  - by rewrite Hst.
Qed.

Lemma record_users_roomy cur acc acc' :
  all_roomy0 rs cur → NoDup (dkeys acc.1) ∧ state_roomy acc.2 →
  for_all (record_user rs) cur acc = Ok acc' → NoDup (dkeys acc'.1) ∧ state_roomy acc'.2.
Proof.
  intros Hcur. apply (for_all_inv (λ acc, NoDup (dkeys acc.1) ∧ state_roomy acc.2)).
  intros [u a] [al s] t' Hp [Hal [Hs Hst]] Hr.
  eapply Forall_forall in Hcur; [|exact Hp]. simpl in *.
  apply bind_Ok in Hr as (last & Hl & Hr). apply bind_Ok in Hr as (x & Hx & Hr). injection Hr as <-.
  apply or_raise_Ok in Hl. simpl. split; [by apply NoDup_dset|]. split; [|done].
  intros d [= <-]. apply all_roomy0_dset; [by apply Hs|]. by case_match.
Qed.

Definition round_roomy (o : option (dict Z units * spirit xnum)) : Prop :=
  ∀ al s, o = Some (al, s) → NoDup (dkeys al) ∧ state_roomy s.

Lemma allocate_vm_roomy vm o o' :
  NoDup vm.2 → round_roomy o → allocate_vm est rs par users vm o = Ok o' → round_roomy o'.
Proof.
  intros Hnd Ho Hr. unfold allocate_vm in Hr. destruct o as [[al s]|]; [|by injection Hr as <-].
  destruct (Ho al s eq_refl) as [Hal Hs]. pose proof (length_vm_apps vm Hnd) as Hlen.
  destruct (vm_apps vm.2 users) as [|x apps] eqn:E; [by injection Hr as <-|]. rewrite <- E in *.
  apply bind_Ok in Hr as (w & _ & Hr).
  apply bind_Ok in Hr as ([[[cur conv] s1]|] & Ha & Hr); [|by injection Hr as <-].
  apply bind_Ok in Hr as (acc & Hrec & Hr). injection Hr as <-.
  apply allocate_roomy in Ha as [Hcur Hs1]; [|done..].
  intros al' s' [= ->]. by apply record_users_roomy in Hrec.
Qed.

(** The shares a round leaves have no bandwidth or at least 1 Mbps. *)
Lemma round_keeps_roomy skip m num_vms total_record s o :
  NoDup (mapped_users m) → (0 < num_vms)%Z → state_roomy s →
  allocate_and_parse est rs par skip m users num_vms total_record s = Ok o → round_roomy o.
Proof.
  intros Hm Hv Hs Hr. unfold allocate_and_parse in Hr. destruct (_ || _).
  - apply bind_Ok in Hr as ([al last] & Hst & Hr). injection Hr as <-.
    assert (Hroomy : static_roomy (al, last)).
    { case_match; [by eapply static_mapped_roomy|by eapply static_flat_roomy]. }
    destruct Hroomy as [[Hal _] Hlast]. intros al' s' [= <- <-]. split; [done|].
    split; intros d [= <-]; [|done]. eapply Forall_impl; [exact Hlast|]. intros p Hp. by left.
  - eapply (for_all_inv round_roomy); [| |exact Hr].
    + intros vm t t' Hvm. apply allocate_vm_roomy. by eapply vm_NoDup.
    + intros al s' [= <- <-]. split; [constructor|done].
Qed.
End dynamic.

(** Where the shares are positive, what is deployed is at least 1 Mbps. *)
Lemma served_roomy m al s :
  served rs m users al s → NoDup (dkeys al) → state_roomy s → units_roomy al.
Proof.
  intros (d & [[Hl _ Hpos _ _ _] Hag] & _) Hnd [Hlast _]. split; [done|]. intros u x Hx.
  destruct (Hag u x Hx) as (a & Ha & Hu). eapply scale_units_roomy; [done| |exact Hu].
  apply roomy_pos; [|by apply (Hpos u)]. by eapply all_roomy0_get; [apply Hlast|].
Qed.
End rounds.
