(* ===== verification/MonitorReadings.v ===== *)
(** * What the monitor lets the estimator read

    While the controller's responses carry usable curves, the curves and the
    usage the estimator reads stay usable; and an application that is deployed
    gets at most one record per round. *)

From S2P Require Import Prelude PyDict Nested PyFloat Exact Resources PtasExact Base Monitor MonitorFacts Estimator EstimatorExact.

(** ** Usable responses *)

(** No curve, or one the estimator can interpolate on. *)
Definition usable_curve (l : mrc_data xnum) : Prop := l = [] ∨ fin_curve l.

Definition usable_entry (e : entry xnum) : Prop := ∀ l, e_mrc e = Some l → usable_curve l.

Definition usable_response (r : dict Z (dict Z (raw_entry xnum))) : Prop :=
  ∀ p q l, p ∈ r → q ∈ p.2 → raw_mrc q.2 = Some l → usable_curve l.

(** The VM map of a response. *)
Definition map_of (r : dict Z (dict Z (raw_entry xnum))) : vm_map :=
  (λ p : Z * dict Z (raw_entry xnum), (p.1, dkeys p.2)) <$> r.

Record read_ok (m : monitor xnum) : Prop := {
  rd_buffered : ∀ u c b l, get3 (buffered_mrc m) u c b = Some l → usable_curve l;
  rd_mrc : ∀ u, usable_curve (get_last_mrc m u);
  rd_usage : ∀ u x, get_last_usage m u = Some x → fin x.1 ∧ fin x.2;
}.

Lemma read_ok_new : read_ok new_monitor.
Proof. by split; [|left|]. Qed.

(** The smoothed curve has the points of one of the two. *)
Lemma weighted_update_usable old new :
  usable_curve old → fin_curve new → fin_curve (weighted_update_list old new).
Proof.
  intros Hold [Hlen Hnew]. unfold weighted_update_list. destruct new as [|n0 new0] eqn:E; [simpl in Hlen; lia|].
  rewrite <- E in *. clear n0 new0 E.
  set (old' := match old with [] => _ | _ => _ end).
  assert (Hold' : fin_curve old').
  { destruct Hold as [->|Hold]; [|subst old'; destruct old; [destruct Hold; simpl in *; lia|done]].
    subst old'. cbv iota. split; [by rewrite length_fmap|]. apply Forall_fmap. eapply Forall_impl; [exact Hnew|].
    intros p [? ?]. split; simpl; [done|fin_auto]. }
  clearbody old'. destruct (same_keys old' new) eqn:Es; [|done].
  apply andb_true_iff in Es as [Es _]. apply bool_decide_eq_true in Es.
  destruct Hold' as [Hlo Hfo]. split; [rewrite length_zip_with; lia|].
  clear -Hfo Hnew. revert new Hnew. induction Hfo as [|o old [? ?] Ho IH]; intros new Hnew; [constructor|].
  destruct Hnew as [|n new [? ?] Hn]; [constructor|]. simpl. constructor; [|by apply IH].
  split; simpl; [done|]. unfold smooth, ewma_alpha. fin_auto.
Qed.

Lemma update_usage_read u pt m : read_ok m → read_ok (update_usage u pt m).
Proof.
  intros [Hb Hm Hu]. split; [exact Hb|exact Hm|]. intros v x. unfold get_last_usage, update_usage. simpl.
  rewrite dget_dset. case_decide as E; [|apply Hu]. subst v. intros [= <-].
  destruct (dget (last_usage m) u) as [[oc ob]|] eqn:E; [|split; fin_auto].
  destruct (Hu u _ E) as [? ?]. simpl in *. unfold weighted_update_value, smooth, ewma_alpha. split; fin_auto.
Qed.

Lemma set_buffers_read bd bm m :
  read_ok m → (∀ u c b l, get3 bm u c b = Some l → usable_curve l) → read_ok (set_buffers bd bm m).
Proof. by intros [_ ? ?] ?. Qed.

Lemma at3_usable u c b f (bm : dict Z (dict Z (dict Z (mrc_data xnum)))) :
  (∀ u c b l, get3 bm u c b = Some l → usable_curve l) →
  (∀ l, usable_curve l → usable_curve (f l)) →
  ∀ u' c' b' l, get3 (at3 [] u c b f bm) u' c' b' = Some l → usable_curve l.
Proof.
  intros Hbm Hf u' c' b' l. rewrite get3_at3. case_decide; [|apply Hbm]. intros [= <-]. apply Hf.
  destruct (get3 bm u c b) eqn:E; simpl; [by eapply Hbm|by left].
Qed.

Lemma buffer_point_read u pt mrc m :
  read_ok m → (∀ l, mrc = Some l → usable_curve l) → read_ok (buffer_point u pt mrc m).
Proof.
  intros Hm Hl. pose proof (rd_buffered _ Hm) as Hb. unfold buffer_point.
  assert (Hid := λ c b, at3_usable u c b id _ Hb (λ l H, H)).
  case_match; [apply set_buffers_read; [done|apply Hid]|].
  destruct mrc as [[|p l]|]; [apply set_buffers_read; [done|apply Hid]| |apply set_buffers_read; [done|apply Hid]].
  destruct (Hl _ eq_refl) as [[=]|Hcurve].
  apply update_usage_read, set_buffers_read; [done|]. apply at3_usable; [apply Hid|].
  intros old Hold. right. by apply weighted_update_usable.
Qed.

(** ** Collections *)

(** What a collection leaves alone, besides the map it installs. *)
Record outer_same (m m' : monitor xnum) : Prop := {
  os_records : collected_data m' = collected_data m;
  os_allocation : mon_last_allocation m' = mon_last_allocation m;
  os_map : vm_to_app_map m' = vm_to_app_map m;
}.

Lemma buffer_entry_outer ur rr th e m : outer_same m (buffer_entry ur rr th e m).
Proof. unfold buffer_entry, buffer_point, update_usage. by repeat case_match. Qed.

Lemma buffer_entry_read ur rr th e m :
  usable_entry e → read_ok m → read_ok (buffer_entry ur rr th e m).
Proof.
  intros He Hm. unfold buffer_entry. repeat case_match; try done. by apply buffer_point_read.
Qed.

(** The buffered pairs of [v] are all [(c, b)]. *)
Definition single (v c b : Z) (m : monitor xnum) : Prop :=
  ∀ c' b', is_Some (get3 (buffered_data m) v c' b') → c' = c ∧ b' = b.

(** The entry reports [v] at the allocation it has. *)
Definition reports (v : Z) (x : units) (e : entry xnum) : Prop :=
  e_app_id e = Some v → e_cache_size e = Some (u_cache x) ∧ e_bandwidth e = Some (u_mem_bw x).

Lemma entry_point_alloc rr th e pt :
  entry_point false rr th e = Ok (Some pt) →
  e_cache_size e = Some (pt_cache pt) ∧ e_bandwidth e = Some (pt_mem_bw pt).
Proof.
  unfold entry_point. intros Hp.
  destruct (e_cache_size e) as [c|]; [|done]. apply bind_Ok in Hp as (cr & _ & Hp). case_match; [done|].
  destruct (e_bandwidth e) as [b|]; [|done]. apply bind_Ok in Hp as (br & _ & Hp). case_match; [done|].
  destruct (e_perf e); [|done]. by injection Hp as <-.
Qed.

Lemma buffer_entry_single rr th e m v x :
  reports v x e → single v (u_cache x) (u_mem_bw x) m →
  single v (u_cache x) (u_mem_bw x) (buffer_entry false rr th e m).
Proof.
  intros He Hs. unfold buffer_entry. destruct (e_app_id e) as [u|] eqn:Eu; [|done].
  destruct (entry_point _ _ _ e) as [[pt|]|] eqn:Ep; [|done..].
  apply entry_point_alloc in Ep as [Ec Eb].
  assert (Hpt : u = v → pt_cache pt = u_cache x ∧ pt_mem_bw pt = u_mem_bw x).
  { intros ->. destruct (He Eu). split; congruence. }
  assert (Hat : ∀ f (bd : dict Z (dict Z (dict Z (list Z)))), (∀ c' b', is_Some (get3 bd v c' b') → c' = u_cache x ∧ b' = u_mem_bw x) →
    ∀ c' b', is_Some (get3 (at3 [] u (pt_cache pt) (pt_mem_bw pt) f bd) v c' b') →
    c' = u_cache x ∧ b' = u_mem_bw x).
  { intros f bd Hbd c' b'. rewrite get3_at3. case_decide as Hd; [|apply Hbd].
    intros _. destruct Hd as (-> & <- & <-). by apply Hpt. }
  unfold buffer_point, single. case_match; [by apply Hat|].
  destruct (e_mrc e) as [[|p l]|]; simpl; by do 2 apply Hat.
Qed.

(** The entries of a response. *)
Definition entries_of (r : dict Z (dict Z (raw_entry xnum))) (m : monitor xnum) : list (entry xnum) :=
  (parse_log_entries true r m).1.

Lemma elem_of_entries r m e :
  e ∈ entries_of r m →
  ∃ p q, p ∈ r ∧ q ∈ p.2 ∧ e = log_entry true (mon_last_allocation m) q.1 q.2.
Proof.
  intros (p & He & Hp)%list_elem_of_bind. apply list_elem_of_fmap in He as (q & -> & Hq). eauto.
Qed.

(** An invariant of a collection is one of buffering an entry. *)
Lemma collect_inv (P : monitor xnum → Prop) interval th r m :
  (∀ n m', P m' → P (set_num_buffered n m')) →
  (∀ e m', e ∈ entries_of r m → P m' → P (buffer_entry false 8 th e m')) →
  P (set_vm_map (map_of r) m) → P (collect interval th (Some r) m).
Proof.
  intros Hn He Hm.
  change (P (buffer_collected_data interval (entries_of r m) false 8 1 th (set_vm_map (map_of r) m))).
  unfold buffer_collected_data. destruct (entries_of r m) as [|e es]; [done|].
  set (m1 := set_num_buffered _ _). assert (Hm1 : P m1) by (by apply Hn).
  destruct (_ && _); [done|]. clearbody m1. revert m1 Hm1 He. generalize (e :: es). clear.
  induction l as [|e l IH]; intros m1 Hm1 He; [done|]. simpl. apply IH; [|set_solver].
  apply He; [left|done].
Qed.

Lemma collect_read interval th r m :
  usable_response r → read_ok m → read_ok (collect interval th (Some r) m).
Proof.
  intros Hr Hm. apply collect_inv; [by intros n m' []| |by destruct Hm].
  intros e m' (p & q & Hp & Hq & ->)%elem_of_entries. apply buffer_entry_read.
  intros l. unfold log_entry. destruct (dget _ q.1) as [u|]; simpl; by apply (Hr p q).
Qed.

Lemma collect_outer interval th r m :
  outer_same (set_vm_map (map_of r) m) (collect interval th (Some r) m).
Proof.
  apply collect_inv; [by intros n m' []| |done].
  intros e m' _ [E1 E2 E3]. destruct (buffer_entry_outer false 8 th e m') as [F1 F2 F3].
  split; congruence.
Qed.

Lemma collect_single interval th r m v x :
  dget (mon_last_allocation m) v = Some x → single v (u_cache x) (u_mem_bw x) m →
  single v (u_cache x) (u_mem_bw x) (collect interval th (Some r) m).
Proof.
  intros Hx Hs. apply (collect_inv (single v (u_cache x) (u_mem_bw x))); [done| |done].
  intros e m' (p & q & Hp & Hq & ->)%elem_of_entries. apply buffer_entry_single.
  unfold reports, log_entry. intros Ev.
  assert (q.1 = v) as -> by (destruct (dget _ q.1) as [u|]; by injection Ev). by rewrite Hx.
Qed.

(** ** Consumptions *)

(** The number of records of an application. *)
Definition count (m : monitor xnum) (v : Z) : Z := total_record (app_of (collected_data m) v).

(** What consuming one pair does. *)
Record consumed (m m' : monitor xnum) (u c b : Z) : Prop := {
  cs_frame : ∃ cd, m' = set_collected cd m;
  cs_mrc : ∀ v, get_last_mrc m' v = get_last_mrc m v ∨ get3 (buffered_mrc m) u c b = Some (get_last_mrc m' v);
  cs_count : ∀ v, count m' v = (count m v + if decide (u = v) then 1 else 0)%Z;
}.

Lemma consume_point_consumed u c b l m m' :
  consume_point u c b l m = Ok m' → consumed m m' u c b.
Proof.
  unfold consume_point. fold (app_of (collected_data m) u). set (ad := app_of (collected_data m) u).
  set (t := if dmem (datapoints ad) c then _ else _). destruct t as [[dp lu] isn].
  intros H. apply bind_Ok in H as (cd & _ & H). apply bind_Ok in H as ([[dp' lu'] isn'] & _ & H).
  apply bind_Ok in H as (cd' & _ & H). apply bind_Ok in H as (rec & _ & H).
  apply bind_Ok in H as (luc & _ & H). apply bind_Ok in H as (mu & Hmu & H).
  apply bind_Ok in H as (mc & Hmc & H). apply bind_Ok in H as (mrc & Hmrc & H). injection H as <-.
  apply or_raise_Ok in Hmu, Hmc, Hmrc. split.
  - by eexists.
  - intros v. unfold get_last_mrc. simpl. rewrite dget_dset. case_decide; [right|by left].
    unfold get3, get2. rewrite Hmu. simpl. by rewrite Hmc.
  - intros v. unfold count, app_of. simpl. rewrite dget_dset. case_decide as E; [|lia].
    subst v. simpl. done.
Qed.

Lemma consume_points_count u pts m m' :
  for_all (λ t, consume_point u t.1.1 t.1.2 t.2) pts m = Ok m' →
  ∀ v, count m' v = (count m v + if decide (u = v) then Z.of_nat (length pts) else 0)%Z.
Proof.
  revert m. induction pts as [|t pts IH]; intros m H v; simpl in H.
  { injection H as <-. case_decide; simpl; lia. }
  apply bind_Ok in H as (m1 & H1 & H). apply consume_point_consumed in H1 as [_ _ Hc].
  rewrite (IH m1 H v), Hc. case_decide; simpl; lia.
Qed.

Lemma stamp_user_same u m :
  (∃ cd, stamp_user u m = set_collected cd m) ∧
  (∀ v, get_last_mrc (stamp_user u m) v = get_last_mrc m v) ∧
  ∀ v, count (stamp_user u m) v = count m v.
Proof.
  unfold stamp_user. destruct (dget (collected_data m) u) as [ad|] eqn:E.
  - split; [by eexists|]. split; intros v; unfold get_last_mrc, count, app_of; simpl; rewrite dget_dset;
      case_decide as Hv; try done; subst v; by rewrite E.
  - split; [exists (collected_data m); by destruct m|]. done.
Qed.

Lemma consume_user_count p m m' :
  consume_user p m = Ok m' →
  ∀ v, count m' v = (count m v + if decide (p.1 = v) then Z.of_nat (length (flat2 p.2)) else 0)%Z.
Proof.
  unfold consume_user. intros H v. apply bind_Ok in H as (m1 & H1 & H). injection H as <-.
  rewrite (for_all_flat2 (consume_point p.1)) in H1.
  destruct (stamp_user_same p.1 m1) as (_ & _ & ->). by apply consume_points_count.
Qed.

Lemma consume_users_count bd m m' v :
  NoDup (dkeys bd) → for_all consume_user bd m = Ok m' →
  count m' v = (count m v + Z.of_nat (length (flat2 (default [] (dget bd v)))))%Z.
Proof.
  revert m. induction bd as [|[u ud] bd IH]; intros m Hnd H.
  { injection H as <-. simpl. lia. }
  rewrite dkeys_cons in Hnd. apply NoDup_cons in Hnd as [Hu Hnd].
  cbn [for_all] in H. apply bind_Ok in H as (m1 & H1 & H).
  rewrite (IH m1 Hnd H), (consume_user_count _ _ _ H1). simpl. case_decide as E.
  - subst v. rewrite decide_True by done. apply dget_None_keys in Hu. rewrite Hu. simpl. lia.
  - rewrite decide_False by done. lia.
Qed.

(** One buffered pair makes one record. *)
Lemma flat2_single (d : dict Z (dict Z (list Z))) c b :
  wf2 d → (∀ c' b', is_Some (get2 d c' b') → c' = c ∧ b' = b) → (length (flat2 d) <= 1)%nat.
Proof.
  intros Hwf Hs. pose proof (found_flat2 d c b Hwf) as Hf.
  assert (Hall : ∀ t, t ∈ flat2 d → t.1.1 = c ∧ t.1.2 = b).
  { intros [[c' b'] l] Ht. apply Hs. simpl. apply elem_of_found in Ht. rewrite found_flat2 in Ht by done.
    destruct (get2 d c' b'); [by eexists|]. by apply not_elem_of_nil in Ht. }
  assert (Hlen : length (found (flat2 d) c b) = length (flat2 d)).
  { clear Hf. induction (flat2 d) as [|t l IH]; [done|]. unfold found in *. csimpl.
    rewrite decide_True by (apply Hall; left). simpl. f_equal. apply IH.
    intros t' Ht'. apply Hall. by right. }
  rewrite <- Hlen, Hf. destruct (get2 d c b); simpl; lia.
Qed.

Lemma consume_count m m' v c b :
  mon_ok m → single v c b m → consume_collected_data m = Ok m' → (count m' v <= count m v + 1)%Z.
Proof.
  intros [[[Hnd Hwf] _ _] _ _ _] Hs H. unfold consume_collected_data in H.
  apply bind_Ok in H as (m1 & H1 & H). injection H as <-.
  change (count m1 v <= count m v + 1)%Z.
  rewrite (consume_users_count _ _ _ v Hnd H1).
  change (count (update_recent_measurement _) v) with (count m v).
  assert (length (flat2 (default [] (dget (buffered_data m) v))) <= 1)%nat; [|simpl; lia].
  destruct (dget (buffered_data m) v) as [ud|] eqn:E; [|simpl; lia]. simpl.
  apply (flat2_single ud c b); [by eapply Hwf|]. intros c' b' Hg. apply Hs. unfold get3. by rewrite E.
Qed.

Lemma consume_read m m' : read_ok m → consume_collected_data m = Ok m' → read_ok m'.
Proof.
  intros Hm H. unfold consume_collected_data in H. apply bind_Ok in H as (m1 & H1 & H). injection H as <-.
  assert (Hread : read_ok m1); [|by destruct Hread].
  eapply (for_all_inv read_ok); [| |exact H1]; [|by destruct Hm].
  intros p t t' _ Ht Hp. unfold consume_user in Hp. apply bind_Ok in Hp as (t1 & Hp & E). injection E as <-.
  rewrite (for_all_flat2 (consume_point p.1)) in Hp.
  assert (Ht1 : read_ok t1).
  { eapply (for_all_inv read_ok); [|exact Ht|exact Hp]. clear.
    intros q t t' _ [Hb Hr Hu] Hq%consume_point_consumed. destruct Hq as [[cd ->] Hmrc _].
    split; [exact Hb| |exact Hu]. intros v. destruct (Hmrc v) as [->|E]; [done|]. by eapply Hb. }
  destruct (stamp_user_same p.1 t1) as ([cd E] & Hmrc & _).
  destruct Ht1 as [Hb Hr Hu]. split; [by rewrite E|intros v; by rewrite Hmrc|].
  unfold get_last_usage. by rewrite E.
Qed.

Lemma consume_map m m' :
  consume_collected_data m = Ok m' → vm_to_app_map m' = vm_to_app_map m.
Proof.
  intros H. unfold consume_collected_data in H. apply bind_Ok in H as (m1 & H1 & H). injection H as <-.
  simpl. set (mp := vm_to_app_map m).
  eapply (for_all_inv (λ t, vm_to_app_map t = mp)); [| |exact H1]; [|done].
  intros p t t' _ <- Hp. unfold consume_user in Hp. apply bind_Ok in Hp as (t1 & Hp & E). injection E as <-.
  rewrite (for_all_flat2 (consume_point p.1)) in Hp.
  destruct (stamp_user_same p.1 t1) as ([cd ->] & _). simpl.
  eapply (for_all_inv (λ t1, vm_to_app_map t1 = vm_to_app_map t)); [|done|exact Hp]. clear.
  intros q t1 t2 _ <- Hq%consume_point_consumed. by destruct Hq as [[cd ->] _ _].
Qed.

(** What the estimator needs of the monitor and the deployed bandwidth. *)
Lemma read_ok_readings current m :
  read_ok m → (∀ u x, dget current u = Some x → (1 <= u_mem_bw x)%Z) → readings_ok current m.
Proof.
  intros [_ Hm Hu] Hc u a usage Ha Hus Hne. split; [specialize (Hc u a Ha); lia|].
  split; [by apply (Hu u)|]. by destruct (Hm u) as [E|Hfin].
Qed.

(** ** Resets *)

Lemma reset_read app m : read_ok m → read_ok (reset_metrics_for_app app m).1.
Proof.
  intros [Hb Hm Hu]. split.
  - intros u c b l. simpl. rewrite get3_clear_key. case_decide; [done|apply Hb].
  - intros u. unfold get_last_mrc. simpl. rewrite dget_clear_key. case_decide as E; [|apply Hm].
    destruct (dget (collected_data m) u); by left.
  - intros u x. unfold get_last_usage. simpl. rewrite dget_clear_key. case_decide as E; [|apply Hu].
    destruct (dget (last_usage m) u); [|done]. intros [= <-]. split; fin_auto.
Qed.

Lemma reset_single app m v c b : single v c b m → single v c b (reset_metrics_for_app app m).1.
Proof.
  intros Hs c' b'. simpl. rewrite get3_clear_key. case_decide; [by intros [? [=]]|apply Hs].
Qed.

(** A reset never adds records. *)
Lemma reset_count app m v k :
  (0 <= k)%Z → (count m v <= k)%Z → (count (reset_metrics_for_app app m).1 v <= k)%Z.
Proof.
  intros Hk Hc. unfold count, app_of in *. simpl. rewrite dget_clear_key.
  case_decide; [|done]. by destruct (dget (collected_data m) v).
Qed.
