(* ===== verification/Interleaving.v ===== *)
(** * The control loop and the reset API

    The server of metrics_reset_server.py runs in a thread of its own: a reset
    can come between any two calls of the loop to the monitor.  Each call is
    taken as one step; a reset in the middle of a consumption is
    [reset_during_consume_raises]. *)

From S2P Require Import Prelude PyDict Nested PyFloat Resources Base Json Params Monitor MonitorFacts System.

Section interleaving.
Context {F : Type} `{PyFloat F}.
Context {A : Type}.
Context (allocate : option (dict Z units) → monitor F → A → res (dict Z units * A)).

(** What happens to the monitor during a round: the loop collects and is
    answered, or the server resets an application. *)
Inductive event :=
  | Answer (r : option (dict Z (dict Z (raw_entry F))))
  | Reset (app : Z).

Definition serve (interval : Z) (th : F) (m : monitor F) (e : event) : monitor F :=
  match e with
  | Answer r => collect interval th r m
  | Reset app => (reset_metrics_for_app app m).1
  end.

Definition with_monitor (m : monitor F) (s : system (F := F) (A := A)) : system :=
  System (sys_alloc s) (e2e_last_allocation s) m (sys_deployed s).

(** A round with resets before the allocation, and among the collections. *)
Definition interleaved_round (skip_monitoring : bool) (interval : Z) (th : F)
    (round : list Z * list event) (s : system) : res system :=
  let s := with_monitor (foldl (serve interval th) (sys_monitor s) (Reset <$> round.1)) s in
  s ← allocate_and_deploy allocate s;
  let m := foldl (serve interval th) (sys_monitor s) round.2 in
  m ← (if skip_monitoring then Ok m else consume_collected_data m);
  Ok (with_monitor m s).

Definition interleaved_start (params : option (alloc_params F)) (skip_monitoring : bool) (interval : Z)
    (th : F) (rounds : list (list Z * list event)) (s : system) : res system :=
  p ← or_raise ValueError params;
  s ← allocate_and_deploy allocate s;
  _ ← sleep_interval p;
  for_all (interleaved_round skip_monitoring interval th) rounds s.

(** A round without resets. *)
Definition quiet (responses : list (option (dict Z (dict Z (raw_entry F))))) : list Z * list event :=
  ([], Answer <$> responses).

Lemma quiet_round skip interval th responses s :
  interleaved_round skip interval th (quiet responses) s = controller_round allocate skip interval th responses s.
Proof.
  unfold interleaved_round, controller_round, quiet. cbn [fst snd fmap list_fmap foldl].
  replace (with_monitor (sys_monitor s) s) with s by (by destruct s).
  destruct (allocate_and_deploy allocate s) as [s'|]; [|done]. cbn [mbind res_bind].
  assert (E : ∀ m, foldl (serve interval th) m (Answer <$> responses) =
    foldl (λ m r, collect interval th r m) m responses).
  { clear. induction responses as [|r l IH]; intros m; [done|]. apply IH. }
  by rewrite E.
Qed.

(** Without resets this is the loop of [start]. *)
Lemma quiet_start params skip interval th rounds s :
  interleaved_start params skip interval th (quiet <$> rounds) s =
  start allocate params skip interval th rounds s.
Proof.
  unfold interleaved_start, start. destruct (or_raise ValueError params) as [p|]; [|done].
  cbn [mbind res_bind]. destruct (allocate_and_deploy allocate s) as [s1|]; [|done].
  cbn [mbind res_bind]. destruct (sleep_interval p); [|done]. cbn [mbind res_bind].
  revert s1. induction rounds as [|l rounds IH]; intros s1; [done|]. csimpl. rewrite quiet_round.
  destruct (controller_round _ _ _ _ l s1); [|done]. apply IH.
Qed.

(** ** Resets keep what the loop relies on *)

Lemma serve_reach interval th m e : mon_reach m → mon_reach (serve interval th m e).
Proof.
  intros Hm. destruct e as [r|app].
  - by apply (reach_step (OpCollect interval th r) m).
  - by apply (reach_step (OpReset app) m).
Qed.

Lemma serve_all_reach interval th es m :
  mon_reach m →
  mon_reach (foldl (serve interval th) m es) ∧
  mon_last_allocation (foldl (serve interval th) m es) = mon_last_allocation m.
Proof.
  revert m. induction es as [|e es IH]; intros m Hm; [done|]. simpl.
  destruct (IH (serve interval th m e) (serve_reach _ _ _ _ Hm)) as [H1 ->]. split; [done|].
  destruct e as [r|app]; [|done]. by destruct (collects_reach interval th [r] m Hm).
Qed.
End interleaving.
Arguments event : clear implicits.
