(* ===== verification/Wire.v ===== *)
(** * What goes over the network: deployer.py, resource_monitor.py and the
      types of lib/src/lib.rs

    The deployer posts the allocation map as JSON; the monitor gets the usage
    of every application as JSON, which it decodes before it buffers it
    (Monitor).  The texts are modelled: [allocation_text] is what is posted,
    [decode_response] reads an answer.  The enforcers serialise a [UsageMap]
    with [serde_json]; [usage_text] is its text, with the writing of floats
    as a parameter. *)

From S2P Require Import Prelude PyDict Nested PyFloat PyStr Json Dumps Resources Base Params Monitor MonitorFacts System.
From Stdlib Require Import Ascii.

(** The controller's answer to a request: none, or a status and a content.
    [requests.ConnectionError] is an [OSError]. *)
Inductive answer := Refused | Answered (status : Z) (content : text).

Definition accepted (status : Z) : bool := (status =? 200)%Z || (status =? 202)%Z.

Section wire.
Context {F : Type} `{PyFloat F}.

(** ** Reading a response *)

(** [v.items()] *)
Definition items (v : json F) : res (dict text (json F)) :=
  match v with JObj d => Ok d | _ => Err AttributeError end.

(** The loop that builds [vm_to_app_map] *)
Definition vm_map_of (vms : dict text (json F)) : res vm_map :=
  for_all (λ (p : text * json F) acc,
    vm_id ← py_int p.1;
    apps ← items p.2;
    app_ids ← map_res py_int (dkeys apps);
    Ok (dset acc vm_id app_ids)) vms [].

Definition number_of (v : json F) : option F :=
  match v with JInt z => Some (of_Z z) | JFloat x => Some x | _ => None end.

Definition curve_point (v : json F) : option (F * F) :=
  match v with JArr [a; b] => x ← number_of a; y ← number_of b; Some (x, y) | _ => None end.

(** [entry["mrc"] if "mrc" in entry else None], a list of pairs of numbers *)
Definition curve_of (entry : json F) : option (option (mrc_data F)) :=
  match entry with
  | JObj d =>
      match dget d (str "mrc") with
      | None | Some JNull => Some None
      | Some (JArr l) => c ← mapM curve_point l; Some (Some c)
      | _ => None
      end
  | _ => None
  end.

(** One entry; [None] when a value is of another type than the enforcers
    send, which is not modelled. *)
Definition raw_of (entry : json F) : res (option (raw_entry F)) :=
  mem ← jget entry (str "mem_mb");
  bw ← jget entry (str "bw_mbps");
  cache ← jget entry (str "cache_mbps");
  access ← jget entry (str "access_rate_ops_sec");
  Ok (match mem, bw, cache, access, curve_of entry with
      | JInt mem, JInt bw, JInt cache, JInt access, Some curve => Some (RawEntry mem bw cache access curve)
      | _, _, _, _, _ => None
      end).

(** Entries with their integer keys, up to the first that is not modelled. *)
Fixpoint read_all {A} (read : json F → res (option A)) (d : dict text (json F)) : res (option (dict Z A)) :=
  match d with
  | [] => Ok (Some [])
  | (k, v) :: d' =>
      id ← py_int k;
      r ← read v;
      match r with
      | None => Ok None
      | Some a => rest ← read_all read d'; Ok (option_map (cons (id, a)) rest)
      end
  end.

Definition read_apps (apps : json F) : res (option (dict Z (raw_entry F))) :=
  d ← items apps; read_all raw_of d.

(** [json.loads] and the two loops of [parse_log_entries]; ids that are
    written twice are not modelled. *)
Definition decode_response (data : text) : res (option (dict Z (dict Z (raw_entry F)))) :=
  log_json_entries ← json_loads data;
  m ← jget log_json_entries (str "map");
  vms ← items m;
  _ ← vm_map_of vms;
  r ← read_all read_apps vms;
  Ok (match r with
      | Some r =>
          if bool_decide (NoDup (dkeys r) ∧ Forall (λ vm : Z * dict Z (raw_entry F), NoDup (dkeys vm.2)) r)
          then Some r else None
      | None => None
      end).

(** [collect]: the monitor afterwards. *)
Definition collect_answer (interval : Z) (verification_th : F) (a : answer) (m : monitor F)
    : res (option (monitor F)) :=
  match a with
  | Refused => Err OSError
  | Answered status content =>
      if accepted status then
        data ← decode_utf8 content;
        if bool_decide (data = []) || bool_decide (strip data = []) || bool_decide (strip data = ["034"; "034"]%char)
        then Ok (Some m)
        else
          r ← decode_response data;
          Ok (option_map (λ r, collect interval verification_th (Some r) m) r)
      else Ok (Some m)
  end.

(** ** Posting an allocation *)

(** [{"allocation_map": self.allocation_map}]; [json.dumps] writes integer
    keys as strings. *)
Definition assemble_command (am : allocation_map) : json F :=
  JObj [(str "allocation_map",
         JObj ((λ p : Z * (Z * Z), (show p.1, JArr [JInt p.2.1; JInt p.2.2])) <$> am))].

Definition allocation_text (am : allocation_map) : text :=
  render (λ _ : F, []) [" "%char] (assemble_command am).

(** [deploy]: what is posted and whether it was accepted, and the new map. *)
Definition deploy_answer (a : answer) (ra : resource_alloc) (old : allocation_map)
    : res (option (text * bool) * allocation_map) :=
  match deploy ra old with
  | (None, am) => Ok (None, am)
  | (Some cmd, am) =>
      match a with
      | Refused => Err OSError
      | Answered status _ => Ok (Some (allocation_text cmd, accepted status), am)
      end
  end.

(** ** What the enforcers send *)

(** [AppUsage] *)
Record app_usage := AppUsage {
  us_vm_id : Z;
  us_app_id : Z;
  us_mem_mb : Z;
  us_bw_mbps : Z;
  us_cache_mbps : Z;
  us_access_mem_ops_sec : Z;
  us_access_rate_ops_sec : Z;
  us_hit_rate_percent : F;
  us_local_lat : Z;
  us_remote_lat : Z;
  us_mrc : option (list (Z * F));
}.

Definition usage_json (u : app_usage) : json F :=
  JObj [(str "vm_id", JInt (us_vm_id u)); (str "app_id", JInt (us_app_id u));
        (str "mem_mb", JInt (us_mem_mb u)); (str "bw_mbps", JInt (us_bw_mbps u));
        (str "cache_mbps", JInt (us_cache_mbps u));
        (str "access_mem_ops_sec", JInt (us_access_mem_ops_sec u));
        (str "access_rate_ops_sec", JInt (us_access_rate_ops_sec u));
        (str "hit_rate_percent", JFloat (us_hit_rate_percent u));
        (str "local_lat", JInt (us_local_lat u)); (str "remote_lat", JInt (us_remote_lat u));
        (str "mrc", match us_mrc u with
                    | None => JNull
                    | Some c => JArr ((λ p : Z * F, JArr [JInt p.1; JFloat p.2]) <$> c)
                    end)].

(** A map with integer keys; JSON has string keys. *)
Definition keyed {A} (f : A → json F) (d : dict Z A) : json F :=
  JObj ((λ p : Z * A, (show p.1, f p.2)) <$> d).

(** [UsageMap] *)
Definition usage_map := dict Z (dict Z app_usage).

Definition usage_map_json (um : usage_map) : json F :=
  JObj [(str "map", keyed (keyed usage_json) um)].

(** [serde_json::to_string] *)
Definition usage_text (show_float : F → text) (um : usage_map) : text :=
  render show_float [] (usage_map_json um).

(** What the monitor takes of it. *)
Definition raw_usage (u : app_usage) : raw_entry F :=
  RawEntry (us_mem_mb u) (us_bw_mbps u) (us_cache_mbps u) (us_access_rate_ops_sec u)
    (option_map (map (λ p : Z * F, (of_Z p.1, p.2))) (us_mrc u)).

Definition raw_usage_map (um : usage_map) : dict Z (dict Z (raw_entry F)) :=
  (λ p : Z * dict Z app_usage, (p.1, (λ q : Z * app_usage, (q.1, raw_usage q.2)) <$> p.2)) <$> um.
End wire.
