(* ===== verification/WireFacts.v ===== *)
(** * The texts on the network are read back

    What the enforcers send is what the monitor buffers, and what the deployer
    posts is the allocation map; the control loop over texts is the control
    loop over decoded answers (System). *)

From S2P Require Import Prelude PyDict Nested PyFloat PyStr Json Dumps Resources Base Params Monitor MonitorFacts System Wire.
From Stdlib Require Import Ascii.

(** ** ASCII *)

Lemma dump_char_ascii c : (code c < 128)%Z → ascii_only (dump_char c).
Proof.
  intros Hc. destruct c as [[] [] [] [] [] [] [] []]; first [by destruct (Zlt_not_le _ _ Hc)|ascii_literal].
Qed.

Lemma dump_string_ascii s : ascii_only s → ascii_only (dump_string s).
Proof.
  intros Hs. constructor; [done|]. apply ascii_app; [|ascii_literal].
  induction Hs as [|c s Hc Hs IH]; [constructor|]. cbn [mbind list_bind]. apply ascii_app; [by apply dump_char_ascii|done].
Qed.

Section ascii.
Context {F : Type} `{PyFloat F} (show_float : F → text) (sp : text).
Hypothesis sp_ascii : ascii_only sp.
Hypothesis float_ascii : ∀ x, ascii_only (show_float x).

Lemma commas_ascii l : Forall ascii_only l → ascii_only (commas sp l).
Proof using sp_ascii.
  induction 1 as [|t l Ht Hl IH]; [constructor|]. destruct l as [|t' l]; [done|].
  apply ascii_app; [done|]. constructor; [done|]. by apply ascii_app.
Qed.

Lemma render_ascii v : writable show_float v → ascii_only (render show_float sp v).
Proof using float_ascii sp_ascii.
  induction v as [| b | z | x | s | l Hl | d Hd] using json_induction; cbn [writable render]; intros Hv.
  - ascii_literal.
  - destruct b; ascii_literal.
  - apply show_ascii.
  - done.
  - by apply dump_string_ascii.
  - apply all_of_Forall in Hv. constructor; [done|]. apply ascii_app; [|ascii_literal].
    apply commas_ascii, Forall_fmap, Forall_forall. intros w Hw.
    rewrite Forall_forall in Hl, Hv. apply Hl; auto.
  - destruct Hv as [_ Hv]. apply all_of_Forall in Hv. constructor; [done|]. apply ascii_app; [|ascii_literal].
    apply commas_ascii, Forall_fmap, Forall_forall. intros w Hw.
    rewrite Forall_forall in Hd, Hv. destruct (Hv w Hw) as [Hk Hw']. unfold compose, render_member.
    apply ascii_app; [by apply dump_string_ascii|]. constructor; [done|]. apply ascii_app; [done|]. by apply Hd.
Qed.
End ascii.

(** ** Integer keys *)

Lemma show_inj a b : show a = show b → a = b.
Proof. intros E. pose proof (py_int_show a) as Ha. rewrite E, py_int_show in Ha. by injection Ha. Qed.

Lemma shown_keys_NoDup {A B} (f : A → B) (d : dict Z A) :
  NoDup (dkeys d) → NoDup (dkeys ((λ p : Z * A, (show p.1, f p.2)) <$> d)).
Proof.
  intros Hd. unfold dkeys. rewrite <- list_fmap_compose.
  replace (fst ∘ (λ p : Z * A, (show p.1, f p.2))) with (show ∘ fst (A := Z) (B := A)) by done.
  rewrite list_fmap_compose. apply NoDup_fmap_2; [|done]. intros ? ?. apply show_inj.
Qed.

Section facts.
Context {F : Type} `{PyFloat F}.

Lemma keyed_writable (show_float : F → text) {A} (f : A → json F) d :
  NoDup (dkeys d) → Forall (λ p : Z * A, writable show_float (f p.2)) d → writable show_float (keyed f d).
Proof.
  intros Hnd Hd. cbn [writable keyed]. split; [by apply shown_keys_NoDup|].
  apply all_of_Forall, Forall_fmap. eapply Forall_impl; [exact Hd|]. intros p Hp. split; [apply show_ascii|done].
Qed.

Context (show_float : F → text).

Lemma read_keyed {A B} (f : A → json F) (g : A → B) read d :
  (∀ p, p ∈ d → read (f p.2) = Ok (Some (g p.2))) →
  read_all read ((λ p : Z * A, (show p.1, f p.2)) <$> d) =
  Ok (Some ((λ p : Z * A, (p.1, g p.2)) <$> d)).
Proof.
  induction d as [|[k a] d IH]; intros Hd; [done|]. csimpl. rewrite py_int_show. cbn [mbind res_bind].
  pose proof (Hd (k, a) ltac:(left)) as Ha. cbn [snd] in Ha. rewrite Ha. cbn [mbind res_bind]. rewrite IH by (intros; apply Hd; by right). done.
Qed.

(** ** The usage of the applications *)

Definition usage_floats (u : app_usage (F := F)) : list F :=
  us_hit_rate_percent u :: match us_mrc u with Some c => c.*2 | None => [] end.

(** A usage map as the enforcers have it: ids once, floats that are written
    readably. *)
Definition sendable (um : usage_map (F := F)) : Prop :=
  NoDup (dkeys um) ∧
  Forall (λ vm : Z * dict Z app_usage, NoDup (dkeys vm.2) ∧
    Forall (λ p : Z * app_usage, Forall (float_ok show_float) (usage_floats p.2)) vm.2) um.

Lemma usage_writable u : Forall (float_ok show_float) (usage_floats u) → writable show_float (usage_json u).
Proof.
  intros [Hh Hc]%Forall_cons. unfold usage_json. cbn [writable]. split; [by apply (bool_decide_unpack (NoDup _))|].
  cbn [all_of fst snd writable]. split_and!; try done; try ascii_literal.
  destruct (us_mrc u) as [c|]; [|done]. cbn [writable]. apply all_of_Forall, Forall_fmap.
  rewrite Forall_fmap in Hc. eapply Forall_impl; [exact Hc|]. by intros [x y].
Qed.

Lemma usage_map_writable um : sendable um → writable show_float (usage_map_json um).
Proof.
  intros [Hnd Hum]. unfold usage_map_json. cbn [writable all_of fst snd]. split; [apply NoDup_singleton|].
  split; [|done]. split; [ascii_literal|]. apply keyed_writable; [done|].
  eapply Forall_impl; [exact Hum|]. intros vm [Hv Hu]. apply keyed_writable; [done|].
  eapply Forall_impl; [exact Hu|]. intros p. apply usage_writable.
Qed.

Lemma curve_points (c : list (Z * F)) :
  mapM curve_point ((λ p : Z * F, JArr [JInt p.1; JFloat p.2]) <$> c) = Some (map (λ p : Z * F, (of_Z p.1, p.2)) c).
Proof. induction c as [|p c IH]; [done|]. csimpl. refine (eq_trans (f_equal (λ o, o ≫= _) IH) _). done. Qed.

Lemma raw_of_usage u : raw_of (usage_json u) = Ok (Some (raw_usage u)).
Proof.
  assert (Hc : curve_of (usage_json u) = Some (option_map (map (λ p : Z * F, (of_Z p.1, p.2))) (us_mrc u))).
  { unfold curve_of, usage_json. change (dget _ (str "mrc")) with
      (Some match us_mrc u with
            | None => JNull
            | Some c => JArr ((λ p : Z * F, JArr [JInt p.1; JFloat p.2]) <$> c)
            end).
    destruct (us_mrc u) as [c|]; [|done]. by rewrite curve_points. }
  unfold raw_of. rewrite Hc. done.
Qed.

Lemma read_apps_usage d : read_apps (keyed usage_json d) = Ok (Some ((λ q : Z * app_usage, (q.1, raw_usage q.2)) <$> d)).
Proof. unfold read_apps. cbn [items keyed mbind res_bind]. apply read_keyed. intros p _. apply raw_of_usage. Qed.

Lemma map_res_show (l : list Z) : map_res py_int (show <$> l) = Ok l.
Proof. induction l as [|z l IH]; [done|]. csimpl. rewrite py_int_show. cbn [mbind res_bind]. by rewrite IH. Qed.

Lemma vm_map_usage (um : usage_map (F := F)) :
  returns (vm_map_of ((λ p : Z * dict Z app_usage, (show p.1, keyed usage_json p.2)) <$> um)) (λ _, True).
Proof.
  unfold vm_map_of. destruct (for_all_total (λ _ : vm_map, True)
    (λ (p : text * json F) acc, vm_id ← py_int p.1; apps ← items p.2; app_ids ← map_res py_int (dkeys apps);
       Ok (dset acc vm_id app_ids))
    ((λ p : Z * dict Z app_usage, (show p.1, keyed usage_json p.2)) <$> um) []) as (r & Hr & _); [|done|exists r; split; [exact Hr|done]].
  intros p acc (q & -> & _)%list_elem_of_fmap _. cbn [fst snd]. rewrite py_int_show.
  cbn [mbind res_bind items keyed]. unfold dkeys. rewrite <- list_fmap_compose.
  replace (fst ∘ (λ p : Z * app_usage, (show p.1, usage_json p.2))) with (show ∘ fst (A := Z) (B := app_usage (F := F))) by done.
  rewrite list_fmap_compose, map_res_show. cbn [mbind res_bind]. eauto.
Qed.

Lemma decode_usage um :
  sendable um → decode_response (usage_text show_float um) = Ok (Some (raw_usage_map um)).
Proof.
  intros Hum. unfold decode_response, usage_text.
  change (usage_map_json um) with (JObj [(str "map", keyed (keyed usage_json) um)]).
  rewrite loads_render; [|constructor|by apply usage_map_writable]. cbn [mbind res_bind].
  change (jget (JObj [(str "map", ?x)]) (str "map")) with (Ok (A := json F) x).
  cbn [mbind res_bind items keyed].
  destruct (vm_map_usage um) as (vms & -> & _). cbn [mbind res_bind].
  rewrite (read_keyed (keyed usage_json)
    (λ d : dict Z (app_usage (F := F)), (λ q : Z * app_usage, (q.1, raw_usage q.2)) <$> d) read_apps um)
    by (intros; apply read_apps_usage).
  cbn [mbind res_bind]. rewrite bool_decide_true; [done|]. destruct Hum as [Hnd Hum].
  unfold dkeys in *. rewrite <- list_fmap_compose. split; [done|].
  apply Forall_fmap. eapply Forall_impl; [exact Hum|]. intros vm [Hv _]. cbn [compose fst snd].
  by rewrite <- list_fmap_compose.
Qed.

(** A text in braces is not blank. *)
Lemma strip_object t : strip ("{"%char :: t ++ ["}"%char]) = "{"%char :: t ++ ["}"%char].
Proof.
  unfold strip. rewrite lstrip_id by done. change ("{"%char :: t ++ ["}"%char]) with (("{"%char :: t) ++ ["}"%char]).
  by apply rstrip_id.
Qed.

Lemma collect_reads um status interval th (m : monitor F) :
  (∀ x, ascii_only (show_float x)) → sendable um → accepted status = true →
  collect_answer interval th (Answered status (usage_text show_float um)) m =
  Ok (Some (collect interval th (Some (raw_usage_map um)) m)).
Proof.
  intros Hascii Hum Hst. unfold collect_answer. rewrite Hst, utf8_ascii.
  2: { apply render_ascii; [constructor|done|by apply usage_map_writable]. }
  cbn [mbind res_bind]. pose proof (decode_usage um Hum) as Hdec. unfold usage_text in *.
  change (render show_float [] (usage_map_json um)) with
    ("{"%char :: commas [] [render_member [] (render show_float []) (str "map", keyed (keyed usage_json) um)] ++ ["}"%char]) in *.
  rewrite strip_object. rewrite !bool_decide_false by done. cbn [orb]. rewrite Hdec. done.
Qed.

(** C19: when the controller answers with the usage of the applications as the
    enforcers serialise it, the monitor buffers exactly this usage: decoding
    the text loses and changes nothing. *)
Theorem collect_reads_usage um status interval th (m : monitor F) :
  (∀ x, ascii_only (show_float x)) → sendable um → accepted status = true →
  collect_answer interval th (Answered status (usage_text show_float um)) m =
  Ok (Some (collect interval th (Some (raw_usage_map um)) m)).
Proof. apply collect_reads. Qed.

(** Without an answer the loop ends, and so it does when the answer is not
    JSON; an answer with another status is ignored. *)
Lemma collect_refused interval th (m : monitor F) : collect_answer interval th Refused m = Err OSError.
Proof. done. Qed.

Lemma collect_ignored status content interval th (m : monitor F) :
  accepted status = false → collect_answer interval th (Answered status content) m = Ok (Some m).
Proof. unfold collect_answer. by intros ->. Qed.

(** ** The allocation map *)

Lemma allocation_reads (am : allocation_map) :
  NoDup (dkeys am) → json_loads (allocation_text (F := F) am) = Ok (assemble_command am).
Proof.
  intros Ham. apply loads_render; [by repeat constructor|]. cbn [writable all_of fst snd].
  split; [apply NoDup_singleton|]. split; [|done]. split; [ascii_literal|].
  apply (keyed_writable (λ _, []) (λ v : Z * Z, JArr [JInt v.1; JInt v.2])); [done|]. apply Forall_forall. by intros p _.
Qed.
End facts.
