(* ===== verification/WireLoop.v ===== *)
(** * The control loop over the network

    [wire_start] is [ResourceAllocator.start] with the texts that the
    controller answers: posting an allocation and collecting the usage can
    each fail.  [None]: an answer that Wire does not model.  While the posts
    are answered and the answers are usage texts, empty or refused by status,
    it is [System.start] on the decoded answers. *)

From S2P Require Import Prelude PyDict Nested PyFloat PyStr Json Dumps Resources Base Params Monitor MonitorFacts System Wire WireFacts.
From Stdlib Require Import Ascii.

Section loop.
Context {F : Type} `{PyFloat F}.
Context {A : Type}.
Context (allocate : option (dict Z units) → monitor F → A → res (dict Z units * A)).

(** Allocate, post, remember, tell the monitor. *)
Definition wire_deploy (posted : answer) (s : system (F := F) (A := A)) : res system :=
  '(al, a) ← allocate (e2e_last_allocation s) (sys_monitor s) (sys_alloc s);
  '(_, deployed) ← deploy_answer (F := F) posted (of_allocation al) (sys_deployed s);
  Ok (System a (Some al) (set_last_allocation al (sys_monitor s)) deployed).

(** The collections of a round. *)
Fixpoint collect_all (interval : Z) (th : F) (answers : list answer) (m : monitor F) : res (option (monitor F)) :=
  match answers with
  | [] => Ok (Some m)
  | a :: answers' =>
      r ← collect_answer interval th a m;
      match r with None => Ok None | Some m => collect_all interval th answers' m end
  end.

Definition wire_round (skip_monitoring : bool) (interval : Z) (th : F) (round : answer * list answer)
    (s : system) : res (option system) :=
  s ← wire_deploy round.1 s;
  r ← collect_all interval th round.2 (sys_monitor s);
  match r with
  | None => Ok None
  | Some m =>
      m ← (if skip_monitoring then Ok m else consume_collected_data m);
      Ok (Some (System (sys_alloc s) (e2e_last_allocation s) m (sys_deployed s)))
  end.

Fixpoint wire_rounds (skip_monitoring : bool) (interval : Z) (th : F) (rounds : list (answer * list answer))
    (s : system) : res (option system) :=
  match rounds with
  | [] => Ok (Some s)
  | round :: rounds' =>
      r ← wire_round skip_monitoring interval th round s;
      match r with None => Ok None | Some s => wire_rounds skip_monitoring interval th rounds' s end
  end.

(** [start]; [first] answers the post of the initial allocation. *)
Definition wire_start (params : option (alloc_params F)) (skip_monitoring : bool) (interval : Z) (th : F)
    (first : answer) (rounds : list (answer * list answer)) (s : system) : res (option system) :=
  p ← or_raise ValueError params;
  s ← wire_deploy first s;
  _ ← sleep_interval p;
  wire_rounds skip_monitoring interval th rounds s.

(** ** Refinement *)

Context (show_float : F → text) (float_ascii : ∀ x, ascii_only (show_float x)).

(** The answers a round can go on with, and what they are decoded to. *)
Inductive represents : answer → option (dict Z (dict Z (raw_entry F))) → Prop :=
  | rep_usage status um : accepted status = true → sendable show_float um →
      represents (Answered status (usage_text show_float um)) (Some (raw_usage_map um))
  | rep_status status content : accepted status = false → represents (Answered status content) None
  | rep_empty status : accepted status = true → represents (Answered status []) None.

Lemma collect_represents interval th a r m :
  represents a r → collect_answer interval th a m = Ok (Some (collect interval th r m)).
Proof using float_ascii.
  destruct 1 as [status um Hst Hum|status content Hst|status Hst].
  - by apply collect_reads.
  - by apply collect_ignored.
  - unfold collect_answer. rewrite Hst. done.
Qed.

Lemma collect_all_represents interval th answers responses m :
  Forall2 represents answers responses →
  collect_all interval th answers m = Ok (Some (foldl (λ m r, collect interval th r m) m responses)).
Proof using float_ascii.
  intros Hr. revert m. induction Hr as [|a r answers responses Ha _ IH]; intros m; [done|].
  cbn [collect_all foldl]. rewrite (collect_represents _ _ _ r) by done. apply IH.
Qed.

Lemma wire_deploy_answered status content s :
  wire_deploy (Answered status content) s = allocate_and_deploy allocate s.
Proof.
  unfold wire_deploy, allocate_and_deploy.
  destruct (allocate (e2e_last_allocation s) (sys_monitor s) (sys_alloc s)) as [[al a]|]; [|done].
  cbn [mbind res_bind]. unfold deploy_answer.
  by destruct (deploy (of_allocation al) (sys_deployed s)) as [[cmd|] am].
Qed.

Definition answered (a : answer) : Prop := a ≠ Refused.

(** A round with an answered post and readable answers. *)
Definition round_represents (round : answer * list answer)
    (responses : list (option (dict Z (dict Z (raw_entry F))))) : Prop :=
  answered round.1 ∧ Forall2 represents round.2 responses.

Lemma wire_round_refines skip interval th round responses s :
  round_represents round responses →
  wire_round skip interval th round s = (s ← controller_round allocate skip interval th responses s; Ok (Some s)).
Proof using float_ascii.
  destruct round as [posted answers]. intros [Hp Hr]. cbn [fst snd] in *.
  unfold wire_round, controller_round. cbn [fst snd].
  destruct posted as [|status content]; [done|]. rewrite wire_deploy_answered.
  destruct (allocate_and_deploy allocate s) as [s1|]; [|done]. cbn [mbind res_bind].
  rewrite (collect_all_represents _ _ _ responses) by done. cbn [mbind res_bind].
  destruct skip; [done|]. by destruct (consume_collected_data _).
Qed.

Lemma wire_loop_refines params skip interval th first rounds decoded s :
  answered first → Forall2 round_represents rounds decoded →
  wire_start params skip interval th first rounds s =
  (s ← start allocate params skip interval th decoded s; Ok (Some s)).
Proof using float_ascii.
  intros Hf Hr. unfold wire_start, start. destruct first as [|status content]; [done|].
  destruct (or_raise ValueError params) as [p|]; [|done]. cbn [mbind res_bind].
  rewrite wire_deploy_answered. destruct (allocate_and_deploy allocate s) as [s1|]; [|done]. cbn [mbind res_bind].
  destruct (sleep_interval p); [|done]. cbn [mbind res_bind]. revert s1.
  induction Hr as [|round responses rounds decoded H1 _ IH]; intros s1; [done|].
  cbn [wire_rounds for_all]. rewrite (wire_round_refines _ _ _ _ responses) by done.
  destruct (controller_round _ _ _ _ responses s1) as [s2|]; [|done]. cbn [mbind res_bind]. apply IH.
Qed.

(** C7: the control loop over the network is the loop over decoded answers:
    while every post is answered and every answer to a collection is the text
    of a usage map, empty, or has another status than 200 and 202, the loop
    ends in the same state, or with the same exception. *)
Theorem wire_refines params skip interval th first rounds decoded s :
  answered first → Forall2 round_represents rounds decoded →
  wire_start params skip interval th first rounds s =
  (s ← start allocate params skip interval th decoded s; Ok (Some s)).
Proof using float_ascii. apply wire_loop_refines. Qed.

(** A post that is not answered ends the controller, before the monitor is
    told of the allocation. *)
Lemma wire_refused params skip interval th rounds s al a :
  is_Some params → allocate (e2e_last_allocation s) (sys_monitor s) (sys_alloc s) = Ok (al, a) → al ≠ [] →
  wire_start params skip interval th Refused rounds s = Err OSError.
Proof.
  intros [p ->] Ha Hne. unfold wire_start, wire_deploy. cbn [or_raise mbind res_bind]. rewrite Ha.
  cbn [mbind res_bind]. unfold deploy_answer, deploy, of_allocation. by destruct al.
Qed.
End loop.
