(* ===== verification/GlobalEnforcer.v ===== *)
(** * The global enforcer: global-enforcer/src and the types of lib/src

    It receives the allocation of every application from the controller,
    divides it among the VMs the application runs on and sends every VM its
    part; it receives the usage of every VM from the local enforcers and
    answers the controller with all of it.

    A panic in a handler is answered with status 500 and leaves what was
    changed before.  Bodies are decoded by [serde_json], which is a
    parameter; a body that does not decode never reaches a handler. *)

From S2P Require Import Prelude PyDict PyFloat PyStr Rust Json Dumps Resources Base Params Monitor MonitorFacts System Wire.
From Stdlib Require Import Ascii.

(** [UpdateConfig] *)
Record update_config := UpdateConfig { uc_allocation_map : gmap Z (Z * Z) }.

(** [UsageMap] *)
Abbreviation usages F := (gmap Z (gmap Z (app_usage (F := F)))).

(** [UpdateConfig::new] *)
Definition new_config : update_config := UpdateConfig ∅.

(** The order of keys *)
Definition key_le {V} (p q : Z * V) : Prop := (p.1 <= q.1)%Z.

#[export] Instance key_le_dec {V} : RelDecision (@key_le V).
Proof. intros p q. unfold key_le. apply _. Defined.

Section global.
Context {F : Type} `{PyFloat F}.

(** [GlobalAllocation] *)
Record global_allocation := GlobalAllocation {
  cur_config : update_config;
  ga_usage_map : usages F;
  vm_ip_map : gmap Z text;
  placement_map : gmap Z (list Z);
  id_preload_map : gmap Z text;
  run_backend_cmd_map : option (gmap Z text);
}.

Definition set_config (cfg : update_config) (g : global_allocation) : global_allocation :=
  GlobalAllocation cfg (ga_usage_map g) (vm_ip_map g) (placement_map g) (id_preload_map g) (run_backend_cmd_map g).

Definition set_usage (um : usages F) (g : global_allocation) : global_allocation :=
  GlobalAllocation (cur_config g) um (vm_ip_map g) (placement_map g) (id_preload_map g) (run_backend_cmd_map g).

(** ** Dividing an allocation *)

(** The two branches of the inner loop: the VM has a part already or not. *)
Definition place (app_id : Z) (part : Z * Z) (local_allocs : gmap Z update_config) (vm : Z) : gmap Z update_config :=
  match local_allocs !! vm with
  | Some c => <[vm := UpdateConfig (<[app_id := part]> (uc_allocation_map c))]> local_allocs
  | None => <[vm := UpdateConfig (<[app_id := part]> ∅)]> local_allocs
  end.

(** The body of the outer loop *)
Definition split_app (g : global_allocation) (cfg : update_config) (app_id : Z)
    (local_allocs : gmap Z update_config) : res (gmap Z update_config) :=
  '(mem_alloc, bw_alloc) ← unwrap (uc_allocation_map cfg !! app_id);
  app_id_vms ← unwrap (placement_map g !! app_id);
  mem_alloc ← udiv mem_alloc (Z.of_nat (length app_id_vms));
  bw_alloc ← udiv bw_alloc (Z.of_nat (length app_id_vms));
  Ok (foldl (place app_id (mem_alloc, bw_alloc)) local_allocs app_id_vms).

Definition split_global_allocation `{HashOrder} (g : global_allocation) (cfg : update_config)
    : res (gmap Z update_config) :=
  for_all (split_app g cfg) (keys (uc_allocation_map cfg)) ∅.

(** ** Sending it *)

Definition config_json `{HashOrder} (cfg : update_config) : json F :=
  JObj [(str "allocation_map",
         keyed (λ p : Z * Z, JArr [JInt p.1; JInt p.2]) (entries (uc_allocation_map cfg)))].

(** [UpdateConfig::to_string] *)
Definition config_text `{HashOrder} (cfg : update_config) : text :=
  render (λ _ : F, []) [] (config_json cfg).

(** The command [send_config] runs in a shell; what becomes of it is not
    waited for. *)
Definition send_config `{HashOrder} (cfg : update_config) (dest : text) : text :=
  str "curl -H 'Content-Type: application/json' -d'" ++ config_text cfg ++ str "' http://" ++ dest ++ str "/config".

(** The loop over the parts, until a VM has no address. *)
Fixpoint send_parts `{HashOrder} (g : global_allocation) (parts : list (Z * update_config)) : list text * bool :=
  match parts with
  | [] => ([], true)
  | (local_name, local_config) :: parts' =>
      match vm_ip_map g !! local_name with
      | None => ([], false)
      | Some dest_ip => let '(cmds, ok) := send_parts g parts' in (send_config local_config dest_ip :: cmds, ok)
      end
  end.

(** ** The routes *)

(** What a handler leaves: the state, the commands it ran, status and body. *)
Record outcome := Outcome {
  o_state : global_allocation;
  o_commands : list text;
  o_status : Z;
  o_body : text;
}.

(** [config] *)
Definition config `{HashOrder} (new_config : update_config) (g : global_allocation) : outcome :=
  match split_global_allocation g new_config with
  | Err _ => Outcome g [] 500 []
  | Ok local_allocs =>
      let g := set_config new_config g in
      let '(cmds, ok) := send_parts g (entries local_allocs) in
      Outcome g cmds (if ok then 202 else 500)%Z []
  end.

(** [usage]: [extend] replaces the usage of the VMs that are named. *)
Definition usage (client_usage_map : usages F) (g : global_allocation) : outcome :=
  Outcome (set_usage (client_usage_map ∪ ga_usage_map g) g) [] 200 [].

(** A [BTreeMap] filled by a loop: its entries are sorted by key. *)
Definition sorted_by_key `{HashOrder} {V} (m : gmap Z V) : list (Z * V) :=
  merge_sort key_le (map_to_list (foldl (λ acc p, <[p.1 := p.2]> acc) ∅ (entries m))).

(** [sort_usage_map], on the map of VM 0 *)
Definition sort_usage_map `{HashOrder} (um : usages F) : usages F :=
  match um !! 0%Z with
  | Some m => <[0%Z := list_to_map (sorted_by_key m)]> um
  | None => um
  end.

(** The entries as they are iterated over, VM by VM *)
Definition listed `{HashOrder} (um : usages F) : usage_map (F := F) :=
  (λ p : Z * gmap Z app_usage, (p.1, entries p.2)) <$> entries um.

(** [cluster_status] *)
Definition cluster_status `{HashOrder} (show_float : F → text) (g : global_allocation) : outcome :=
  Outcome g [] 200 (usage_text show_float (listed (sort_usage_map (ga_usage_map g)))).

(** Requests, decoded by [serde_json] or refused with a status; each runs
    with the lock held. *)
Inductive request := PostConfig (body : text) | PostUsage (body : text) | GetStatus.

Record decoders := Decoders {
  read_config : text → Z + update_config;
  read_usage : text → Z + usages F;
}.

Definition handle `{HashOrder} (dec : decoders) (show_float : F → text) (r : request) (g : global_allocation)
    : outcome :=
  match r with
  | PostConfig body => match read_config dec body with inr c => config c g | inl status => Outcome g [] status [] end
  | PostUsage body => match read_usage dec body with inr u => usage u g | inl status => Outcome g [] status [] end
  | GetStatus => cluster_status show_float g
  end.

(** ** Starting *)

(** [GlobalAllocation::new], from what [serde_json] reads of the file; the
    fields that are skipped start empty. *)
Definition new_global (file : option (gmap Z text * gmap Z (list Z) * gmap Z text * option (gmap Z text)))
    : res global_allocation :=
  '(ips, placement, preload, backends) ← unwrap file;
  Ok (GlobalAllocation new_config ∅ ips placement preload backends).

(** [init]: the commands started in the background, then the set of preload
    commands, which are run to their end; without a map of backends neither. *)
Definition init_global `{HashOrder} (g : global_allocation) : list text * gset text :=
  match run_backend_cmd_map g with
  | None => ([], ∅)
  | Some cmds =>
      (filter (λ c, c ≠ []) (entries cmds).*2, list_to_set (entries (id_preload_map g)).*2)
  end.
End global.
