(* ===== verification/GlobalFacts.v ===== *)
(** * The global enforcer divides and relays

    What every VM is sent, that it does not depend on the order of hash maps,
    what is lost by dividing, the outcomes of a posted allocation, and that
    the status answers with the last report of every VM. *)

From S2P Require Import Prelude PyDict PyFloat PyStr Rust Json Dumps Resources Base Params Monitor MonitorFacts System BaseExact Wire WireFacts GlobalEnforcer.

(** What VM [vm] is sent for an application. *)
Definition part_of (l : gmap Z update_config) (vm app : Z) : option (Z * Z) :=
  l !! vm ≫= λ c, uc_allocation_map c !! app.

(** No VM is sent an empty map. *)
Definition inhabited (l : gmap Z update_config) : Prop :=
  ∀ vm c, l !! vm = Some c → ∃ app, is_Some (uc_allocation_map c !! app).

(** The parts determine the map. *)
Lemma parts_ext l l' :
  inhabited l → inhabited l' → (∀ vm app, part_of l vm app = part_of l' vm app) → l = l'.
Proof.
  intros Hl Hl' Hp. apply map_eq. intros vm. specialize (Hp vm). unfold part_of in Hp.
  destruct (l !! vm) as [[c]|] eqn:E, (l' !! vm) as [[c']|] eqn:E'; simpl in Hp; [|..|done].
  - do 2 f_equal. by apply map_eq.
  - destruct (Hl vm _ E) as [app Ha]. simpl in Ha. rewrite Hp in Ha. by destruct Ha.
  - destruct (Hl' vm _ E') as [app Ha]. simpl in Ha. rewrite <- Hp in Ha. by destruct Ha.
Qed.

Lemma place_part app part l vm vm' app' :
  part_of (place app part l vm) vm' app' = if decide (vm = vm' ∧ app = app') then Some part else part_of l vm' app'.
Proof.
  unfold part_of, place. destruct (decide (vm = vm')) as [<-|Hne].
  - destruct (l !! vm) as [c|]; rewrite lookup_insert_eq; cbn [mbind option_bind uc_allocation_map];
      (destruct (decide (app = app')) as [<-|Ha];
       [rewrite lookup_insert_eq, decide_True by done; done
       |rewrite lookup_insert_ne, decide_False by (done || tauto); done]).
  - rewrite (decide_False (P := _ ∧ _)) by tauto. destruct (l !! vm); by rewrite lookup_insert_ne.
Qed.

Lemma places_part app part vms l vm' app' :
  part_of (foldl (place app part) l vms) vm' app' =
  if decide (vm' ∈ vms ∧ app = app') then Some part else part_of l vm' app'.
Proof.
  revert l. induction vms as [|vm vms IH]; intros l; cbn [foldl]; [by rewrite decide_False by set_solver|].
  rewrite IH, place_part. repeat case_decide; set_solver.
Qed.

Lemma place_inhabited app part l vm : inhabited l → inhabited (place app part l vm).
Proof.
  intros Hl vm' c. unfold place. destruct (l !! vm) as [c0|]; rewrite lookup_insert; case_decide;
    try (by intros ?%Hl); intros [= <-]; exists app; simpl; rewrite lookup_insert_eq; eauto.
Qed.

Lemma places_inhabited app part vms l : inhabited l → inhabited (foldl (place app part) l vms).
Proof. revert l. induction vms as [|vm vms IH]; intros l Hl; simpl; [done|]. by apply IH, place_inhabited. Qed.

Section facts.
Context {F : Type} `{PyFloat F}.
Implicit Types g : global_allocation (F := F).
Implicit Types cfg : update_config.

(** Every application of an allocation runs somewhere. *)
Definition placed g cfg : Prop :=
  ∀ app, is_Some (uc_allocation_map cfg !! app) → ∃ vms, placement_map g !! app = Some vms ∧ vms ≠ [].

(** The part of an application for one of its VMs. *)
Definition share_of g cfg (vm app : Z) : option (Z * Z) :=
  '(mem, bw) ← uc_allocation_map cfg !! app;
  vms ← placement_map g !! app;
  let k := Z.of_nat (length vms) in
  if decide (vm ∈ vms) then Some (mem / k, bw / k)%Z else None.

(** One application, and all of a list. *)
Lemma split_app_ok g cfg app l :
  placed g cfg → is_Some (uc_allocation_map cfg !! app) → inhabited l →
  ∃ l', split_app g cfg app l = Ok l' ∧ inhabited l' ∧
    ∀ vm app', part_of l' vm app' =
      if decide (app' = app) then share_of g cfg vm app ∪ part_of l vm app else part_of l vm app'.
Proof.
  intros Hp Ha Hl. destruct (Hp app Ha) as (vms & Hv & Hne). destruct Ha as [[mem bw] Ha].
  unfold split_app, share_of, udiv. rewrite Ha, Hv. cbn [unwrap or_raise mbind res_bind option_bind].
  rewrite (proj2 (Z.eqb_neq _ _)) by (destruct vms; simpl in *; [done|lia]). cbn [mbind res_bind].
  eexists. split; [reflexivity|]. split; [by apply places_inhabited|]. intros vm app'. rewrite places_part.
  destruct (decide (app' = app)) as [->|Hn].
  - destruct (decide (vm ∈ vms)); [rewrite decide_True by done; by destruct (part_of l vm app)|].
    rewrite decide_False by tauto. by destruct (part_of l vm app).
  - by rewrite decide_False by naive_solver.
Qed.

Lemma split_apps_ok g cfg apps l :
  placed g cfg → NoDup apps → (∀ app, app ∈ apps → is_Some (uc_allocation_map cfg !! app)) → inhabited l →
  (∀ vm app, app ∈ apps → part_of l vm app = None) →
  ∃ l', for_all (split_app g cfg) apps l = Ok l' ∧ inhabited l' ∧
    ∀ vm app', part_of l' vm app' = if decide (app' ∈ apps) then share_of g cfg vm app' else part_of l vm app'.
Proof.
  intros Hp Hnd. revert l. induction Hnd as [|app apps Ha Hnd IH]; intros l Hin Hl Hnone.
  { exists l. split; [done|]. split; [done|]. intros. by rewrite decide_False by set_solver. }
  destruct (split_app_ok g cfg app l) as (l1 & E1 & Hl1 & Hp1); [done|apply Hin; by left|done|].
  destruct (IH l1) as (l2 & E2 & Hl2 & Hp2).
  - intros app' Ha'. apply Hin. by right.
  - done.
  - intros vm app' Ha'. rewrite Hp1, decide_False by (by intros ->). apply Hnone. by right.
  - exists l2. split; [simpl; by rewrite E1|]. split; [done|]. intros vm app'. rewrite Hp2, Hp1.
    destruct (decide (app' = app)) as [->|Hn].
    + rewrite decide_False, decide_True by (done || left). rewrite Hnone by left.
      by destruct (share_of g cfg vm app).
    + by destruct (decide (app' ∈ apps)); [rewrite decide_True by (by right)|rewrite decide_False by set_solver].
Qed.

Context `{O : HashOrder}.

Lemma split_spec g cfg :
  placed g cfg →
  ∃ l, split_global_allocation g cfg = Ok l ∧ inhabited l ∧ ∀ vm app, part_of l vm app = share_of g cfg vm app.
Proof.
  intros Hp. destruct (split_apps_ok g cfg (keys (uc_allocation_map cfg)) ∅) as (l & E & Hl & Hpl).
  - done.
  - apply keys_NoDup.
  - intros app. by rewrite elem_of_keys.
  - intros vm c. by rewrite lookup_empty.
  - intros vm app _. unfold part_of. by rewrite lookup_empty.
  - exists l. split; [done|]. split; [done|]. intros vm app. rewrite Hpl. case_decide as Hk; [done|].
    rewrite elem_of_keys in Hk. unfold share_of, part_of. rewrite lookup_empty.
    by destruct (uc_allocation_map cfg !! app); [destruct Hk|].
Qed.

(** An application without a VM, or with an empty list of them, panics. *)
Lemma split_panics g cfg : ~ placed g cfg → split_global_allocation g cfg = Err Panic.
Proof.
  intros Hp. unfold split_global_allocation.
  assert (Happ : ∃ app, app ∈ keys (uc_allocation_map cfg) ∧ ∀ l, split_app g cfg app l = Err Panic).
  { destruct (decide (Exists (λ app, default [] (placement_map g !! app) = []) (keys (uc_allocation_map cfg))))
      as [He|Hn].
    - apply Exists_exists in He as (app & Hin & Hv). exists app. split; [done|]. intros l.
      apply elem_of_keys in Hin as [[mem bw] Hm]. unfold split_app. rewrite Hm. cbn.
      destruct (placement_map g !! app) as [vms|]; [|done]. simpl in Hv. by subst vms.
    - destruct Hp. intros app Ha. apply elem_of_keys in Ha. rewrite <- Forall_Exists_neg in Hn.
      rewrite Forall_forall in Hn. specialize (Hn app Ha).
      destruct (placement_map g !! app) as [vms|]; [by exists vms|by destruct Hn]. }
  destruct Happ as (app & Hin & Herr). revert Hin. generalize (∅ : gmap Z update_config).
  induction (keys (uc_allocation_map cfg)) as [|app' apps IH]; intros l Hin; [by apply not_elem_of_nil in Hin|].
  simpl. apply elem_of_cons in Hin as [<-|Hin]; [by rewrite Herr|].
  destruct (split_app g cfg app' l) as [l'|e] eqn:E; [by apply IH|]. revert E. clear. unfold split_app, udiv.
  destruct (uc_allocation_map cfg !! app') as [[mem bw]|]; cbn; [|congruence].
  destruct (placement_map g !! app') as [vms|]; cbn; [|congruence].
  destruct (Z.of_nat (length vms) =? 0)%Z; cbn; congruence.
Qed.

Lemma placed_dec g cfg : Decision (placed g cfg).
Proof.
  destruct (decide (Forall (λ app, default [] (placement_map g !! app) ≠ []) (keys (uc_allocation_map cfg)))) as [Hf|Hn].
  - left. intros app Ha. apply elem_of_keys in Ha. rewrite Forall_forall in Hf. specialize (Hf app Ha).
    destruct (placement_map g !! app) as [vms|]; [by exists vms|by destruct Hf].
  - right. intros Hp. apply Hn, Forall_forall. intros app Ha%elem_of_keys.
    destruct (Hp app Ha) as (vms & -> & ?). done.
Qed.

(** ** A posted allocation *)

Lemma send_parts_all g parts :
  (∀ p, p ∈ parts → is_Some (vm_ip_map g !! p.1)) →
  send_parts g parts = ((λ p, send_config (F := F) p.2 (default [] (vm_ip_map g !! p.1))) <$> parts, true).
Proof.
  induction parts as [|[vm c] parts IH]; intros Hip; [done|]. simpl.
  destruct (Hip (vm, c)) as [ip Hvm]; [by left|]. simpl in Hvm. rewrite Hvm, IH; [done|].
  intros p Hp. apply Hip. by right.
Qed.

(** Up to the first VM without an address. *)
Lemma send_parts_stops g pre p post :
  (∀ q, q ∈ pre → is_Some (vm_ip_map g !! q.1)) → vm_ip_map g !! p.1 = None →
  send_parts g (pre ++ p :: post) =
    ((λ q, send_config (F := F) q.2 (default [] (vm_ip_map g !! q.1))) <$> pre, false).
Proof.
  intros Hip Hp. induction pre as [|[vm c] pre IH]; simpl.
  - destruct p as [vm c]. simpl in Hp. by rewrite Hp.
  - destruct (Hip (vm, c)) as [ip Hvm]; [by left|]. simpl in Hvm. rewrite Hvm, IH; [done|].
    intros q Hq. apply Hip. by right.
Qed.

Lemma first_without g (parts : list (Z * update_config)) :
  (∃ p, p ∈ parts ∧ vm_ip_map g !! p.1 = None) →
  ∃ pre p post, parts = pre ++ p :: post ∧ (∀ q, q ∈ pre → is_Some (vm_ip_map g !! q.1)) ∧
    vm_ip_map g !! p.1 = None.
Proof.
  induction parts as [|p parts IH]; intros (q & Hq & Hn); [by apply not_elem_of_nil in Hq|].
  destruct (vm_ip_map g !! p.1) as [ip|] eqn:E; [|exists [], p, parts; set_solver].
  destruct IH as (pre & r & post & -> & Hpre & Hr).
  { exists q. split; [|done]. apply elem_of_cons in Hq as [->|]; [congruence|done]. }
  exists (p :: pre), r, post. split; [done|]. split; [|done].
  intros t [->|Ht]%elem_of_cons; [by exists ip|by apply Hpre].
Qed.

(** The allocation is recorded and every VM is sent its part once, each
    application divided evenly among its VMs; an application without a VM
    changes and sends nothing; a VM without an address leaves the allocation
    recorded and some VMs without their parts. *)
Lemma config_outcome cfg g :
  let o := config cfg g in
  (~ placed g cfg ∧ o = Outcome g [] 500 []) ∨
  ∃ l, placed g cfg ∧ inhabited l ∧ (∀ vm app, part_of l vm app = share_of g cfg vm app) ∧
    o_state o = set_config cfg g ∧
    ((∀ vm, is_Some (l !! vm) → is_Some (vm_ip_map g !! vm)) ∧ o_status o = 202%Z ∧
      o_commands o = (λ p, send_config (F := F) p.2 (default [] (vm_ip_map g !! p.1))) <$> entries l ∨
     o_status o = 500%Z ∧ ∃ pre vm part post, entries l = pre ++ (vm, part) :: post ∧
      vm_ip_map g !! vm = None ∧ (∀ q, q ∈ pre → is_Some (vm_ip_map g !! q.1)) ∧
      o_commands o = (λ p, send_config (F := F) p.2 (default [] (vm_ip_map g !! p.1))) <$> pre).
Proof.
  cbv zeta. destruct (placed_dec g cfg) as [Hp|Hp].
  - right. destruct (split_spec g cfg Hp) as (l & E & Hi & Hl). exists l. unfold config. rewrite E.
    split; [done|]. split; [done|]. split; [done|].
    destruct (decide (Exists (λ p, vm_ip_map g !! p.1 = None) (entries l))) as [He|Hn].
    + apply Exists_exists, first_without in He as (pre & [vm part] & post & Ee & Hpre & Hn).
      rewrite Ee, (send_parts_stops (set_config cfg g)) by done. split; [done|]. right. split; [done|].
      by exists pre, vm, part, post.
    + rewrite <- Forall_Exists_neg, Forall_forall in Hn.
      assert (Hip : ∀ p, p ∈ entries l → is_Some (vm_ip_map g !! p.1)).
      { intros p Hp'. specialize (Hn p Hp'). by apply not_eq_None_Some in Hn. }
      rewrite (send_parts_all (set_config cfg g)) by done. split; [done|]. left. split; [|done].
      intros vm [c Hc]. apply (Hip (vm, c)). by apply elem_of_hash.
  - left. split; [done|]. unfold config. by rewrite split_panics.
Qed.

(** C10: what a posted allocation does.  With an application that has no VM:
    status 500, nothing changed and nothing sent.  Otherwise the allocation is
    recorded; every VM is sent its part once, each application divided evenly
    among its VMs, and the status is 202; or some VM has no address, the
    status is 500 and exactly the VMs before the first such VM in the order
    were sent theirs. *)
Theorem config_handled cfg g :
  let o := config cfg g in
  (~ placed g cfg ∧ o = Outcome g [] 500 []) ∨
  ∃ l, placed g cfg ∧ (∀ vm app, part_of l vm app = share_of g cfg vm app) ∧ o_state o = set_config cfg g ∧
    ((∀ vm, is_Some (l !! vm) → is_Some (vm_ip_map g !! vm)) ∧ o_status o = 202%Z ∧
      o_commands o = (λ p, send_config (F := F) p.2 (default [] (vm_ip_map g !! p.1))) <$> entries l ∨
     o_status o = 500%Z ∧ ∃ pre vm part post, entries l = pre ++ (vm, part) :: post ∧
      vm_ip_map g !! vm = None ∧ (∀ q, q ∈ pre → is_Some (vm_ip_map g !! q.1)) ∧
      o_commands o = (λ p, send_config (F := F) p.2 (default [] (vm_ip_map g !! p.1))) <$> pre).
Proof.
  cbv zeta. destruct (config_outcome cfg g) as [?|(l & ? & _ & ? & ? & ?)]; [by left|right]. by exists l.
Qed.
End facts.

(** C14: what the VMs are sent does not depend on the iteration order of the
    hash maps: any two orders give the same parts, or both panic. *)
Theorem split_order_independent {F} `{PyFloat F} {O1 O2 : HashOrder} (g : global_allocation (F := F)) cfg :
  split_global_allocation (H0 := O1) g cfg = split_global_allocation (H0 := O2) g cfg.
Proof.
  destruct (placed_dec (O := O1) g cfg) as [Hp|Hp].
  - destruct (split_spec (O := O1) g cfg Hp) as (l1 & -> & Hi1 & Hl1).
    destruct (split_spec (O := O2) g cfg Hp) as (l2 & -> & Hi2 & Hl2).
    f_equal. apply parts_ext; [done..|]. intros vm app. by rewrite Hl1, Hl2.
  - by rewrite !split_panics.
Qed.

(** ** What dividing loses *)

Lemma zsum_const (vms : list Z) (c : Z) : zsum ((λ _, c) <$> vms) = (Z.of_nat (length vms) * c)%Z.
Proof. induction vms as [|vm vms IH]; [done|]. cbn [fmap list_fmap zsum foldr length]. unfold zsum in IH. rewrite IH, Nat2Z.inj_succ. ring. Qed.

(** When an application runs on several VMs, what they are sent adds up to
    at most its allocation and misses less than one unit per VM of each
    resource. *)
Theorem split_bounds {F} `{PyFloat F} `{O : HashOrder} (g : global_allocation (F := F)) cfg app mem bw vms :
  placed g cfg → uc_allocation_map cfg !! app = Some (mem, bw) → placement_map g !! app = Some vms →
  ∃ l, split_global_allocation g cfg = Ok l ∧
    let k := Z.of_nat (length vms) in
    let mems := zsum ((λ vm, default 0 (fst <$> part_of l vm app)) <$> vms)%Z in
    let bws := zsum ((λ vm, default 0 (snd <$> part_of l vm app)) <$> vms)%Z in
    (mems <= mem < mems + k ∧ bws <= bw < bws + k)%Z.
Proof.
  intros Hp Ha Hv. destruct (split_spec g cfg Hp) as (l & E & _ & Hl). exists l. split; [done|]. cbv zeta.
  destruct (Hp app) as (vms' & Hv' & Hne); [by rewrite Ha|]. rewrite Hv in Hv'. injection Hv' as <-.
  set (k := Z.of_nat (length vms)). assert (Hk : (0 < k)%Z) by (destruct vms; simpl in *; [done|lia]).
  assert (Hpart : ∀ vm, vm ∈ vms → part_of l vm app = Some (mem / k, bw / k)%Z).
  { intros vm Hvm. rewrite Hl. unfold share_of. rewrite Ha, Hv. cbn. by rewrite decide_True. }
  assert (Hsum : ∀ (f : Z → Z) c, (∀ vm, vm ∈ vms → f vm = c) → zsum (f <$> vms) = (k * c)%Z).
  { intros f c Hf. unfold k. rewrite <- zsum_const. f_equal. apply list_fmap_ext.
    intros i vm Hi. apply Hf. by eapply list_elem_of_lookup_2. }
  rewrite (Hsum _ (mem / k)%Z), (Hsum (λ vm, default 0%Z (snd <$> part_of l vm app)) (bw / k)%Z)
    by (intros vm Hvm; by rewrite Hpart).
  pose proof (Z.div_mod mem k ltac:(lia)). pose proof (Z.mod_pos_bound mem k Hk).
  pose proof (Z.div_mod bw k ltac:(lia)). pose proof (Z.mod_pos_bound bw k Hk). lia.
Qed.

(** ** The status *)

Section status.
Context {F : Type} `{PyFloat F} `{O : HashOrder}.
Implicit Types um : usages F.

Lemma fold_insert_collect {V} (l : list (Z * V)) (acc : gmap Z V) :
  NoDup l.*1 → (∀ k, k ∈ l.*1 → acc !! k = None) →
  foldl (λ acc p, <[p.1 := p.2]> acc) acc l = list_to_map l ∪ acc.
Proof.
  revert acc. induction l as [|[k v] l IH]; intros acc Hnd Hacc; csimpl; [by rewrite (left_id_L ∅ (∪))|].
  csimpl in Hnd. apply NoDup_cons in Hnd as [Hk Hnd]. rewrite IH.
  - rewrite <- insert_union_l, insert_union_r; [done|]. by apply not_elem_of_list_to_map.
  - done.
  - intros k' Hk'. rewrite lookup_insert_ne by (by intros ->). apply Hacc. csimpl. by right.
Qed.

(** Sorting the entries of a hash map changes nothing. *)
Lemma sort_usage_map_id um : sort_usage_map um = um.
Proof.
  unfold sort_usage_map. destruct (um !! 0%Z) as [m|] eqn:E; [|done].
  cut ((list_to_map (sorted_by_key m) : gmap Z (app_usage (F := F))) = m); [intros ->; by apply insert_id|].
  unfold sorted_by_key. rewrite fold_insert_collect.
  - change (list_to_map (entries m) ∪ ∅) with ((list_to_map (entries m) : gmap Z _) ∪ ∅).
    rewrite entries_collect, (right_id_L ∅ (∪)).
    rewrite (list_to_map_proper _ (map_to_list m)); [apply list_to_map_to_list| |apply merge_sort_Permutation].
    rewrite merge_sort_Permutation. apply NoDup_fst_map_to_list.
  - apply keys_NoDup.
  - intros. apply lookup_empty.
Qed.

Lemma listed_keys um : dkeys (listed um) = keys um.
Proof. unfold dkeys, listed, keys. by rewrite <- list_fmap_compose. Qed.

Lemma elem_of_listed um p : p ∈ listed um ↔ ∃ apps, um !! p.1 = Some apps ∧ p.2 = entries apps.
Proof.
  unfold listed. rewrite list_elem_of_fmap. split.
  - intros ([vm apps] & -> & Hin). apply elem_of_hash in Hin. by exists apps.
  - destruct p as [vm l]. simpl. intros (apps & Hin & ->). exists (vm, apps). split; [done|]. by apply elem_of_hash.
Qed.

(** The floats of all reports are written readably. *)
Definition readable (show_float : F → text) um : Prop :=
  ∀ vm apps app u, um !! vm = Some apps → apps !! app = Some u → Forall (float_ok show_float) (usage_floats u).

Lemma listed_sendable show_float um : readable show_float um → sendable show_float (listed um).
Proof.
  intros Hr. split; [rewrite listed_keys; apply keys_NoDup|]. apply Forall_forall.
  intros [vm l] (apps & Hin & E)%elem_of_listed. simpl in E. subst l. split; [apply keys_NoDup|].
  apply Forall_forall. intros [app u] Hu%elem_of_hash. by eapply Hr.
Qed.

(** What the monitor gets when it asks for the status. *)
Lemma status_read show_float (g : global_allocation (F := F)) interval th (m : monitor F) :
  (∀ x, ascii_only (show_float x)) → readable show_float (ga_usage_map g) →
  collect_answer interval th (Answered 200 (o_body (cluster_status show_float g))) m =
  Ok (Some (collect interval th (Some (raw_usage_map (listed (ga_usage_map g)))) m)).
Proof.
  intros Hascii Hr. cbn [o_body cluster_status]. rewrite sort_usage_map_id.
  by apply collect_reads; [|by apply listed_sendable|].
Qed.
End status.
