(* ===== verification/Cgroups.v ===== *)
(** * Enforcing limits: local-enforcer/src/cache_client.rs, the cgroup files

    The local enforcer writes an application's share into the control files
    of its container: [memory.max], [memory.high], [memory.swap.max] and
    [io.max].  The files are read through arguments (what a path contains at
    the time) and written into a list of writes, in order, which are taken to
    succeed: the program reports a memory write that fails and goes on, and
    panics on one to [io.max].  Floats are binary64 in the program and a parameter
    here, as in the rest of the development. *)

From S2P Require Import Prelude PyDict PyFloat PyStr Rust.
From Stdlib Require Import Ascii.

(** A write: path and content. *)
Abbreviation write := (text * text)%type.

(** Reading a path at some moment; [None] when there is no such file. *)
Definition files := text → option text.

(** ** The path of a container's cgroup *)

Definition max_attempts : nat := 5.

(** The loop over attempts: attempt [i] gave the content of the process's
    cgroup file, or failed. *)
Fixpoint first_cgroup (attempts : nat → option text) (i n : nat) : option text :=
  match n with
  | O => None
  | S n' => match attempts i with Some c => Some c | None => first_cgroup attempts (S i) n' end
  end.

(** [get_cgroup_path_docker] *)
Definition get_cgroup_path_docker (attempts : nat → option text) : res (option text) :=
  match first_cgroup attempts 0 max_attempts with
  | None => Ok None
  | Some cgroup =>
      line ← unwrap (list_find (λ l, contains (str "::/") l = true) (lines cgroup));
      cgroup_path ← unwrap (PyStr.split (str "::") line.2 !! 1%nat);
      Ok (Some (str "/sys/fs/cgroup" ++ cgroup_path))
  end.

(** [get_cgroup_path]: the path, and the cache of paths *)
Definition get_cgroup_path (docker : text → nat → option text) (container_name : text) (cont_cgroup_map : gmap text text)
    : res (option text * gmap text text) :=
  match cont_cgroup_map !! container_name with
  | Some p => Ok (Some p, cont_cgroup_map)
  | None =>
      group_path ← get_cgroup_path_docker (docker container_name);
      match group_path with
      | Some p => Ok (Some p, <[container_name := p]> cont_cgroup_map)
      | None => Ok (None, cont_cgroup_map)
      end
  end.

Section limits.
Context {F : Type} `{PyFloat F}.
Local Open Scope py_scope.

(** ** Memory *)

Definition EVICTION_PRESSURE_RATIO : F := lit 9 10.
Definition EVICTION_PRESSURE_MB : Z := 256.

(** [get_current_mem_usage]: bytes to MiB *)
Definition get_current_mem_usage (memory_current : option text) : res (option Z) :=
  match memory_current with
  | None => Ok None
  | Some s =>
      bytes ← unwrap (parse_u64 (trim s));
      Ok (Some (as_u64 (fquot (fquot (of_Z bytes : F) (of_Z 1024)) (of_Z 1024))))
  end.

(** [memory.high] for a limit *)
Definition high_of (mem_mb : Z) : Z :=
  let pressure_mb := if (EVICTION_PRESSURE_MB <? mem_mb)%Z then (mem_mb - EVICTION_PRESSURE_MB)%Z else 0%Z in
  Z.max pressure_mb (as_u64 ((of_Z mem_mb : F) * EVICTION_PRESSURE_RATIO)).

(** [write_settings] *)
Definition write_settings (cgroup_path : text) (mem_mb : Z) : list write :=
  [(cgroup_path ++ str "/memory.max", show mem_mb ++ str "M");
   (cgroup_path ++ str "/memory.high", show (high_of mem_mb) ++ str "M")].

Definition iter_max : nat := 5.

(** The [while] loop of the gradual decrease: the limits it sets.
    [memory_current i] is the usage file at iteration [i]. *)
Fixpoint decrease (memory_current : nat → option text) (target : Z) (n i : nat) (current_mem : F) : res (list Z) :=
  match n with
  | O => Ok []
  | S n' =>
      current_use ← get_current_mem_usage (memory_current i);
      match current_use with
      | None => Ok []
      | Some use =>
          if (use <=? target)%Z then Ok []
          else if (use <=? as_u64 current_mem)%Z then
            let current_mem := current_mem * EVICTION_PRESSURE_RATIO in
            if current_mem <? of_Z target then Ok []
            else rest ← decrease memory_current target n' (S i) current_mem; Ok (as_u64 current_mem :: rest)
          else decrease memory_current target n' (S i) current_mem
      end
  end.

(** A limit file in MB; unreadable and unlimited ([max]) count as 0. *)
Definition limit_mb (content : option text) : Z :=
  let bytes := default 0%Z (parse_u64 (trim (default (str "0") content))) in
  if (0 <? bytes)%Z then (bytes / (1024 * 1024))%Z else 0%Z.

(** The limits set for a target, in order *)
Definition memory_steps (memory_max : option text) (memory_current : nat → option text) (target : Z) : res (list Z) :=
  let current_mem_mb := limit_mb memory_max in
  steps ← (if (target <? current_mem_mb)%Z
           then decrease memory_current target iter_max 0 (of_Z current_mem_mb) else Ok []);
  Ok (steps ++ [target]).

Definition swap_size_mb : Z := 40 * 1024.

Definition swap_write (cgroup_path : text) (swap_max : option text) : list write :=
  if (limit_mb swap_max <? swap_size_mb)%Z
  then [(cgroup_path ++ str "/memory.swap.max", show (swap_size_mb * 1024 * 1024))] else [].

(** [set_memory_size_via_cgroup]: the writes and the cache of paths.  [fs] is
    read before, [memory_current] during the decrease. *)
Definition set_memory_size_via_cgroup (docker : text → nat → option text) (fs : files)
    (memory_current : nat → option text) (container : option text) (mem_size : Z) (paths : gmap text text)
    : res (list write * gmap text text) :=
  match container with
  | None => Ok ([], paths)
  | Some container_name =>
      '(cgroup_path, paths) ← get_cgroup_path docker container_name paths;
      match cgroup_path with
      | None => Ok ([], paths)
      | Some p =>
          steps ← memory_steps (fs (p ++ str "/memory.max")) memory_current mem_size;
          Ok ((steps ≫= write_settings p) ++ swap_write p (fs (p ++ str "/memory.swap.max")), paths)
      end
  end.

(** ** Bandwidth *)

Definition MBPS_TO_BYTES_PER_SEC : Z := 125000.

(** The line for [io.max] *)
Definition bw_alloc_str (maj_min : text) (mem_bw : Z) : text :=
  let rate := show (wrap (mem_bw * MBPS_TO_BYTES_PER_SEC)) in
  maj_min ++ str " rbps=" ++ rate ++ str " wbps=" ++ rate.

(** [update_swap_bandwidth]; a missing [io.max] panics. *)
Definition update_swap_bandwidth (docker : text → nat → option text) (fs : files) (maj_min : text)
    (container : option text) (mem_bw : Z) (paths : gmap text text) : res (list write * gmap text text) :=
  match container with
  | None => Ok ([], paths)
  | Some container_name =>
      '(cgroup_path, paths) ← get_cgroup_path docker container_name paths;
      match cgroup_path with
      | None => Ok ([], paths)
      | Some p =>
          _ ← unwrap (fs (p ++ str "/io.max"));
          Ok ([(p ++ str "/io.max", bw_alloc_str maj_min mem_bw)], paths)
      end
  end.
End limits.
