(* ===== verification/MissRatio.v ===== *)
(** * Miss-ratio curves: local-enforcer/src/cache_client.rs

    The local enforcer fits accesses per page to a power law and writes the
    miss ratio at 64 cache sizes into the curve it reports.  Modelled are the
    formulas of the fit ([compute_accesses], [compute_compulsory_miss_point],
    [compute_beta_coeff], [precompute_delta_coeff], [compute_miss_ratio]) and
    the reconstruction of the curve at the end of [compute_mrc_via_aet]
    ([build_mrc]).  The fit itself is in MrcFit.

    [powf] and [ln_1p] are parameters; their precision is not specified. *)

From S2P Require Import Prelude PyDict PyFloat Rust.

Section mrc.
Context {F : Type} `{PyFloat F}.
Context (powf : F → F → F) (ln_1p : F → F).
Local Open Scope py_scope.
Local Notation "x ÷ y" := (fquot x y) (at level 40, left associativity) : py_scope.

(** Negation, which keeps the sign of zero right *)
Definition fneg (x : F) : F := of_Z (-1) * x.

(** [(beta, gamma, pages_in_gb)] *)
Record coeff := Coeff { beta : F; gamma : F; pages_in_gb : F }.

(** [compute_beta_coeff]: [data_x[0].1] of a non-empty list *)
Definition compute_beta_coeff (c : coeff) (data_x : list (F * F)) (exponent : option F) : res coeff :=
  x0 ← unwrap (head data_x);
  let max_coeff := x0.2 * of_Z 100 in
  Ok (match exponent with
      | Some exponent =>
          if of_Z 1 <? exponent then
            let n := pages_in_gb c in
            let b := x0.2 * n * (of_Z 1 - exponent) ÷ (powf (of_Z 1 + of_Z 1 ÷ n) (of_Z 1 - exponent) - of_Z 1) in
            Coeff (if max_coeff <=? b then max_coeff else b) (gamma c) n
          else c
      | None => c
      end).

(** [precompute_delta_coeff] *)
Definition precompute_delta_coeff (c : coeff) (sample_rate : F) : coeff :=
  Coeff (beta c) (lit 1 10 * sample_rate) (pages_in_gb c).

(** ** Compulsory misses *)

Definition mp_max_iter : nat := 2500.
Definition mp_tol : F := lit 1 1000000.
Definition mp_epsilon : F := lit 1 10.

(** The Newton iteration of [compute_compulsory_miss_point] *)
Fixpoint miss_point_loop (n : nat) (exponent : F) (c : coeff)
    (term anon_accesses pages_detected pages_until_cache mid : F) : F :=
  match n with
  | O => mid
  | S n' =>
      let np := pages_in_gb c in
      let u_mid := of_Z 1 + mid ÷ np in
      let mid_accesses := term * powf u_mid (of_Z 1 - exponent) + gamma c * mid in
      let d_mid_accesses := beta c * powf u_mid (fneg exponent) + gamma c in
      let d2_mid_accesses := fneg exponent * powf u_mid (fneg exponent - of_Z 1) * (of_Z 1 ÷ np) in
      let budget := (pages_until_cache - mid) * mid_accesses in
      let d_budget := fneg mid_accesses + (pages_until_cache - mid) * d_mid_accesses in
      let d2_budget := of_Z (-2) * d_mid_accesses + (pages_until_cache - mid) * d2_mid_accesses in
      let f := anon_accesses - mid_accesses - budget in
      let f_prime := fneg d_mid_accesses - d_budget in
      let f_double_prime := fneg d2_mid_accesses - d2_budget in
      let denominator := f_prime * f_prime + f * f_double_prime in
      if fabs denominator <? mp_tol then mid
      else
        let delta := f * f_prime ÷ denominator in
        let mid := mid - mp_epsilon * delta in
        let mid := if mid <? pages_detected then pages_detected
                   else if pages_until_cache <? mid then pages_until_cache else mid in
        if fabs delta <? mp_tol then mid
        else miss_point_loop n' exponent c term anon_accesses pages_detected pages_until_cache mid
  end.

(** [compute_compulsory_miss_point] *)
Definition compute_compulsory_miss_point (exponent : F) (c : coeff)
    (pages_detected pages_until_cache pages_until_anon : F) : F :=
  let np := pages_in_gb c in
  let term := beta c * np ÷ (of_Z 1 - exponent) in
  let anon_u := of_Z 1 + pages_until_anon ÷ np in
  let anon_accesses := term * powf anon_u (of_Z 1 - exponent) + gamma c * pages_until_anon in
  miss_point_loop mp_max_iter exponent c term anon_accesses pages_detected pages_until_cache
    (pages_until_cache - mp_epsilon).

(** ** Accesses and miss ratio *)

(** [compute_accesses] *)
Definition compute_accesses (pages exponent : F) (c : coeff)
    (pages_detected pages_until_cache pages_until_anon tolerance : F) (hit_only : bool) : F :=
  let np := pages_in_gb c in
  if fabs (exponent - of_Z 1) <? tolerance then
    let term := ln_1p (pages ÷ np) in
    if hit_only then
      let point := compute_compulsory_miss_point exponent c pages_detected pages_until_cache pages_until_anon in
      if pages <=? point then rmax (beta c * np * term) (of_Z 0) + gamma c * pages
      else
        let term := ln_1p (point ÷ np) in
        rmax (beta c * np * term - point) (of_Z 0) + gamma c * point
    else beta c * np * term + gamma c * pages
  else
    let term := powf (of_Z 1 + pages ÷ np) (of_Z 1 - exponent) - of_Z 1 in
    if hit_only then
      let point := compute_compulsory_miss_point exponent c pages_detected pages_until_cache pages_until_anon in
      if pages <=? point then rmax (beta c ÷ (of_Z 1 - exponent) * np * term) (of_Z 0) + gamma c * pages
      else
        let term := powf (of_Z 1 + point ÷ np) (of_Z 1 - exponent) - of_Z 1 in
        rmax (beta c ÷ (of_Z 1 - exponent) * np * term) (of_Z 0) + gamma c * point
    else beta c ÷ (of_Z 1 - exponent) * np * term + gamma c * pages.

Definition SEPRATE_COMPULSORY : bool := false.

(** [compute_miss_ratio] *)
Definition compute_miss_ratio (pages_detected pages_until_cache pages_until_anon pages_until_target exponent : F)
    (c : coeff) : F :=
  let tolerance := lit 1 1000000 in
  let accesses_est := compute_accesses pages_until_target exponent c pages_detected pages_until_cache
                        pages_until_anon tolerance SEPRATE_COMPULSORY in
  let accesses_tot := compute_accesses pages_until_anon exponent c pages_detected pages_until_cache
                        pages_until_anon tolerance false in
  of_Z 1 - rmin (rmax (accesses_est ÷ accesses_tot) (of_Z 0)) (of_Z 1).

(** ** The curve *)

Definition MAX_CACHE_IN_MB : Z := 16 * 1024.
Definition CACHE_GRANULARITY_MB : Z := 256.
Definition PAGE_SIZE_BYTES : Z := 4096.

(** [(256..=16384).step_by(256)] *)
Definition cache_sizes_mb : list Z :=
  (λ i, CACHE_GRANULARITY_MB * (i + 1))%Z <$> seqZ 0 (MAX_CACHE_IN_MB / CACHE_GRANULARITY_MB).

(** One point *)
Definition mrc_point (exp_coeff : option (F * coeff)) (pages_detected : F) (anon_mem_pages : Z) (cache_size_mb : Z)
    : Z * F :=
  let cache_capacity_addresses := of_Z (cache_size_mb * 1024 * 1024 / PAGE_SIZE_BYTES) in
  let anon := of_Z anon_mem_pages in
  let miss_ratio :=
    match exp_coeff with
    | Some (exponent, c) =>
        if (pages_detected <? cache_capacity_addresses) && (cache_capacity_addresses <=? anon) then
          compute_miss_ratio pages_detected cache_capacity_addresses anon cache_capacity_addresses exponent c
        else of_Z 0
    | None => of_Z 0
    end in
  (cache_size_mb, clamp (of_Z 0) (of_Z 1) miss_ratio).

(** [if let Some((_, last)) = mrc.last_mut() { *last = 0.0 }] *)
Definition zero_last (l : list (Z * F)) : list (Z * F) :=
  match last l with
  | Some (size, _) => take (length l - 1) l ++ [(size, of_Z 0)]
  | None => l
  end.

(** The end of [compute_mrc_via_aet] *)
Definition build_mrc (exp_coeff : option (F * coeff)) (pages_detected : F) (anon_mem_pages : Z) : list (Z * F) :=
  zero_last (mrc_point exp_coeff pages_detected anon_mem_pages <$> cache_sizes_mb).
End mrc.
