(* ===== verification/PerfStats.v ===== *)
(** * What the local enforcer measures: local-enforcer/src/cache_client.rs

    Moving averages of the hardware counters ([PerfStat]), the counters in the
    output of [perf], the block-device traffic ([BlkUseStat]), and the memory
    a container uses. *)

From S2P Require Import Prelude PyDict PyFloat PyStr Rust Regex Cgroups.
From Stdlib Require Import Ascii.

(** ** Hardware counters *)

Definition PERF_HISTORY_LENGTH : nat := 16.

Section stats.
Context {F : Type} `{PyFloat F}.

(** [PerfStat] *)
Record perf_stat := PerfStat {
  cache_misses : list Z;
  cache_references : list Z;
  major_faults : list Z;
  mem_ops : list Z;
  avg_miss : Z;
  avg_hit : Z;
  avg_faults : Z;
  avg_mem_ops : Z;
  ps_mrc : list (Z * F);
}.

(** [PerfStat::new] *)
Definition new_perf_stat : perf_stat := PerfStat [] [] [] [] 0 0 0 0 [].

(** [push_back], and [pop_front] beyond the history length *)
Definition push (x : Z) (l : list Z) : list Z :=
  let l := l ++ [x] in if (PERF_HISTORY_LENGTH <? length l)%nat then drop 1 l else l.

(** [l.iter().sum::<u64>() / l.len() as u64] of a non-empty deque *)
Definition average (l : list Z) : Z := (usum l / Z.of_nat (length l))%Z.

(** [PerfStat::update] *)
Definition update_perf (miss hit faults ops : Z) (p : perf_stat) : perf_stat :=
  let misses := push miss (cache_misses p) in
  let references := push hit (cache_references p) in
  let mfaults := push faults (major_faults p) in
  let mops := push ops (mem_ops p) in
  PerfStat misses references mfaults mops
    (average misses) (average references) (average mfaults) (average mops) (ps_mrc p).

(** [PerfStat::update_mrc] *)
Definition update_mrc (mrc : list (Z * F)) (p : perf_stat) : perf_stat :=
  PerfStat (cache_misses p) (cache_references p) (major_faults p) (mem_ops p)
    (avg_miss p) (avg_hit p) (avg_faults p) (avg_mem_ops p) mrc.

(** [PerfStat::drop_records] *)
Definition drop_records (p : perf_stat) : perf_stat :=
  PerfStat [] [] (major_faults p) (mem_ops p) 0 0 (avg_faults p) (avg_mem_ops p) (ps_mrc p).
End stats.

(** ** The output of [perf stat] *)

Definition digit_or_comma (c : ascii) : bool := is_digit c || is_chr ","%char c.

(** A digit, digits and commas, and blanks before the name of an event *)
Definition counter_of (event : re) : re :=
  (Group (Chr is_digit @@ Greedy 0 digit_or_comma) @@ Greedy 1 whitespace @@ event)%re.

(** The dots of the event names match any character. *)
Definition misses_regex : re := counter_of ("MEM_LOAD_UOPS_RETIRED" ~> Chr not_newline @@ "L3_MISS:u" ~> Eps).
Definition references_regex : re := counter_of ("cache-references:u" ~> Eps).
Definition faults_regex : re := counter_of ("major-faults:u" ~> Eps).
Definition mem_loads_regex : re := counter_of ("MEM_UOPS_RETIRED" ~> Chr not_newline @@ "ALL_LOADS:u" ~> Eps).

(** The first group without its commas, as a number *)
Definition counter (r : re) (output : text) : option Z :=
  groups ← re_search r output;
  g ← head groups;
  parse_u64 (filter (λ c, c ≠ ","%char) g).

(** [monitor_perf_via_cgroups]: misses, references, faults and loads;
    [output] is what [perf] wrote, [None] when it could not be run or there
    is no cgroup. *)
Definition monitor_perf (output : option text) : Z * Z * Z * Z :=
  match output with
  | None | Some [] => (0, 0, 0, 0)%Z
  | Some s =>
      let ops := default 0%Z (counter mem_loads_regex s) in
      match counter misses_regex s, counter references_regex s, counter faults_regex s with
      | Some misses, Some references, Some faults => (misses, references, faults, ops)
      | _, _, _ => (0, 0, 0, ops)%Z
      end
  end.

(** ** Block-device traffic *)

(** [BlkUseStat] *)
Record blk_use_stat := BlkUseStat { prev_read_bytes : Z; prev_write_bytes : Z; prev_time : Z }.

(** [BlkUseStat::new] *)
Definition new_blk_use_stat : blk_use_stat := BlkUseStat 0 0 0.

(** One [key=value] of a line *)
Definition io_part (acc : Z * Z) (part : text) : res (Z * Z) :=
  match split_char "="%char part with
  | [action; value] =>
      v ← unwrap (parse_u64 value);
      Ok (if bool_decide (action = str "rbytes") then (v, acc.2)
          else if bool_decide (action = str "wbytes") then (acc.1, v) else acc)
  | _ => Ok acc
  end.

(** The bytes read and written by the device, from [io.stat] *)
Definition io_bytes (maj_min contents : text) : res (Z * Z) :=
  for_all (λ line acc,
    match split_whitespace line with
    | dev :: parts =>
        if (2 <=? length parts)%nat && bool_decide (dev = maj_min)
        then for_all (λ part acc, io_part acc part) parts acc else Ok acc
    | [] => Ok acc
    end) (lines contents) (0, 0)%Z.

Section traffic.
Context {F : Type} `{PyFloat F}.
Local Open Scope py_scope.

(** Mbps of a difference of counters over [elapsed] seconds *)
Definition mbps (now prev : Z) (elapsed : F) : F :=
  fquot (of_Z (wrap (wrap (now - prev) * 8))) (of_Z 1024 * of_Z 1024 * elapsed).

(** The rest of [get_blk_bandwidth]: the bandwidth and the new record *)
Definition blk_bandwidth (read_bytes write_bytes current_time : Z) (st : blk_use_stat) : Z * blk_use_stat :=
  if (current_time <=? prev_time st)%Z then (0%Z, st)
  else
    let elapsed := fquot (of_Z (current_time - prev_time st)%Z : F) (of_Z 1000) in
    let read_mbps := mbps read_bytes (prev_read_bytes st) elapsed in
    let write_mbps := mbps write_bytes (prev_write_bytes st) elapsed in
    (as_u64 (rmax read_mbps write_mbps), BlkUseStat read_bytes write_bytes current_time).

(** ** Memory *)

(** [get_anon_mem_usage], from [memory.stat] and [memory.swap.current] *)
Definition get_anon_mem_usage (memory_stat swap_current : option text) : option Z :=
  content ← memory_stat;
  '(_, anon_line) ← list_find (λ l, starts_with (str "anon ") l = true) (lines content);
  anon_bytes ← match split_whitespace anon_line with [_; v] => parse_u64 v | _ => None end;
  swap ← swap_current;
  swap_bytes ← parse_u64 (trim swap);
  Some (as_u64 (fquot (fquot (of_Z (wrap (swap_bytes + anon_bytes)) : F) (of_Z 1024)) (of_Z 1024))).
End traffic.
