(* ===== verification/MrcFit.v ===== *)
(** * Fitting a miss-ratio curve: local-enforcer/src/cache_client.rs

    The thread of a container samples the addresses of its cache misses
    ([collect_perf_pebs]), counts them per page, fits an exponent and
    coefficients to the counts and to the miss ratio measured in the last
    reports ([compute_exponent]), and reconstructs the curve with them
    ([compute_mrc_via_aet]).  What [perf script] printed is an argument.

    Left out are the values that are only printed: the histories, the curves
    and the convergence of [compute_exponent], and the faults per second.  A
    few parameters are handed down and never used ([sample_rate],
    [access_sampled]); [powi(2)] is the product. *)

From S2P Require Import Prelude PyDict PyFloat PyStr Regex Rust Json Dumps Resources Base Params Monitor MonitorFacts System Wire GlobalEnforcer Cgroups MissRatio PerfStats.
From Stdlib Require Import Ascii.

Definition LEN_PERF_HISTORY : nat := 100.
Definition CACHE_LINE_SIZE_BYTES : Z := 64.
Definition CACHE_SAMPLE_RATE : Z := 25.

(** ** Samples *)

Definition is_hex (c : ascii) : bool :=
  is_digit c || ((65 <=? code c) && (code c <=? 70))%Z || ((97 <=? code c) && (code c <=? 102))%Z.

Definition hex_digit (c : ascii) : Z :=
  if is_digit c then code c - 48 else if (code c <=? 70)%Z then code c - 55 else code c - 87.

(** [u64::from_str_radix(s, 16)] of hexadecimal digits *)
Definition from_hex (s : text) : option Z :=
  let z := foldl (λ a c, a * 16 + hex_digit c)%Z 0%Z s in if bool_decide (is_u64 z) then Some z else None.

Definition sample_regex : re :=
  (":" ~> Greedy 0 whitespace @@ digits @@ Greedy 0 whitespace @@ "MEM_LOAD_UOPS_RETIRED" ~> Chr not_newline @@
   "L3_MISS:uP:" ~> Greedy 0 whitespace @@ Group (Greedy 1 is_hex))%re.

(** The page of a sample *)
Definition sample_page (line : text) : option Z :=
  groups ← re_search sample_regex line;
  g ← head groups;
  addr ← from_hex g;
  Some (addr / PAGE_SIZE_BYTES)%Z.

(** [collect_perf_pebs]; [output] is [None] when the container has no cgroup
    or a command failed. *)
Definition collect_perf_pebs (output : option text) : option (list Z) :=
  out ← output; Some (omap sample_page (lines out)).

(** The pages of user space *)
Definition user_pages (l : list Z) : list Z := filter (λ a, a < 0xFFFF800000000000 / PAGE_SIZE_BYTES)%Z l.

(** ** Frequencies *)

Definition count (m : gmap Z Z) (k : Z) : gmap Z Z := <[k := wrap (default 0%Z (m !! k) + 1)]> m.

(** Frequency to number of pages.  There is one sampling rate, the base rate,
    for which nothing is dropped. *)
Definition frequency_buckets_of `{HashOrder} (memory_accesses : list Z) : gmap Z Z :=
  let address_frequencies := foldl count ∅ memory_accesses in
  foldl count ∅ (entries address_frequencies).*2.

Definition descending (a b : Z) : Prop := (b <= a)%Z.
#[export] Instance descending_dec : RelDecision descending := λ a b, Z_le_dec b a.

Definition sorted_frequencies `{HashOrder} (buckets : gmap Z Z) : list Z := merge_sort descending (keys buckets).

(** An [i32] after an addition *)
Definition wrap_i32 (z : Z) : Z := ((z + 2 ^ 31) `mod` 2 ^ 32 - 2 ^ 31)%Z.

Section fit.
Context {F : Type} `{PyFloat F}.
Context (powf : F → F → F) (ln_1p : F → F).
Local Open Scope py_scope.
Local Notation "x ÷ y" := (fquot x y) (at level 40, left associativity) : py_scope.

Definition sq (x : F) : F := x * x.
Definition is_infinite (x : F) : bool := feqb (fabs x) finf.

(** ** The exponent *)

Definition tolerance : F := lit 1 1000000.
Definition tolerance_mr : F := lit 3 100.
Definition tolerance_observed : F := lit 5 100.
Definition max_iterations : nat := Z.to_nat 10000.
Definition learning_rate : F := lit 5 10.
Definition learning_rate_shape : F := lit 1 10.
Definition leraning_rate_sensitive : F := lit 1 100.
Definition clip_hit_rate : F := of_Z 100.
Definition max_clip : F := of_Z 10.

(** The variables of the two loops *)
Record fit := Fit { dx : F; exponent : F; fit_coeff : coeff (F := F) }.

(** The end of an iteration: the next one, [break] with a value, or [return None] *)
Inductive progress := Continue (s : fit) | Break (s : fit) | GiveUp.

Section exponent.
Context (hit_rate pages_detected pages_until_cache pages_until_anon : F) (observed_data : list (F * F)).

Definition target_hit_rate : F := rmin (rmax hit_rate tolerance) (of_Z 1 - tolerance).

Definition accesses (pages e : F) (c : coeff) (hit_only : bool) : F :=
  compute_accesses powf ln_1p pages e c pages_detected pages_until_cache pages_until_anon tolerance hit_only.

(** [accesses_est / accesses_tot] *)
Definition raw_hit_rate (e : F) (c : coeff) : F :=
  accesses pages_until_cache e c SEPRATE_COMPULSORY ÷ accesses pages_until_anon e c false.

Definition computed_hit_rate (e : F) (c : coeff) : F := rmin (rmax (raw_hit_rate e c) (of_Z 0)) (of_Z 1).
Definition computed_hit_rate_dx (e : F) (c : coeff) : F :=
  rmin (rmax (raw_hit_rate e c) tolerance) (of_Z 1 - tolerance).

(** The squared relative error of the miss ratio for a hit rate *)
Definition difference_of (computed : F) : F :=
  sq (((of_Z 1 - computed) - (of_Z 1 - target_hit_rate)) ÷ (of_Z 1 - target_hit_rate)).

Definition relative_error (e : F) (c : coeff) (p : F * F) : F :=
  if feqb p.2 (of_Z 0) then of_Z 0 else (accesses p.1 e c false - p.2) ÷ p.2.

Definition num_observed : F := of_Z (Z.of_nat (length observed_data)).

(** One step of gradient descent; [flat] is the rate where the slope is small *)
Definition descend (flat rate slope x : F) : F :=
  if fabs slope <? tolerance then
    if of_Z 0 <? slope then x - flat * tolerance else x + flat * tolerance
  else x - rate * slope.

(** The bounds of the exponent after a step *)
Definition bound_exponent (e : F) : F :=
  if e <? of_Z 0 then tolerance
  else match observed_data with
       | p :: _ :: _ => if p.2 * of_Z 2 <? e then p.2 * of_Z 2 else e
       | _ => e
       end.

(** [exponent + dx], away from 1, and [dx] *)
Definition shifted (near : F) (s : fit) : F * F :=
  let e := exponent s + dx s in
  if fabs (e - of_Z 1) <? near then (e + tolerance, dx s + tolerance) else (e, dx s).

(** An iteration of the first loop, which fits the observed data *)
Definition shape_step (s : fit) : res progress :=
  let '(Fit dx0 e c) := s in
  if fabs (e - of_Z 1) <? tolerance then Ok (Continue (Fit dx0 (e + tolerance) c))
  else
    let difference := difference_of (computed_hit_rate e c) in
    let errors := (λ p, sq (relative_error e c p)) <$> observed_data in
    let diff_exponent := foldl (λ d x, d + x ÷ num_observed) difference errors in
    if fabs (diff_exponent - difference) <? tolerance_observed then Ok (Break s)
    else
      let '(e_dx, dx1) := shifted tolerance s in
      let slope := foldl (λ d q,
        let error_sq := sq (relative_error e_dx c q.1) - q.2 in
        d + rmax (rmin (error_sq ÷ dx1) max_clip) (fneg max_clip) ÷ num_observed)
        (of_Z 0) (zip observed_data errors) in
      let e := bound_exponent (descend learning_rate_shape learning_rate_shape slope e) in
      c ← compute_beta_coeff powf c observed_data (Some e);
      Ok (if is_nan e || is_infinite e || (e <? of_Z 0) then GiveUp else Continue (Fit dx1 e c)).

(** The slope of the difference in a coefficient *)
Definition coeff_slope (e : F) (c c_dx : coeff) (dx1 : F) : F :=
  let difference := difference_of (computed_hit_rate e c) in
  let difference_dx := difference_of (computed_hit_rate_dx e c_dx) in
  rmax (rmin (difference_dx - difference) clip_hit_rate) (fneg clip_hit_rate) ÷ dx1.

Definition out_of_bounds (x : F) : bool := is_nan x || is_infinite x || (x <? of_Z 0).

(** An iteration of the second loop, which fits the measured miss ratio *)
Definition ratio_step (s : fit) : res progress :=
  let '(Fit dx0 e c) := s in
  if fabs (e - of_Z 1) <? tolerance then Ok (Continue (Fit dx0 (e + tolerance) c))
  else
    let difference := difference_of (computed_hit_rate e c) in
    if fabs difference <? tolerance_mr then Ok (Break s)
    else
      let '(e_dx, dx1) := shifted (lit 1 100000000) s in
      let difference_dx := difference_of (computed_hit_rate_dx e_dx c) in
      let e := bound_exponent (descend learning_rate leraning_rate_sensitive ((difference_dx - difference) ÷ dx1) e) in
      c ← compute_beta_coeff powf c observed_data (Some e);
      let slope := coeff_slope e c (Coeff (beta c) (gamma c + dx1) (pages_in_gb c)) dx1 in
      let g := descend learning_rate leraning_rate_sensitive slope (gamma c) in
      let g := if g <? of_Z 0 then tolerance else g in
      let c := Coeff (beta c) g (pages_in_gb c) in
      let slope := coeff_slope e c (Coeff (beta c) (gamma c) (pages_in_gb c + dx1)) dx1 in
      let n := descend learning_rate learning_rate slope (pages_in_gb c) in
      let n := if n <? tolerance then tolerance else n in
      let c := Coeff (beta c) (gamma c) n in
      Ok (if out_of_bounds (beta c) || out_of_bounds (gamma c) then GiveUp else Continue (Fit dx1 e c)).

(** A loop of at most [n] iterations: how it ended. *)
Fixpoint iterate (step : fit → res progress) (n : nat) (s : fit) : res progress :=
  match n with
  | O => Ok (Continue s)
  | S n' =>
      r ← step s;
      match r with Continue s' => iterate step n' s' | Break s' => Ok (Break s') | GiveUp => Ok GiveUp end
  end.

(** Whether a fit is taken although the second loop did not converge *)
Definition close_enough (e : F) (c : coeff) : bool :=
  let err := fabs (target_hit_rate - computed_hit_rate e c) in
  (fabs (err ÷ (of_Z 1 - target_hit_rate) * of_Z 100) <? of_Z 5) || (err <? tolerance_mr).

(** [compute_exponent]: the new exponent and coefficients, which replace the
    previous ones when there are any *)
Definition compute_exponent (prev_exponent : option F) (prev_coeff : option coeff) : res (option (F * coeff)) :=
  let s := Fit (lit 1 10000) (default (of_Z 2) prev_exponent)
             (default (Coeff (of_Z 1) tolerance (of_Z 1)) prev_coeff) in
  r ← iterate shape_step max_iterations s;
  match r with
  | GiveUp => Ok None
  | Break s | Continue s =>
      r ← iterate ratio_step max_iterations s;
      Ok match r with
         | GiveUp => None
         | Break s => Some (exponent s, fit_coeff s)
         | Continue s => if close_enough (exponent s) (fit_coeff s) then Some (exponent s, fit_coeff s) else None
         end
  end.
End exponent.

(** ** The measured miss ratio *)

(** What the loop over the last reports adds up *)
Record use_sums := UseSums {
  sum_bio_mbps : Z;
  sum_cache_miss_mbps : Z;
  sum_cache_ref_mbps : Z;
  sum_faults_ratio : F;
  sum_anon_pages : Z;
}.

Definition pages_of_mb (mb : Z) : Z := (wrap (wrap (mb * 1024) * 1024) / PAGE_SIZE_BYTES)%Z.

(** The body of the loop; a report without the application ends it. *)
Definition add_use (client_id app_id : Z) (use_record : usages F * gmap Z Z) (s : use_sums) : option use_sums :=
  apps ← use_record.1 !! client_id;
  u ← apps !! app_id;
  anon_mem_mb ← use_record.2 !! app_id;
  Some (UseSums (wrap (sum_bio_mbps s + us_bw_mbps u)) (wrap (sum_cache_miss_mbps s + us_cache_mbps u))
          (wrap (sum_cache_ref_mbps s + us_access_rate_ops_sec u)) (sum_faults_ratio s + us_hit_rate_percent u)
          (wrap (sum_anon_pages s + pages_of_mb anon_mem_mb))).

Definition sum_uses (client_id app_id : Z) (latest : list (usages F * gmap Z Z)) : option use_sums :=
  foldl (λ acc r, s ← acc; add_use client_id app_id r s) (Some (UseSums 0 0 0 (of_Z 0) 0)) latest.

(** ** The data points *)

(** Page index, accesses so far, and the points *)
Definition add_point (st : Z * F * list (F * F)) (accesses : F) : Z * F * list (F * F) :=
  let '(page_idx, cumulated, data_x) := st in
  let cumulated := cumulated + accesses in
  (wrap_i32 (page_idx + 1), cumulated, data_x ++ [(of_Z page_idx, cumulated)]).

Definition add_bucket (buckets : gmap Z Z) (est_sample_ratio : F) (k : Z) (st : Z * F * list (F * F))
    : res (Z * F * list (F * F)) :=
  n ← unwrap (buckets !! k);
  Ok (Nat.iter (Z.to_nat n) (λ st, add_point st (of_Z k * est_sample_ratio)) st).

(** The points, with one for the accesses the hardware cache took when there
    are few pages, and one at the sampling rate when there are few points *)
Definition data_points `{HashOrder} (buckets : gmap Z Z) (pages_detected est_sample_ratio at_zero : F)
    : res (list (F * F)) :=
  let st := (1%Z, of_Z 0, []) in
  let st := if (of_Z 0 <? pages_detected) && (pages_detected <? of_Z 10) then add_point st at_zero else st in
  st ← for_all (add_bucket buckets est_sample_ratio) (sorted_frequencies buckets) st;
  Ok (if (length st.2 <? 10)%nat then add_point st est_sample_ratio else st).2.

(** ** The curve *)

Definition OS_PREFETCH_FACTOR : F := of_Z 8.

(** From the samples and the sums over [len_use] reports: the fit, and the
    curve *)
Definition fit_curve `{HashOrder} (memory_accesses : list Z) (cache_size_mb : Z) (u : use_sums) (len_use : Z)
    (prev_exponent : option F) (prev_coeff : option coeff) : res (option (list (Z * F))) :=
  let n := of_Z len_use in
  let avg_cache_ref_mbps := of_Z (sum_cache_ref_mbps u) ÷ n in
  let avg_cache_miss_mbps := of_Z (sum_cache_miss_mbps u) ÷ n in
  let avg_bio_mbps := of_Z (sum_bio_mbps u) ÷ n in
  let avg_faults_ratio := sum_faults_ratio u ÷ n in
  anon_mem_pages ← udiv (sum_anon_pages u) len_use;
  let buckets := frequency_buckets_of memory_accesses in
  let pages_detected := of_Z (usum (entries buckets).*2) in
  let pages_fetched := avg_bio_mbps * of_Z 1024 * of_Z 1024 ÷ of_Z 8 ÷ of_Z PAGE_SIZE_BYTES in
  let num_samples := Z.of_nat (length memory_accesses) in
  let cache_access_bytes := avg_cache_miss_mbps * of_Z MBPS_TO_BYTES_PER_SEC in
  let cache_access_sampled := of_Z (wrap (Z.max num_samples 1 * CACHE_LINE_SIZE_BYTES)) ÷ of_Z 1 in
  let est_sample_ratio := rmax (cache_access_bytes ÷ cache_access_sampled) (of_Z CACHE_SAMPLE_RATE) in
  let cache_access_bytes := cache_access_sampled * est_sample_ratio in
  let hw_hit := (avg_cache_ref_mbps - avg_cache_miss_mbps) ÷ avg_cache_ref_mbps in
  let hw_hit := rmin (rmax hw_hit (lit 1 1000000)) (of_Z 1 - lit 1 1000000) in
  let cache_access := cache_access_bytes ÷ of_Z CACHE_LINE_SIZE_BYTES in
  let miss_ratio := rmin (rmin avg_faults_ratio (pages_fetched ÷ cache_access)) (of_Z 1) ÷ OS_PREFETCH_FACTOR in
  if of_Z 1 <=? miss_ratio then Ok None
  else
    let cache_size_in_pages := pages_of_mb cache_size_mb in
    let access_sampled := of_Z num_samples * est_sample_ratio in
    let hit_ratio := rmax (of_Z 1 - miss_ratio) (lit 1 100000000) in
    if (cache_size_in_pages <=? as_u64 pages_detected)%Z then
      Ok (Some (build_mrc powf ln_1p None pages_detected anon_mem_pages))
    else
      let at_zero := access_sampled ÷ (of_Z 1 - hw_hit) - access_sampled in
      data_x ← data_points buckets pages_detected est_sample_ratio at_zero;
      coeff ← match prev_coeff with
              | Some c =>
                  c ← compute_beta_coeff powf c data_x prev_exponent;
                  Ok (Some (precompute_delta_coeff c est_sample_ratio))
              | None => Ok None
              end;
      exp_coeff ← compute_exponent hit_ratio pages_detected (of_Z cache_size_in_pages) (of_Z anon_mem_pages) data_x
                    prev_exponent coeff;
      Ok match exp_coeff with
         | None => None
         | Some ec => Some (build_mrc powf ln_1p (Some ec) pages_detected anon_mem_pages)
         end.

(** [compute_mrc_via_aet] *)
Definition compute_mrc_via_aet `{HashOrder} (output : option text) (app_id client_id : Z) (cur_config : update_config)
    (latest_use : list (usages F * gmap Z Z)) (prev_exponent : option F) (prev_coeff : option coeff)
    : res (option (list (Z * F))) :=
  match collect_perf_pebs output with
  | None => Ok None
  | Some samples =>
      let memory_accesses := user_pages samples in
      match memory_accesses, uc_allocation_map cur_config !! app_id with
      | [], _ | _, None => Ok None
      | _, Some (cache_size_mb, _) =>
          if (length latest_use <? LEN_PERF_HISTORY)%nat then Ok None
          else
            match sum_uses client_id app_id latest_use with
            | None => Ok None
            | Some u => fit_curve memory_accesses cache_size_mb u (Z.of_nat (length latest_use)) prev_exponent prev_coeff
            end
      end
  end.
End fit.
