(* ===== verification/MissRatioFacts.v ===== *)
(** * The reported curves are usable

    Computing a curve never panics, and whatever was fitted, and whatever
    [powf] returns, the curve has the 64 cache sizes in order, its miss ratios
    are numbers between 0 and 1, and the last one is 0.  A fit that is returned
    reproduces the measured miss ratio.  Proved for every float type with the
    order laws of Rust's comparisons, so for binary64. *)

From Stdlib Require Import SpecFloat QArith Qcanon.
From S2P Require Import Prelude Exact PyDict PyFloat PyStr Rust Json Dumps Resources Base Params Monitor MonitorFacts System Wire GlobalEnforcer Cgroups MissRatio PerfStats MrcFit.

(** What the curve needs of floats beyond their order: [is_nan] recognises
    NaN, and [1 - x] is a number for [x] between 0 and 1. *)
Class RustFloat (F : Type) `{PyFloatLaws F} := {
  nan_num : ∀ x : F, is_nan x = false ↔ num x;
  unit_sub : ∀ x : F, num x → fltb x (of_Z 0) = false → fltb (of_Z 1) x = false → num (fsub (of_Z 1) x);
  zero_lt_one : fltb (of_Z 0 : F) (of_Z 1) = true;
}.

(** ** The two instances *)

Lemma binary_normalize_num m e s : binary_normalize 53 1024 m e s ≠ S754_nan.
Proof.
  unfold binary_normalize, binary_round.
  destruct m as [|m|m]; [done|..]; destruct (shl_align _ _ _); apply binary_round_aux_num; lia.
Qed.

#[export] Instance b64_rust : RustFloat b64.
Proof.
  split.
  - intros x. change (num x) with (x ≠ S754_nan). unfold is_nan. rewrite negb_false_iff. cbv [feqb b64_float]. unfold SFeqb, SFcompare.
    destruct x as [[]|[]| |[] m e]; try (by split);
      change (Pos.compare_cont Eq m m) with (m ?= m)%positive; by rewrite Z.compare_refl, Pos.compare_refl.
  - intros x Hx H0 H1. change (num ?y) with (y ≠ S754_nan) in *. cbv [fsub fltb of_Z b64_float] in *. change (b64_of_Z 1) with (S754_finite false 4503599627370496 (-52)) in *.
    destruct x as [s|[]| |s m e]; simpl in *; try done. apply binary_normalize_num.
  - reflexivity.
Qed.

#[export] Instance xnum_rust : RustFloat xnum.
Proof.
  split.
  - intros x. change (num x) with (x ≠ NaN). destruct x as [q| | |]; unfold is_nan; cbv [feqb xnum_float]; simpl; try done. rewrite negb_false_iff, andb_true_iff, Qle_bool_iff.
    split; [done|]. intros _. split; apply Qle_refl.
  - intros x Hx H0 H1. change (num x) with (x ≠ NaN) in Hx. by destruct x as [q| | |].
  - reflexivity.
Qed.

(** ** Values between 0 and 1 *)

Section facts.
Context {F : Type} `{RustFloat F}.
Context (powf : F → F → F) (ln_1p : F → F).

Record ratio (x : F) : Prop := {
  ra_num : num x;
  ra_low : fltb x (of_Z 0) = false;
  ra_high : fltb (of_Z 1) x = false;
}.

Lemma ratio_zero : ratio (of_Z 0).
Proof. split; [apply num_of_Z|apply ltb_irrefl|apply ltb_asym, zero_lt_one]. Qed.

Lemma ratio_one : ratio (of_Z 1).
Proof. split; [apply num_of_Z|apply ltb_asym, zero_lt_one|apply ltb_irrefl]. Qed.

Lemma clamp_ratio x : num x → ratio (clamp (of_Z 0) (of_Z 1) x).
Proof.
  intros Hx. unfold clamp. destruct (fltb x (of_Z 0)) eqn:E0; [apply ratio_zero|].
  destruct (fltb (of_Z 1) x) eqn:E1; [apply ratio_one|by split].
Qed.

(** [x.max(0.).min(1.)], also of NaN *)
Lemma cut_ratio x : ratio (rmin (rmax x (of_Z 0)) (of_Z 1)).
Proof.
  assert (Hmax : num (rmax x (of_Z 0)) ∧ fltb (rmax x (of_Z 0)) (of_Z 0) = false).
  { unfold rmax. destruct (is_nan x) eqn:En; [split; [apply num_of_Z|apply ltb_irrefl]|].
    apply nan_num in En. destruct (fltb x (of_Z 0)) eqn:E; [split; [apply num_of_Z|apply ltb_irrefl]|done]. }
  destruct Hmax as [Hn Hlow]. unfold rmin. rewrite (proj2 (nan_num _) Hn).
  destruct (fltb (of_Z 1) _) eqn:E; [apply ratio_one|by split].
Qed.

Lemma miss_ratio_num pd pc pa pt exponent c : num (compute_miss_ratio powf ln_1p pd pc pa pt exponent c).
Proof. apply unit_sub; [apply ra_num|apply ra_low|apply ra_high]; apply cut_ratio. Qed.

Lemma mrc_point_ratio ec pd anon size : ratio (mrc_point powf ln_1p ec pd anon size).2.
Proof.
  apply clamp_ratio. destruct ec as [[exponent c]|]; [|apply num_of_Z].
  destruct (_ && _); [apply miss_ratio_num|apply num_of_Z].
Qed.

(** A curve as the enforcers report it. *)
Record reported_curve (l : list (Z * F)) : Prop := {
  rc_sizes : l.*1 = cache_sizes_mb;
  rc_ratios : Forall ratio l.*2;
  rc_last : snd <$> last l = Some (of_Z 0);
}.

Lemma zero_last_sizes (l : list (Z * F)) : (zero_last l).*1 = l.*1.
Proof.
  unfold zero_last. destruct l as [|p l] using rev_ind; [done|]. rewrite last_snoc. destruct p as [size v].
  rewrite length_app, Nat.add_sub, take_app_length. by rewrite !fmap_app.
Qed.

Lemma mrc_reported ec pd anon : reported_curve (build_mrc powf ln_1p ec pd anon).
Proof.
  unfold build_mrc. set (l := mrc_point _ _ _ _ _ <$> cache_sizes_mb).
  assert (Hl : l.*1 = cache_sizes_mb).
  { unfold l. rewrite <- list_fmap_compose. apply list_fmap_id. }
  assert (Hr : Forall ratio l.*2).
  { unfold l. rewrite <- list_fmap_compose. apply Forall_fmap, Forall_forall. intros size _. apply mrc_point_ratio. }
  split; [by rewrite zero_last_sizes|..]; unfold zero_last; clearbody l;
    (destruct l as [|[size v] l _] using rev_ind; [done|]); rewrite last_snoc.
  - rewrite fmap_app in *. apply Forall_app in Hr as [Hr _].
    rewrite length_app, Nat.add_sub, take_app_length. apply Forall_app. split; [done|].
    apply Forall_singleton, ratio_zero.
  - by rewrite last_snoc.
Qed.
End facts.

(** ** The fit returns *)

Section fitting.
Context {F : Type} `{RustFloat F}.
Context (powf : F → F → F) (ln_1p : F → F).

Lemma beta_total c (data : list (F * F)) e : data ≠ [] → ∃ c', compute_beta_coeff powf c data e = Ok c'.
Proof. destruct data as [|p data]; [done|]. intros _. by eexists. Qed.

Lemma shape_step_total pd pc pa hit (data : list (F * F)) s :
  data ≠ [] → ∃ r, shape_step powf ln_1p hit pd pc pa data s = Ok r.
Proof.
  intros Hd. destruct s as [dx0 e c]. unfold shape_step. case_match; [by eexists|]. cbv zeta. case_match; [by eexists|].
  destruct (shifted _ _) as [e_dx dx1]. set (e' := bound_exponent _ _).
  destruct (beta_total c data (Some e') Hd) as [c' ->]. by eexists.
Qed.

Lemma ratio_step_total pd pc pa hit (data : list (F * F)) s :
  data ≠ [] → ∃ r, ratio_step powf ln_1p hit pd pc pa data s = Ok r.
Proof.
  intros Hd. destruct s as [dx0 e c]. unfold ratio_step. case_match; [by eexists|]. cbv zeta. case_match; [by eexists|].
  destruct (shifted _ _) as [e_dx dx1]. set (e' := bound_exponent _ _).
  destruct (beta_total c data (Some e') Hd) as [c' ->]. by eexists.
Qed.

(** A loop whose iterations return returns; one that ended with [break] did
    so in its last state. *)
Lemma iterate_total (step : fit (F := F) → res progress) n s :
  (∀ s, ∃ r, step s = Ok r) → ∃ r, iterate step n s = Ok r.
Proof.
  intros Hs. revert s. induction n as [|n IH]; intros s; simpl; [by eexists|].
  destruct (Hs s) as [r ->]. simpl. destruct r as [s'|s'|]; [apply IH|by eexists..].
Qed.

Lemma iterate_break (step : fit (F := F) → res progress) n s s' :
  (∀ s s', step s = Ok (Break s') → s' = s) → iterate step n s = Ok (Break s') → step s' = Ok (Break s').
Proof.
  intros Hs. revert s. induction n as [|n IH]; intros s; simpl; [done|].
  destruct (step s) as [[s1|s1|]|] eqn:E; simpl; try done; [apply IH|].
  intros [= <-]. pose proof (Hs _ _ E) as ->. done.
Qed.

Lemma exponent_total pd pc pa hit (data : list (F * F)) pe c0 :
  data ≠ [] → ∃ o, compute_exponent powf ln_1p hit pd pc pa data pe c0 = Ok o.
Proof.
  intros Hd. unfold compute_exponent. generalize max_iterations. intros n.
  destruct (iterate_total (shape_step powf ln_1p hit pd pc pa data) n
    (Fit (lit 1 10000) (default (of_Z 2) pe) (default (Coeff (of_Z 1) tolerance (of_Z 1)) c0))) as [r ->];
    [intros; by apply shape_step_total|].
  cbn [mbind res_bind]. destruct r as [s|s|]; [..|by eexists];
    (destruct (iterate_total (ratio_step powf ln_1p hit pd pc pa data) n s) as [r ->];
      [intros; by apply ratio_step_total|by eexists]).
Qed.

Lemma ratio_break pd pc pa hit (data : list (F * F)) s s' :
  ratio_step powf ln_1p hit pd pc pa data s = Ok (Break s') →
  s' = s ∧ fltb (fabs (difference_of hit (computed_hit_rate powf ln_1p pd pc pa (exponent s) (fit_coeff s)))) tolerance_mr = true.
Proof.
  destruct s as [dx0 e c]. unfold ratio_step. case_match; [done|]. cbv zeta. case_match; [by intros [= <-]|].
  destruct (shifted _ _) as [e_dx dx1]. set (e' := bound_exponent _ _).
  destruct (compute_beta_coeff _ _ _ _); [|done]. simpl. by case_match.
Qed.

(** A fit that is returned has passed one of the tests. *)
Lemma fit_tested pd pc pa hit (data : list (F * F)) pe c0 e c :
  compute_exponent powf ln_1p hit pd pc pa data pe c0 = Ok (Some (e, c)) →
  let rate := computed_hit_rate powf ln_1p pd pc pa e c in
  let err := fabs (fsub (target_hit_rate hit) rate) in
  fltb (fabs (difference_of hit rate)) tolerance_mr = true ∨
  fltb (fabs (fmul (fquot err (fsub (of_Z 1) (target_hit_rate hit))) (of_Z 100))) (of_Z 5) = true ∨
  fltb err tolerance_mr = true.
Proof.
  unfold compute_exponent. generalize max_iterations. intros n Hr. inv_ok.
  assert (Hs : ∃ s r, iterate (ratio_step powf ln_1p hit pd pc pa data) n s = Ok r ∧
    match r with
    | GiveUp => None
    | Break s => Some (exponent s, fit_coeff s)
    | Continue s => if close_enough powf ln_1p hit pd pc pa (exponent s) (fit_coeff s)
                    then Some (exponent s, fit_coeff s) else None
    end = Some (e, c)).
  { destruct x as [s|s|]; [exists s|exists s|done]; inv_ok; eauto. }
  destruct Hs as (s & r & Hi & Hr). destruct r as [s'|s'|]; [..|done].
  - destruct (close_enough _ _ _ _ _ _ _ _) eqn:E; [|done]. injection Hr as <- <-. right.
    unfold close_enough in E. by apply orb_true_iff in E.
  - injection Hr as <- <-. left. apply iterate_break in Hi; [by apply ratio_break in Hi as [_ ?]|].
    intros s1 s2 Hb. by apply ratio_break in Hb as [-> _].
Qed.

(** ** The data points *)

Lemma add_point_grows (st : Z * F * list (F * F)) x : length (add_point st x).2 = S (length st.2).
Proof. destruct st as [[i cum] data]. simpl. rewrite length_app. simpl. lia. Qed.

Lemma data_total `{O : HashOrder} buckets (pd ratio zero : F) :
  ∃ data, data_points buckets pd ratio zero = Ok data ∧ data ≠ [].
Proof.
  unfold data_points. set (st := if _ && _ then _ else _).
  destruct (for_all_total (λ _, True) (add_bucket buckets ratio) (sorted_frequencies buckets) st) as (st' & -> & _).
  - intros k t Hk _. unfold sorted_frequencies in Hk. rewrite merge_sort_Permutation in Hk.
    apply elem_of_keys in Hk as [n Hn]. unfold add_bucket. rewrite Hn. by eexists.
  - done.
  - cbn [mbind res_bind]. eexists. split; [reflexivity|]. destruct (Nat.ltb_spec (length st'.2) 10) as [Hl|Hl].
    + intros E. pose proof (add_point_grows st' ratio) as Hg. rewrite E in Hg. done.
    + intros E. rewrite E in Hl. simpl in Hl. lia.
Qed.

(** ** The curve *)

Lemma fit_curve_total `{O : HashOrder} accesses size (u : use_sums (F := F)) len pe c0 :
  (0 < len)%Z → ∃ o, fit_curve powf ln_1p accesses size u len pe c0 = Ok o ∧
    ∀ l, o = Some l → reported_curve l.
Proof.
  intros Hlen. unfold fit_curve, udiv. destruct (Z.eqb_spec len 0); [lia|]. cbn [mbind res_bind].
  destruct (fleb _ _); [by eexists|]. destruct (_ <=? _)%Z.
  { eexists. split; [reflexivity|]. intros l [= <-]. apply mrc_reported. }
  match goal with |- context [data_points ?b ?p ?r ?z] => destruct (data_total b p r z) as (data & -> & Hd) end.
  cbn [mbind res_bind].
  assert (Hc : ∀ r, ∃ c', match c0 with
    | Some c => c ← compute_beta_coeff powf c data pe; Ok (Some (precompute_delta_coeff c r)) | None => Ok None end = Ok c').
  { intros r. destruct c0 as [c|]; [|by eexists]. destruct (beta_total c data pe Hd) as [c' ->]. by eexists. }
  match goal with |- context [precompute_delta_coeff _ ?r] => destruct (Hc r) as [c' ->] end. cbn [mbind res_bind].
  match goal with |- context [compute_exponent ?p ?ln ?h ?a ?b ?d data pe c'] =>
    destruct (exponent_total a b d h data pe c' Hd) as [o ->] end.
  cbn [mbind res_bind]. eexists. split; [reflexivity|]. destruct o as [ec|]; [|done].
  intros l [= <-]. apply mrc_reported.
Qed.

Lemma mrc_total `{O : HashOrder} output app vm cfg (latest : list (usages F * gmap Z Z)) pe c0 :
  ∃ o, compute_mrc_via_aet powf ln_1p output app vm cfg latest pe c0 = Ok o ∧
    ∀ l, o = Some l → reported_curve l.
Proof.
  unfold compute_mrc_via_aet. destruct (collect_perf_pebs output) as [samples|]; [|by eexists]. cbv zeta.
  destruct (user_pages samples) as [|a accesses]; [by eexists|].
  destruct (uc_allocation_map cfg !! app) as [[size bw]|]; [|by eexists].
  destruct (Nat.ltb_spec (length latest) LEN_PERF_HISTORY) as [|Hl]; [by eexists|].
  destruct (sum_uses vm app latest) as [u|]; [|by eexists].
  apply fit_curve_total. unfold LEN_PERF_HISTORY in Hl. lia.
Qed.
End fitting.

(** ** The fitted miss ratio, in exact arithmetic *)

(** The measured miss ratio the fit aims at: one minus the hit rate, kept at
    least 1e-6 away from 0 and 1. *)
Definition measured_miss (hit : Qc) : Qc :=
  let tiny := Q2Qc (1 # 1000000) in
  (if Qclt_le_dec hit tiny then 1 - tiny
   else if Qclt_le_dec (1 - tiny) hit then tiny else 1 - hit)%Qc.

Lemma measured_miss_pos hit : (0 < measured_miss hit)%Qc.
Proof.
  unfold measured_miss. destruct (Qclt_le_dec _ _); [done|]. destruct (Qclt_le_dec _ _); [done|]. qc_lra.
Qed.

Lemma target_measured hit : (of_Z 1 - target_hit_rate (Num hit))%py = Num (measured_miss hit).
Proof.
  unfold target_hit_rate, measured_miss, rmax, rmin, is_nan. set (tiny := Q2Qc (1 # 1000000)).
  change (tolerance (F := xnum)) with (Num tiny). change (of_Z 1 - Num tiny)%py with (Num (1 - tiny)%Qc).
  assert (Hr : ∀ q, feqb (Num q) (Num q) = true).
  { intros q. change (Qle_bool q q && Qle_bool q q = true). by rewrite (proj2 (Qle_bool_iff q q)) by lra. }
  assert (Hs : ∀ a b : Qc, a = (1 - b)%Qc → (of_Z 1 - Num b)%py = Num a) by (by intros a b ->).
  rewrite !Hr. cbn [negb]. destruct (Qclt_le_dec hit tiny) as [Hlt|Hge].
  - rewrite (proj2 (xltb_Num _ _) Hlt), !Hr. cbn [negb].
    rewrite (proj2 (xltb_Num_false (1 - tiny)%Qc tiny)) by done. by apply Hs.
  - rewrite (proj2 (xltb_Num_false hit tiny) Hge), !Hr. cbn [negb].
    destruct (Qclt_le_dec (1 - tiny) hit) as [Hlt|Hle].
    + rewrite (proj2 (xltb_Num _ _) Hlt). apply Hs. clear. qc_lra.
    + rewrite (proj2 (xltb_Num_false (1 - tiny)%Qc hit) Hle). by apply Hs.
Qed.

(** The numbers a float between 0 and 1 stands for. *)
Lemma ratio_Num (x : xnum) : ratio x → ∃ q, x = Num q ∧ (0 <= q ∧ q <= 1)%Qc.
Proof.
  intros [Hn Hl Hh]. change (num x) with (x ≠ NaN) in Hn. destruct x as [q| | |]; try done.
  apply xltb_Num_false in Hl, Hh. by exists q.
Qed.

Lemma quot_mul a t : (0 < t)%Qc → a = (a / t * t)%Qc.
Proof. intros Ht. unfold Qcdiv. rewrite <- Qcmult_assoc, Qcmult_inv_l by (by apply pos_ne0). by rewrite Qcmult_1_r. Qed.

Lemma scaled_square k x t : (x * x < k)%Qc → (0 < t)%Qc → (x * t * (x * t) < k * (t * t))%Qc.
Proof.
  intros Hx Ht. replace (x * t * (x * t))%Qc with (x * x * (t * t))%Qc by ring.
  apply Qcmult_lt_compat_r; [|done]. qc_nra.
Qed.

Lemma abs_below a b : fltb (fabs (Num a)) (Num b) = true → (- b < a ∧ a < b)%Qc.
Proof.
  intros Ha. change (fabs (Num a)) with (Num (if Qle_bool 0 a then a else - a)%Qc) in Ha.
  apply xltb_Num in Ha. destruct (Qle_bool 0 a) eqn:E.
  - apply Qle_bool_iff in E. split; qc_lra.
  - assert (Hn : ~ (0 <= this a)%Q) by (intros Hn; apply Qle_bool_iff in Hn; congruence). split; qc_lra.
Qed.

(** C17: what is fitted, in exact arithmetic and for any [powf] and [ln_1p].
    Where [compute_exponent] returns an exponent and coefficients, the curve
    they describe has at the current cache a miss ratio [m] from 0 to 1 that
    reproduces the measured one, [t]: the square of [m - t] is below 0.03 of
    the square of [t], or [m] and [t] differ by less than 0.03. *)
Theorem fit_accepted (powf : xnum → xnum → xnum) (ln_1p : xnum → xnum) pd pc pa hit data pe c0 e c :
  compute_exponent powf ln_1p (Num hit) pd pc pa data pe c0 = Ok (Some (e, c)) →
  ∃ m, compute_miss_ratio powf ln_1p pd pc pa pc e c = Num m ∧ (0 <= m ∧ m <= 1)%Qc ∧
    let t := measured_miss hit in
    (((m - t) * (m - t) < Q2Qc (3 # 100) * (t * t))%Qc ∨
     (- Q2Qc (3 # 100) < m - t ∧ m - t < Q2Qc (3 # 100))%Qc).
Proof.
  intros Hfit%fit_tested.
  destruct (ratio_Num (computed_hit_rate powf ln_1p pd pc pa e c)) as (q & Eq & Hq0 & Hq1); [apply cut_ratio|].
  change (compute_miss_ratio powf ln_1p pd pc pa pc e c) with (of_Z 1 - computed_hit_rate powf ln_1p pd pc pa e c)%py.
  cbv zeta in Hfit. rewrite Eq in *. exists (1 - q)%Qc. split; [done|]. split; [split; qc_lra|]. cbv zeta.
  pose proof (measured_miss_pos hit) as Ht. pose proof (target_measured hit) as Et.
  assert (Eh : target_hit_rate (Num hit) = Num (1 - measured_miss hit)%Qc).
  { destruct (target_hit_rate (Num hit)) as [h| | |]; try discriminate Et.
    change (of_Z 1 - Num h)%py with (Num (1 - h)%Qc) in Et.
    assert (E : (1 - h)%Qc = measured_miss hit) by congruence. rewrite <- E. apply (f_equal Num). clear. qc_lra. }
  set (t := measured_miss hit) in *. unfold difference_of in Hfit. rewrite Et, Eh in Hfit.
  destruct Hfit as [Hd|[Hr|Ha]].
  - left. change ((of_Z 1 - Num q) - Num t)%py with (Num (1 - q - t)%Qc) in Hd.
    rewrite fquot_Num in Hd by by apply pos_ne0. apply abs_below in Hd as [_ Hd].
    set (x := ((1 - q - t) / t)%Qc) in *. assert (Ex : (1 - q - t = x * t)%Qc) by (by apply quot_mul).
    rewrite Ex. by apply scaled_square.
  - left. change (Num (1 - t)%Qc - Num q)%py with (Num (1 - t - q)%Qc) in Hr.
    change (fabs (Num (1 - t - q)%Qc)) with (Num (if Qle_bool 0 (1 - t - q)%Qc then 1 - t - q else - (1 - t - q))%Qc) in Hr.
    set (a := (if Qle_bool 0 _ then _ else _)%Qc) in Hr.
    assert (Ha : (a * a = (1 - q - t) * (1 - q - t))%Qc) by (unfold a; case_match; ring).
    rewrite <- Ha. clearbody a. rewrite fquot_Num in Hr by by apply pos_ne0. apply abs_below in Hr as [Hr1 Hr2].
    set (x := (a / t)%Qc) in *. assert (Ex : (a = x * t)%Qc) by (by apply quot_mul). rewrite Ex.
    apply scaled_square; [|done]. clearbody x. clear - Hr1 Hr2.
    qc_to_q. change (inject_Z 100) with 100%Q in *. change (inject_Z 5) with 5%Q in *. nra.
  - right. change (Num (1 - t)%Qc - Num q)%py with (Num (1 - t - q)%Qc) in Ha.
    change (tolerance_mr (F := xnum)) with (Num (Q2Qc (3 # 100))) in Ha.
    apply abs_below in Ha as [? ?]. split; qc_lra.
Qed.

(** C16: the curve an enforcer reports.  In binary64 arithmetic, whatever was
    sampled and measured, whatever exponent the thread had before and whatever
    [powf] and [ln_1p] return (NaN and infinities included), computing the
    curve never panics.  There is no new curve, or its sizes are the 64 cache
    sizes from 256 MB to 16 GB in order, every miss ratio is a number from 0
    to 1, and that of the largest size is 0. *)
Theorem curve_reported `{O : HashOrder} (powf : b64 → b64 → b64) (ln_1p : b64 → b64) output app vm cfg latest pe c0 :
  ∃ o, compute_mrc_via_aet powf ln_1p output app vm cfg latest pe c0 = Ok o ∧
  ∀ l, o = Some l →
    l.*1 = cache_sizes_mb ∧ snd <$> last l = Some (of_Z 0) ∧
    Forall (λ x : b64, x ≠ S754_nan ∧ fleb (of_Z 0) x = true ∧ fleb x (of_Z 1) = true) l.*2.
Proof.
  destruct (mrc_total powf ln_1p output app vm cfg latest pe c0) as (o & E & Hl). exists o. split; [done|].
  intros l Eo. destruct (Hl l Eo) as [H1 H2 H3]. split; [done|]. split; [done|].
  eapply Forall_impl; [exact H2|]. intros x [Hn Hlo Hh]. split; [exact Hn|].
  split; (rewrite leb_ltb; [|done || apply num_of_Z..]); [by rewrite Hlo|by rewrite Hh].
Qed.
