(* ===== verification/CacheClient.v ===== *)
(** * The local enforcer: local-enforcer/src/cache_client.rs and main.rs

    One per VM: it registers the containers of its configuration, applies the
    limits it is sent, and reports the usage of every container to the global
    enforcer.  Two background threads per container measure its counters and
    fit its miss-ratio curve; each round of theirs is an operation.

    The host is a parameter: what docker answers, what the files contain and
    the clock, each during one operation. *)

From S2P Require Import Prelude PyDict PyFloat PyStr Rust Json Dumps Resources Base Params Monitor MonitorFacts System Wire GlobalEnforcer Cgroups MissRatio PerfStats MrcFit.
From Stdlib Require Import Ascii.

Record host := Host {
  docker : text → nat → option text;
  fs : files;
  memory_current : Z → nat → option text;    (* of an application's container, while it is shrunk *)
  clock : Z → Z;                             (* milliseconds, when an application is measured *)
}.

Definition MAX_CONTAINER_NUM : Z := 128.

(** [PreloadMap] *)
Record preload := Preload {
  pl_id : Z;
  pl_script : text;
  pl_docker_name : text;
  pl_launch : option bool;
  pl_cgroup_map : option text;
  pl_port : option Z;
}.

(** [InitConfig], without [id_benchmark_map] and [config_path], which nothing reads *)
Record init_config := InitConfig {
  ic_id_preload_map : list preload;
  ic_memory_dev_name : text;
  ic_memory_ip : text;
  ic_global_ip : text;
  ic_init_script : option text;
  ic_enable_mrc : option bool;
  ic_vm_id : option Z;
}.

Section client.
Context {F : Type} `{PyFloat F}.

(** [CacheClient] *)
Record cache_client := CacheClient {
  cc_config : update_config;
  cc_id : Z;
  id_container_map : gmap Z text;
  container_cgroups_map : gmap text text;
  blk_stats : gmap Z blk_use_stat;
  perf_stats : gmap Z (perf_stat (F := F));
  latest_usage : list (usages F * gmap Z Z);
  global_ip : text;
  memory_ip : text;
  memory_dev_name : text;
  memory_dev_maj_min : text;
  running_benchmarks : bool;
  child_processes : gmap Z (list text);
  enable_mrc : bool;
}.

(** [mk_client] *)
Definition mk_client : cache_client :=
  CacheClient new_config 0 ∅ ∅ ∅ ∅ [] [] [] [] [] false ∅ true.

Definition set_paths (paths : gmap text text) (c : cache_client) : cache_client :=
  CacheClient (cc_config c) (cc_id c) (id_container_map c) paths (blk_stats c) (perf_stats c) (latest_usage c)
    (global_ip c) (memory_ip c) (memory_dev_name c) (memory_dev_maj_min c) (running_benchmarks c)
    (child_processes c) (enable_mrc c).

Definition set_cc_config (cfg : update_config) (c : cache_client) : cache_client :=
  CacheClient cfg (cc_id c) (id_container_map c) (container_cgroups_map c) (blk_stats c) (perf_stats c) (latest_usage c)
    (global_ip c) (memory_ip c) (memory_dev_name c) (memory_dev_maj_min c) (running_benchmarks c)
    (child_processes c) (enable_mrc c).

Definition set_blk (st : gmap Z blk_use_stat) (c : cache_client) : cache_client :=
  CacheClient (cc_config c) (cc_id c) (id_container_map c) (container_cgroups_map c) st (perf_stats c) (latest_usage c)
    (global_ip c) (memory_ip c) (memory_dev_name c) (memory_dev_maj_min c) (running_benchmarks c)
    (child_processes c) (enable_mrc c).

Definition set_perf (st : gmap Z perf_stat) (c : cache_client) : cache_client :=
  CacheClient (cc_config c) (cc_id c) (id_container_map c) (container_cgroups_map c) (blk_stats c) st (latest_usage c)
    (global_ip c) (memory_ip c) (memory_dev_name c) (memory_dev_maj_min c) (running_benchmarks c)
    (child_processes c) (enable_mrc c).

Definition set_latest (l : list (usages F * gmap Z Z)) (c : cache_client) : cache_client :=
  CacheClient (cc_config c) (cc_id c) (id_container_map c) (container_cgroups_map c) (blk_stats c) (perf_stats c) l
    (global_ip c) (memory_ip c) (memory_dev_name c) (memory_dev_maj_min c) (running_benchmarks c)
    (child_processes c) (enable_mrc c).

(** ** Starting *)

(** What [launch_container] starts *)
Definition launch_command (p : preload) : list text :=
  [str "sh"; pl_script p; pl_docker_name p] ++ match pl_port p with Some port => [show port] | None => [] end.

(** The body of the loop over the containers in [init] *)
Definition register (p : preload) (c : cache_client) : res cache_client :=
  _ ← assert (pl_id p <=? MAX_CONTAINER_NUM)%Z;
  _ ← assert (negb (bool_decide (pl_docker_name p = [])));
  children ← (if bool_decide (pl_launch p = Some true) then
                _ ← assert (negb (bool_decide (pl_script p = [])));
                Ok (<[pl_id p := launch_command p]> (child_processes c))
              else Ok (child_processes c));
  Ok (CacheClient (cc_config c) (cc_id c)
        (<[pl_id p := pl_docker_name p]> (id_container_map c))
        match pl_cgroup_map p with
        | Some name => <[pl_docker_name p := name]> (container_cgroups_map c)
        | None => container_cgroups_map c
        end
        (<[pl_id p := new_blk_use_stat]> (blk_stats c))
        (<[pl_id p := new_perf_stat]> (perf_stats c))
        (latest_usage c) (global_ip c) (memory_ip c) (memory_dev_name c) (memory_dev_maj_min c)
        (running_benchmarks c) children (enable_mrc c)).

(** [init]; [maj_min] is what [lsblk] prints for the memory device. *)
Definition init (maj_min : text) (config : init_config) (c : cache_client) : res cache_client :=
  let c := CacheClient (cc_config c) (cc_id c) (id_container_map c) (container_cgroups_map c) (blk_stats c)
             (perf_stats c) (latest_usage c) (ic_global_ip config) (ic_memory_ip config) (ic_memory_dev_name config)
             (trim maj_min) (running_benchmarks c) (child_processes c) (default true (ic_enable_mrc config)) in
  c ← for_all register (ic_id_preload_map config) c;
  Ok (CacheClient (cc_config c) (cc_id c) (id_container_map c) (container_cgroups_map c) (blk_stats c)
        (perf_stats c) (latest_usage c) (global_ip c) (memory_ip c) (memory_dev_name c) (memory_dev_maj_min c)
        (if bool_decide (id_container_map c = ∅) then running_benchmarks c else true)
        (child_processes c) (enable_mrc c)).

(** The client [main] sets up: the id of the configuration, else 0 *)
Definition start_client (maj_min : text) (config : init_config) : res cache_client :=
  let c := mk_client in
  let id := default (cc_id c) (ic_vm_id config) in
  init maj_min config
    (CacheClient (cc_config c) id (id_container_map c) (container_cgroups_map c) (blk_stats c)
       (perf_stats c) (latest_usage c) (global_ip c) (memory_ip c) (memory_dev_name c) (memory_dev_maj_min c)
       (running_benchmarks c) (child_processes c) (enable_mrc c)).

(** ** Applying limits *)

(** The body of the loop of [update_config] *)
Definition apply_limits (h : host) (entry : Z * (Z * Z)) (acc : cache_client * list write)
    : res (cache_client * list write) :=
  let '(app_id, (mem, bw)) := entry in
  let '(c, ws) := acc in
  let c := set_cc_config (UpdateConfig (<[app_id := (mem, bw)]> (uc_allocation_map (cc_config c)))) c in
  let container := id_container_map c !! app_id in
  '(mem_ws, paths) ← set_memory_size_via_cgroup (F := F) (docker h) (fs h) (memory_current h app_id) container mem
                       (container_cgroups_map c);
  '(bw_ws, paths) ← update_swap_bandwidth (docker h) (fs h) (memory_dev_maj_min c) container bw paths;
  Ok (set_paths paths c, ws ++ mem_ws ++ bw_ws).

(** [update_config] *)
Definition apply_config `{HashOrder} (h : host) (new : update_config) (c : cache_client)
    : res (cache_client * list write) :=
  for_all (apply_limits h) (entries (uc_allocation_map new)) (c, []).

(** ** Measuring *)

(** A thread looks up the path of its container; a path that is found is
    kept. *)
Definition thread_path (h : host) (app_id : Z) (c : cache_client) : res (option text * cache_client) :=
  cont_name ← unwrap (id_container_map c !! app_id);
  '(cgroup_path, paths) ← get_cgroup_path (docker h) cont_name (container_cgroups_map c);
  Ok (cgroup_path, set_paths paths c).

(** A round of the thread that runs [perf], which wrote [output]: nothing is
    recorded without misses and references. *)
Definition record_perf (h : host) (app_id : Z) (output : option text) (c : cache_client) : res cache_client :=
  '(cgroup_path, c) ← thread_path h app_id c;
  let '(misses, references, faults, ops) := monitor_perf (_ ← cgroup_path; output) in
  if (misses =? 0)%Z && (references =? 0)%Z then Ok c
  else
    p ← unwrap (perf_stats c !! app_id);
    Ok (set_perf (<[app_id := update_perf misses references faults ops p]> (perf_stats c)) c).

(** A round of the thread that fits curves, with the exponent of its last
    round: a fit that failed leaves the old curve. *)
Definition record_mrc `{HashOrder} (powf : F → F → F) (ln_1p : F → F) (h : host) (app_id : Z) (output : option text)
    (est_exponent : option F) (c : cache_client) : res cache_client :=
  if enable_mrc c then
    '(cgroup_path, c) ← thread_path h app_id c;
    mrc ← compute_mrc_via_aet powf ln_1p (_ ← cgroup_path; output) app_id (cc_id c) (cc_config c) (latest_usage c)
            est_exponent (Some (Coeff (of_Z 1) (lit 1 1000000) (of_Z 1)));
    match mrc with
    | None => Ok c
    | Some mrc =>
        p ← unwrap (perf_stats c !! app_id);
        Ok (set_perf (<[app_id := PerfStats.update_mrc mrc p]> (perf_stats c)) c)
    end
  else Ok c.

(** ** Reporting *)

(** [get_blk_bandwidth] *)
Definition get_blk_bandwidth (h : host) (app_id : Z) (cont_name : text) (c : cache_client)
    : res (Z * cache_client) :=
  '(cgroup_path, paths) ← get_cgroup_path (docker h) cont_name (container_cgroups_map c);
  let c := set_paths paths c in
  match cgroup_path with
  | None => Ok (0%Z, c)
  | Some p =>
      contents ← unwrap (fs h (p ++ str "/io.stat"));
      '(read_bytes, write_bytes) ← io_bytes (memory_dev_maj_min c) contents;
      st ← unwrap (blk_stats c !! app_id);
      let '(bw, st) := blk_bandwidth (F := F) read_bytes write_bytes (clock h app_id) st in
      Ok (bw, set_blk (<[app_id := st]> (blk_stats c)) c)
  end.

(** One container of [get_mem_usages_from_cgroup] *)
Definition app_mem_usage (h : host) (entry : Z * text) (acc : cache_client * gmap Z (Z * Z))
    : res (cache_client * gmap Z (Z * Z)) :=
  let '(app_id, cont_name) := entry in
  let '(c, mem_usages) := acc in
  '(cgroup_path, paths) ← get_cgroup_path (docker h) cont_name (container_cgroups_map c);
  let c := set_paths paths c in
  match cgroup_path with
  | None => Ok (c, mem_usages)
  | Some p =>
      mem_usage_mib ← get_current_mem_usage (F := F) (fs h (p ++ str "/memory.current"));
      match mem_usage_mib,
            get_anon_mem_usage (F := F) (fs h (p ++ str "/memory.stat")) (fs h (p ++ str "/memory.swap.current")) with
      | Some mem, Some anon => Ok (c, <[app_id := (mem, anon)]> mem_usages)
      | _, _ => Ok (c, mem_usages)
      end
  end.

(** [get_app_usage] *)
Definition get_app_usage (h : host) (app_id mem_mb : Z) (c : cache_client)
    : res (app_usage (F := F) * cache_client) :=
  cont_name ← unwrap (id_container_map c !! app_id);
  '(bw_mbps, c) ← get_blk_bandwidth h app_id cont_name c;
  p ← unwrap (perf_stats c !! app_id);
  let cache_mbps := (wrap (avg_miss p * CACHE_LINE_SIZE_BYTES) / MBPS_TO_BYTES_PER_SEC)%Z in
  let access_rate := (wrap (avg_hit p * CACHE_LINE_SIZE_BYTES) / MBPS_TO_BYTES_PER_SEC)%Z in
  let hit_rate_percent := fquot (of_Z (avg_faults p)) (of_Z (Z.max (avg_miss p) 1)) in
  Ok (AppUsage (cc_id c) app_id mem_mb bw_mbps cache_mbps (avg_mem_ops p) access_rate hit_rate_percent 0 0
        (Some (ps_mrc p)), c).

(** The body of the loop of [report_usage] *)
Definition report_app (h : host) (mems : gmap Z (Z * Z)) (app : Z)
    (acc : cache_client * gmap Z (app_usage (F := F)) * gmap Z Z) : res (cache_client * gmap Z (app_usage (F := F)) * gmap Z Z) :=
  let '(c, local_usage, stat_map) := acc in
  match mems !! app with
  | None => Ok acc
  | Some (mem, anon) =>
      '(u, c) ← get_app_usage h app mem c;
      Ok (c, <[app := u]> local_usage, <[app := anon]> stat_map)
  end.

(** [report_usage]: the usage that is sent, if any *)
Definition report_usage `{HashOrder} (h : host) (c : cache_client) : res (option (usages F) * cache_client) :=
  if running_benchmarks c then
    let app_ids := keys (id_container_map c) in
    '(c, mems) ← for_all (app_mem_usage h) (entries (id_container_map c)) (c, ∅);
    '(c, local_usage, stat_map) ← for_all (report_app h mems) app_ids (c, ∅, ∅);
    let usage_map := <[cc_id c := local_usage]> ∅ in
    let latest := latest_usage c ++ [(usage_map, stat_map)] in
    let latest := if (LEN_PERF_HISTORY <? length latest)%nat then drop 1 latest else latest in
    Ok (Some usage_map, set_latest latest c)
  else Ok (None, c).

(** The command [send_usage] runs *)
Definition send_usage `{HashOrder} (show_float : F → text) (um : usages F) (dest : text) : text :=
  str "curl -H 'Content-Type: application/json' -d'" ++ usage_text show_float (listed um)
    ++ str "' http://" ++ dest ++ str "/usage".

(** ** Its operations in any order *)

Inductive client_op :=
  | ApplyConfig (h : host) (new : update_config)
  | RecordPerf (h : host) (app : Z) (output : option text)
  | RecordMrc (h : host) (app : Z) (output : option text) (est_exponent : option F)
  | Report (h : host).

Definition client_step `{HashOrder} (powf : F → F → F) (ln_1p : F → F) (op : client_op) (c : cache_client)
    : res cache_client :=
  match op with
  | ApplyConfig h new => '(c, _) ← apply_config h new c; Ok c
  | RecordPerf h app output => record_perf h app output c
  | RecordMrc h app output est_exponent => record_mrc powf ln_1p h app output est_exponent c
  | Report h => '(_, c) ← report_usage h c; Ok c
  end.
End client.
