(* ===== verification/CacheClientFacts.v ===== *)
(** * The local enforcer keeps its books

    In every state it can reach the records cover exactly the registered
    containers, the histories are bounded and every curve is empty or one that
    [build_mrc] made.  A report on a host whose files can be read returns and
    names every container. *)

From S2P Require Import Prelude PyDict PyFloat PyStr Rust Json Dumps Resources Base Params Monitor MonitorFacts System Wire GlobalEnforcer Cgroups MissRatio MissRatioFacts PerfStats MrcFit CacheClient.

(** ** Histories *)

Lemma push_length x l : (length l <= PERF_HISTORY_LENGTH)%nat → (1 <= length (push x l) <= PERF_HISTORY_LENGTH)%nat.
Proof.
  unfold push. rewrite length_app. simpl. intros Hl. destruct (Nat.ltb_spec PERF_HISTORY_LENGTH (length l + 1)).
  - rewrite length_drop, length_app. unfold PERF_HISTORY_LENGTH in *. simpl. lia.
  - rewrite length_app. simpl. lia.
Qed.

Lemma usum_u64 l : is_u64 (usum l).
Proof.
  unfold usum. assert (Hgen : ∀ a, is_u64 a → is_u64 (foldl (λ a x, wrap (a + x)) a l)); [|by apply Hgen].
  induction l as [|x l IH]; intros a Ha; [done|]. apply IH, wrap_u64.
Qed.

Lemma div_u64 a b : is_u64 a → (0 <= b)%Z → is_u64 (a / b).
Proof.
  intros [? ?] Hb. destruct (Z.eq_dec b 0%Z) as [->|?]; [by rewrite Z.div_0_r|].
  split; [apply Z.div_pos; lia|]. eapply Z.le_lt_trans; [apply Z.div_le_upper_bound with (q := a); nia|done].
Qed.

Lemma average_u64 l : is_u64 (average l).
Proof. apply div_u64; [apply usum_u64|lia]. Qed.

Section facts.
Context {F : Type} `{RustFloat F}.
Context `{O : HashOrder}.
Implicit Types c : cache_client (F := F).

(** A curve that is sent: none yet, or a fitted one. *)
Definition sent_curve (l : list (Z * F)) : Prop := l = [] ∨ reported_curve l.

Record perf_ok (p : perf_stat (F := F)) : Prop := {
  po_misses : (length (cache_misses p) <= PERF_HISTORY_LENGTH)%nat;
  po_references : length (cache_references p) = length (cache_misses p);
  po_faults : length (major_faults p) = length (cache_misses p);
  po_ops : length (mem_ops p) = length (cache_misses p);
  po_curve : sent_curve (ps_mrc p);
  po_averages : Forall is_u64 [avg_miss p; avg_hit p; avg_faults p; avg_mem_ops p];
}.

Lemma new_perf_ok : perf_ok new_perf_stat.
Proof. split; simpl; [lia|done..|by left|]. by repeat constructor. Qed.

Lemma push_same x y l k : length l = length k → length (push x l) = length (push y k).
Proof.
  intros E. unfold push. rewrite !length_app, E. simpl.
  destruct (_ <? _)%nat; rewrite ?length_drop, !length_app, E; done.
Qed.

Lemma update_perf_ok a b d e p : perf_ok p → perf_ok (update_perf a b d e p).
Proof.
  intros [L1 L2 L3 L4 L5 _]. split; simpl; [by apply push_length|by apply push_same..|done|].
  repeat constructor; apply average_u64.
Qed.

Lemma update_mrc_ok l p : reported_curve l → perf_ok p → perf_ok (PerfStats.update_mrc l p).
Proof. intros Hl [L1 L2 L3 L4 L5 L6]. split; [done..|by right|done]. Qed.

(** ** The invariant *)

Record client_ok c : Prop := {
  ck_perf : ∀ app, is_Some (id_container_map c !! app) ↔ is_Some (perf_stats c !! app);
  ck_blk : ∀ app, is_Some (id_container_map c !! app) ↔ is_Some (blk_stats c !! app);
  ck_stats : map_Forall (λ _, perf_ok) (perf_stats c);
  ck_latest : (length (latest_usage c) <= LEN_PERF_HISTORY)%nat;
  ck_id : is_u64 (cc_id c);
  ck_apps : ∀ app, is_Some (id_container_map c !! app) → is_u64 app;
}.

(** What no operation changes. *)
Definition same_setup c c' : Prop :=
  id_container_map c' = id_container_map c ∧ cc_id c' = cc_id c ∧ running_benchmarks c' = running_benchmarks c ∧
  memory_dev_maj_min c' = memory_dev_maj_min c ∧ global_ip c' = global_ip c.

#[export] Instance same_setup_preorder : PreOrder same_setup.
Proof. split; [done|]. intros c1 c2 c3 (? & ? & ? & ? & ?) (? & ? & ? & ? & ?). unfold same_setup. split_and!; congruence. Qed.

(** Kept by a step: the invariant and the setup. *)
Definition kept c c' : Prop := client_ok c → client_ok c' ∧ same_setup c c'.

Lemma kept_refl c : kept c c.
Proof. by split. Qed.

Lemma kept_trans c1 c2 c3 : kept c1 c2 → kept c2 c3 → kept c1 c3.
Proof. intros H12 H23 H1'. destruct (H12 H1') as [? ?]. destruct H23 as [? ?]; [done|]. split; [done|by etrans]. Qed.

(** A loop keeps what its body keeps. *)
Lemma for_all_kept {X S} (st : S → cache_client) (body : X → S → res S) xs s s' :
  (∀ x s s', body x s = Ok s' → kept (st s) (st s')) →
  for_all body xs s = Ok s' → kept (st s) (st s').
Proof.
  intros Hb. revert s. induction xs as [|x xs IH]; intros s; simpl; [intros [= <-]; apply kept_refl|].
  intros (s1 & H1' & H2')%bind_Ok. eapply kept_trans; [by eapply Hb|by apply IH].
Qed.

Lemma set_paths_kept paths c : kept c (set_paths paths c).
Proof. intros [? ? ? ? ? ?]. by split. Qed.

Lemma set_config_kept cfg c : kept c (set_cc_config cfg c).
Proof. intros [? ? ? ? ? ?]. by split. Qed.

Lemma is_Some_insert {V} (m : gmap Z V) k v :
  is_Some (m !! k) → ∀ k', is_Some (<[k := v]> m !! k') ↔ is_Some (m !! k').
Proof. intros Hk k'. rewrite lookup_insert. case_decide; [subst; by split; eauto|done]. Qed.

Lemma set_blk_kept app st c : is_Some (blk_stats c !! app) → kept c (set_blk (<[app := st]> (blk_stats c)) c).
Proof.
  intros Hs [H1' H2' H3 H4 ? ?]. split; [|done]. split; simpl; [done| |done..].
  intros app'. by rewrite H2', is_Some_insert.
Qed.

Lemma set_perf_kept app p p' c :
  perf_stats c !! app = Some p → (perf_ok p → perf_ok p') → kept c (set_perf (<[app := p']> (perf_stats c)) c).
Proof.
  intros Hs Hp [H1' H2' H3 H4 ? ?]. split; [|done]. split; simpl; [|done| |done..].
  - intros app'. by rewrite H1', is_Some_insert.
  - apply map_Forall_insert_2; [|done]. by apply Hp, (H3 app).
Qed.

(** ** The operations keep it *)

Lemma apply_config_kept h new c c' ws : apply_config h new c = Ok (c', ws) → kept c c'.
Proof.
  intros Ha. apply (for_all_kept fst) in Ha; [done|]. clear. intros [app [mem bw]] [c ws] [c' ws'] Hb.
  unfold apply_limits in Hb. inv_ok. destruct x as [mem_ws paths]. inv_ok. destruct x as [bw_ws paths']. inv_ok.
  eapply kept_trans; [apply set_config_kept|apply set_paths_kept].
Qed.

Lemma thread_path_kept h app c p c' : thread_path h app c = Ok (p, c') → kept c c'.
Proof. unfold thread_path, unwrap. intros Hp. inv_ok. destruct x0 as [q paths]. inv_ok. apply set_paths_kept. Qed.

Lemma record_perf_kept h app output c c' : record_perf h app output c = Ok c' → kept c c'.
Proof.
  unfold record_perf, unwrap. intros Hp. inv_ok. destruct x as [p c1]. eapply kept_trans; [by eapply thread_path_kept|].
  destruct (monitor_perf _) as [[[a b] d] e]. destruct (_ && _); inv_ok; [apply kept_refl|].
  eapply set_perf_kept; [done|apply update_perf_ok].
Qed.

Lemma record_mrc_kept powf ln_1p h app output e c c' : record_mrc powf ln_1p h app output e c = Ok c' → kept c c'.
Proof.
  unfold record_mrc, unwrap. destruct (enable_mrc c); [|intros [= <-]; apply kept_refl].
  intros Hp. inv_ok. destruct x as [p c1]. eapply kept_trans; [by eapply thread_path_kept|]. inv_ok.
  destruct (mrc_total powf ln_1p (_ ← p; output) app (cc_id c1) (cc_config c1) (latest_usage c1) e
    (Some (Coeff (of_Z 1) (lit 1 1000000) (of_Z 1)))) as (o & E & Ho).
  match goal with Hm : compute_mrc_via_aet _ _ _ _ _ _ _ _ _ = _ |- _ => rewrite E in Hm; injection Hm as <- end.
  destruct o as [l|]; inv_ok; [|apply kept_refl]. eapply set_perf_kept; [done|]. by apply update_mrc_ok, Ho.
Qed.

Lemma get_blk_kept h app name c bw c' : get_blk_bandwidth h app name c = Ok (bw, c') → kept c c'.
Proof.
  unfold get_blk_bandwidth, unwrap. intros Hb. inv_ok. destruct x as [[p|] paths]; [|inv_ok; apply set_paths_kept].
  inv_ok. destruct x0 as [rd wr]. inv_ok. destruct (blk_bandwidth rd wr (clock h app) x0) as [bw' st]. inv_ok.
  eapply kept_trans; [apply set_paths_kept|]. apply (set_blk_kept app st (set_paths paths c)). eauto.
Qed.

Lemma report_app_kept h mems app acc acc' : report_app h mems app acc = Ok acc' → kept acc.1.1 acc'.1.1.
Proof.
  destruct acc as [[c local] stat]. unfold report_app.
  destruct (mems !! app) as [[mem anon]|]; [|intros [= <-]; apply kept_refl].
  intros Hr. inv_ok. destruct x as [u c1]. inv_ok. simpl. unfold get_app_usage, unwrap in *. inv_ok.
  destruct x0 as [bw c2]. inv_ok. by eapply get_blk_kept.
Qed.

Lemma app_mem_kept h e acc acc' : app_mem_usage h e acc = Ok acc' → kept acc.1 acc'.1.
Proof.
  destruct e as [app name], acc as [c mems]. unfold app_mem_usage. intros Hr. inv_ok.
  destruct x as [[p|] paths]; [|inv_ok; apply set_paths_kept]. inv_ok.
  destruct x as [mem|]; [|inv_ok; apply set_paths_kept].
  destruct (get_anon_mem_usage _ _); inv_ok; apply set_paths_kept.
Qed.

Lemma report_kept h c um c' : report_usage h c = Ok (um, c') → kept c c'.
Proof.
  unfold report_usage. destruct (running_benchmarks c); [|intros [= _ <-]; apply kept_refl].
  intros Hr. inv_ok. destruct x as [c1 mems]. inv_ok. destruct x as [[c2 local] stat]. inv_ok.
  apply (for_all_kept fst) in H2 as K1; [|by intros; by eapply app_mem_kept].
  apply (for_all_kept (λ s, s.1.1)) in H3 as K2; [|by intros; by eapply report_app_kept].
  eapply kept_trans; [exact K1|]. eapply kept_trans; [exact K2|]. simpl.
  intros [? ? ? Hl ? ?]. split; [|done]. split; simpl; [done..| |done|done].
  destruct (Nat.ltb_spec LEN_PERF_HISTORY (length (latest_usage c2 ++ [(<[cc_id c2:=local]> ∅, stat)]))) as [?|?]; [|done].
  rewrite length_drop, length_app in *. simpl in *. lia.
Qed.

(** ** Starting *)

Lemma register_ok p c c' : is_u64 (pl_id p) → register p c = Ok c' → client_ok c → client_ok c'.
Proof.
  unfold register, assert. intros Hid Hr [K1 K2 K3 K4 K5 K6]. inv_ok. split; simpl; [| | |done|done|].
  - intros app. rewrite !lookup_insert. destruct (decide (pl_id p = app)); [by split; eauto|apply K1].
  - intros app. rewrite !lookup_insert. destruct (decide (pl_id p = app)); [by split; eauto|apply K2].
  - apply map_Forall_insert_2; [apply new_perf_ok|done].
  - intros app. rewrite lookup_insert. destruct (decide (pl_id p = app)) as [<-|]; [done|apply K6].
Qed.

(** The ids of a configuration are [u64]. *)
Definition config_u64 (config : init_config) : Prop :=
  Forall (λ p, is_u64 (pl_id p)) (ic_id_preload_map config) ∧ ∀ v, ic_vm_id config = Some v → is_u64 v.

Lemma start_ok maj_min config c : config_u64 config → start_client maj_min config = Ok c → client_ok c.
Proof.
  intros [Hids Hid]. unfold start_client, init. intros Hs. inv_ok. apply (for_all_inv client_ok) in H2.
  - destruct H2 as [K1 K2 K3 K4 K5 K6]. by split.
  - intros p t t' Hp Ht Hr. rewrite Forall_forall in Hids. eapply register_ok; [|done..]. by apply Hids.
  - split; simpl; [| | |unfold LEN_PERF_HISTORY; lia| |].
    1-3: intros app; by rewrite !lookup_empty.
    + destruct (ic_vm_id config) as [v|] eqn:E; [by apply Hid|done].
    + intros app. rewrite lookup_empty. by intros [? ?].
Qed.

(** ** Reachable states *)

Context (powf : F → F → F) (ln_1p : F → F).

(** From a started client, by operations in any order. *)
Inductive client_reach (c0 : cache_client) : cache_client → Prop :=
  | cr_start maj_min config : config_u64 config → start_client maj_min config = Ok c0 → client_reach c0 c0
  | cr_step op c c' : client_reach c0 c → client_step powf ln_1p op c = Ok c' → client_reach c0 c'.

Lemma step_kept op c c' : client_step powf ln_1p op c = Ok c' → kept c c'.
Proof.
  destruct op as [h new|h app output|h app output e|h]; cbn [client_step]; intros Hs.
  - inv_ok. destruct x as [c1 ws]. inv_ok. by eapply apply_config_kept.
  - by eapply record_perf_kept.
  - by eapply record_mrc_kept.
  - inv_ok. destruct x as [um c1]. inv_ok. by eapply report_kept.
Qed.

Lemma reach_ok c0 c : client_reach c0 c → client_ok c ∧ same_setup c0 c.
Proof.
  induction 1 as [maj_min config Hcfg Hs|op c c' _ [IH1 IH2] Hs]; [split; [by eapply start_ok|done]|].
  destruct (step_kept op c c' Hs IH1) as [? ?]. split; [done|by etrans].
Qed.

(** C13: the books of a local enforcer.  In every state it can reach from its
    start, by configurations, measurements, fits of curves and reports in any
    order: the records are those of the registered containers, the four
    histories of a container have the same length of at most 16, its curve is
    empty or fitted, at most 100 reports are kept, and the containers and the
    id are those it started with. *)
Theorem client_books c0 c :
  client_reach c0 c →
  (∀ app, is_Some (id_container_map c !! app) ↔ is_Some (perf_stats c !! app)) ∧
  (∀ app, is_Some (id_container_map c !! app) ↔ is_Some (blk_stats c !! app)) ∧
  map_Forall (λ _ p, length (cache_misses p) <= 16 ∧ length (cache_references p) = length (cache_misses p) ∧
    length (major_faults p) = length (cache_misses p) ∧ length (mem_ops p) = length (cache_misses p) ∧
    sent_curve (ps_mrc p))%nat (perf_stats c) ∧
  (length (latest_usage c) <= 100)%nat ∧ id_container_map c = id_container_map c0 ∧ cc_id c = cc_id c0.
Proof.
  intros [[K1 K2 K3 K4 _ _] (E1 & E2 & _)]%reach_ok. split_and!; try done.
  eapply map_Forall_impl; [exact K3|]. by intros app p [? ? ? ? ? _].
Qed.
End facts.
