(* ===== verification/LocalReports.v ===== *)
(** * What a local enforcer reports

    On a host whose cgroup files can be read a report returns, names every
    registered container with its own id and the id of the VM, and carries
    curves that are empty or fitted. *)

From S2P Require Import Prelude PyDict PyFloat PyStr Rust Json Dumps Resources Base Params Monitor MonitorFacts System Wire GlobalEnforcer Cgroups MissRatio MissRatioFacts PerfStats MrcFit CacheClient CacheClientFacts.

(** ** Paths *)

(** The path a container's cgroup has or will be found to have. *)
Definition path_of (h : host) (paths : gmap text text) (name : text) : option text :=
  match paths !! name with
  | Some p => Some p
  | None => match get_cgroup_path_docker (docker h name) with Ok o => o | Err _ => None end
  end.

(** Looking a path up changes no path. *)
Lemma get_path_known h paths name p :
  path_of h paths name = Some p →
  ∃ paths', get_cgroup_path (docker h) name paths = Ok (Some p, paths') ∧
    ∀ n, path_of h paths' n = path_of h paths n.
Proof.
  unfold path_of, get_cgroup_path. destruct (paths !! name) as [q|] eqn:E; [intros [= ->]; by exists paths|].
  destruct (get_cgroup_path_docker (docker h name)) as [o|] eqn:Ed; [|done]. intros ->.
  eexists. split; [reflexivity|]. intros n. rewrite lookup_insert. destruct (decide (name = n)) as [<-|]; [|done].
  by rewrite E, Ed.
Qed.

Section reports.
Context {F : Type} `{RustFloat F}.
Implicit Types c : cache_client (F := F).

(** The files of a container can be read. *)
Record container_readable (h : host) (maj_min p : text) : Prop := {
  cr_memory : ∃ s, fs h (p ++ str "/memory.current") = Some s ∧ is_Some (parse_u64 (trim s));
  cr_anon : is_Some (get_anon_mem_usage (F := F) (fs h (p ++ str "/memory.stat")) (fs h (p ++ str "/memory.swap.current")));
  cr_io : ∃ s b, fs h (p ++ str "/io.stat") = Some s ∧ io_bytes maj_min s = Ok b;
}.

Definition host_readable (h : host) c : Prop :=
  ∀ app name, id_container_map c !! app = Some name →
    ∃ p, path_of h (container_cgroups_map c) name = Some p ∧ container_readable h (memory_dev_maj_min c) p.

(** The same containers and paths. *)
Definition same_paths (h : host) c c' : Prop :=
  same_setup c c' ∧ ∀ n, path_of h (container_cgroups_map c') n = path_of h (container_cgroups_map c) n.

Lemma same_paths_readable h c c' : same_paths h c c' → host_readable h c → host_readable h c'.
Proof.
  intros [(E1 & _ & _ & E2 & _) Hp] Hr app name. rewrite E1. intros Hn.
  destruct (Hr app name Hn) as (p & ? & ?). exists p. by rewrite Hp, E2.
Qed.

(** ** Memory *)

Lemma app_mem_total h c app name mems :
  host_readable h c → id_container_map c !! app = Some name →
  ∃ c' mems', app_mem_usage h (app, name) (c, mems) = Ok (c', mems') ∧ same_paths h c c' ∧
    is_Some (mems' !! app) ∧ (∀ app', is_Some (mems !! app') → is_Some (mems' !! app')) ∧
    (map_Forall (λ _ m, is_u64 m.1) mems → map_Forall (λ _ m, is_u64 m.1) mems').
Proof.
  intros Hr Hn. destruct (Hr app name Hn) as (p & Hp & [(s & Hs & [b Hb]) [anon Ha] _]).
  destruct (get_path_known h _ name p Hp) as (paths' & Hg & Hsame).
  unfold app_mem_usage. rewrite Hg. cbn [mbind res_bind]. unfold get_current_mem_usage. rewrite Hs, Hb, Ha.
  cbn [unwrap or_raise mbind res_bind]. do 2 eexists. split; [reflexivity|]. split; [by split|].
  split; [rewrite lookup_insert_eq; eauto|]. split.
  - intros app' ?. rewrite lookup_insert. by destruct (decide (app = app')); [eauto|].
  - intros Hm. apply map_Forall_insert_2; [apply as_u64_range|done].
Qed.

Lemma mems_total `{O : HashOrder} h c :
  host_readable h c →
  ∃ c' mems, for_all (app_mem_usage h) (entries (id_container_map c)) (c, ∅) = Ok (c', mems) ∧ same_paths h c c' ∧
    map_Forall (λ _ m, is_u64 m.1) mems ∧
    ∀ app, is_Some (id_container_map c !! app) → is_Some (mems !! app).
Proof.
  intros Hr.
  destruct (for_all_cover (λ acc : cache_client * gmap Z (Z * Z),
      same_paths h c acc.1 ∧ map_Forall (λ _ m, is_u64 m.1) acc.2)
    (λ (e : Z * text) acc, is_Some (acc.2 !! e.1)) (app_mem_usage h) (entries (id_container_map c)) (c, ∅))
    as ([c' mems] & E & [Hs Hu] & Hall & _).
  - intros [app name] [c1 mems] Hin%elem_of_hash [Hs Hu]. simpl in Hs, Hu.
    destruct (app_mem_total h c1 app name mems) as (c2 & mems2 & E & Hs2 & Hm & Hk & Hu2).
    + by eapply same_paths_readable.
    + destruct Hs as [(-> & _) _]. done.
    + exists (c2, mems2). split; [done|]. split; [|split; [done|]; intros [a ?]; apply Hk].
      split; [|by apply Hu2]. destruct Hs as [S1 P1], Hs2 as [S2 P2]. split; [by etrans|]. intros n. by rewrite P2, P1.
  - split; [done|apply map_Forall_empty].
  - exists c', mems. split; [done|]. split; [done|]. split; [done|]. intros app [name Hn]. apply (Hall (app, name)).
    by apply elem_of_hash.
Qed.

(** ** Usage *)

(** Every integer of a usage is a [u64]. *)
Definition usage_u64 (u : app_usage (F := F)) : Prop :=
  Forall is_u64 [us_vm_id u; us_app_id u; us_mem_mb u; us_bw_mbps u; us_cache_mbps u;
                 us_access_mem_ops_sec u; us_access_rate_ops_sec u; us_local_lat u; us_remote_lat u] ∧
  ∀ l, us_mrc u = Some l → Forall (λ p : Z * F, is_u64 p.1) l.

(** What is reported of one application. *)
Record good_usage (id app : Z) (u : app_usage (F := F)) : Prop := {
  gu_vm : us_vm_id u = id;
  gu_app : us_app_id u = app;
  gu_curve : ∃ l, us_mrc u = Some l ∧ sent_curve l;
  gu_hit_rate : ∃ a b, us_hit_rate_percent u = fquot (of_Z a) (of_Z b) ∧ (1 <= b)%Z;
  gu_u64 : usage_u64 u;
}.

Lemma sent_curve_u64 (l : list (Z * F)) : sent_curve l → Forall (λ p : Z * F, is_u64 p.1) l.
Proof.
  intros [->|Hl]; [constructor|]. change (Forall (is_u64 ∘ fst) l). rewrite <- Forall_fmap, (rc_sizes _ Hl).
  by apply (bool_decide_unpack (Forall is_u64 cache_sizes_mb)).
Qed.

Lemma blk_bandwidth_u64 rd wr now st : is_u64 (blk_bandwidth (F := F) rd wr now st).1.
Proof. unfold blk_bandwidth. destruct (_ <=? _)%Z; [done|apply as_u64_range]. Qed.

Lemma app_usage_total h c app name mem :
  client_ok c → host_readable h c → id_container_map c !! app = Some name → is_u64 mem →
  ∃ u c', get_app_usage h app mem c = Ok (u, c') ∧ same_paths h c c' ∧ client_ok c' ∧ good_usage (cc_id c) app u.
Proof.
  intros Hok Hr Hn Hmem. destruct (Hr app name Hn) as (p & Hp & [_ _ (s & [rd wr] & Hs & Hb)]).
  destruct (get_path_known h _ name p Hp) as (paths' & Hg & Hsame).
  destruct (proj1 (ck_blk _ Hok app) ltac:(eauto)) as [st Hst].
  destruct (proj1 (ck_perf _ Hok app) ltac:(eauto)) as [ps Hps].
  unfold get_app_usage, get_blk_bandwidth. rewrite Hn. cbn [unwrap or_raise mbind res_bind].
  rewrite Hg. cbn [mbind res_bind]. rewrite Hs. cbn [unwrap or_raise mbind res_bind set_paths memory_dev_maj_min].
  rewrite Hb. cbn [mbind res_bind]. cbn [set_paths blk_stats]. rewrite Hst. cbn [unwrap or_raise mbind res_bind].
  destruct (blk_bandwidth rd wr (clock h app) st) as [bw st'] eqn:Eb.
  cbn [mbind res_bind set_blk set_paths perf_stats]. rewrite Hps. cbn [unwrap or_raise mbind res_bind].
  do 2 eexists. split; [reflexivity|]. split; [by split|]. split.
  - apply (set_blk_kept app st' (set_paths paths' c)); [simpl; eauto|]. by apply set_paths_kept.
  - pose proof (ck_stats _ Hok app ps Hps) as [_ _ _ _ Hcurve Havg].
    rewrite !Forall_cons in Havg. destruct Havg as (A1 & A2 & A3 & A4 & _).
    split; [done..|by exists (ps_mrc ps)|eexists _, _; split; [done|lia]|]. split.
    + pose proof (blk_bandwidth_u64 rd wr (clock h app) st) as Hbw. rewrite Eb in Hbw.
      rewrite !Forall_cons. split_and!; try done; [apply (ck_id _ Hok)|apply (ck_apps _ Hok); eauto|..];
        by apply div_u64; [apply wrap_u64|].
    + intros l [= <-]. by apply sent_curve_u64.
Qed.

(** The report of a VM with the containers of [c]. *)
Record good_report (id : Z) (apps : gmap Z text) (um : usages F) : Prop := {
  gr_only : ∃ local, um = {[id := local]} ∧ (∀ app, is_Some (local !! app) ↔ is_Some (apps !! app)) ∧
    map_Forall (good_usage id) local;
}.

Lemma report_total `{O : HashOrder} h c :
  client_ok c → running_benchmarks c = true → host_readable h c →
  ∃ um c', report_usage h c = Ok (Some um, c') ∧ good_report (cc_id c) (id_container_map c) um.
Proof.
  intros Hok Hrun Hr. unfold report_usage. rewrite Hrun.
  destruct (mems_total h c Hr) as (c1 & mems & E1 & Hs1 & Hu1 & Hm). rewrite E1. cbn [mbind res_bind].
  assert (Hok1 : client_ok c1).
  { apply (for_all_kept fst) in E1; [by apply E1|]. intros; by eapply app_mem_kept. }
  set (I := λ acc : cache_client * gmap Z (app_usage (F := F)) * gmap Z Z,
    client_ok acc.1.1 ∧ same_paths h c acc.1.1 ∧ map_Forall (good_usage (cc_id c)) acc.1.2 ∧
    ∀ app, is_Some (acc.1.2 !! app) → is_Some (id_container_map c !! app)).
  destruct (for_all_cover I (λ app acc, is_Some (acc.1.2 !! app)) (report_app h mems) (keys (id_container_map c))
    (c1, ∅, ∅)) as ([[c2 local] stat] & E2 & (Hok2 & Hs2 & Hgood & Hsub) & Hall & _).
  - intros app [[c3 local] stat] Happ (Hok3 & Hs3 & Hg3 & Hsub3). apply elem_of_keys in Happ as [name Hn].
    cbn [fst snd] in Hok3, Hs3, Hg3, Hsub3.
    destruct (Hm app ltac:(eauto)) as [[mem anon] Hmem]. unfold report_app. rewrite Hmem.
    destruct (app_usage_total h c3 app name mem) as (u & c4 & E & Hs4 & Hok4 & Hg).
    + done.
    + by eapply same_paths_readable.
    + by destruct Hs3 as [(-> & _) _].
    + by apply (Hu1 app (mem, anon)).
    + rewrite E. cbn [mbind res_bind]. eexists. split; [reflexivity|]. unfold I. cbn [fst snd].
      destruct Hs3 as [S3 P3], Hs4 as [S4 P4]. split_and!.
      * done.
      * split; [by etrans|]. intros n. by rewrite P4, P3.
      * apply map_Forall_insert_2; [|done]. destruct S3 as (_ & E3 & _). by rewrite E3 in Hg.
      * intros app'. rewrite lookup_insert. destruct (decide (app = app')) as [<-|]; [eauto|apply Hsub3].
      * rewrite lookup_insert_eq. eauto.
      * intros app' ?. rewrite lookup_insert. by destruct (decide (app = app')); [eauto|].
  - unfold I. cbn [fst snd]. split_and!; [done..|apply map_Forall_empty|]. intros app. rewrite lookup_empty. by intros [? ?].
  - rewrite E2. cbn [mbind res_bind]. do 2 eexists. split; [reflexivity|]. split. exists local.
    destruct Hs2 as [(_ & E3 & _) _]. cbn [fst] in E3. rewrite E3. split; [done|]. split; [|done].
    intros app. split; [apply Hsub|]. intros Ha. apply (Hall app). by apply elem_of_keys.
Qed.

(** C11: a report.  From every state a local enforcer can reach, when it has
    containers and their files can be read, reporting returns, and what is
    posted is one VM, its own, with exactly the registered containers, each
    with its own id, [u64] figures and an empty or fitted curve. *)
Theorem report_complete `{O : HashOrder} (powf : F → F → F) (ln_1p : F → F) h c0 c :
  client_reach powf ln_1p c0 c → running_benchmarks c0 = true → host_readable h c →
  ∃ local c', report_usage h c = Ok (Some {[cc_id c0 := local]}, c') ∧
    (∀ app, is_Some (local !! app) ↔ is_Some (id_container_map c0 !! app)) ∧
    ∀ app u, local !! app = Some u →
      us_vm_id u = cc_id c0 ∧ us_app_id u = app ∧ usage_u64 u ∧ ∃ l, us_mrc u = Some l ∧ sent_curve l.
Proof.
  intros [Hok (E1 & E2 & E3 & _)]%reach_ok Hrun Hread.
  destruct (report_total h c Hok ltac:(congruence) Hread) as (um & c' & E & [(local & -> & Hdom & Hgood)]).
  rewrite E1 in Hdom. rewrite E2 in *. exists local, c'. split; [done|]. split; [done|].
  intros app u Hu. by destruct (Hgood app u Hu) as [? ? ? _ ?].
Qed.
End reports.
