(* ===== verification/LocalLimits.v ===== *)
(** * The limits a local enforcer writes and leaves behind

    In exact arithmetic, which the gradual decrease computes in: a smaller
    limit is reached in at most five steps that never fall below the target
    and never grow, a larger one at once, and [memory.high] never exceeds
    [memory.max].

    After a configuration was applied, the control files of every container
    it names hold the units it was given: [memory.max] the cache, [io.max] the
    bandwidth. *)

From S2P Require Import Prelude PyDict PyFloat PyStr Rust Json Dumps Exact Resources Base BaseExact Params Monitor MonitorFacts System Wire GlobalEnforcer Cgroups MissRatio MissRatioFacts PerfStats MrcFit CacheClient CacheClientFacts LocalReports.
From Stdlib Require Import Ascii.

(** ** Casts *)

Lemma as_u64_floor q :
  (0 <= q)%Qc → (zq (as_u64 (Num q)) <= q)%Qc ∧ ((q < zq (2 ^ 64))%Qc → (q < zq (as_u64 (Num q)) + 1)%Qc).
Proof.
  intros Hq. destruct (trunc_nonneg q Hq) as (z & Hz & Hz0 & Hle & Hlt). unfold as_u64. rewrite Hz.
  rewrite Z.max_r by lia. split.
  - apply (Qcle_trans _ (zq z)); [apply zq_le; lia|]. unfold zq. qc_to_q. done.
  - intros Hb. assert (Hzb : (zq z < zq (2 ^ 64))%Qc).
    { eapply Qcle_lt_trans; [|exact Hb]. unfold zq. qc_to_q. done. }
    assert (z < 2 ^ 64)%Z.
    { apply Z.nle_gt. intros Hn. apply zq_le in Hn. by apply Qclt_not_le in Hzb. }
    rewrite Z.min_r by lia. unfold zq. qc_to_q. done.
Qed.

Lemma as_u64_mono a b : (0 <= a)%Qc → (a <= b)%Qc → (as_u64 (Num a) <= as_u64 (Num b))%Z.
Proof.
  intros Ha Hab. assert (Hb : (0 <= b)%Qc) by (by apply (Qcle_trans _ a)).
  destruct (trunc_nonneg a Ha) as (x & Hx & Hx0 & Hxl & Hxu). destruct (trunc_nonneg b Hb) as (y & Hy & Hy0 & Hyl & Hyu).
  unfold as_u64. rewrite Hx, Hy. assert (x <= y)%Z; [|lia].
  apply Z.lt_succ_r. rewrite Zlt_Qlt. unfold Z.succ. rewrite inject_Z_plus. change (inject_Z 1) with 1%Q.
  revert Hab. unfold Qcle. lra.
Qed.

Lemma as_u64_int z : is_u64 z → as_u64 (Num (zq z)) = z.
Proof.
  intros Hz. assert (H0 : (0 <= zq z)%Qc) by (change 0%Qc with (zq 0); apply zq_le, Hz).
  destruct (as_u64_floor _ H0) as [Hl Hu].
  rewrite zq_le in Hl. assert (Hu' : (zq z < zq (as_u64 (Num (zq z)) + 1))%Qc).
  { rewrite zq_add. apply Hu. apply Qcnot_le_lt. rewrite zq_le. destruct Hz. lia. }
  apply Qclt_not_le in Hu'. rewrite zq_le in Hu'. lia.
Qed.

(** ** Memory *)

Definition nine_tenths : Qc := Q2Qc (9 # 10).

Lemma high_below mem : is_u64 mem → (high_of (F := xnum) mem <= mem)%Z.
Proof.
  intros Hm. unfold high_of. apply Z.max_lub; [case_match; [|destruct Hm]; unfold EVICTION_PRESSURE_MB; lia|].
  assert (H0 : (0 <= zq mem)%Qc) by (change 0%Qc with (zq 0); apply zq_le, Hm).
  rewrite <- (as_u64_int mem Hm) at 2. apply as_u64_mono; unfold zq in *; qc_lra.
Qed.

(** The usage can be read whenever its file is there. *)
Definition usage_readable (memory_current : nat → option text) : Prop :=
  ∀ i s, memory_current i = Some s → is_Some (parse_u64 (trim s)).

(** The steps of a decrease from [q]. *)
Record steps_down (target : Z) (n : nat) (q : Qc) (l : list Z) : Prop := {
  sd_target : Forall (λ z, target <= z)%Z l;
  sd_below : Forall (λ z, z <= as_u64 (Num q))%Z l;
  sd_sorted : Sorted Z.ge l;
  sd_length : (length l <= n)%nat;
}.

Lemma steps_down_nil target n q : steps_down target n q [].
Proof. split; [constructor..|simpl; lia]. Qed.

Lemma decrease_steps memory_current target n i q :
  usage_readable memory_current → is_u64 target → (zq target <= q)%Qc →
  returns (decrease memory_current target n i (Num q)) (steps_down target n q).
Proof.
  intros Hread Ht. revert i q. induction n as [|n IH]; intros i q Hq.
  { apply returns_ret, steps_down_nil. }
  assert (H0 : (0 <= q)%Qc).
  { eapply Qcle_trans; [|exact Hq]. change 0%Qc with (zq 0). apply zq_le, Ht. }
  cbn [decrease]. unfold get_current_mem_usage. destruct (memory_current i) as [s|] eqn:Es.
  2: { apply returns_ret, steps_down_nil. }
  destruct (Hread i s Es) as [bytes ->]. cbn [unwrap or_raise mbind res_bind].
  destruct (_ <=? target)%Z; [apply returns_ret, steps_down_nil|].
  destruct (_ <=? as_u64 (Num q))%Z.
  - change ((Num q * EVICTION_PRESSURE_RATIO)%py) with (Num (q * nine_tenths)%Qc).
    change (of_Z target : xnum) with (Num (zq target)).
    destruct (fltb (Num (q * nine_tenths)%Qc) (Num (zq target))) eqn:El; [apply returns_ret, steps_down_nil|].
    apply xltb_Num_false in El. destruct (IH (S i) (q * nine_tenths)%Qc El) as (rest & -> & [R1 R2 R3 R4]).
    cbn [mbind res_bind]. eexists. split; [reflexivity|].
    assert (Hnn : (0 <= q * nine_tenths)%Qc) by (unfold nine_tenths; qc_lra).
    assert (Hle : (q * nine_tenths <= q)%Qc) by (unfold nine_tenths; qc_lra).
    pose proof (as_u64_mono _ _ Hnn Hle) as Hm.
    split.
    + constructor; [|done]. rewrite <- (as_u64_int target Ht). apply as_u64_mono; [|done].
      change 0%Qc with (zq 0). apply zq_le, Ht.
    + constructor; [done|]. eapply Forall_impl; [exact R2|]. simpl. lia.
    + constructor; [done|]. destruct rest as [|z rest]; constructor. apply Forall_inv in R2. lia.
    + simpl. lia.
  - destruct (IH (S i) q Hq) as (rest & -> & [R1 R2 R3 R4]). eexists. split; [reflexivity|]. split; [done..|lia].
Qed.

Lemma limit_mb_u64 content : is_u64 (limit_mb content).
Proof.
  unfold limit_mb. destruct (parse_u64 _) as [z|] eqn:E; simpl; [|done].
  apply parse_u64_range in E as [? ?]. case_match; [|done]. split; [apply Z.div_pos; lia|].
  apply Z.div_lt_upper_bound; lia.
Qed.

(** The limits that are set for a target: they end with it, there are at most
    five on the way down, none is below it or above the limit before, and
    [memory.high] stays within every one. *)
Lemma memory_gradual memory_max memory_current target :
  usage_readable memory_current → is_u64 target →
  ∃ steps, memory_steps (F := xnum) memory_max memory_current target = Ok (steps ++ [target]) ∧
    (length steps <= 5)%nat ∧ Sorted Z.ge (steps ++ [target]) ∧
    Forall (λ z, target <= z <= limit_mb memory_max ∧ high_of (F := xnum) z <= z)%Z steps ∧
    (high_of (F := xnum) target <= target)%Z ∧
    ((limit_mb memory_max <= target)%Z → steps = []).
Proof.
  intros Hread Ht. pose proof (limit_mb_u64 memory_max) as Hu. unfold memory_steps.
  destruct (target <? limit_mb memory_max)%Z eqn:El.
  - apply Z.ltb_lt in El. change (of_Z (limit_mb memory_max) : xnum) with (Num (zq (limit_mb memory_max))).
    destruct (decrease_steps memory_current target iter_max 0 (zq (limit_mb memory_max))) as (l & -> & [H1 H2 H3 H4]);
      [done..|apply zq_le; lia|]. cbn [mbind res_bind]. exists l. split; [done|]. split; [done|].
    rewrite as_u64_int in H2 by done. split.
    { clear -H1 H3. induction H3 as [|z l Hl IH Hz]; simpl; [by repeat constructor|].
      apply Forall_cons in H1 as [Hz1 H1]. constructor; [by apply IH|].
      destruct Hz; simpl; constructor; [lia|done]. }
    split; [|split; [by apply high_below|lia]]. apply Forall_forall. intros z Hz.
    rewrite Forall_forall in H1, H2. specialize (H1 z Hz). specialize (H2 z Hz). split; [lia|].
    apply high_below. destruct Ht, Hu. split; lia.
  - exists []. split; [done|]. split; [simpl; lia|]. split; [by repeat constructor|]. split; [constructor|].
    split; [by apply high_below|done].
Qed.

(** ** Bandwidth *)

(** The rate does not wrap around for anything a VM can be given. *)
Lemma rate_exact bw : (0 <= bw < 2 ^ 47)%Z → wrap (bw * MBPS_TO_BYTES_PER_SEC) = (bw * 125000)%Z.
Proof. intros Hb. apply wrap_small. unfold is_u64, MBPS_TO_BYTES_PER_SEC. lia. Qed.

(** C15: how a memory limit is changed.  The limits written for a target end
    with it; a smaller one is reached in at most five steps before, which
    never grow, never fall below the target and never exceed the old limit; a
    larger one is set at once; and [memory.high] never exceeds [memory.max]. *)
Theorem memory_lowered memory_max memory_current target :
  usage_readable memory_current → is_u64 target →
  ∃ steps, memory_steps (F := xnum) memory_max memory_current target = Ok (steps ++ [target]) ∧
    (length steps <= 5)%nat ∧ Sorted Z.ge (steps ++ [target]) ∧
    Forall (λ z, target <= z <= limit_mb memory_max ∧ high_of (F := xnum) z <= z)%Z steps ∧
    (high_of (F := xnum) target <= target)%Z ∧
    ((limit_mb memory_max <= target)%Z → steps = []).
Proof. apply memory_gradual. Qed.

(** ** Writes *)

(** What a path holds after some writes. *)
Definition last_write (path : text) (ws : list write) : option text := snd <$> last (filter (λ w, w.1 = path) ws).

Lemma last_write_app path ws ws' :
  last_write path (ws ++ ws') = match last_write path ws' with Some t => Some t | None => last_write path ws end.
Proof.
  unfold last_write. rewrite filter_app, last_app. destruct (last (filter _ ws')) as [w|]; [done|]. done.
Qed.

Lemma last_write_other path ws : Forall (λ w : write, w.1 ≠ path) ws → last_write path ws = None.
Proof.
  intros Hw. unfold last_write. induction Hw as [|w ws Hw _ IH]; [done|]. by rewrite filter_cons_False.
Qed.

(** ** The names of the files *)

Definition memory_max (p : text) : text := p ++ str "/memory.max".
Definition io_max (p : text) : text := p ++ str "/io.max".

(** The last five characters. *)
Definition ending (s : text) : text := take 5 (reverse s).

Lemma ending_app p s : (5 <= length s)%nat → ending (p ++ s) = ending s.
Proof. intros Hs. unfold ending. rewrite reverse_app, take_app_le; [done|]. by rewrite length_reverse. Qed.

Lemma paths_differ p q s t :
  (5 <= length s)%nat → (5 <= length t)%nat → ending s ≠ ending t → p ++ s ≠ q ++ t.
Proof. intros Hs Ht Hne E. apply Hne. by rewrite <- (ending_app p s), E, ending_app. Qed.

Lemma same_file (p q s : text) : p ++ s = q ++ s → p = q.
Proof. apply app_inv_tail. Qed.

(** The files of a container. *)
Definition belongs (p : text) (w : write) : Prop :=
  w.1 = memory_max p ∨ w.1 = p ++ str "/memory.high" ∨ w.1 = p ++ str "/memory.swap.max" ∨ w.1 = io_max p.

Lemma belongs_other p q w : p ≠ q → belongs p w → w.1 ≠ memory_max q ∧ w.1 ≠ io_max q.
Proof.
  intros Hne [->|[->|[->| ->]]]; split; unfold memory_max, io_max;
    first [apply paths_differ; [by apply (bool_decide_unpack _)..|by apply (bool_decide_unpack _)]|by intros ?%same_file].
Qed.

(** ** One application *)

Lemma settings_memory p z : last_write (memory_max p) (write_settings (F := xnum) p z) = Some (show z ++ str "M").
Proof.
  unfold write_settings, last_write. rewrite filter_cons_True by done. rewrite filter_cons_False; [done|].
  apply (paths_differ p p); by apply (bool_decide_unpack _).
Qed.

Lemma steps_memory p steps z : last_write (memory_max p) ((steps ++ [z]) ≫= write_settings (F := xnum) p) = Some (show z ++ str "M").
Proof. rewrite bind_app, last_write_app. cbn [mbind list_bind]. by rewrite app_nil_r, settings_memory. Qed.

Lemma settings_belong p steps : Forall (belongs p) (steps ≫= write_settings (F := xnum) p).
Proof.
  induction steps as [|z steps IH]; [constructor|]. cbn [mbind list_bind]. apply Forall_app. split; [|done].
  unfold write_settings. rewrite !Forall_cons. split_and!; [by left|by right; left|constructor].
Qed.

(** The control files of a container are there and its usage is readable. *)
Record container_limitable (h : host) (app : Z) (p : text) : Prop := {
  cl_usage : usage_readable (memory_current h app);
  cl_io : is_Some (fs h (io_max p));
}.

Lemma apply_limits_writes h app mem bw (c : cache_client (F := xnum)) ws name p :
  id_container_map c !! app = Some name → path_of h (container_cgroups_map c) name = Some p →
  container_limitable h app p → is_u64 mem →
  ∃ c' new, apply_limits h (app, (mem, bw)) (c, ws) = Ok (c', ws ++ new) ∧ same_paths h c c' ∧
    Forall (belongs p) new ∧
    last_write (memory_max p) new = Some (show mem ++ str "M") ∧
    last_write (io_max p) new = Some (bw_alloc_str (memory_dev_maj_min c) bw).
Proof.
  intros Hn Hp [Hus [io Hio]] Hmem. unfold apply_limits. cbn [set_cc_config id_container_map container_cgroups_map].
  rewrite Hn. unfold set_memory_size_via_cgroup, update_swap_bandwidth.
  destruct (get_path_known h _ name p Hp) as (paths1 & E1 & P1). rewrite E1. cbn [mbind res_bind].
  destruct (memory_gradual (fs h (p ++ str "/memory.max")) (memory_current h app) mem Hus Hmem) as (steps & -> & _).
  cbn [mbind res_bind]. rewrite <- (P1 name) in Hp. destruct (get_path_known h _ name p Hp) as (paths2 & E2 & P2).
  rewrite E2. cbn [mbind res_bind]. unfold io_max in Hio. rewrite Hio. cbn [unwrap or_raise mbind res_bind].
  cbn [memory_dev_maj_min set_cc_config].
  set (swap := swap_write p _). set (iow := (p ++ str "/io.max", _)).
  do 2 eexists. split; [reflexivity|]. split; [|split; [|split]].
  - split; [done|]. intros n. cbn [set_paths container_cgroups_map]. by rewrite P2, P1.
  - repeat apply Forall_app_2; [apply settings_belong| |apply Forall_singleton; by right; right; right].
    subst swap. unfold swap_write. case_match; [|constructor]. apply Forall_singleton. by right; right; left.
  - rewrite last_write_app, (last_write_other _ [iow]), last_write_app, (last_write_other _ swap), steps_memory; [done|..].
    + subst swap. unfold swap_write. case_match; [|constructor]. apply Forall_singleton, (paths_differ p p); by apply (bool_decide_unpack _).
    + apply Forall_singleton, (paths_differ p p); by apply (bool_decide_unpack _).
  - rewrite last_write_app. unfold last_write at 1. by rewrite filter_cons_True.
Qed.

(** An application that does not run here is recorded and nothing else. *)
Lemma apply_limits_absent h app mem bw (c : cache_client (F := xnum)) ws :
  id_container_map c !! app = None →
  ∃ c', apply_limits h (app, (mem, bw)) (c, ws) = Ok (c', ws) ∧ same_paths h c c'.
Proof.
  intros Hn. unfold apply_limits. cbn [set_cc_config id_container_map]. rewrite Hn. cbn. rewrite app_nil_r.
  eexists. split; [reflexivity|]. by split.
Qed.

(** ** A configuration *)

Section apply.
Context `{O : HashOrder} (h : host) (c0 : cache_client (F := xnum)).

(** The path of an application's container. *)
Definition app_path (app : Z) : option text :=
  name ← id_container_map c0 !! app; path_of h (container_cgroups_map c0) name.

(** Every container of this VM can be limited, and no two share a path. *)
Record limitable : Prop := {
  lm_path : ∀ app, is_Some (id_container_map c0 !! app) → ∃ p, app_path app = Some p ∧ container_limitable h app p;
  lm_distinct : ∀ app app' p, app_path app = Some p → app_path app' = Some p → app = app';
}.

Definition holds (maj_min : text) (p : text) (mem bw : Z) (ws : list write) : Prop :=
  last_write (memory_max p) ws = Some (show mem ++ str "M") ∧
  last_write (io_max p) ws = Some (bw_alloc_str maj_min bw).

Lemma limits_applied new :
  limitable → (∀ app mem bw, uc_allocation_map new !! app = Some (mem, bw) → is_u64 mem) →
  ∃ c ws, apply_config h new c0 = Ok (c, ws) ∧
    ∀ app mem bw p, uc_allocation_map new !! app = Some (mem, bw) → app_path app = Some p →
      holds (memory_dev_maj_min c0) p mem bw ws.
Proof.
  intros [Hl Hd] Hu. unfold apply_config.
  assert (Hgen : ∀ todo c ws, NoDup todo.*1 → (∀ e, e ∈ todo → is_u64 e.2.1) → same_paths h c0 c →
    ∃ c' new, for_all (apply_limits h) todo (c, ws) = Ok (c', ws ++ new) ∧
      (∀ app p, app ∉ todo.*1 → app_path app = Some p →
        Forall (λ w : write, w.1 ≠ memory_max p ∧ w.1 ≠ io_max p) new) ∧
      ∀ app mem bw p, (app, (mem, bw)) ∈ todo → app_path app = Some p →
        holds (memory_dev_maj_min c0) p mem bw new).
  { induction todo as [|[app [mem bw]] todo IH]; intros c ws Hnd Hin Hs.
    { exists c, []. rewrite app_nil_r. split; [done|]. split; [constructor|]. intros ? ? ? ? Hx. by apply not_elem_of_nil in Hx. }
    csimpl in Hnd. apply NoDup_cons in Hnd as [Happ Hnd].
    destruct Hs as [(Ei & Ec & Er & Em & Eg) Hp].
    destruct (id_container_map c0 !! app) as [name|] eqn:En.
    - destruct (Hl app) as (p & Epath & Hlim); [by rewrite En|].
      assert (Hpn : path_of h (container_cgroups_map c0) name = Some p).
      { unfold app_path in Epath. by rewrite En in Epath. }
      destruct (apply_limits_writes h app mem bw c ws name p) as (c1 & new1 & E1 & [S1 P1] & Hb1 & Hm1 & Hi1);
        [by rewrite Ei|by rewrite Hp|done|by apply (Hin (app, (mem, bw))); left|].
      destruct (IH c1 (ws ++ new1)) as (c2 & new2 & E2 & Ho2 & Hh2); [done|intros; apply Hin; by right| |].
      { split; [|intros n; by rewrite P1, Hp]. etrans; [|exact S1]. done. }
      exists c2, (new1 ++ new2). cbn [for_all]. rewrite E1. cbn [mbind res_bind]. rewrite E2, <- app_assoc.
      split; [done|]. split.
      + intros app' p' Hni Hp'. csimpl in Hni. apply not_elem_of_cons in Hni as [Hne Hni].
        apply Forall_app_2; [|by apply (Ho2 app')]. eapply Forall_impl; [exact Hb1|].
        intros w Hw. apply (belongs_other p p'); [|done]. intros ->. by destruct Hne; eapply Hd.
      + intros app' mem' bw' p' [E|Hin']%elem_of_cons Hp'.
        * injection E as -> -> ->. rewrite Epath in Hp'. injection Hp' as <-.
          pose proof (Ho2 app p Happ Epath) as Hoth. unfold holds. rewrite !last_write_app.
          rewrite !(last_write_other _ new2) by (eapply Forall_impl; [exact Hoth|]; by intros w [? ?]).
          by rewrite Hm1, Hi1, Em.
        * destruct (Hh2 app' mem' bw' p' Hin' Hp') as [K1 K2]. unfold holds. by rewrite !last_write_app, K1, K2.
    - destruct (apply_limits_absent h app mem bw c ws) as (c1 & E1 & [S1 P1]); [by rewrite Ei|].
      destruct (IH c1 ws) as (c2 & new2 & E2 & Ho2 & Hh2); [done|intros; apply Hin; by right| |].
      { split; [|intros n; by rewrite P1, Hp]. etrans; [|exact S1]. done. }
      exists c2, new2. cbn [for_all]. rewrite E1. cbn [mbind res_bind]. split; [done|]. split.
      + intros app' p' Hni. csimpl in Hni. apply not_elem_of_cons in Hni as [_ Hni]. by apply Ho2.
      + intros app' mem' bw' p' [E|Hin']%elem_of_cons Hp'; [|by eapply Hh2].
        injection E as -> -> ->. unfold app_path in Hp'. by rewrite En in Hp'. }
  destruct (Hgen (entries (uc_allocation_map new)) c0 []) as (c & ws & E & _ & Hh).
  - apply keys_NoDup.
  - intros [app [mem bw]] Hin%elem_of_hash. by eapply Hu.
  - by split.
  - exists c, ws. split; [done|]. intros app mem bw p Hin. apply Hh. by apply elem_of_hash.
Qed.
End apply.
