(* ===== verification/SpiritLoop.v ===== *)
(** * The whole control loop with the Spirit allocator

    Starting from a fresh allocator and a fresh monitor, on a configuration
    that satisfies [loop_config]: as long as the controller answers with the
    same VM map and usable curves, no round raises, and from the first round after the first answer the deployed
    allocation fits every VM, also when applications are reset in between. *)

From S2P Require Import Prelude PyDict Nested PyFloat Exact Resources PtasExact Base BaseExact Spirit SpiritExact SpiritRounds StaticAlloc Json Params Monitor MonitorFacts Estimator EstimatorExact System Controllers SpiritRoom MonitorReadings Interleaving.

(** The allocator as the loop calls it; its price search never runs out of
    fuel ([allocate_terminates]). *)
Definition spirit_step (rs : scale xnum) (par : spirit_params xnum) (users : list Z) (num_vms : Z)
    (e : option (dict Z units)) (m : monitor xnum) (s : spirit xnum) : res (dict Z units * spirit xnum) :=
  o ← spirit_allocate rs par users num_vms false e m s; or_raise PlainException o.

(** A round whose allocator returned. *)
Lemma deploy_round {A} (alloc : option (dict Z units) → monitor xnum → A → res (dict Z units * A)) s al a :
  alloc (e2e_last_allocation s) (sys_monitor s) (sys_alloc s) = Ok (al, a) →
  NoDup (dkeys al) → al ≠ [] →
  allocate_and_deploy alloc s =
    Ok (System a (Some al) (set_last_allocation al (sys_monitor s)) (command al)).
Proof.
  intros Ha Hnd Hne. unfold allocate_and_deploy. rewrite Ha. cbn [mbind res_bind].
  by rewrite deploy_allocation.
Qed.

(** What the theorems on the loop ask of the configuration: a usable one
    ([SpiritRounds.usable]), a minimum of at least 1 Mbps per user and 1 Mbps
    for each of them, application 1 among the users (its records end the static
    phase), a static phase of at least two records, at least one VM, and a
    positive granularity. *)
Record loop_config (rs : scale xnum) (par : spirit_params xnum) (vmap : vm_map) (users : list Z)
    (num_vms : Z) : Prop := {
  lc_usable : usable rs par vmap users;
  lc_minimum : wide_minimum rs;
  lc_room : ∀ B, s_mem_bw rs = Num B → (zq (Z.of_nat (length users)) <= B * zq 1024)%Qc;
  lc_granularity : pos (search_granularity par);
  lc_init : (2 <= init_phase_interval par)%Z;
  lc_one : 1%Z ∈ users;
  lc_vms : (0 < num_vms)%Z;
}.

(** An answer of the controller, if any, has the VM map, in some order, and
    usable curves. *)
Definition answer_ok (vmap : vm_map) (o : option (dict Z (dict Z (raw_entry xnum)))) : Prop :=
  ∀ r, o = Some r → same_vms (map_of r) vmap ∧ usable_response r.

Definition event_ok (vmap : vm_map) (e : event xnum) : Prop := ∀ o, e = Answer o → answer_ok vmap o.

(** A status arrived among the events. *)
Definition answered (events : list (event xnum)) : Prop := ∃ r, Answer (Some r) ∈ events.

Section loop.
Context (rs : scale xnum) (S B : Qc) (HS : s_cache rs = Num S) (HB : s_mem_bw rs = Num B).
Context (par : spirit_params xnum) (vmap : vm_map) (users : list Z) (num_vms : Z).
Context (Hconf : loop_config rs par vmap users num_vms).
Context (interval : Z) (th : xnum).
Context (p : alloc_params xnum) (pause : xnum) (Hpause : sleep_interval p = Ok pause).

Let Husable := lc_usable _ _ _ _ _ Hconf.
Let Hrs := us_limits _ _ _ _ Husable.
Let Hcap := us_cap _ _ _ _ Husable.
Let Hmap := us_distinct _ _ _ _ Husable.
Let Hcomplete := us_complete _ _ _ _ Husable.
Let Hserve := us_serve _ _ _ _ Husable.
Let Hmin := lc_minimum _ _ _ _ _ Hconf.
Let Hroom := lc_room _ _ _ _ _ Hconf B HB.
Let Hgran := lc_granularity _ _ _ _ _ Hconf.
Let Hinit := lc_init _ _ _ _ _ Hconf.
Let H1 := lc_one _ _ _ _ _ Hconf.
Let Hvms := lc_vms _ _ _ _ _ Hconf.

Let step := spirit_step rs par users num_vms.
Let round := interleaved_round step false interval th.

(** ** The phases of the loop *)

Implicit Types s : system (F := xnum) (A := spirit xnum).

Abbreviation current s := (mon_last_allocation (sys_monitor s)).

(** What every state has. *)
Record base s : Prop := {
  ba_reach : mon_reach (sys_monitor s);
  ba_read : read_ok (sys_monitor s);
  ba_room : state_roomy rs (sys_alloc s);
  ba_iter : (max_iteration (sys_alloc s) <= iteration_cap)%Z;
  ba_buffer : buffered_data (sys_monitor s) = [];
}.

(** No answer has arrived. *)
Record waiting s : Prop := {
  wa_map : vm_to_app_map (sys_monitor s) = [];
  wa_records : collected_data (sys_monitor s) = [];
}.

(** The map is known and the next allocation is static. *)
Record mapped s : Prop := {
  mp_map : same_vms (vm_to_app_map (sys_monitor s)) vmap;
  mp_count : (count (sys_monitor s) 1 <= 1)%Z;
}.

(** The map is known and the deployed allocation fits it. *)
Record fitting s : Prop := {
  fi_map : same_vms (vm_to_app_map (sys_monitor s)) vmap;
  fi_served : served rs vmap users (current s) (sys_alloc s);
}.

(** After every allocation of the loop. *)
Record loop_inv s : Prop := {
  li_base : base s;
  li_synced : synced step s;
  li_units : units_roomy (current s);
  li_one : 1%Z ∈ dkeys (current s);
}.

Definition known s : Prop := mapped s ∨ fitting s.

(** ** Allocating *)

(** What a state serves does not depend on the order of the map. *)
#[local] Instance served_proper : Proper (same_vms ==> (=) ==> (=) ==> (=) ==> iff) (served rs).
Proof.
  assert (Hle : ∀ m m' us al a, same_vms m m' → served rs m us al a → served rs m' us al a).
  { intros m m' us al a Hm (d & [[Hl Hnd Hpos Hcl (ds & Hds & Hcov) Hi] Hag] & Hall). symmetry in Hm.
    exists d. split; [split; [split; [done..| |exists ds; split; [done|]|done]|done]|].
    - intros vm (q & Hq & E)%(same_vms_elem _ _ _ Hm). rewrite (same_vm_apps _ _ us E). by apply Hcl.
    - intros vm (q & Hq & E)%(same_vms_elem _ _ _ Hm). rewrite (same_vm_apps _ _ us E). by apply Hcov.
    - intros vm u (q & Hq & E)%(same_vms_elem _ _ _ Hm). rewrite (same_vm_apps _ _ us E). by apply Hall. }
  intros m m' Hm us ? <- al ? <- a ? <-. split; by apply Hle.
Qed.

Lemma step_deploys s al a :
  base s → NoDup (mapped_users (vm_to_app_map (sys_monitor s))) → 1%Z ∈ dkeys al →
  (NoDup (dkeys al) → state_roomy rs a → units_roomy al) → (max_iteration a <= iteration_cap)%Z →
  spirit_allocate rs par users num_vms false (e2e_last_allocation s) (sys_monitor s) (sys_alloc s)
    = Ok (Some (al, a)) →
  ∃ s', allocate_and_deploy step s = Ok s' ∧ loop_inv s' ∧
    sys_monitor s' = set_last_allocation al (sys_monitor s) ∧ sys_alloc s' = a.
Proof.
  intros [Hm Hr Ha Hi Hbuf] Hnd Hone Hunits Hia Hal. assert (Hne : al ≠ []) by (by intros ->; set_solver).
  destruct (round_keeps_roomy rs Hrs Hmin B HB par Hgran users Hroom _ _ _ _ _ _ _ Hnd Hvms Ha Hal al a eq_refl)
    as [Hal' Ha'].
  assert (Hstep : step (e2e_last_allocation s) (sys_monitor s) (sys_alloc s) = Ok (al, a))
    by (unfold step, spirit_step; by rewrite Hal).
  eexists. split; [by apply deploy_round|]. split; [|done].
  assert (Hm' : mon_reach (set_last_allocation al (sys_monitor s)))
    by (by apply (reach_step (OpSetAllocation al) (sys_monitor s))).
  split; [split; simpl; [done|by destruct Hr|done..]|split; [done|split; simpl; eauto]|by apply Hunits|done].
Qed.

Lemma static_entry_total u n acc :
  (0 < n)%Z → ∃ acc', static_entry rs u n acc = Ok acc' ∧ u ∈ dkeys acc'.1 ∧
    ∀ v, v ∈ dkeys acc.1 → v ∈ dkeys acc'.1.
Proof.
  intros Hn. destruct (limits_scale_ok rs Hrs) as [Hok _].
  destruct (scale_units_total rs _ Hok (inv_share_pos n Hn)) as [x Hx].
  unfold static_entry. rewrite (equal_units_scale n Hn rs S B HS HB), Hx, equal_share_Num by done.
  eexists. split; [reflexivity|]. simpl. setoid_rewrite elem_of_dkeys_dset. auto.
Qed.

Lemma static_flat_total :
  returns (static_flat rs users num_vms) (λ acc, ∀ u, u ∈ users → u ∈ dkeys acc.1).
Proof.
  unfold static_flat, users_per_vm, py_floordiv.
  rewrite (proj2 (Z.eqb_neq _ _)) by lia. cbn [mbind res_bind].
  set (n := Z.of_nat (length users)). set (per := Z.max 1 (n / num_vms)).
  destruct (for_all_cover (λ _, True) (λ p acc, p.2 ∈ dkeys acc.1)
    (λ p, static_entry rs p.2 (flat_group_size n num_vms per p.1)) (enumerate users) ([], []))
    as (acc & Hr & _ & Hall & _); [|done|].
  - intros [i u] t Hp _. unfold enumerate in Hp. apply elem_of_zip_l, elem_of_seqZ in Hp.
    destruct (static_entry_total u (flat_group_size n num_vms per i) t) as (t' & ? & ? & Hk);
      [apply Static.flat_group_pos; lia|]. exists t'. auto.
  - exists acc. split; [exact Hr|]. intros u Hu. apply list_elem_of_lookup in Hu as [i Hi].
    apply (Hall (Z.of_nat i, u)). unfold enumerate. apply list_elem_of_lookup. exists i.
    apply lookup_zip_with_Some. exists (Z.of_nat i), u. split; [done|]. split; [|done].
    apply lookup_seqZ. apply lookup_lt_Some in Hi. lia.
Qed.

Lemma waiting_allocates s :
  base s → waiting s →
  returns (allocate_and_deploy step s) (λ s', loop_inv s' ∧ waiting s').
Proof.
  intros Hb [Hm Hrec]. destruct static_flat_total as ([al last] & Hst & Hall).
  specialize (Hall 1%Z H1). simpl in Hall.
  destruct (step_deploys s al (SpiritState (Some last) (Some last) (num_conflict (sys_alloc s)) (max_iteration (sys_alloc s))))
    as (s' & Hs' & Hinv & Em & _).
  - done.
  - rewrite Hm. constructor.
  - done.
  - intros _ _. by destruct (static_flat_roomy rs Hrs B HB users Hroom num_vms (al, last) Hvms Hst).
  - apply Hb.
  - unfold spirit_allocate, allocate_and_parse. rewrite Hm. simpl. rewrite orb_true_r, Hst. done.
  - exists s'. split; [done|]. split; [done|]. split; by rewrite Em.
Qed.

Lemma known_allocates s :
  base s → mapped s ∨ (fitting s ∧ loop_inv s) →
  returns (allocate_and_deploy step s) (λ s', loop_inv s' ∧ fitting s').
Proof.
  intros Hb Hk.
  assert (Hm : same_vms (vm_to_app_map (sys_monitor s)) vmap) by (by destruct Hk as [[? _]|[[? _] _]]).
  assert (Hround : ∃ al a,
    spirit_allocate rs par users num_vms false (e2e_last_allocation s) (sys_monitor s) (sys_alloc s)
      = Ok (Some (al, a)) ∧ served rs vmap users al a).
  { assert (Hnd : NoDup (mapped_users (vm_to_app_map (sys_monitor s)))) by (by rewrite Hm).
    assert (Hco : is_complete_vm_map (vm_to_app_map (sys_monitor s)) users = true) by (by rewrite Hm).
    unfold spirit_allocate.
    assert (Hv : ∀ vm, vm ∈ vm_to_app_map (sys_monitor s) → vm_apps vm.2 users ≠ [] →
      can_serve rs par (length (vm_apps vm.2 users))).
    { intros vm (q & Hq & E)%(same_vms_elem _ _ _ Hm). rewrite (same_vm_apps _ _ users E). by apply Hserve. }
    destruct Hk as [[_ Hc]|[[_ Hserved] [[_ Hread _ _ _] Hsy [_ Hu] _]]].
    - edestruct (static_round_ok rs Hrs par Hcap _ users Hnd Hco Hv) as (o & Ho & al & a & d & -> & Hok & Hall);
        [|by apply Hb|by exists al, a; split; [|rewrite <- Hm; exists d]].
      unfold use_static, total_record_of. apply orb_true_iff. right.
      unfold count, app_of in Hc. destruct (dget (collected_data (sys_monitor s)) 1%Z) as [ad|]; [|done].
      simpl in *. apply Z.ltb_lt. lia.
    - rewrite <- Hm in Hserved. destruct Hserved as (d & Hok & _).
      edestruct (round_served rs Hrs par Hcap _ users Hnd Hco Hv) as (o & Ho & al & a & -> & Hsv);
        [|by eapply ro_inv|by exists al, a; split; [|rewrite <- Hm]].
      rewrite (sy_e2e _ _ Hsy). apply runtime_estimator_total, read_ok_readings; done. }
  destruct Hround as (al & a & Hal & Hsv).
  destruct (step_deploys s al a) as (s' & Hs' & Hinv & Em & Ea); [done|by rewrite Hm| | | |done|].
  - destruct (is_complete_vm_map_true vmap users Hcomplete 1%Z H1) as (vm & apps & Hin & Happ).
    destruct Hsv as (d & _ & Hall). specialize (Hall (vm, apps) 1%Z Hin).
    apply Hall. by apply elem_of_vm_apps.
  - by eapply served_roomy.
  - by destruct Hsv as (d & [[] _] & _).
  - exists s'. split; [done|]. split; [done|]. split; by rewrite Em, ?Ea.
Qed.

(** ** Monitoring *)

(** The collections and the consumption of a round. *)
Definition monitored (events : list (event xnum)) (m : monitor xnum) : res (monitor xnum) :=
  consume_collected_data (foldl (serve interval th) m events).

(** The state of the monitor between the collections of a round: [v] has the
    allocation [x]. *)
Record collecting (v : Z) (x : units) (m : monitor xnum) : Prop := {
  co_read : read_ok m;
  co_x : dget (mon_last_allocation m) v = Some x;
  co_single : single v (u_cache x) (u_mem_bw x) m;
}.

(** Nothing was ever reported. *)
Definition untouched (m : monitor xnum) : Prop := collected_data m = [].

Lemma serve_ok e v x m :
  event_ok vmap e → collecting v x m →
  let m' := serve interval th m e in
  collecting v x m' ∧ (untouched m → untouched m') ∧
  ((∃ r, e = Answer (Some r)) ∧ same_vms (vm_to_app_map m') vmap ∨
   (∀ r, e ≠ Answer (Some r)) ∧ vm_to_app_map m' = vm_to_app_map m ∧
     (buffered_data m = [] → buffered_data m' = [])).
Proof.
  intros He [Hread Hx Hs]. unfold untouched. destruct e as [[r|]|app]; cbn [serve].
  - destruct (He (Some r) eq_refl r eq_refl) as [Hr Hus].
    destruct (collect_outer interval th r m) as [E1 E2 E3].
    cbn [set_vm_map collected_data mon_last_allocation vm_to_app_map] in E1, E2, E3.
    split; [|split].
    + split; [by apply collect_read|by rewrite E2|by apply collect_single].
    + by rewrite E1.
    + left. split; [by eexists|by rewrite E3].
  - split; [done|]. split; [done|]. right. split; [by intros r|done].
  - split; [split; [by apply reset_read|done|by apply reset_single]|].
    split; [by simpl; intros ->|]. right. split; [by intros r|]. split; [done|]. by simpl; intros ->.
Qed.

Lemma serves_ok events v x m :
  Forall (event_ok vmap) events → collecting v x m →
  let m' := foldl (serve interval th) m events in
  collecting v x m' ∧ (untouched m → untouched m') ∧
  (answered events ∧ same_vms (vm_to_app_map m') vmap ∨
   ~ answered events ∧ vm_to_app_map m' = vm_to_app_map m ∧ (buffered_data m = [] → buffered_data m' = [])).
Proof.
  intros Hall. revert m. induction Hall as [|e l He Hall IH]; intros m Hm.
  { split; [done|]. split; [done|]. right. split; [|done]. intros [r Hr]. by apply not_elem_of_nil in Hr. }
  cbn [foldl]. destruct (serve_ok e v x m He Hm) as (Hm1 & Hu1 & Hv1).
  set (m1 := serve interval th m e) in *.
  destruct (IH m1 Hm1) as (Hc & Hu & Hv). split; [done|]. split; [auto|].
  destruct Hv as [[[r Hr] Hv]|(Hn & Hv & Hb)]; [left; split; [exists r; by right|done]|].
  destruct Hv1 as [[[r ->] Hv1]|(Hne & Hv1 & Hb1)].
  - left. split; [exists r; left|]. by rewrite Hv.
  - right. split; [|split; [congruence|auto]].
    intros [r [E|Hr]%elem_of_cons]; [by destruct (Hne r)|]. apply Hn. by exists r.
Qed.

(** Records and map after the round's monitoring. *)
Lemma monitored_ok events m :
  Forall (event_ok vmap) events → mon_reach m → read_ok m → buffered_data m = [] →
  1%Z ∈ dkeys (mon_last_allocation m) →
  returns (monitored events m) (λ m',
    mon_reach m' ∧ read_ok m' ∧ mon_last_allocation m' = mon_last_allocation m ∧
    buffered_data m' = [] ∧ (untouched m → (count m' 1 <= 1)%Z) ∧
    (answered events ∧ same_vms (vm_to_app_map m') vmap ∨
     ~ answered events ∧ vm_to_app_map m' = vm_to_app_map m ∧ (untouched m → untouched m'))).
Proof.
  intros Hall Hm Hread Hbuf [x Hx]%dget_is_Some_keys. unfold monitored.
  destruct (serve_all_reach interval th events m Hm) as [Hm1 El].
  destruct (serves_ok events 1%Z x m Hall) as ([Hread1 _ Hs] & Hu & Hv).
  { split; [done|done|]. intros c b. rewrite Hbuf. by intros [? [=]]. }
  set (m1 := foldl _ m events) in *.
  destruct (consume_spec m1 (mon_reach_ok _ Hm1)) as (m2 & Hc & _ & _ & Hb2 & E2 & _).
  exists m2. split; [done|]. split; [by apply (reach_step OpConsume m1)|].
  split; [by eapply consume_read|]. split; [by rewrite E2|]. split; [done|]. split.
  - intros Hun. pose proof (consume_count m1 m2 1%Z _ _ (mon_reach_ok _ Hm1) Hs Hc) as Hle.
    unfold count at 2 in Hle. by rewrite (Hu Hun) in Hle.
  - destruct Hv as [[Ha Hv]|(Hn & Hv & Hb)]; [left; split; [done|by rewrite (consume_map m1 m2)]|right].
    split; [done|]. split; [by rewrite (consume_map m1 m2 Hc), Hv|]. intros Hun.
    unfold consume_collected_data in Hc.
    change (buffered_data (update_recent_measurement _)) with (buffered_data m1) in Hc.
    rewrite (Hb Hbuf) in Hc. injection Hc as <-. by apply Hu.
Qed.

(** ** Rounds *)

(** The state after a reset between two rounds. *)
Definition reset_state (app : Z) s := with_monitor (reset_metrics_for_app app (sys_monitor s)).1 s.

Lemma reset_base app s : base s → base (reset_state app s).
Proof.
  intros [Hm Hr Ha Hi Hb]. split; simpl; [|by apply reset_read|done|done|by rewrite Hb].
  by apply (reach_step (OpReset app) (sys_monitor s)).
Qed.

Lemma reset_inv app s : loop_inv s → loop_inv (reset_state app s).
Proof.
  intros [Hb Hsy Hu H]. pose proof (reset_base app s Hb) as Hb'. split; [done| |done|done].
  by apply (synced_monitor step s); [|apply Hb'|].
Qed.

Lemma reset_waiting app s : waiting s → waiting (reset_state app s).
Proof. intros [Hm Hc]. split; simpl; [done|by rewrite Hc]. Qed.

Lemma reset_known app s : known s → known (reset_state app s).
Proof.
  intros [[Hm Hc]|[Hm Hs]]; [left|right]; split; try done. by apply reset_count.
Qed.

(** The states between two rounds. *)
Definition between s : Prop := loop_inv s ∧ (waiting s ∨ known s).

Lemma between_resets apps s :
  let s' := with_monitor (foldl (serve interval th) (sys_monitor s) (Reset <$> apps)) s in
  between s → between s' ∧ (known s → known s').
Proof.
  revert s. induction apps as [|app apps IH]; intros s.
  { cbn. replace (with_monitor (sys_monitor s) s) with s by (by destruct s). auto. }
  intros s' [Hinv Hph]. destruct (IH (reset_state app s)) as [Hb Hk].
  { split; [by apply reset_inv|]. destruct Hph; [left; by apply reset_waiting|right; by apply reset_known]. }
  split; [exact Hb|]. intros Hs. by apply Hk, reset_known.
Qed.

Lemma waiting_not_known s : waiting s → ~ known s.
Proof.
  intros [Hw _] Hk. assert (E : same_vms (vm_to_app_map (sys_monitor s)) vmap) by (by destruct Hk as [[? _]|[? _]]).
  rewrite Hw in E. by rewrite <- E in Hcomplete.
Qed.

Lemma between_allocates s :
  between s →
  returns (allocate_and_deploy step s) (λ s', loop_inv s' ∧ (waiting s ∧ waiting s' ∨ fitting s')).
Proof.
  intros [Hinv [Hw|Hk]].
  - eapply returns_mono; [apply waiting_allocates; [by apply li_base|done]|]. intros s1 [? ?]. auto.
  - eapply returns_mono; [apply known_allocates; [by apply li_base|unfold known in Hk; tauto]|].
    intros s1 [? ?]. auto.
Qed.

Lemma between_round s r :
  Forall (event_ok vmap) r.2 → between s →
  returns (round r s)
    (λ s', between s' ∧ (known s → fitting s') ∧ (known s ∨ answered r.2 → known s')).
Proof.
  intros Hall Hs. unfold round, interleaved_round. destruct (between_resets r.1 s Hs) as [Hb Hk].
  set (s0 := with_monitor _ s) in *.
  rbind (by apply between_allocates) as s1 [[[Hm Hr Ha Hi Hbuf] Hsy Hu Hone] Hph].
  fold (monitored r.2 (sys_monitor s1)).
  rbind (by apply monitored_ok) as m2 (Hm2 & Hr2 & El & Hbuf2 & Hcnt & Hmap2). apply returns_ret.
  assert (Hinv : loop_inv (with_monitor m2 s1)).
  { split; [done|by apply synced_monitor|by simpl; rewrite El|by simpl; rewrite El]. }
  destruct Hph as [[Hw [Wm Wr]]|[Fm Fs]].
  - pose proof (waiting_not_known s0 Hw) as Hex.
    assert (Hnk : ~ known s) by auto.
    destruct Hmap2 as [[Hans Hv]|(Hn & Hv & Hc)].
    + assert (known (with_monitor m2 s1)) by (left; by split; [|apply Hcnt]). unfold between. tauto.
    + assert (waiting (with_monitor m2 s1)) by (split; simpl; [congruence|by apply Hc]).
      unfold between. tauto.
  - assert (Hf : fitting (with_monitor m2 s1)); [|pose proof (or_intror Hf : known _); unfold between; tauto].
    split; simpl; [|by rewrite El]. destruct Hmap2 as [[_ Hv]|(_ & Hv & _)]; [done|by rewrite Hv].
Qed.

Lemma between_rounds rounds s :
  Forall (λ r : list Z * list (event xnum), Forall (event_ok vmap) r.2) rounds → between s →
  returns (for_all round rounds s)
    (λ s', between s' ∧ (known s ∨ answered (concat rounds.*2) → known s')).
Proof.
  intros Hall. revert s. induction Hall as [|l rounds Hl Hall IH]; intros s Hs; simpl.
  { apply returns_ret. split; [done|]. intros [?|[r Hr]]; [done|]. by apply not_elem_of_nil in Hr. }
  rbind (by apply between_round) as s1 (Hs1 & _ & Hk1).
  eapply returns_mono; [by apply IH|]. intros s' [Hs' Hk]. split; [done|].
  intros [Hk0|[r [Hr|Hr]%elem_of_app]]; apply Hk; [left; auto|left; apply Hk1; right; by exists r|].
  right. by exists r.
Qed.

Lemma interleaved_fits rounds deployed :
  Forall (λ r : list Z * list (event xnum), Forall (event_ok vmap) r.2) rounds →
  ∃ s', interleaved_start step (Some p) false interval th rounds (System new_spirit None new_monitor deployed) = Ok s' ∧
    synced step s' ∧
    ∀ pre r, rounds = pre ++ [r] → answered (concat pre.*2) →
      ∀ vm, vm ∈ vmap → within_capacity S B (current s') (vm_apps vm.2 users).
Proof.
  intros Hall. unfold interleaved_start. set (s0 := System _ _ _ _). cbn [or_raise mbind res_bind].
  assert (Hb : base s0) by (split; [constructor|apply read_ok_new|by split; intros d [=]|done|done]).
  destruct (waiting_allocates s0 Hb) as (s1 & -> & Hinv & Hw); [done|]. cbn [mbind res_bind].
  rewrite Hpause. cbn [mbind res_bind]. assert (Hs1 : between s1) by (split; [done|by left]).
  destruct (decide (rounds = [])) as [->|Hne].
  { exists s1. split; [done|]. split; [apply Hinv|]. by intros [] ? [=]. }
  destruct (exists_last Hne) as (pre & r & ->). apply Forall_app in Hall as [Hpre Hlast].
  apply Forall_inv in Hlast. fold round. rewrite for_all_app.
  destruct (between_rounds pre s1 Hpre Hs1) as (s2 & -> & Hs2 & Hk). cbn [mbind res_bind for_all].
  destruct (between_round s2 r Hlast Hs2) as (s3 & -> & [Hinv3 _] & Hfit & _).
  exists s3. split; [done|]. split; [apply Hinv3|]. intros pre' r' [-> _]%app_inj_tail Hans.
  destruct Hfit as [_ Hsv]; [auto|]. by eapply served_within_capacity.
Qed.

Lemma loop_fits rounds deployed :
  Forall (Forall (answer_ok vmap)) rounds →
  ∃ s', start step (Some p) false interval th rounds (System new_spirit None new_monitor deployed) = Ok s' ∧
    synced step s' ∧
    ∀ pre responses, rounds = pre ++ [responses] → (∃ r, Some r ∈ concat pre) →
      ∀ vm, vm ∈ vmap → within_capacity S B (current s') (vm_apps vm.2 users).
Proof.
  intros Hall. rewrite <- quiet_start.
  destruct (interleaved_fits (quiet <$> rounds) deployed) as (s' & Hs' & Hsy & Hfit).
  { apply Forall_fmap. eapply Forall_impl; [exact Hall|]. intros l Hl. apply Forall_fmap.
    eapply Forall_impl; [exact Hl|]. by intros o Ho o' [= <-]. }
  exists s'. split; [done|]. split; [done|]. intros pre responses -> [r Hr].
  apply (Hfit (quiet <$> pre) (quiet responses)); [by rewrite fmap_app|].
  exists r. apply list_elem_of_In, in_concat in Hr as (l & Hl & Hr). apply list_elem_of_In, in_concat.
  exists (Answer <$> l). split; apply list_elem_of_In.
  - rewrite <- list_fmap_compose. apply list_elem_of_fmap. exists l. split; [done|]. by apply list_elem_of_In.
  - apply list_elem_of_fmap. exists (Some r). split; [done|]. by apply list_elem_of_In.
Qed.

End loop.

(** C2: the whole loop, in exact arithmetic and on a configuration that
    satisfies [loop_config]: positive per-user limits, a maximum cache at most
    the total, and for each VM either a maximum cache below the total, or
    several applications, or one application and a maximum bandwidth equal to
    the total; at least 1 Mbps per user; application 1 among the users; a
    static phase of at least two records; a VM map that names every user once.
    A fresh Spirit allocator with the runtime estimator and a fresh monitor run
    through any number of rounds without an exception, whichever requests the
    controller answers, as long as its answers have that VM map, in any order,
    and usable curves.  At the end the allocation the allocator computed last
    is the deployed map, the monitor's and the estimator's; and when an answer
    arrived before the last round, it gives every VM at most its cache and
    bandwidth, up to the search's precision. *)
Theorem spirit_loop_fits rs S B par vmap users num_vms interval th p pause rounds deployed :
  loop_config rs par vmap users num_vms → s_cache rs = Num S → s_mem_bw rs = Num B →
  sleep_interval p = Ok pause → Forall (Forall (answer_ok vmap)) rounds →
  ∃ s', start (spirit_step rs par users num_vms) (Some p) false interval th rounds
          (System new_spirit None new_monitor deployed) = Ok s' ∧
    synced (spirit_step rs par users num_vms) s' ∧
    ∀ pre responses, rounds = pre ++ [responses] → (∃ r, Some r ∈ concat pre) →
      ∀ vm, vm ∈ vmap → within_capacity S B (mon_last_allocation (sys_monitor s')) (vm_apps vm.2 users).
Proof. intros Hc HS HB Hp. by eapply loop_fits. Qed.

(** C3: the loop of [spirit_loop_fits], under the same conditions, with the
    reset API running: resets of any applications, before an allocation or
    between the collections of a round, neither make the loop raise nor let it
    over-allocate a VM. *)
Theorem resets_keep_fitting rs S B par vmap users num_vms interval th p pause rounds deployed :
  loop_config rs par vmap users num_vms → s_cache rs = Num S → s_mem_bw rs = Num B →
  sleep_interval p = Ok pause →
  Forall (λ r : list Z * list (event xnum), Forall (event_ok vmap) r.2) rounds →
  ∃ s', interleaved_start (spirit_step rs par users num_vms) (Some p) false interval th rounds
          (System new_spirit None new_monitor deployed) = Ok s' ∧
    synced (spirit_step rs par users num_vms) s' ∧
    ∀ pre r, rounds = pre ++ [r] → answered (concat pre.*2) →
      ∀ vm, vm ∈ vmap → within_capacity S B (mon_last_allocation (sys_monitor s')) (vm_apps vm.2 users).
Proof. intros Hc HS HB Hp. by eapply interleaved_fits. Qed.
