(* ===== verification/Cluster.v ===== *)
(** * The controller on the cluster

    The answers the controller gets are the status of the global enforcer,
    which holds the reports of the local enforcers.  Here the hypotheses of
    the control loop ([SpiritLoop]) are derived from the enforcers' code: the
    VM map of every answer is the one the containers were registered with, in
    some order, and every curve is usable.  Assumed of [serde_json]: a finite
    float is written as a number and read as a finite float, and a report is
    read as it was written but for its floats. *)

From S2P Require Import Prelude PyDict Nested PyFloat PyStr Rust Json Dumps Exact Resources PtasExact Base BaseExact Params Spirit SpiritRounds Monitor MonitorFacts Estimator EstimatorExact System Controllers SpiritRoom MonitorReadings Interleaving SpiritLoop Wire WireFacts WireLoop GlobalEnforcer GlobalFacts Cgroups MissRatio MissRatioFacts PerfStats MrcFit CacheClient CacheClientFacts LocalReports.

(** ** Usage on its way through the cluster

    A local enforcer posts its report as text, the global enforcer decodes
    and keeps it, writes it again when it is asked for the status, and the
    monitor decodes that.  Floats may change when they are written and read;
    the rest of a report arrives as it was. *)

Section reread.
Context {F : Type} `{PyFloat F} (f : F → F).

Definition reread (u : app_usage (F := F)) : app_usage (F := F) :=
  AppUsage (us_vm_id u) (us_app_id u) (us_mem_mb u) (us_bw_mbps u) (us_cache_mbps u) (us_access_mem_ops_sec u)
    (us_access_rate_ops_sec u) (f (us_hit_rate_percent u)) (us_local_lat u) (us_remote_lat u)
    (option_map (map (λ p : Z * F, (p.1, f p.2))) (us_mrc u)).

Definition reread_map (um : gmap Z (gmap Z (app_usage (F := F)))) : usages F :=
  (λ apps : gmap Z app_usage, reread <$> apps) <$> um.

Definition reread_dict (d : usage_map (F := F)) : usage_map (F := F) :=
  (λ p : Z * dict Z app_usage, (p.1, (λ q : Z * app_usage, (q.1, reread q.2)) <$> p.2)) <$> d.

Lemma reread_floats u : usage_floats (reread u) = f <$> usage_floats u.
Proof.
  unfold usage_floats. cbn [reread us_hit_rate_percent us_mrc]. destruct (us_mrc u) as [l|]; [|done].
  csimpl. f_equal. induction l as [|p l IH]; [done|]. csimpl. by rewrite <- IH.
Qed.

Lemma reread_dict_keys d : dkeys (reread_dict d) = dkeys d.
Proof. unfold dkeys, reread_dict. by rewrite <- list_fmap_compose. Qed.

(** The text does not tell the difference. *)

Context (show_float : F → text).
Hypothesis show_f : ∀ x, show_float (f x) = show_float x.

Lemma commas_members {A} (r r' : A → json F) (d : dict Z A) :
  (∀ p, p ∈ d → render show_float [] (r p.2) = render show_float [] (r' p.2)) →
  render show_float [] (keyed r d) = render show_float [] (keyed r' d).
Proof.
  intros Hr. cbn [render keyed]. do 3 f_equal. rewrite <- !list_fmap_compose. apply list_fmap_ext.
  intros i p Hp%list_elem_of_lookup_2. unfold compose, render_member. cbn [fst snd]. by rewrite Hr.
Qed.

Lemma keyed_fmap {A B} (g : A → B) (r : B → json F) (d : dict Z A) :
  keyed r ((λ p : Z * A, (p.1, g p.2)) <$> d) = keyed (λ a, r (g a)) d.
Proof. unfold keyed. f_equal. by rewrite <- list_fmap_compose. Qed.

Lemma usage_json_text u :
  render show_float [] (usage_json u) = render show_float [] (usage_json (reread u)).
Proof using show_f.
  assert (Hc : render show_float [] (match us_mrc u with
                | None => JNull | Some c => JArr ((λ p : Z * F, JArr [JInt p.1; JFloat p.2]) <$> c) end) =
    render show_float [] (match us_mrc (reread u) with
                | None => JNull | Some c => JArr ((λ p : Z * F, JArr [JInt p.1; JFloat p.2]) <$> c) end)).
  { cbn [reread us_mrc]. destruct (us_mrc u) as [l|]; [|done]. cbn [option_map render]. do 3 f_equal.
    induction l as [|p l IH]; [done|]. csimpl. f_equal; [|exact IH]. by rewrite show_f. }
  unfold usage_json. cbn [render]. do 3 f_equal. cbn [map].
  unfold render_member. cbn [fst snd render reread us_vm_id us_app_id us_mem_mb us_bw_mbps us_cache_mbps
    us_access_mem_ops_sec us_access_rate_ops_sec us_hit_rate_percent us_local_lat us_remote_lat].
  rewrite show_f, Hc. done.
Qed.

Lemma text_reread d : usage_text show_float d = usage_text show_float (reread_dict d).
Proof using show_f.
  unfold usage_text, usage_map_json.
  assert (E : render show_float [] (keyed (keyed usage_json) d) =
              render show_float [] (keyed (keyed usage_json) (reread_dict d))).
  { unfold reread_dict. rewrite keyed_fmap. apply commas_members. intros p _.
    rewrite keyed_fmap. apply commas_members. intros q _. apply usage_json_text. }
  revert E. generalize (keyed (keyed usage_json) d) (keyed (keyed usage_json) (reread_dict d)).
  intros v v' E. cbn [render map]. unfold render_member. cbn [fst snd]. by rewrite E.
Qed.
End reread.

(** ** Reports in exact arithmetic *)

Lemma ratio_fin (x : xnum) : ratio x → fin x.
Proof. intros [Hn Hl Hh]. change (PyFloat.num x) with (x ≠ NaN) in Hn. destruct x as [q| | |]; [by exists q|done..]. Qed.

(** Finite floats, and a curve with at least two points or none. *)
Definition usable_usage (u : app_usage (F := xnum)) : Prop :=
  Forall fin (usage_floats u) ∧ ∀ l, us_mrc u = Some l → l = [] ∨ (2 <= length l)%nat.

Lemma good_usable id app u : good_usage id app u → usable_usage u.
Proof.
  intros [_ _ (l & El & Hl) (a & b & Eh & Hb) _]. split.
  - unfold usage_floats. rewrite Eh, El. constructor.
    + change (of_Z a : xnum) with (Num (zq a)). change (of_Z b : xnum) with (Num (zq b)).
      rewrite fquot_Num; [fin_auto|]. apply pos_ne0, zq_pos. lia.
    + destruct Hl as [->|[_ Hr _]]; [constructor|]. eapply Forall_impl; [exact Hr|]. apply ratio_fin.
  - intros l' E. rewrite El in E. injection E as <-. destruct Hl as [->|[Hs _ _]]; [by left|right].
    rewrite <- (length_fmap fst), Hs. by apply (bool_decide_unpack _).
Qed.

Lemma reread_usable f u : (∀ x, fin x → fin (f x)) → usable_usage u → usable_usage (reread f u).
Proof.
  intros Hf [Hfl Hc]. split.
  - rewrite reread_floats. apply Forall_fmap. eapply Forall_impl; [exact Hfl|]. done.
  - intros l. cbn [reread us_mrc]. destruct (us_mrc u) as [k|]; [|done]. intros [= <-].
    destruct (Hc k eq_refl) as [->|?]; [by left|right]. by rewrite length_map.
Qed.

Lemma usable_curve_of u l :
  usable_usage u → raw_mrc (raw_usage u) = Some l → usable_curve l.
Proof.
  intros [Hf Hc]. cbn [raw_usage raw_mrc]. unfold usage_floats in Hf. destruct (us_mrc u) as [k|]; [|done].
  intros [= <-]. destruct (Hc k eq_refl) as [->|Hlen]; [by left|right]. split; [by rewrite length_map|].
  apply Forall_cons in Hf as [_ Hf]. rewrite Forall_fmap in Hf. apply Forall_map. eapply Forall_impl; [exact Hf|].
  intros p Hp. split; simpl; [fin_auto|exact Hp].
Qed.

(** What a report is made of when it is sent. *)
Definition transmissible (um : usages xnum) : Prop :=
  ∀ vm apps app u, um !! vm = Some apps → apps !! app = Some u →
    is_u64 vm ∧ is_u64 app ∧ usage_u64 u ∧ Forall fin (usage_floats u).

Section cluster.
Context (show_float : xnum → text) (float_ascii : ∀ x, ascii_only (show_float x)).
Context (printed : xnum → xnum) (show_printed : ∀ x, show_float (printed x) = show_float x).
Context (printed_ok : ∀ x, fin x → fin (printed x) ∧ float_ok show_float (printed x)).
Context (dec : decoders (F := xnum)) (reparse : xnum → xnum) (reparse_fin : ∀ x, fin x → fin (reparse x)).
Context (read_back : ∀ (O : HashOrder) um, transmissible um →
  read_usage dec (usage_text show_float (listed um)) = inr (reread_map reparse um)).
Context (powf : xnum → xnum → xnum) (ln_1p : xnum → xnum).
Context (vmap : vm_map) (Hids : NoDup (dkeys vmap)) (Hmap : NoDup (mapped_users vmap)).

(** A local enforcer of the cluster: a VM of the map with its applications. *)
Definition enforcer_of (c0 : cache_client (F := xnum)) : Prop :=
  ∃ l, (cc_id c0, l) ∈ vmap ∧ ∀ app, app ∈ l ↔ is_Some (id_container_map c0 !! app).

(** The states of the global enforcer: it has received allocations and
    reports of the local enforcers, in any order. *)
Inductive relayed : global_allocation (F := xnum) → Prop :=
  | relayed_new g : ga_usage_map g = ∅ → relayed g
  | relayed_config (O : HashOrder) body g :
      relayed g → relayed (o_state (handle dec show_float (PostConfig body) g))
  | relayed_report (O' O : HashOrder) c0 c h um c' g :
      enforcer_of c0 → client_reach powf ln_1p c0 c → host_readable h c →
      report_usage h c = Ok (Some um, c') → relayed g →
      relayed (o_state (handle (H0 := O') dec show_float (PostUsage (usage_text show_float (listed um))) g)).

(** What it holds. *)
Definition relay_ok (um : usages xnum) : Prop :=
  ∀ vm apps, um !! vm = Some apps → ∃ l, (vm, l) ∈ vmap ∧ (∀ app, app ∈ l ↔ is_Some (apps !! app)) ∧
    map_Forall (λ _, usable_usage) apps.

Lemma config_usage `{HashOrder} cfg (g : global_allocation (F := xnum)) :
  ga_usage_map (o_state (config cfg g)) = ga_usage_map g.
Proof. unfold config. destruct (split_global_allocation g cfg); [|done]. by destruct (send_parts _ _). Qed.

(** The report of an enforcer of the cluster. *)
Lemma report_relayed `{O : HashOrder} c0 c h um c' :
  enforcer_of c0 → client_reach powf ln_1p c0 c → host_readable h c → report_usage h c = Ok (Some um, c') →
  transmissible um ∧ relay_ok (reread_map reparse um).
Proof using reparse_fin.
  intros (l & Hin & Hl) Hreach Hread Hrep.
  destruct (reach_ok powf ln_1p c0 c Hreach) as [Hok (Ei & Ec & Er & _)].
  destruct (running_benchmarks c) eqn:Erun; [|by unfold report_usage in Hrep; rewrite Erun in Hrep].
  destruct (report_total h c Hok Erun Hread) as (um' & c'' & E & [(local & -> & Hdom & Hgood)]).
  rewrite E in Hrep. injection Hrep as <- _. split.
  - intros vm apps app u [<- <-]%lookup_singleton_Some Hu. pose proof (Hgood app u Hu) as Hg.
    split; [apply (ck_id _ Hok)|]. split; [apply (ck_apps _ Hok), Hdom; by rewrite Hu|].
    split; [apply (gu_u64 _ _ _ Hg)|]. by apply good_usable in Hg as [? _].
  - intros vm apps Hv. unfold reread_map in Hv. rewrite map_fmap_singleton in Hv.
    apply lookup_singleton_Some in Hv as [<- <-]. exists l. rewrite Ec. split; [done|]. split.
    + intros app. by rewrite Hl, lookup_fmap, fmap_is_Some, Hdom, Ei.
    + intros app u Hu. rewrite lookup_fmap in Hu. apply fmap_Some in Hu as (u0 & Hu0 & ->).
      apply reread_usable; [done|]. eapply good_usable. by apply (Hgood app).
Qed.

Lemma relayed_ok g : relayed g → relay_ok (ga_usage_map g).
Proof using reparse_fin read_back.
  induction 1 as [g E|O body g _ IH|O' O c0 c h um c' g Henf Hreach Hread Hrep _ IH].
  - rewrite E. intros vm apps. by rewrite lookup_empty.
  - cbn [handle]. destruct (read_config dec body); [done|]. by rewrite config_usage.
  - cbn [handle]. destruct (report_relayed c0 c h um c' Henf Hreach Hread Hrep) as [Ht Hr].
    rewrite (read_back O um Ht). cbn [usage o_state set_usage ga_usage_map].
    intros vm apps [Hv|[_ Hv]]%lookup_union_Some_raw; [by apply Hr|by apply IH].
Qed.

(** ** The status *)

(** Every VM has reported. *)
Definition all_reported (g : global_allocation (F := xnum)) : Prop :=
  ∀ vm, vm ∈ dkeys vmap → is_Some (ga_usage_map g !! vm).

Definition decoded_status `{HashOrder} (g : global_allocation (F := xnum)) : dict Z (dict Z (raw_entry xnum)) :=
  raw_usage_map (reread_dict printed (listed (ga_usage_map g))).

Lemma decoded_map `{HashOrder} g :
  map_of (decoded_status g) = (λ p : Z * gmap Z app_usage, (p.1, keys p.2)) <$> entries (ga_usage_map g).
Proof.
  unfold map_of, decoded_status, raw_usage_map, reread_dict, listed. rewrite <- !list_fmap_compose.
  apply list_fmap_ext. intros i p _. unfold compose. cbn [fst snd]. f_equal.
  unfold dkeys, keys. by rewrite <- !list_fmap_compose.
Qed.

Lemma status_represents `{O : HashOrder} g :
  relay_ok (ga_usage_map g) →
  represents show_float (Answered 200 (o_body (cluster_status show_float g))) (Some (decoded_status g)).
Proof using show_printed printed_ok.
  intros Hr. cbn [cluster_status o_body]. rewrite sort_usage_map_id.
  rewrite (text_reread printed show_float show_printed). apply rep_usage; [done|].
  split; [rewrite reread_dict_keys, listed_keys; apply keys_NoDup|]. unfold reread_dict.
  apply Forall_fmap, Forall_forall. intros [vm l] (apps & Hv & E)%elem_of_listed. cbn [fst snd] in *. subst l.
  unfold compose. cbn [fst snd]. split.
  { unfold dkeys. rewrite <- list_fmap_compose. apply (keys_NoDup apps). }
  apply Forall_fmap, Forall_forall. intros [app u] Hu%elem_of_hash. unfold compose. cbn [fst snd].
  rewrite reread_floats. apply Forall_fmap.
  destruct (Hr vm apps Hv) as (l & _ & _ & Hgood). destruct (Hgood app u Hu) as [Hf _].
  eapply Forall_impl; [exact Hf|]. intros x Hx. by apply printed_ok.
Qed.

Lemma status_ok `{O : HashOrder} g :
  relay_ok (ga_usage_map g) → all_reported g → answer_ok vmap (Some (decoded_status g)).
Proof using printed_ok Hids Hmap.
  intros Hr Hall r [= <-]. split.
  - rewrite decoded_map. apply same_vms_keys; [|done|..].
    + unfold dkeys. rewrite <- list_fmap_compose. apply (keys_NoDup (ga_usage_map g)).
    + intros vm. unfold dkeys at 1. rewrite <- list_fmap_compose.
      change (vm ∈ keys (ga_usage_map g) ↔ vm ∈ dkeys vmap). rewrite elem_of_keys. split; [|apply Hall].
      intros [apps Hv]. destruct (Hr vm apps Hv) as (l & Hin & _). unfold dkeys. apply list_elem_of_fmap. by exists (vm, l).
    + intros p q (e & -> & He)%list_elem_of_fmap Hq Epq. destruct e as [vm apps]. cbn [fst snd] in *.
      apply elem_of_hash in He. destruct (Hr vm apps He) as (l & Hin & Hl & _).
      assert (q = (vm, l)) as ->.
      { destruct q as [vm' l']. cbn [fst] in Epq. subst vm'. f_equal.
        apply (dget_In vmap) in Hin, Hq; [congruence|done..]. }
      apply NoDup_Permutation; [apply keys_NoDup|by apply (vm_NoDup vmap Hmap (vm, l))|].
      intros app. cbn [snd]. by rewrite elem_of_keys, Hl.
  - intros p q l Hp Hq Hl. unfold decoded_status, raw_usage_map, reread_dict, listed in Hp.
    rewrite <- !list_fmap_compose in Hp. apply list_elem_of_fmap in Hp as ([vm apps] & -> & He).
    unfold compose in Hq. cbn [fst snd] in Hq. rewrite <- list_fmap_compose in Hq.
    apply list_elem_of_fmap in Hq as ([app u] & -> & Hu). unfold compose in Hl. cbn [fst snd] in Hl.
    apply elem_of_hash in He, Hu. destruct (Hr vm apps He) as (l' & _ & _ & Hgood).
    eapply usable_curve_of; [|exact Hl]. apply reread_usable; [intros x Hx; by apply printed_ok|]. by apply (Hgood app).
Qed.

(** An answer to a collection: the status once every VM has reported, or an
    error status. *)
Inductive cluster_answer : bool → answer → Prop :=
  | from_status (O : HashOrder) g : relayed g → all_reported g →
      cluster_answer true (Answered 200 (o_body (cluster_status show_float g)))
  | from_error status content : accepted status = false → cluster_answer false (Answered status content).

(** It is one the loop can go on with, and has the VM map if it is a status. *)
Lemma cluster_answer_ok b a :
  cluster_answer b a →
  ∃ o, represents show_float a o ∧ answer_ok vmap o ∧ (b = true → is_Some o).
Proof using show_printed printed_ok Hids Hmap reparse_fin read_back.
  destruct 1 as [O g Hg Hall|status content Hst].
  - apply relayed_ok in Hg. exists (Some (decoded_status g)).
    split; [by apply status_represents|]. split; [by apply status_ok|done].
  - exists None. split; [by constructor|]. split; [by intros r|done].
Qed.

Lemma cluster_answers_ok l :
  Forall (λ a, ∃ b, cluster_answer b a) l →
  ∃ ds, Forall2 (represents show_float) l ds ∧ Forall (answer_ok vmap) ds ∧
    ((∃ a, a ∈ l ∧ cluster_answer true a) → ∃ r, Some r ∈ ds).
Proof using show_printed printed_ok Hids Hmap reparse_fin read_back.
  induction 1 as [|a l [b Ha] _ (ds & H1 & H2 & H3)].
  - exists []. split; [constructor|]. split; [constructor|]. intros (a & Hin & _). by apply not_elem_of_nil in Hin.
  - destruct b.
    + destruct (cluster_answer_ok true a Ha) as (o & Hr & Ho & [r ->]); [done|]. exists (Some r :: ds).
      split; [by constructor|]. split; [by constructor|]. intros _. exists r. by left.
    + destruct (cluster_answer_ok false a Ha) as (o & Hr & Ho & _). exists (o :: ds).
      split; [by constructor|]. split; [by constructor|]. intros (a' & [->|Hin]%elem_of_cons & Ha').
      * inversion Ha as [|status content Hst]; subst. inversion Ha'. by subst.
      * destruct H3 as [r Hr']; [by exists a'|]. exists r. by right.
Qed.

(** ** The loop *)

(** C1: the controller and the enforcers together, in exact arithmetic and on
    a configuration that satisfies [loop_config] (see
    [SpiritLoop.spirit_loop_fits] for what it asks) with distinct VM ids.  Of
    the JSON library of the enforcers it assumes that a printed report is read
    back, with finite floats for finite floats, and of the printed floats that
    they are ASCII texts the controller reads as finite numbers.  The Spirit allocator runs
    on the texts the global enforcer answers, which hold what the local
    enforcers reported: with every post answered and every VM heard of, it
    runs through any number of rounds without an exception, the allocation it
    computed last is the deployed map, the monitor's and the estimator's at the
    end, and once a status arrived before the last round that allocation gives
    every VM at most its cache and bandwidth, up to the search's precision. *)
Theorem cluster_loop_fits rs S B par users num_vms interval th p pause first rounds deployed :
  loop_config rs par vmap users num_vms → s_cache rs = Num S → s_mem_bw rs = Num B →
  sleep_interval p = Ok pause → WireLoop.answered first →
  Forall (λ r : answer * list answer, WireLoop.answered r.1 ∧ Forall (λ a, ∃ b, cluster_answer b a) r.2) rounds →
  ∃ s', wire_start (spirit_step rs par users num_vms) (Some p) false interval th first rounds
          (System new_spirit None new_monitor deployed) = Ok (Some s') ∧
    synced (spirit_step rs par users num_vms) s' ∧
    ∀ pre r, rounds = pre ++ [r] → (∃ a, a ∈ concat pre.*2 ∧ cluster_answer true a) →
      ∀ vm, vm ∈ vmap → within_capacity S B (mon_last_allocation (sys_monitor s')) (vm_apps vm.2 users).
Proof.
  intros Hconf HS HB Hpause Hfirst Hall.
  assert (Hd : ∃ decoded, Forall2 (round_represents show_float) rounds decoded ∧
    Forall (Forall (answer_ok vmap)) decoded ∧
    Forall2 (λ r ds, (∃ a, a ∈ r.2 ∧ cluster_answer true a) → ∃ x, Some x ∈ ds) rounds decoded).
  { clear -Hall show_printed printed_ok Hids Hmap reparse_fin read_back.
    induction Hall as [|r rounds [Hp Hr] _ (decoded & D1 & D2 & D3)]; [exists []; by repeat constructor|].
    destruct (cluster_answers_ok r.2 Hr) as (ds & E1 & E2 & E3). exists (ds :: decoded).
    split; [by constructor|]. split; by constructor. }
  destruct Hd as (decoded & D1 & D2 & D3).
  destruct (loop_fits rs S B HS HB par vmap users num_vms Hconf interval th p pause Hpause decoded deployed D2)
    as (s' & Hs' & Hsy & Hfit).
  exists s'. rewrite (wire_loop_refines _ show_float float_ascii _ _ _ _ _ _ decoded) by done.
  rewrite Hs'. split; [done|]. split; [done|]. intros pre r -> (a & Ha & Hst).
  apply Forall2_app_inv_l in D3 as (pre' & last' & D3 & D4 & ->).
  apply Forall2_cons_inv_l in D4 as (ds & rest & _ & D4 & ->). apply Forall2_nil_inv_l in D4 as ->.
  apply (Hfit pre' ds); [done|]. clear -D3 Ha Hst.
  induction D3 as [|r0 ds0 pre pre' Hr0 _ IH]; csimpl in Ha; [by apply not_elem_of_nil in Ha|].
  csimpl. apply elem_of_app in Ha as [Ha|Ha].
  - destruct Hr0 as [x Hx]; [by exists a|]. exists x. apply elem_of_app. by left.
  - destruct (IH Ha) as [x Hx]. exists x. apply elem_of_app. by right.
Qed.
End cluster.
