(* ===== verification/Enforcement.v ===== *)
(** * From an allocation to the limits of the containers

    The controller posts an allocation; the global enforcer sends every VM
    the part of its applications; the local enforcer writes it into the
    control files.  When the allocation fits a VM, so do the limits that its
    containers end up with. *)

From S2P Require Import Prelude PyDict PyFloat PyStr Rust Json Dumps Exact Resources Base BaseExact Params Spirit SpiritRounds Monitor MonitorFacts System Wire WireFacts GlobalEnforcer GlobalFacts Cgroups MissRatio MissRatioFacts PerfStats MrcFit CacheClient CacheClientFacts LocalReports LocalLimits.

(** An allocation the enforcers can take: ids and units are [u64], and the
    bandwidth is one whose bytes per second are. *)
Definition enforceable (al : dict Z units) : Prop :=
  NoDup (dkeys al) ∧ ∀ p, p ∈ al → is_u64 p.1 ∧ is_u64 (u_cache p.2) ∧ (0 <= u_mem_bw p.2 < 2 ^ 47)%Z.

(** The line of [io.max] for a rate in bytes per second. *)
Definition rate_line (maj_min : text) (rate : Z) : text :=
  maj_min ++ str " rbps=" ++ show rate ++ str " wbps=" ++ show rate.

Definition in_u64 (m : gmap Z (Z * Z)) : Prop :=
  map_Forall (λ app x, is_u64 app ∧ is_u64 x.1 ∧ is_u64 x.2) m.

(** The posted map as a hash map. *)
Definition posted (al : dict Z units) : update_config := UpdateConfig (list_to_map (command al)).

Lemma posted_lookup al app x :
  NoDup (dkeys al) → dget al app = Some x → uc_allocation_map (posted al) !! app = Some (u_cache x, u_mem_bw x).
Proof.
  intros Hnd Hx. cbn [posted uc_allocation_map]. apply elem_of_list_to_map_1.
  - unfold command. rewrite <- list_fmap_compose. exact Hnd.
  - unfold command. apply list_elem_of_fmap. exists (app, x). split; [done|]. by apply dget_Some_elem.
Qed.

Lemma posted_inv al app x :
  uc_allocation_map (posted al) !! app = Some x → ∃ y, (app, y) ∈ al ∧ x = (u_cache y, u_mem_bw y).
Proof.
  intros Hx%elem_of_list_to_map_2. unfold command in Hx. apply list_elem_of_fmap in Hx as ([u y] & E & Hin).
  injection E as -> ->. by exists y.
Qed.

Lemma posted_u64 al : enforceable al → in_u64 (uc_allocation_map (posted al)).
Proof.
  intros [_ Hu] app x (y & Hin & ->)%posted_inv. destruct (Hu _ Hin) as (? & ? & ?). cbn [fst snd] in *.
  split; [done|]. split; [done|]. unfold is_u64. lia.
Qed.

Lemma Forall2_in {A C} (P Q : A → C → Prop) l k :
  Forall2 P l k → (∀ a b, a ∈ l → P a b → Q a b) → Forall2 Q l k.
Proof.
  induction 1 as [|a b l k Hab _ IH]; intros Himp; constructor; [apply Himp; [by left|done]|].
  apply IH. intros a' b' Ha'. apply Himp. by right.
Qed.

Section enforcement.
Context (dec : decoders (F := xnum)) (show_float : xnum → text).
(** [serde_json] reads what Python and Rust write of an allocation. *)
Context (read_posted : ∀ am : allocation_map, NoDup (dkeys am) → in_u64 (list_to_map am) →
  read_config dec (allocation_text (F := xnum) am) = inr (UpdateConfig (list_to_map am))).
Context (read_sent : ∀ (O : HashOrder) cfg, in_u64 (uc_allocation_map cfg) →
  read_config dec (config_text (F := xnum) cfg) = inr cfg).

Context (S B : Qc) (users : list Z).
(** The global enforcer knows where every application runs and how to reach
    every VM; those of [vm] run nowhere else. *)
Context (O : HashOrder) (g : global_allocation (F := xnum)) (vm : Z) (apps : list Z).
Context (Hip : ∀ app vms, placement_map g !! app = Some vms → ∀ v, v ∈ vms → is_Some (vm_ip_map g !! v)).
Context (Hhere : ∀ app, app ∈ vm_apps apps users → placement_map g !! app = Some [vm]).
(** The local enforcer of [vm] has their containers. *)
Context (O' : HashOrder) (h : host) (c : cache_client (F := xnum)).
Context (Hlim : limitable h c) (Hcont : ∀ app, app ∈ vm_apps apps users → is_Some (id_container_map c !! app)).

Lemma share_here al app x :
  NoDup (dkeys al) → app ∈ vm_apps apps users → dget al app = Some x →
  share_of g (posted al) vm app = Some (u_cache x, u_mem_bw x).
Proof using Hhere.
  intros Hnd Happ Hx. unfold share_of. rewrite (posted_lookup al app x Hnd Hx), Hhere by done. cbn.
  rewrite decide_True by by left. by rewrite !Z.div_1_r.
Qed.

Lemma share_u64 al v app x :
  enforceable al → share_of g (posted al) v app = Some x → is_u64 app ∧ is_u64 x.1 ∧ is_u64 x.2.
Proof.
  intros Hal. unfold share_of. destruct (uc_allocation_map (posted al) !! app) as [[mem bw]|] eqn:E; [|done].
  destruct (posted_u64 al Hal app (mem, bw) E) as (Ha & Hm & Hb). cbn. destruct (placement_map g !! app) as [vms|]; [|done].
  cbn. destruct (decide (v ∈ vms)); [|done]. intros [= <-]. cbn [fst snd] in *.
  split; [done|]. split; apply div_u64; (done || lia).
Qed.

Lemma share_placed al v app x : share_of g (posted al) v app = Some x → is_Some (vm_ip_map g !! v).
Proof using Hip.
  unfold share_of. destruct (uc_allocation_map (posted al) !! app) as [[mem bw]|]; [|done]. cbn.
  destruct (placement_map g !! app) as [vms|] eqn:E; [|done]. cbn. destruct (decide (v ∈ vms)); [|done].
  intros _. by eapply Hip.
Qed.

Lemma vm_part al l us :
  vm_apps apps users ≠ [] → Forall2 (λ u x, dget al u = Some x) (vm_apps apps users) us →
  (∀ app x, app ∈ vm_apps apps users → dget al app = Some x → part_of l vm app = Some (u_cache x, u_mem_bw x)) →
  ∃ part, l !! vm = Some part.
Proof.
  intros Hne Hus Hpart. destruct Hus as [|app x rest us' Hx _]; [done|].
  specialize (Hpart app x ltac:(by left) Hx). unfold part_of in Hpart.
  destruct (l !! vm) as [part|]; [by exists part|done].
Qed.

(** C4: an allocation that fits a VM is enforced: the post is accepted, the
    VM is sent the part of its applications, and after its enforcer applied
    it the containers' memory and bandwidth limits are the units of the
    allocation, which together stay within the VM's capacity. *)
Theorem limits_within_capacity al :
  enforceable al → placed g (posted al) → vm_apps apps users ≠ [] →
  within_capacity S B al (vm_apps apps users) →
  let o := handle (H0 := O) dec show_float (PostConfig (allocation_text (F := xnum) (command al))) g in
  o_status o = 202%Z ∧ cur_config (o_state o) = posted al ∧
  ∃ part ip c' ws us,
    send_config (F := xnum) (H0 := O) part ip ∈ o_commands o ∧ vm_ip_map g !! vm = Some ip ∧
    read_config dec (config_text (F := xnum) (H0 := O) part) = inr part ∧
    apply_config (H0 := O') h part c = Ok (c', ws) ∧
    Forall2 (λ app x, ∃ p, app_path h c app = Some p ∧
      last_write (memory_max p) ws = Some (show (u_cache x) ++ str "M") ∧
      last_write (io_max p) ws = Some (rate_line (memory_dev_maj_min c) (u_mem_bw x * 125000)))
      (vm_apps apps users) us ∧
    let slack := (1 + Q2Qc (1 # 100000))%Qc in
    (zq (zsum (u_cache <$> us)) <= slack * S)%Qc ∧ (zq (zsum (u_mem_bw <$> us)) <= slack * (B * zq 1024))%Qc.
Proof.
  intros Hal Hpl Hne (us & Hus & _ & HcS & HcB). pose proof Hal as [Hnd Hu64]. cbv zeta. cbn [handle].
  rewrite read_posted; [|by unfold dkeys, command; rewrite <- list_fmap_compose|by apply posted_u64].
  fold (posted al). destruct (config_outcome (O := O) (posted al) g) as [[Hnp _]|(l & _ & Hinh & Hparts & Hst & Hcases)]; [done|].
  assert (Hpart : ∀ app x, app ∈ vm_apps apps users → dget al app = Some x →
    part_of l vm app = Some (u_cache x, u_mem_bw x)).
  { intros app x Happ Hx. rewrite Hparts. by apply share_here. }
  destruct (vm_part al l us Hne Hus Hpart) as [part Hvm].
  assert (Hin64 : in_u64 (uc_allocation_map part)).
  { intros app x Hx. apply (share_u64 al vm); [done|]. rewrite <- Hparts. unfold part_of. by rewrite Hvm. }
  assert (Hreach : ∀ v, is_Some (l !! v) → is_Some (vm_ip_map g !! v)).
  { intros v [pv Hv]. destruct (Hinh v pv Hv) as [app [x Hx]]. apply (share_placed al v app x).
    rewrite <- Hparts. unfold part_of. by rewrite Hv. }
  destruct Hcases as [(_ & Hstatus & Hcmds)|(_ & pre & v & pv & post & Ee & Hnone & _)].
  2: { destruct (Hreach v) as [ipv Hipv]; [|congruence]. exists pv. apply (elem_of_hash (O := O)). rewrite Ee. set_solver. }
  split; [done|]. split; [by rewrite Hst|]. destruct (Hreach vm ltac:(eauto)) as [ip Hvip].
  destruct (limits_applied (O := O') h c part Hlim) as (c' & ws & Happ & Hholds).
  { intros app mem bw Hx. by destruct (Hin64 app _ Hx) as (_ & ? & _). }
  exists part, ip, c', ws, us. split_and!; try done.
  - rewrite Hcmds. apply list_elem_of_fmap. exists (vm, part). cbn [fst snd]. rewrite Hvip. split; [done|]. by apply (elem_of_hash (O := O)).
  - by apply read_sent.
  - eapply (Forall2_in (λ app x, dget al app = Some x)); [exact Hus|]. intros app x Hin Hx.
    destruct (lm_path _ _ Hlim app (Hcont app Hin)) as (p & Hp & _). exists p. split; [done|].
    pose proof (Hpart app x Hin Hx) as Hpx. unfold part_of in Hpx. rewrite Hvm in Hpx.
    destruct (Hholds app _ _ p Hpx Hp) as [Hm Hb]. split; [done|]. rewrite Hb. f_equal. unfold bw_alloc_str.
    rewrite rate_exact; [done|]. apply dget_Some_elem in Hx. by apply (Hu64 (app, x)).
Qed.
End enforcement.
