(* ===== verification/FijTrade.v ===== *)
(** * The pairwise trading allocator: allocators/fij_trade_allocator.py

    Per VM, the application that gains most from cache and the one that gains
    most from bandwidth exchange one unit of each; the result is normalised. *)

From S2P Require Import Prelude PyDict PyFloat Resources Base Monitor.

Module Fij.

(** The mutable fields of [FijTradeAllocator].  Of [last_static_performance]
    only its being set and its users are kept: its values are only printed. *)
Record fij (F : Type) := FijState {
  last_allocation : option (dict Z (alloc F));
  last_static_allocation : option (dict Z (alloc F));
  last_static_performance : option (list Z);
  last_adjusted_users : dict Z (list Z);
}.
Arguments FijState {F}.
Arguments last_allocation {F}.
Arguments last_static_allocation {F}.
Arguments last_static_performance {F}.
Arguments last_adjusted_users {F}.

(** One user's entry of [sensitivity_scores]. *)
Record score (F : Type) := Score { cache_sensitivity : F; bw_sensitivity : F; current_perf : F }.
Arguments Score {F}.
Arguments cache_sensitivity {F}.
Arguments bw_sensitivity {F}.
Arguments current_perf {F}.

Section operations.
Context {F : Type} `{PyFloat F}.
Local Open Scope py_scope.

Definition new_fij : fij F := FijState None None None [].

Context (rs : scale F) (init_phase_interval : Z).

(** ** Static allocation *)

(** [is_static_allocation]; [total_record u] is
    [monitor.collected_data[u]["total_record"]]. *)
Definition is_static_allocation (skip_monitoring : bool) (users : list Z)
    (total_record : Z → option Z) (s : fij F) : bool :=
  match last_static_performance s with
  | None => true
  | Some _ =>
      if skip_monitoring then
        match last_static_allocation s with None => true | Some _ => false end
      else
        bool_decide (users = []) ||
        existsb (λ u, match total_record u with
                      | None => true
                      | Some n => (n <? init_phase_interval)%Z
                      end) users
  end.

(** [_allocate_resources_for_user] *)
Definition allocate_resources_for_user (num_users : Z) : res (units * alloc F) :=
  u ← equal_units rs num_users;
  a ← equal_share num_users;
  Ok (u, a).

(** [allocation[user], last_allocation[user] = ...] *)
Definition assign_user (num_users user : Z) (acc : dict Z units * dict Z (alloc F))
    : res (dict Z units * dict Z (alloc F)) :=
  '(u, a) ← allocate_resources_for_user num_users;
  Ok (dset acc.1 user u, dset acc.2 user a).

(** [_get_static_allocation_for_vm] *)
Definition static_for_vm (apps : list Z) : res (dict Z units * dict Z (alloc F)) :=
  for_all (assign_user (Z.of_nat (length apps))) apps ([], []).

(** [allocation.update(..)] and [last_allocation.update(..)] of one VM *)
Definition merge_vm (apps : list Z) (acc : dict Z units * dict Z (alloc F))
    : res (dict Z units * dict Z (alloc F)) :=
  '(al, la) ← static_for_vm apps;
  Ok (dupdate acc.1 al, dupdate acc.2 la).

(** The users of virtual VM [vm_idx] of the flat division (lines 157-160). *)
Definition flat_slice (users : list Z) (num_vms per_vm vm_idx : Z) : list Z :=
  let start := (vm_idx * per_vm)%Z in
  let stop := if (vm_idx <? num_vms - 1)%Z then (start + per_vm)%Z else Z.of_nat (length users) in
  take (Z.to_nat (stop - start)) (drop (Z.to_nat start) users).

(** [_get_static_allocation_with_vm_mapping] *)
Definition static_allocation (users : list Z) (m : vm_map) (complete : bool) (num_vms : Z)
    : res (dict Z units * dict Z (alloc F)) :=
  if complete then for_all (λ vm, merge_vm (vm_apps vm.2 users)) m ([], [])
  else
    per_vm ← users_per_vm (Z.of_nat (length users)) num_vms;
    for_all (λ vm_idx, merge_vm (flat_slice users num_vms per_vm vm_idx)) (seqZ 0 num_vms) ([], []).

(** ** Static performance *)

(** [min(l, key=f)]: the first element with the smallest key. *)
Fixpoint min_by {X} (f : X → F) (best : X) (l : list X) : X :=
  match l with
  | [] => best
  | x :: l' => min_by f (if f x <? f best then x else best) l'
  end.

Definition closest {X} (f : X → F) (l : list X) : option X :=
  match l with [] => None | x :: l' => Some (min_by f x l') end.

(** Whether a user's static performance is recorded (lines 216-259). *)
Definition has_static_performance (mon : monitor F) (static : alloc F) (user : Z) : bool :=
  let recent := collect_recent_measurement mon user in
  let cache := a_cache static * s_cache rs in
  let bw := a_mem_bw static * s_mem_bw rs in
  dmem (collected_data mon) user &&
  match (c ← closest (λ x, fabs (of_Z x - cache)) (dkeys recent);
         data ← dget recent c;
         b ← closest (λ x, fabs (x - bw)) (dkeys data);
         dget data b)
  with
  | Some (_ :: _) => true
  | _ => false
  end.

(** The static allocation is the last one for [user] (lines 197-204). *)
Definition same_share (a b : alloc F) : bool :=
  negb (fabs (a_cache a - a_cache b) >? lit 1 1000) &&
  negb (fabs (a_mem_bw a - a_mem_bw b) >? lit 1 1000).

Definition allocation_matches (users : list Z) (last static : dict Z (alloc F)) : bool :=
  forallb (λ u, match dget last u, dget static u with
                | Some a, Some b => same_share a b
                | _, _ => false
                end) users.

(** [_update_last_static_performance] *)
Definition update_last_static_performance (users : list Z) (mon : monitor F) (s : fij F)
    : res (fij F) :=
  match last_static_allocation s with
  | None => Ok s
  | Some static =>
      last ← or_raise TypeError (last_allocation s);
      if allocation_matches users last static then
        Ok (FijState (last_allocation s) (last_static_allocation s)
              (Some (List.filter (λ u, match dget static u with
                                       | Some a => has_static_performance mon a u
                                       | None => false
                                       end) users))
              (last_adjusted_users s))
      else Ok s
  end.

(** ** Trading *)

Context (est : Z → F → F → res F).

(** [_initialize_allocation] *)
Definition initialize_allocation (users : list Z) (last : dict Z (alloc F))
    : res (dict Z (alloc F)) :=
  q ← lit 1 1 / of_Z (Z.of_nat (length users));
  Ok (foldl (λ d u, dset d u (match dget last u with
                              | Some a => share (a_cache a) (a_mem_bw a)
                              | None => share q q
                              end)) [] users).

(** The normalised limits of lines 456-459. *)
Record norms := Norms { min_cache_norm : F; max_cache_norm : F; min_mem_bw_norm : F; max_mem_bw_norm : F }.

Definition limit_norms : res norms :=
  a ← default (lit 0 1) (s_min_cache rs) / s_cache rs;
  b ← default (s_cache rs) (s_max_cache rs) / s_cache rs;
  c ← default (lit 0 1) (s_min_mem_bw rs) / s_mem_bw rs;
  d ← default (s_mem_bw rs) (s_max_mem_bw rs) / s_mem_bw rs;
  Ok (Norms a b c d).

(** May this user take one unit of cache for one of bandwidth, and back? *)
Definition may_gain_cache (n : norms) (unit : F) (a : alloc F) : bool :=
  (a_cache a + unit <=? max_cache_norm n) && (a_mem_bw a - unit >=? min_mem_bw_norm n).
Definition may_gain_bw (n : norms) (unit : F) (a : alloc F) : bool :=
  (a_cache a - unit >=? min_cache_norm n) && (a_mem_bw a + unit <=? max_mem_bw_norm n).

(** One user of [_calculate_sensitivity_scores] (lines 442-491). *)
Definition user_score (unit : F) (user : Z) (a : alloc F) : res (score F) :=
  let c := a_cache a in
  let b := a_mem_bw a in
  perf ← est user (c * s_cache rs) (b * s_mem_bw rs);
  n ← limit_norms;
  more_cache ←
    (if may_gain_cache n unit a
     then p ← est user ((c + unit) * s_cache rs) ((b - unit) * s_mem_bw rs); Ok (Some p)
     else Ok None);
  more_bw ←
    (if may_gain_bw n unit a
     then p ← est user ((c - unit) * s_cache rs) ((b + unit) * s_mem_bw rs); Ok (Some p)
     else Ok None);
  cs ← match more_cache with Some p => (p - perf) / perf | None => Ok (of_Z 0) end;
  bs ← match more_bw with Some p => (p - perf) / perf | None => Ok (of_Z 0) end;
  Ok (Score cs bs perf).

(** [_calculate_sensitivity_scores]; [adjusted] is [last_adjusted_users[vm_id]]. *)
Definition sensitivity_scores (unit : F) (users adjusted : list Z) (cur : dict Z (alloc F))
    : res (dict Z (score F)) :=
  for_all (λ user scores,
    match dget cur user with
    | None => Ok scores
    | Some a =>
        if bool_decide (user ∈ adjusted) then Ok scores
        else sc ← user_score unit user a; Ok (dset scores user sc)
    end) users [].

(** One candidate of the two searches: [gain] against [other]. *)
Definition better (gain other : score F → F) (best : option (Z * F)) (p : Z * score F)
    : option (Z * F) :=
  let g := gain p.2 in
  if (g >? of_Z 0) && (g >? other p.2) then
    match best with
    | None => Some (p.1, g)
    | Some (_, b) => if g >? b then Some (p.1, g) else best
    end
  else best.

(** [_find_most_cache_sensitive_user] *)
Definition find_most_cache_sensitive_user (scores : dict Z (score F)) : option Z :=
  fst <$> foldl (better cache_sensitivity bw_sensitivity) None scores.

(** [_find_most_bw_sensitive_user] *)
Definition find_most_bw_sensitive_user (scores : dict Z (score F)) (exclude : option Z) : option Z :=
  fst <$> foldl (λ best p, if bool_decide (Some p.1 = exclude) then best
                           else better bw_sensitivity cache_sensitivity best p) None scores.

(** [min(l, key=..)] with the keys compared by [lt]. *)
Definition first_min {X} (lt : X → X → bool) (l : list X) : option X :=
  match l with
  | [] => None
  | x :: l' => Some (foldl (λ best y, if lt y best then y else best) x l')
  end.

(** The mean of the measurements at the measured pair closest to the cache
    size chosen by [pick] and to [bw] Gbps. *)
Definition mean_near (recent : dict Z (dict F (list F))) (pick : list Z → option Z) (bw : F)
    : option F :=
  c ← pick (dkeys recent);
  data ← dget recent c;
  b ← closest (λ x, fabs (x - bw)) (dkeys data);
  l ← dget data b;
  match l with [] => None | _ => Some (fmean l) end.

(** [_get_current_performance] *)
Definition get_current_performance (mon : monitor F) (last : dict Z (alloc F)) (user : Z)
    : res (option F) :=
  if dmem (collected_data mon) user then
    let recent := collect_recent_measurement mon user in
    match recent, dget last user with
    | [], _ | _, None => Ok None
    | _, Some a =>
        abs_cache ← trunc (a_cache a * s_cache rs);
        Ok (mean_near recent
              (first_min (λ x y, Z.abs (x - abs_cache) <? Z.abs (y - abs_cache))%Z)
              (a_mem_bw a * s_mem_bw rs))
    end
  else Ok None.

(** The exchange of a trade (lines 582-590) *)
Definition exchange (unit : F) (c b : Z) (cur : dict Z (alloc F)) : res (dict Z (alloc F)) :=
  a ← dgetE cur c;
  let cur := dset cur c (Alloc (a_cache a + unit) (a_mem_bw a - unit) (a_price a)) in
  a ← dgetE cur b;
  Ok (dset cur b (Alloc (a_cache a - unit) (a_mem_bw a + unit) (a_price a))).

(** [_trade_resources]: the performances before the trade are read first. *)
Definition trade_resources (mon : monitor F) (last : dict Z (alloc F)) (unit : F) (c b : Z)
    (cur : dict Z (alloc F)) : res (dict Z (alloc F)) :=
  _ ← get_current_performance mon last c;
  _ ← get_current_performance mon last b;
  exchange unit c b cur.

(** [cur_alloc[user][res_type] for user in users] *)
Fixpoint column (k : kind) (cur : dict Z (alloc F)) (users : list Z) : res (list F) :=
  match users with
  | [] => Ok []
  | u :: us => a ← dgetE cur u; l ← column k cur us; Ok (a_get k a :: l)
  end.

(** [cur_alloc[user][res_type] /= total] *)
Definition divide_share (k : kind) (total : F) (user : Z) (cur : dict Z (alloc F))
    : res (dict Z (alloc F)) :=
  a ← dgetE cur user;
  x ← a_get k a / total;
  Ok (dset cur user (a_set k x a)).

(** One resource of [_normalize_allocations] *)
Definition normalize (k : kind) (users : list Z) (cur : dict Z (alloc F)) : res (dict Z (alloc F)) :=
  l ← column k cur users;
  let total := fsum l in
  if total >? of_Z 1 then for_all (divide_share k total) users cur else Ok cur.

(** The users to trade: both found, and neither id is falsy. *)
Definition trade_pair (scores : dict Z (score F)) : option (Z * Z) :=
  c ← find_most_cache_sensitive_user scores;
  b ← find_most_bw_sensitive_user scores (Some c);
  if (c =? 0)%Z || (b =? 0)%Z then None else Some (c, b).

(** [allocate]: one VM's allocation and the users adjusted in it *)
Definition allocate (mon : monitor F) (unit : F) (users adjusted : list Z) (last : dict Z (alloc F))
    : res (dict Z (alloc F) * list Z) :=
  cur ← initialize_allocation users last;
  scores ← sensitivity_scores unit users adjusted cur;
  '(cur, adjusted) ←
    match trade_pair scores with
    | Some (c, b) => cur ← trade_resources mon last unit c b cur; Ok (cur, [c; b])
    | None => Ok (cur, [])
    end;
  cur ← normalize Cache users cur;
  cur ← normalize MemBw users cur;
  Ok (cur, adjusted).

(** ** A whole round *)

(** Store one user's share and convert it to units (lines 326-342). *)
Definition record_user (p : Z * alloc F) (acc : dict Z units * dict Z (alloc F))
    : res (dict Z units * dict Z (alloc F)) :=
  let last := dset acc.2 p.1 (match dget acc.2 p.1 with
                              | Some old => a_update old p.2
                              | None => p.2
                              end) in
  u ← scale_units rs p.2;
  Ok (dset acc.1 p.1 u, last).

(** One VM of the dynamic branch (lines 296-342). *)
Definition allocate_vm (mon : monitor F) (unit : F) (users : list Z) (vm : Z * list Z)
    (acc : dict Z units * fij F) : res (dict Z units * fij F) :=
  let '(allocation, s) := acc in
  match vm_apps vm.2 users with
  | [] => Ok acc
  | apps =>
      last ← or_raise TypeError (last_allocation s);
      '(cur, adjusted) ← allocate mon unit apps (default [] (dget (last_adjusted_users s) vm.1)) last;
      '(allocation, last) ← for_all record_user cur (allocation, last);
      Ok (allocation,
          FijState (Some last) (last_static_allocation s) (last_static_performance s)
            (dset (last_adjusted_users s) vm.1 adjusted))
  end.

(** [allocate_and_parse] *)
Definition allocate_and_parse (unit : F) (skip_monitoring : bool) (users : list Z) (num_vms : Z)
    (mon : monitor F) (s : fij F) : res (dict Z units * fij F) :=
  let m := vm_to_app_map mon in
  let complete := is_complete_vm_map m users in
  s ← (if complete then update_last_static_performance users mon s else Ok s);
  if is_static_allocation skip_monitoring users (total_record_of mon) s || negb complete then
    '(al, last) ← static_allocation users m complete num_vms;
    Ok (al, FijState (Some last) (Some last) (last_static_performance s) (last_adjusted_users s))
  else for_all (allocate_vm mon unit users) m ([], s).
End operations.
End Fij.
