(* ===== verification/FijFacts.v ===== *)
(** * Which users trade

    For any floats: the users the allocator picks gain the most among those
    that may trade, were not adjusted in the last round, and stay within the
    per-user limits. *)

From S2P Require Import Prelude PyDict PyFloat Resources Base Monitor FijTrade.
Import Fij.

Section generic.
Context {F : Type} `{PyFloatLaws F}.
Context (rs : scale F) (est : Z → F → F → res F).
Implicit Types (sc : score F) (scores : dict Z (score F)).

(** A positive sensitivity has been measured, so the trade is allowed. *)
Lemma user_score_gain unit u a sc :
  user_score rs est unit u a = Ok sc →
  ∃ n, limit_norms rs = Ok n ∧
    (fltb (of_Z 0) (cache_sensitivity sc) = true → may_gain_cache n unit a = true) ∧
    (fltb (of_Z 0) (bw_sensitivity sc) = true → may_gain_bw n unit a = true).
Proof.
  unfold user_score. intros Hs. apply bind_Ok in Hs as (perf & _ & Hs).
  apply bind_Ok in Hs as (n & Hn & Hs). exists n. split; [done|].
  apply bind_Ok in Hs as (mc & Hmc & Hs). apply bind_Ok in Hs as (mb & Hmb & Hs).
  apply bind_Ok in Hs as (cs & Hcs & Hs). apply bind_Ok in Hs as (bs & Hbs & Hs).
  injection Hs as <-. simpl.
  destruct (may_gain_cache n unit a), (may_gain_bw n unit a); (split; [try done|try done]).
  all: repeat match goal with
    | E : Ok None = Ok _ |- _ => injection E as <-
    | E : Ok _ = Ok _ |- _ => injection E as <-
    | |- fltb _ _ = true → _ => intros Hlt; rewrite ltb_irrefl in Hlt; done
    end.
Qed.

(** Every score is that of a user of the VM who was not adjusted. *)
Lemma sensitivity_scores_inv unit users adjusted cur scores :
  sensitivity_scores rs est unit users adjusted cur = Ok scores →
  NoDup (dkeys scores) ∧
  ∀ u sc, (u, sc) ∈ scores →
    u ∈ users ∧ (u ∉ adjusted) ∧ ∃ a, dget cur u = Some a ∧ user_score rs est unit u a = Ok sc.
Proof.
  unfold sensitivity_scores.
  apply (for_all_inv (λ scores, NoDup (dkeys scores) ∧ ∀ u sc, (u, sc) ∈ scores →
    u ∈ users ∧ (u ∉ adjusted) ∧ ∃ a, dget cur u = Some a ∧ user_score rs est unit u a = Ok sc));
    [|split; [constructor|set_solver]].
  intros u t t' Hu [Hnd Ht] Hb. destruct (dget cur u) as [a|] eqn:Ea; [|by simplify_eq].
  case_bool_decide as Had; [by simplify_eq|].
  apply bind_Ok in Hb as (sc & Hsc & Hb). injection Hb as <-.
  split; [by apply NoDup_dset|]. intros v sv Hv.
  apply dget_In in Hv; [|by apply NoDup_dset]. rewrite dget_dset in Hv.
  case_decide; [|by apply Ht, dget_Some_elem]. simplify_eq. eauto.
Qed.

(** ** The search for the best user *)

Definition candidate (gain other : score F → F) sc : Prop :=
  fltb (of_Z 0) (gain sc) = true ∧ fltb (other sc) (gain sc) = true.

(** [best] is what a search has found among the entries [seen]. *)
Definition best_of (gain other : score F → F) (seen : list (Z * score F)) (best : option (Z * F)) : Prop :=
  match best with
  | None => ∀ p, p ∈ seen → ¬ candidate gain other p.2
  | Some (u, g) =>
      (∃ sc, (u, sc) ∈ seen ∧ g = gain sc ∧ candidate gain other sc) ∧
      ∀ p, p ∈ seen → candidate gain other p.2 → fltb g (gain p.2) = false
  end.

Lemma better_best gain other seen best p :
  best_of gain other seen best → best_of gain other (seen ++ [p]) (better gain other best p).
Proof.
  intros Hb. unfold better. destruct (_ && _) eqn:E.
  - apply andb_true_iff in E as [E1 E2].
    destruct best as [[u g]|]; simpl in *.
    + destruct Hb as [(sc & Hin & -> & Hc) Hmax].
      destruct (fltb (gain sc) (gain p.2)) eqn:Eg; simpl.
      * split; [exists p.2; split; [destruct p; set_solver|done]|].
        intros q [Hq| ->%list_elem_of_singleton]%elem_of_app Hcq; [|apply ltb_irrefl].
        destruct (fltb (gain p.2) (gain q.2)) eqn:Epq; [|done].
        rewrite <- (Hmax q Hq Hcq). symmetry. by eapply ltb_trans.
      * split; [exists sc; set_solver|].
        intros q [Hq| ->%list_elem_of_singleton]%elem_of_app Hcq; [by apply Hmax|done].
    + split; [exists p.2; split; [destruct p; set_solver|done]|].
      intros q [Hq| ->%list_elem_of_singleton]%elem_of_app Hcq; [|apply ltb_irrefl].
      exfalso. by eapply Hb.
  - assert (Hno : ¬ candidate gain other p.2).
    { intros [H1 H2]. rewrite H1, H2 in E. done. }
    destruct best as [[u g]|]; simpl in *.
    + destruct Hb as [(sc & Hin & -> & Hc) Hmax]. split; [exists sc; set_solver|].
      intros q [Hq| ->%list_elem_of_singleton]%elem_of_app Hcq; [by apply Hmax|done].
    + intros q [Hq| ->%list_elem_of_singleton]%elem_of_app; [by apply Hb|done].
Qed.

Lemma find_best gain other (skip : Z → bool) scores :
  best_of gain other (List.filter (λ p, negb (skip p.1)) scores)
    (foldl (λ best p, if skip p.1 then best else better gain other best p) None scores).
Proof.
  assert (Hgen : ∀ l seen best, best_of gain other seen best →
    best_of gain other (seen ++ List.filter (λ p, negb (skip p.1)) l)
      (foldl (λ best p, if skip p.1 then best else better gain other best p) best l)).
  { induction l as [|p l IH]; intros seen best Hb; simpl; [by rewrite app_nil_r|].
    destruct (skip p.1); simpl; [by apply IH|].
    replace (seen ++ p :: _) with ((seen ++ [p]) ++ List.filter (λ p, negb (skip p.1)) l)
      by by rewrite <- app_assoc.
    by apply IH, better_best. }
  apply (Hgen scores [] None). simpl. set_solver.
Qed.

Lemma find_most_cache_inv scores c :
  find_most_cache_sensitive_user scores = Some c →
  ∃ sc, (c, sc) ∈ scores ∧ candidate cache_sensitivity bw_sensitivity sc ∧
    ∀ p, p ∈ scores → candidate cache_sensitivity bw_sensitivity p.2 →
      fltb (cache_sensitivity sc) (cache_sensitivity p.2) = false.
Proof.
  unfold find_most_cache_sensitive_user. intros Hf.
  pose proof (find_best cache_sensitivity bw_sensitivity (λ _, false) scores
    : best_of _ _ _ (foldl (better cache_sensitivity bw_sensitivity) None scores)) as Hb.
  destruct (foldl (better cache_sensitivity bw_sensitivity) None scores) as [[u g]|]; [|done].
  injection Hf as <-. destruct Hb as [(sc & Hin & -> & Hc) Hmax].
  apply list_elem_of_In, filter_In in Hin as [Hin _]. exists sc. split; [by apply list_elem_of_In|].
  split; [done|]. intros p Hp. apply Hmax. apply list_elem_of_In, filter_In.
  split; [by apply list_elem_of_In|done].
Qed.

Lemma find_most_bw_inv scores c b :
  find_most_bw_sensitive_user scores (Some c) = Some b →
  ∃ sc, (b, sc) ∈ scores ∧ b ≠ c ∧ candidate bw_sensitivity cache_sensitivity sc ∧
    ∀ p, p ∈ scores → p.1 ≠ c → candidate bw_sensitivity cache_sensitivity p.2 →
      fltb (bw_sensitivity sc) (bw_sensitivity p.2) = false.
Proof.
  unfold find_most_bw_sensitive_user. intros Hf.
  pose proof (find_best bw_sensitivity cache_sensitivity (λ u, bool_decide (Some u = Some c)) scores) as Hb.
  destruct (foldl _ None scores) as [[u g]|]; [|done]. injection Hf as <-.
  destruct Hb as [(sc & Hin & -> & Hc) Hmax].
  apply list_elem_of_In, filter_In in Hin as [Hin Hne]. exists sc. split; [by apply list_elem_of_In|].
  split; [|split; [done|]].
  - simpl in Hne. case_bool_decide; [done|]. congruence.
  - intros p Hp Hpc. apply Hmax. apply list_elem_of_In, filter_In.
    split; [by apply list_elem_of_In|]. by rewrite bool_decide_false by congruence.
Qed.

(** A pair that trades. *)
Record trades (unit : F) (users adjusted : list Z) (cur : dict Z (alloc F)) (c b : Z) : Prop := {
  tr_distinct : c ≠ b;
  tr_users : c ∈ users ∧ b ∈ users;
  tr_fresh : (c ∉ adjusted) ∧ (b ∉ adjusted);
  tr_limits : ∃ n ac ab, limit_norms rs = Ok n ∧ dget cur c = Some ac ∧ dget cur b = Some ab ∧
    may_gain_cache n unit ac = true ∧ may_gain_bw n unit ab = true;
}.

Lemma trade_pair_trades unit users adjusted cur scores c b :
  sensitivity_scores rs est unit users adjusted cur = Ok scores →
  trade_pair scores = Some (c, b) → trades unit users adjusted cur c b.
Proof.
  intros [_ Hs]%sensitivity_scores_inv Ht. unfold trade_pair in Ht.
  destruct (find_most_cache_sensitive_user scores) as [c'|] eqn:Ec; [|done]. simpl in Ht.
  destruct (find_most_bw_sensitive_user scores (Some c')) as [b'|] eqn:Eb; [|done]. simpl in Ht.
  destruct (_ || _); [done|]. injection Ht as -> ->.
  apply find_most_cache_inv in Ec as (sc & Hc & [Hgc _] & _).
  apply find_most_bw_inv in Eb as (sb & Hb & Hne & [Hgb _] & _).
  destruct (Hs c sc Hc) as (Huc & Hac & ac & Eac & Esc).
  destruct (Hs b sb Hb) as (Hub & Hab & ab & Eab & Esb).
  apply user_score_gain in Esc as (n & Hn & Hmc & _). apply user_score_gain in Esb as (n' & Hn' & _ & Hmb).
  rewrite Hn in Hn'. injection Hn' as <-. split; [done|done|done|]. exists n, ac, ab. auto 10.
Qed.

(** C30: the two users that trade are different users of the VM and neither was
    adjusted in the round before; the first takes one unit of cache from the
    second for one unit of bandwidth, and nobody else's share changes. The
    trade leaves the one that gains cache at most the configured maximum cache
    and at least the minimum bandwidth, and the other at least the minimum
    cache and at most the maximum bandwidth, each limit a fraction of the
    total of its resource (a missing minimum is 0, a missing maximum the
    total). For any floating-point numbers and any estimator. *)
Theorem trade_within_limits mon last unit users adjusted cur scores c b cur' :
  sensitivity_scores rs est unit users adjusted cur = Ok scores →
  trade_pair scores = Some (c, b) → trade_resources rs mon last unit c b cur = Ok cur' →
  c ≠ b ∧ (c ∈ users ∧ b ∈ users) ∧ (c ∉ adjusted) ∧ (b ∉ adjusted) ∧
  (∀ u, u ≠ c → u ≠ b → dget cur' u = dget cur u) ∧
  ∃ ac ab ac' ab' max_cache min_bw min_cache max_bw,
    dget cur c = Some ac ∧ dget cur b = Some ab ∧ dget cur' c = Some ac' ∧ dget cur' b = Some ab' ∧
    a_cache ac' = fadd (a_cache ac) unit ∧ a_mem_bw ac' = fsub (a_mem_bw ac) unit ∧
    a_cache ab' = fsub (a_cache ab) unit ∧ a_mem_bw ab' = fadd (a_mem_bw ab) unit ∧
    fdiv (default (s_cache rs) (s_max_cache rs)) (s_cache rs) = Ok max_cache ∧
    fdiv (default (lit 0 1) (s_min_mem_bw rs)) (s_mem_bw rs) = Ok min_bw ∧
    fdiv (default (lit 0 1) (s_min_cache rs)) (s_cache rs) = Ok min_cache ∧
    fdiv (default (s_mem_bw rs) (s_max_mem_bw rs)) (s_mem_bw rs) = Ok max_bw ∧
    fleb (a_cache ac') max_cache = true ∧ fleb min_bw (a_mem_bw ac') = true ∧
    fleb min_cache (a_cache ab') = true ∧ fleb (a_mem_bw ab') max_bw = true.
Proof.
  intros Hs Hp Ht. destruct (trade_pair_trades _ _ _ _ _ _ _ Hs Hp)
    as [Hne Hu [Hfc Hfb] (n & ac & ab & Hn & Eac & Eab & Hc & Hb)].
  do 4 (split; [done|]).
  unfold trade_resources in Ht. inv_ok. rename select (exchange _ _ _ _ = _) into Ht.
  unfold exchange, dgetE in Ht. rewrite Eac in Ht. cbn [or_raise mbind res_bind] in Ht.
  rewrite dget_dset_ne, Eab in Ht by done. cbn [or_raise mbind res_bind] in Ht. injection Ht as <-.
  split; [intros u Huc Hub; by rewrite !dget_dset_ne by done|].
  unfold limit_norms in Hn. inv_ok. eexists ac, ab, _, _, _, _, _, _.
  rewrite (dget_dset_ne _ b c), !dget_dset_eq by done. do 4 (split; [done|]).
  apply andb_true_iff in Hc as [? ?], Hb as [? ?]. simpl in *. repeat (split; [done|]). done.
Qed.
End generic.
