(* ===== verification/FijExact.v ===== *)
(** * The pairwise trading allocator in exact arithmetic

    A trade moves resources without creating any, normalisation keeps a VM's
    shares within the whole, and so every round from every reachable state
    returns units that fit into each VM. *)

From S2P Require Import Prelude PyDict PyFloat Exact Resources PtasExact Base BaseExact Monitor Estimator EstimatorExact FijTrade FijFacts.
Import Fij.

(** What the trades ask of an estimator: a finite utility other than zero. *)
Class est_nonzero (est : Z → xnum → xnum → res xnum) : Prop :=
  est_nz : ∀ u c b, fin c → fin b → returns (est u c b) nonzero.

#[export] Instance runtime_estimator_nonzero current m :
  readings_ok current m → est_nonzero (get_estimation (Some current) m).
Proof. intros Hok u c b. by apply get_estimation_total. Qed.

(** ** Allocations as functions *)

Definition kq (k : kind) (q : Qc * Qc) : Qc := match k with Cache => q.1 | MemBw => q.2 end.

(** [cur] gives every user [u] of [users] the shares [f u]. *)
Definition repr (users : list Z) (cur : dict Z (alloc xnum)) (f : Z → Qc * Qc) : Prop :=
  dkeys cur = users ∧
  ∀ u, u ∈ users → ∃ p, dget cur u = Some (Alloc (Num (f u).1) (Num (f u).2) p).

Definition total (k : kind) (users : list Z) (f : Z → Qc * Qc) : Qc := qsum ((λ u, kq k (f u)) <$> users).

Definition nn (users : list Z) (f : Z → Qc * Qc) : Prop :=
  ∀ u, u ∈ users → (0 <= (f u).1 ∧ 0 <= (f u).2)%Qc.

(** [f] with the shares of [u] changed. *)
Definition upd (f : Z → Qc * Qc) (u : Z) (q : Qc * Qc) : Z → Qc * Qc :=
  λ v, if decide (u = v) then q else f v.

Lemma total_ext k users f g : (∀ u, u ∈ users → kq k (f u) = kq k (g u)) → total k users f = total k users g.
Proof.
  intros Hfg. unfold total. f_equal. apply list_fmap_ext. intros i u Hu. apply Hfg.
  by eapply list_elem_of_lookup_2.
Qed.

Lemma total_upd k users f u q :
  NoDup users → u ∈ users → total k users (upd f u q) = (total k users f - kq k (f u) + kq k q)%Qc.
Proof.
  unfold total. induction users as [|v users IH]; [set_solver|]. intros [Hv Hnd]%NoDup_cons Hu.
  csimpl. rewrite !qsum_cons. unfold upd at 1. destruct (decide (u = v)) as [->|Hne].
  - fold (total k users (upd f v q)). fold (total k users f).
    rewrite (total_ext k users (upd f v q) f); [ring|].
    intros x Hx. unfold upd. rewrite decide_False; [done|]. by intros ->.
  - rewrite IH by (try done; set_solver). ring.
Qed.

Lemma repr_dset users cur f u q p :
  repr users cur f → u ∈ users →
  repr users (dset cur u (Alloc (Num q.1) (Num q.2) p)) (upd f u q).
Proof.
  intros [Hk Hf] Hu. split.
  - rewrite dkeys_dset. rewrite (proj2 (dmem_true _ _)); [done|]. by rewrite Hk.
  - intros v Hv. rewrite dget_dset. unfold upd. case_decide; [by eauto|by apply Hf].
Qed.

(** ** Normalisation *)

Lemma column_repr k users cur f us :
  repr users cur f → (∀ u, u ∈ us → u ∈ users) →
  column k cur us = Ok ((λ u, Num (kq k (f u))) <$> us).
Proof.
  intros Hr. induction us as [|u us IH]; intros Hin; [done|]. simpl.
  destruct (proj2 Hr u) as [p Hp]; [apply Hin; left|]. unfold dgetE. rewrite Hp. simpl.
  rewrite IH by (intros v Hv; apply Hin; by right). simpl. by destruct k.
Qed.

Definition scaled (k : kind) (t : Qc) (q : Qc * Qc) : Qc * Qc :=
  match k with Cache => (q.1 / t, q.2) | MemBw => (q.1, q.2 / t) end%Qc.

Lemma scale_users k users t us cur f :
  (1 < t)%Qc → NoDup us → (∀ u, u ∈ us → u ∈ users) → repr users cur f →
  ∃ cur', for_all (divide_share k (Num t)) us cur = Ok cur' ∧
    repr users cur' (λ u, if decide (u ∈ us) then scaled k t (f u) else f u).
Proof.
  intros Ht. revert cur f. induction us as [|u us IH]; intros cur f Hnd Hin Hr.
  { exists cur. split; [done|]. split; [apply Hr|]. intros u Hu.
    rewrite decide_False by apply not_elem_of_nil. by apply Hr. }
  apply NoDup_cons in Hnd as [Hu Hnd]. destruct (proj2 Hr u) as [p Hp]; [apply Hin; left|].
  assert (Ht0 : t ≠ 0%Qc) by (apply pos_ne0; qc_lra).
  destruct (IH (dset cur u (Alloc (Num (scaled k t (f u)).1) (Num (scaled k t (f u)).2) p))
    (upd f u (scaled k t (f u)))) as (cur' & Hc & Hr').
  { done. }
  { intros v Hv. apply Hin. by right. }
  { apply repr_dset; [done|]. apply Hin. left. }
  exists cur'. split.
  - assert (Hd : divide_share k (Num t) u cur =
      Ok (dset cur u (Alloc (Num (scaled k t (f u)).1) (Num (scaled k t (f u)).2) p))).
    { unfold divide_share, dgetE. rewrite Hp. simpl. destruct k; simpl; by rewrite fdiv_Num by done. }
    simpl. rewrite Hd. exact Hc.
  - split; [apply Hr'|]. intros v Hv. destruct (proj2 Hr' v Hv) as [p' Hp']. exists p'.
    rewrite Hp'. unfold upd. destruct (decide (u = v)) as [<-|Hne].
    + rewrite decide_False by done. by rewrite decide_True by left.
    + destruct (decide (v ∈ us)); [by rewrite decide_True by by right|].
      rewrite decide_False; [done|]. set_solver.
Qed.

Lemma normalize_ok k users cur f :
  NoDup users → repr users cur f → nn users f →
  ∃ cur' g, normalize k users cur = Ok cur' ∧ repr users cur' g ∧ nn users g ∧
    (total k users g <= 1)%Qc ∧
    (∀ k', k' ≠ k → total k' users g = total k' users f) ∧
    ((total k users f <= 1)%Qc → cur' = cur).
Proof.
  intros Hnd Hr Hnn. unfold normalize. rewrite (column_repr k users cur f users Hr) by done.
  cbn [mbind res_bind]. rewrite (list_fmap_compose (λ u, kq k (f u)) Num), fsum_Num.
  change (qsum ((λ u, kq k (f u)) <$> users)) with (total k users f).
  change (of_Z 1 : xnum) with (Num 1%Qc).
  destruct (fltb (Num 1%Qc) (Num (total k users f))) eqn:E.
  - apply xltb_Num in E. set (t := total k users f) in *.
    destruct (scale_users k users t users cur f E Hnd) as (cur' & Hc & Hr'); [done|done|].
    assert (Ht : (0 < t)%Qc) by (clearbody t; qc_lra).
    assert (Hr2 : repr users cur' (λ u, scaled k t (f u))).
    { split; [apply Hr'|]. intros u Hu. destruct (proj2 Hr' u Hu) as [p Hp].
      rewrite decide_True in Hp by done. eauto. }
    exists cur', (λ u, scaled k t (f u)). split; [exact Hc|]. split; [done|].
    assert (Hsc : total k users (λ u, scaled k t (f u)) = 1%Qc).
    { transitivity (qsum ((λ u, kq k (f u) * / t)%Qc <$> users)).
      - unfold total. f_equal. apply list_fmap_ext. intros i u _. by destruct k.
      - rewrite qsum_scale. fold (total k users f). fold t. apply Qcmult_inv_r. by apply pos_ne0. }
    split; [|split; [rewrite Hsc; apply Qcle_refl|split; [|intros Hle; clearbody t; qc_lra]]].
    + intros u Hu. destruct (Hnn u Hu) as [H1 H2].
      assert (Hdiv : ∀ a, (0 <= a)%Qc → (0 <= a / t)%Qc).
      { intros a Ha. apply (Qcle_trans _ (0 * / t)); [by rewrite Qcmult_0_l|].
        apply Qcmult_le_compat_r; [done|]. apply Qclt_le_weak.
        rewrite <- (Qcmult_1_l (/ t)). by apply Qcdiv_pos. }
      destruct k; simpl; auto.
    + intros k' Hk'. apply total_ext. intros u _. by destruct k, k'.
  - apply xltb_Num_false in E. exists cur, f. auto 10.
Qed.

(** ** One VM *)

(** A cluster's resources: positive totals, non-negative minima, finite maxima. *)
Record limits_ok (rs : scale xnum) (S B : Qc) : Prop := {
  lo_cache : s_cache rs = Num S ∧ (0 < S)%Qc;
  lo_mem_bw : s_mem_bw rs = Num B ∧ (0 < B)%Qc;
  lo_min : ∀ x, s_min_cache rs = Some x ∨ s_min_mem_bw rs = Some x → nonneg x;
  lo_max : ∀ x, s_max_cache rs = Some x ∨ s_max_mem_bw rs = Some x → fin x;
}.

(** Every stored share is non-negative. *)
Definition stored_nn (d : dict Z (alloc xnum)) : Prop :=
  ∀ u a, dget d u = Some a → nonneg (a_cache a) ∧ nonneg (a_mem_bw a).

Definition qc (x : xnum) : Qc := match x with Num q => q | _ => 0%Qc end.

Lemma nonneg_div x y q : nonneg x → y = Num q → (0 < q)%Qc → returns (fdiv x y) nonneg.
Proof.
  intros (a & -> & Ha) -> Hq. exists (Num (a / q)%Qc). split; [by apply fdiv_Num, pos_ne0|].
  exists (a / q)%Qc. split; [done|]. apply (Qcle_trans _ (0 * / q)); [by rewrite Qcmult_0_l|].
  apply Qcmult_le_compat_r; [done|]. apply Qclt_le_weak. rewrite <- (Qcmult_1_l (/ q)). by apply Qcdiv_pos.
Qed.

Lemma initialize_ok users last :
  users ≠ [] → NoDup users → stored_nn last →
  ∃ cur f, initialize_allocation users last = Ok cur ∧ repr users cur f ∧ nn users f.
Proof.
  intros Hne Hnd Hlast. unfold initialize_allocation. change (lit 1 1 : xnum) with (Num 1%Qc).
  assert (Hn : (0 < Z.of_nat (length users))%Z) by (destruct users; [done|simpl; lia]).
  rewrite (fdiv_zq _ Hn). cbn [mbind res_bind]. set (q := (1 / zq (Z.of_nat (length users)))%Qc).
  assert (Hq : (0 <= q)%Qc) by (by apply Qclt_le_weak, Qcdiv_pos, zq_pos).
  exists (foldl (λ d u, dset d u (match dget last u with
    Some a => share (a_cache a) (a_mem_bw a) | None => share (Num q) (Num q) end)) [] users).
  exists (λ u, match dget last u with Some a => (qc (a_cache a), qc (a_mem_bw a)) | None => (q, q) end).
  split; [done|]. split; [split|].
  - rewrite (dkeys_foldl_dset _ users []); [done|done|]. intros u _. apply not_elem_of_nil.
  - intros u Hu. exists None. rewrite (dget_foldl_dset _ users []), decide_True by done. f_equal.
    destruct (dget last u) as [a|] eqn:E; [|done].
    by destruct (Hlast u a E) as [(x & -> & _) (y & -> & _)].
  - intros u Hu. destruct (dget last u) as [a|] eqn:E; [|done].
    by destruct (Hlast u a E) as [(x & -> & ?) (y & -> & ?)].
Qed.

Section vm.
Context (rs : scale xnum) (S B : Qc) (Hrs : limits_ok rs S B).
Context (est : Z → xnum → xnum → res xnum) (Hest : est_nonzero est).
Context (g : Qc) (Hg : (0 <= g)%Qc).

Lemma limit_norms_ok :
  returns (limit_norms rs) (λ n, nonneg (min_cache_norm n) ∧ nonneg (min_mem_bw_norm n)).
Proof.
  destruct Hrs as [[HS HS0] [HB HB0] Hmin Hmax]. unfold limit_norms.
  assert (Hz : nonneg (lit 0 1)) by (by exists 0%Qc).
  rbind (eapply nonneg_div; [|done|done]; destruct (s_min_cache rs) eqn:E; [apply Hmin; auto|done]) as a Ha.
  rbind (apply fdiv_fin; [destruct (s_max_cache rs) eqn:E; [apply Hmax; auto|rewrite HS; fin_auto]
    |by exists S]) as b Hb.
  rbind (eapply nonneg_div; [|done|done]; destruct (s_min_mem_bw rs) eqn:E; [apply Hmin; auto|done]) as c Hc.
  rbind (apply fdiv_fin; [destruct (s_max_mem_bw rs) eqn:E; [apply Hmax; auto|rewrite HB; fin_auto]
    |by exists B]) as d Hd.
  by apply returns_ret.
Qed.

Lemma user_score_total u a :
  fin (a_cache a) → fin (a_mem_bw a) → returns (user_score rs est (Num g) u a) (λ _, True).
Proof.
  intros Hc Hb. unfold user_score.
  assert (HSf : fin (s_cache rs)) by (destruct Hrs as [[-> _] _ _ _]; fin_auto).
  assert (HBf : fin (s_mem_bw rs)) by (destruct Hrs as [_ [-> _] _ _]; fin_auto).
  rbind (apply Hest; fin_auto) as perf (q & -> & Hq).
  rbind (apply limit_norms_ok) as n Hn.
  eapply returns_bind with (P := λ o, ∀ p, o = Some p → fin p).
  { case_match; [|by apply returns_ret].
    rbind (apply Hest; fin_auto) as p (r & -> & _). apply returns_ret. intros ? [= <-]. fin_auto. }
  intros mc Hmc. eapply returns_bind with (P := λ o, ∀ p, o = Some p → fin p).
  { case_match; [|by apply returns_ret].
    rbind (apply Hest; fin_auto) as p (r & -> & _). apply returns_ret. intros ? [= <-]. fin_auto. }
  intros mb Hmb.
  assert (Hdiv : ∀ o : option xnum, (∀ p, o = Some p → fin p) →
    returns (match o with Some p => ((p - Num q) / Num q)%py | None => Ok (of_Z 0) end) (λ _, True)).
  { intros [p|] Hp; [|by apply returns_ret]. destruct (Hp p eq_refl) as [r ->].
    change (Num r - Num q)%py with (Num (r - q)%Qc). rewrite fdiv_Num by done. by apply returns_ret. }
  rbind (by apply Hdiv) as cs Hcs. rbind (by apply Hdiv) as bs Hbs. by apply returns_ret.
Qed.

Lemma scores_total users adjusted cur f :
  repr users cur f → returns (sensitivity_scores rs est (Num g) users adjusted cur) (λ _, True).
Proof.
  intros [_ Hr]. apply (for_all_total (λ _, True)); [|done]. intros u t Hu _.
  destruct (Hr u Hu) as [p ->]. case_bool_decide; [by eauto|].
  destruct (user_score_total u (Alloc (Num (f u).1) (Num (f u).2) p)) as (sc & -> & _); [fin_auto..|].
  eexists. split; [reflexivity|done].
Qed.

(** Reading a performance never raises on finite shares. *)
Lemma perf_total mon d u :
  stored_nn d → ∃ o, get_current_performance rs mon d u = Ok o.
Proof using Hrs.
  intros Hd. unfold get_current_performance. case_match; [|by eauto].
  destruct (collect_recent_measurement mon u); [by eauto|].
  destruct (dget d u) as [a|] eqn:Ea; [|by eauto]. destruct (Hd u a Ea) as [(c & Ec & _) _].
  destruct Hrs as [[HS _] _ _ _]. rewrite Ec, HS.
  destruct (trunc_fin (Num c * Num S)%py) as (z & -> & _); [fin_auto|]. by eauto.
Qed.

(** A trade moves one unit of each resource: no total changes. *)
Lemma trade_ok mon last users adjusted cur f c b :
  stored_nn last → NoDup users → repr users cur f → nn users f → trades rs (Num g) users adjusted cur c b →
  ∃ cur' f', trade_resources rs mon last (Num g) c b cur = Ok cur' ∧ repr users cur' f' ∧ nn users f' ∧
    ∀ k, total k users f' = total k users f.
Proof.
  intros Hlast Hnd Hr Hnn [Hne [Hc Hb] _ (n & ac & ab & Hn & Eac & Eab & Hgc & Hgb)].
  destruct limit_norms_ok as (n' & Hn' & (mc & Hmc & Hmc0) & (mb & Hmb & Hmb0)).
  rewrite Hn in Hn'. injection Hn' as <-.
  destruct (proj2 Hr c Hc) as [pc Hpc]. destruct (proj2 Hr b Hb) as [pb Hpb].
  rewrite Hpc in Eac. rewrite Hpb in Eab. injection Eac as <-. injection Eab as <-.
  set (qc := ((f c).1 + g, (f c).2 - g)%Qc). set (qb := ((f b).1 - g, (f b).2 + g)%Qc).
  exists (dset (dset cur c (Alloc (Num qc.1) (Num qc.2) pc)) b (Alloc (Num qb.1) (Num qb.2) pb)).
  exists (upd (upd f c qc) b qb). split; [|split; [|split]].
  - unfold trade_resources. destruct (perf_total mon last c Hlast) as [oc ->], (perf_total mon last b Hlast) as [ob ->].
    cbn [mbind res_bind]. unfold exchange, dgetE. rewrite Hpc. cbn [or_raise mbind res_bind].
    rewrite dget_dset_ne, Hpb by done. done.
  - by repeat apply repr_dset.
  - intros u Hu. unfold upd. unfold may_gain_cache in Hgc. unfold may_gain_bw in Hgb.
    apply andb_true_iff in Hgc as [_ Hgc], Hgb as [Hgb _]. simpl in Hgc, Hgb. rewrite Hmb in Hgc.
    rewrite Hmc in Hgb.
    change (Num (f c).2 - Num g)%py with (Num ((f c).2 - g)%Qc) in Hgc.
    change (Num (f b).1 - Num g)%py with (Num ((f b).1 - g)%Qc) in Hgb.
    apply xleb_Num in Hgc, Hgb.
    destruct (Hnn c Hc) as [Hc1 _], (Hnn b Hb) as [_ Hb2].
    repeat case_decide; [subst qb|subst qc|by apply Hnn]; simpl; split; qc_lra.
  - intros k. rewrite !total_upd by done. unfold upd. rewrite decide_False by done.
    subst qc qb. destruct k; simpl; ring.
Qed.

(** The allocation of one VM. *)
Lemma allocate_ok mon users adjusted last :
  users ≠ [] → NoDup users → stored_nn last →
  ∃ cur adj f, allocate rs est mon (Num g) users adjusted last = Ok (cur, adj) ∧
    repr users cur f ∧ nn users f ∧ ∀ k, (total k users f <= 1)%Qc.
Proof.
  intros Hne Hnd Hlast. unfold allocate.
  destruct (initialize_ok users last Hne Hnd Hlast) as (cur & f & -> & Hr & Hnn). cbn [mbind res_bind].
  destruct (scores_total users adjusted cur f Hr) as (scores & Hs & _). rewrite Hs. cbn [mbind res_bind].
  assert (Ht : ∃ cur1 adj f1, match trade_pair scores with
      | Some (c, b) => cur ← trade_resources rs mon last (Num g) c b cur; Ok (cur, [c; b])
      | None => Ok (cur, []) end = Ok (cur1, adj) ∧ repr users cur1 f1 ∧ nn users f1).
  { destruct (trade_pair scores) as [[c b]|] eqn:Ep; [|by exists cur, [], f].
    destruct (trade_ok mon last users adjusted cur f c b Hlast Hnd Hr Hnn) as (cur1 & f1 & -> & ? & ? & _).
    { by eapply trade_pair_trades. }
    by exists cur1, [c; b], f1. }
  destruct Ht as (cur1 & adj & f1 & -> & Hr1 & Hnn1). cbn [mbind res_bind].
  destruct (normalize_ok Cache users cur1 f1 Hnd Hr1 Hnn1) as (cur2 & f2 & -> & Hr2 & Hnn2 & Hc2 & _).
  cbn [mbind res_bind].
  destruct (normalize_ok MemBw users cur2 f2 Hnd Hr2 Hnn2) as (cur3 & f3 & -> & Hr3 & Hnn3 & Hb3 & Hk & _).
  exists cur3, adj, f3. split; [done|]. split; [done|]. split; [done|].
  intros []; [by rewrite Hk|done].
Qed.
End vm.

(** ** A whole round *)

(** The applications of a VM have their units, and the VM has room for them. *)
Definition vm_fits (S B : Qc) (al : dict Z units) (apps : list Z) : Prop :=
  ∃ us, Forall2 (λ u x, dget al u = Some x) apps us ∧
    Forall (λ x, 0 <= u_cache x ∧ 0 <= u_mem_bw x)%Z us ∧
    (zq (zsum (u_cache <$> us)) <= S)%Qc ∧ (zq (zsum (u_mem_bw <$> us)) <= B * zq 1024)%Qc.

Lemma vm_fits_ext S B al al' apps :
  (∀ u, u ∈ apps → dget al' u = dget al u) → vm_fits S B al apps → vm_fits S B al' apps.
Proof.
  intros He (us & Hus & Hfit). exists us. split; [|done].
  apply Forall2_same_length_lookup_2; [by eapply Forall2_length|].
  intros i u x Hu Hx. rewrite He by by eapply list_elem_of_lookup_2.
  eapply Forall2_lookup_lr in Hus; done.
Qed.

(** Units that come from shares adding up to at most one. *)
Lemma vm_fits_shares S B al apps f :
  (0 <= S)%Qc → (0 <= B)%Qc → (∀ k, (total k apps f <= 1)%Qc) →
  (∀ u, u ∈ apps → ∃ x, dget al u = Some x ∧ fits S B (x, (f u).1, (f u).2)) →
  vm_fits S B al apps.
Proof.
  intros HS HB Ht Hu.
  assert (Hts : ∃ ts, Forall2 (λ u t, dget al u = Some t.1.1 ∧ t.1.2 = (f u).1 ∧ t.2 = (f u).2) apps ts ∧
    Forall (fits S B) ts).
  { clear Ht. induction apps as [|u apps IH]; [by exists []|].
    destruct IH as (ts & H1 & H2); [intros v Hv; apply Hu; by right|].
    destruct (Hu u) as (x & Hx & Hf); [left|].
    exists ((x, (f u).1, (f u).2) :: ts). split; by constructor. }
  destruct Hts as (ts & Hts & Hf). destruct (qsum_fits S B ts Hf) as [Hc Hb].
  assert (Hsum : ∀ (p : units * Qc * Qc → Qc) k, (∀ u t, u ∈ apps → dget al u = Some t.1.1 ∧ t.1.2 = (f u).1 ∧ t.2 = (f u).2 → p t = kq k (f u)) →
    qsum (p <$> ts) = total k apps f).
  { intros p k Hp. unfold total. f_equal. symmetry. clear -Hts Hp.
    induction Hts as [|u t apps ts Hut _ IH]; [done|]. csimpl. f_equal; [symmetry; apply Hp; [left|done]|].
    apply IH. intros v t' Hv. apply Hp. by right. }
  exists ((λ t, t.1.1) <$> ts). rewrite <- !list_fmap_compose. split; [|split; [|split]].
  - apply Forall2_fmap_r. eapply Forall2_impl; [exact Hts|]. by intros u t [? _].
  - apply Forall_fmap. eapply Forall_impl; [exact Hf|]. by intros [[x c] b] (? & ? & _).
  - eapply Qcle_trans; [exact Hc|]. rewrite (Hsum (λ t, t.1.2) Cache) by (intros u t _ (_ & E & _); by rewrite E).
    rewrite <- (Qcmult_1_l S) at 2. by apply Qcmult_le_compat_r.
  - eapply Qcle_trans; [exact Hb|]. rewrite (Hsum (λ t, t.2) MemBw) by (intros u t _ (_ & _ & E); by rewrite E).
    rewrite <- (Qcmult_1_l (B * _)%Qc) at 2. apply Qcmult_le_compat_r; [done|].
    apply (Qcle_trans _ (0 * zq 1024)); [done|]. by apply Qcmult_le_compat_r.
Qed.

Section round.
Context (rs : scale xnum) (S B : Qc) (Hrs : limits_ok rs S B).

Lemma scale_units_ok a :
  nonneg (a_cache a) → nonneg (a_mem_bw a) →
  ∃ x, scale_units rs a = Ok x ∧ fits S B (x, qc (a_cache a), qc (a_mem_bw a)).
Proof.
  intros (c & Ec & Hc) (b & Eb & Hb). destruct Hrs as [[HS HS0] [HB HB0] _ _].
  assert (Hx : ∃ x, scale_units rs a = Ok x).
  { unfold scale_units. rewrite Ec, Eb, HS, HB.
    destruct (trunc_fin (Num c * Num S)%py) as (zc & -> & _); [fin_auto|].
    destruct (trunc_fin (Num b * Num B * of_Z 1024)%py) as (zb & Hzb & _); [fin_auto|].
    cbn [mbind res_bind]. rewrite Hzb. eauto. }
  destruct Hx as [x Hx]. exists x. split; [done|]. rewrite Ec, Eb. simpl.
  eapply (scale_units_fits rs S B c b (a_price a)); try done; try by apply Qclt_le_weak.
  rewrite <- Hx. unfold scale_units. by rewrite Ec, Eb.
Qed.

(** The loop of lines 326-342. *)
Lemma record_ok l al d :
  NoDup (dkeys l) → stored_nn l → stored_nn d →
  ∃ al' d', for_all (record_user rs) l (al, d) = Ok (al', d') ∧ stored_nn d' ∧
    (∀ u a, dget l u = Some a → ∃ x, dget al' u = Some x ∧ fits S B (x, qc (a_cache a), qc (a_mem_bw a))) ∧
    (∀ u, u ∉ dkeys l → dget al' u = dget al u).
Proof.
  revert al d. induction l as [|[u a] l IH]; intros al d Hnd Hl Hd; [exists al, d; split; [done|]; split; [done|]; split; [by intros u a|done]|].
  rewrite dkeys_cons in Hnd. apply NoDup_cons in Hnd as [Hu Hnd].
  assert (Ha : nonneg (a_cache a) ∧ nonneg (a_mem_bw a)) by (apply (Hl u); simpl; by rewrite decide_True).
  destruct Ha as [Hac Hab]. destruct (scale_units_ok a Hac Hab) as (x & Hx & Hf).
  set (a1 := match dget d u with Some old => a_update old a | None => a end).
  assert (Ea : a_cache a1 = a_cache a ∧ a_mem_bw a1 = a_mem_bw a) by (subst a1; by case_match).
  destruct (IH (dset al u x) (dset d u a1)) as (al' & d' & Hr & Hd' & Hget & Hkeep).
  { done. }
  { intros v b Hv. apply (Hl v). simpl. rewrite decide_False; [done|]. intros ->.
    apply Hu, dget_is_Some_keys. eauto. }
  { intros v b. rewrite dget_dset. case_decide; [intros [= <-]|apply Hd].
    destruct Ea as [-> ->]. done. }
  exists al', d'. split; [|split; [done|split]].
  - assert (Hrec : record_user rs (u, a) (al, d) = Ok (dset al u x, dset d u a1)).
    { unfold record_user. simpl. by rewrite Hx. }
    simpl. rewrite Hrec. exact Hr.
  - intros v b. simpl. case_decide as Hv; [|apply Hget]. subst v. intros [= <-]. exists x.
    split; [|done]. by rewrite Hkeep, dget_dset_eq.
  - intros v. rewrite dkeys_cons. intros [Hvu Hv]%not_elem_of_cons.
    rewrite Hkeep by done. by apply dget_dset_ne.
Qed.

(** ** One VM of a static round *)

Lemma foldl_pair n (x : units) (a : alloc xnum) (al : dict Z units) (la : dict Z (alloc xnum)) us :
  allocate_resources_for_user rs n = Ok (x, a) →
  for_all (assign_user rs n) us (al, la) =
    Ok (foldl (λ d u, dset d u x) al us, foldl (λ d u, dset d u a) la us).
Proof.
  intros Hx. revert al la. induction us as [|u us IH]; intros al la; [done|].
  assert (Ha : assign_user rs n u (al, la) = Ok (dset al u x, dset la u a)).
  { unfold assign_user. by rewrite Hx. }
  simpl. rewrite Ha. apply IH.
Qed.

Lemma equal_resources_ok n :
  (0 < n)%Z → ∃ x, allocate_resources_for_user rs n = Ok (x, inv_share n) ∧
    fits S B (x, (/ zq n)%Qc, (/ zq n)%Qc).
Proof.
  intros Hn. destruct (inv_share_pos n Hn) as [Hc Hb].
  destruct (scale_units_ok (inv_share n)) as (x & Hx & Hf); [fin_auto..|].
  exists x. split; [|done]. unfold allocate_resources_for_user. rewrite (equal_share_Num n Hn).
  destruct Hrs as [[HS _] [HB _] _ _]. rewrite (equal_units_scale n Hn rs S B HS HB), Hx. done.
Qed.

Definition acc_nn (acc : dict Z units * dict Z (alloc xnum)) : Prop := stored_nn acc.2.

(** Both dictionaries after one VM's equal shares were merged in. *)
Lemma merge_vm_run apps acc :
  NoDup apps → apps ≠ [] →
  ∃ x al la, let n := Z.of_nat (length apps) in
    merge_vm rs apps acc = Ok (al, la) ∧ fits S B (x, (/ zq n)%Qc, (/ zq n)%Qc) ∧
    (∀ u, dget al u = if decide (u ∈ apps) then Some x else dget acc.1 u) ∧
    ∀ u, dget la u = if decide (u ∈ apps) then Some (inv_share n) else dget acc.2 u.
Proof.
  intros Hnd Hne. cbv zeta. set (n := Z.of_nat (length apps)).
  assert (Hn : (0 < n)%Z) by (subst n; destruct apps; [done|simpl; lia]).
  destruct (equal_resources_ok n Hn) as (x & Hx & Hf).
  assert (Hst : static_for_vm rs apps = Ok (foldl (λ d u, dset d u x) [] apps,
    foldl (λ d u, dset d u (inv_share n)) [] apps)) by by apply foldl_pair.
  assert (Hk : ∀ {V} (v : V), dkeys (foldl (λ d u, dset d u v) [] apps) = apps).
  { intros V v. rewrite (dkeys_foldl_dset (λ _, v) apps []); [done|done|]. intros u _. apply not_elem_of_nil. }
  assert (Hg : ∀ {V} (v : V) (d : dict Z V) u,
    dget (dupdate d (foldl (λ d u, dset d u v) [] apps)) u = if decide (u ∈ apps) then Some v else dget d u).
  { intros V v d u. rewrite dget_dupdate by (by rewrite Hk).
    rewrite (dget_foldl_dset (λ _, v) apps []). by case_decide. }
  eexists x, _, _. split; [unfold merge_vm; rewrite Hst; reflexivity|]. auto.
Qed.

Lemma merge_vm_ok apps acc :
  NoDup apps → acc_nn acc →
  ∃ acc', merge_vm rs apps acc = Ok acc' ∧ acc_nn acc' ∧ vm_fits S B acc'.1 apps ∧
    ∀ u, u ∉ apps → dget acc'.1 u = dget acc.1 u.
Proof.
  intros Hnd Hacc. destruct Hrs as [[_ HS] [_ HB] _ _].
  destruct (decide (apps = [])) as [->|Hne].
  { exists acc. split; [by destruct acc|]. split; [done|]. split; [|done].
    apply (vm_fits_shares S B acc.1 [] (λ _, (0%Qc, 0%Qc))); [by apply Qclt_le_weak..|by intros []|set_solver]. }
  destruct (merge_vm_run apps acc Hnd Hne) as (x & al & la & -> & Hf & Hal & Hla).
  set (n := Z.of_nat (length apps)) in *. exists (al, la). split; [done|]. split; [|split].
  - intros u a. cbn [snd]. rewrite Hla. case_decide; [|apply Hacc]. intros [= <-].
    destruct (inv_share_pos n) as [? ?]; [subst n; destruct apps; [done|simpl; lia]|]. fin_auto.
  - apply (vm_fits_shares S B _ apps (λ _, ((/ zq n)%Qc, (/ zq n)%Qc))); [by apply Qclt_le_weak..| |].
    + intros k. unfold total. assert (E : (λ _ : Z, kq k ((/ zq n)%Qc, (/ zq n)%Qc)) = (λ _, (/ zq n)%Qc)) by (by destruct k).
      rewrite E. unfold n. rewrite equal_shares_sum by done. apply Qcle_refl.
    + intros u Hu. exists x. cbn [fst]. rewrite Hal, decide_True by done. done.
  - intros u Hu. cbn [fst]. by rewrite Hal, decide_False.
Qed.

(** ** Rounds *)

Context (est : Z → xnum → xnum → res xnum) (Hest : est_nonzero est).
Context (g : Qc) (Hg : (0 <= g)%Qc).

Definition fij_ok (s : fij xnum) : Prop :=
  (∀ d, last_allocation s = Some d → stored_nn d) ∧
  (last_allocation s = None → last_static_allocation s = None ∧ last_static_performance s = None).

(** The state of a dynamic round. *)
Definition dyn_ok (acc : dict Z units * fij xnum) : Prop :=
  ∃ d, last_allocation acc.2 = Some d ∧ stored_nn d.

Lemma fij_vm_ok mon users vm acc :
  NoDup vm.2 → dyn_ok acc →
  ∃ acc', allocate_vm rs est mon (Num g) users vm acc = Ok acc' ∧ dyn_ok acc' ∧
    vm_fits S B acc'.1 (vm_apps vm.2 users) ∧
    ∀ u, u ∉ vm_apps vm.2 users → dget acc'.1 u = dget acc.1 u.
Proof.
  intros Hnd Hd. destruct acc as [al s]. destruct Hd as (d & Hl & Hd). simpl in Hl. unfold allocate_vm.
  pose proof (NoDup_vm_apps vm.2 users Hnd) as Hnd'.
  destruct (vm_apps vm.2 users) as [|v apps] eqn:Ea.
  { exists (al, s). split; [done|]. split; [by exists d|]. split; [|done].
    destruct Hrs as [[_ HS] [_ HB] _ _].
    apply (vm_fits_shares S B al [] (λ _, (0%Qc, 0%Qc))); [by apply Qclt_le_weak..|by intros []|set_solver]. }
  rewrite <- Ea in *. rewrite Hl. cbn [or_raise mbind res_bind].
  destruct (allocate_ok rs S B Hrs est Hest g Hg mon (vm_apps vm.2 users)
    (default [] (dget (last_adjusted_users s) vm.1)) d) as (cur & adj & f & -> & Hr & Hnn & Ht);
    [by rewrite Ea|done|done|]. cbn [mbind res_bind].
  assert (Hcur : stored_nn cur).
  { intros u a Hu. assert (Hin : u ∈ vm_apps vm.2 users).
    { rewrite <- (proj1 Hr). apply dget_is_Some_keys. eauto. }
    destruct (proj2 Hr u Hin) as [p Hp]. rewrite Hu in Hp. injection Hp as ->.
    destruct (Hnn u Hin). split; simpl; eexists; done. }
  destruct (record_ok cur al d) as (al' & d' & -> & Hd' & Hget & Hkeep); [by rewrite (proj1 Hr)|done|done|].
  cbn [mbind res_bind]. eexists. split; [reflexivity|]. simpl. split; [by exists d'|]. split.
  - destruct Hrs as [[_ HS] [_ HB] _ _].
    apply (vm_fits_shares S B al' _ f); [by apply Qclt_le_weak..|done|].
    intros u Hu. destruct (proj2 Hr u Hu) as [p Hp]. by apply (Hget u) in Hp.
  - intros u Hu. apply Hkeep. by rewrite (proj1 Hr).
Qed.

(** A loop over the VMs whose body serves one VM and leaves the others. *)
Lemma serve_vms {A} (I : dict Z units * A → Prop) users (m : vm_map) body acc :
  NoDup (mapped_users m) →
  (∀ vm acc, vm ∈ m → NoDup vm.2 → I acc → ∃ acc', body vm acc = Ok acc' ∧ I acc' ∧
    vm_fits S B acc'.1 (vm_apps vm.2 users) ∧
    ∀ u, u ∉ vm_apps vm.2 users → dget acc'.1 u = dget acc.1 u) →
  I acc →
  ∃ acc', for_all body m acc = Ok acc' ∧ I acc' ∧
    ∀ vm, vm ∈ m → vm_fits S B acc'.1 (vm_apps vm.2 users).
Proof.
  intros Hm Hbody Hacc.
  destruct (for_all_cover I (λ vm acc, vm ∈ m → vm_fits S B acc.1 (vm_apps vm.2 users)) body m acc)
    as (acc' & Hr & HI & Hall & _); [|done|by exists acc'; auto].
  intros vm t Hvm Ht. destruct (Hbody vm t Hvm (vm_NoDup m Hm vm Hvm) Ht) as (t' & Hb & Ht' & Hfit & Hkeep).
  exists t'. split; [done|]. split; [done|]. split; [done|].
  intros q Hq Hqm. destruct (decide (q = vm)) as [->|Hne]; [done|].
  eapply vm_fits_ext; [|by apply Hq]. intros u Hu. apply Hkeep. intros Hu'. apply Hne.
  apply elem_of_vm_apps in Hu as [Hu _], Hu' as [Hu' _]. by apply (vm_disjoint m Hm _ _ u).
Qed.
End round.

(** ** All reachable states *)

Section reach.
Context (rs : scale xnum) (S B : Qc) (Hrs : limits_ok rs S B).
Context (interval : Z) (g : Qc) (Hg : (0 <= g)%Qc).
Context (users : list Z) (Husers : NoDup users) (num_vms : Z) (Hvms : num_vms ≠ 0%Z).

Lemma update_performance_ok mon s :
  fij_ok s → ∃ s', update_last_static_performance rs users mon s = Ok s' ∧ fij_ok s'.
Proof.
  intros [Hl Hn]. unfold update_last_static_performance.
  destruct (last_static_allocation s) as [st|] eqn:Es; 
    [|exists s; split; [done|]; split; [done|by rewrite Es]].
  destruct (last_allocation s) as [d|] eqn:El; [|by destruct (Hn eq_refl)]. simpl.
  case_match; eexists; (split; [reflexivity|]); (split; simpl; rewrite ?El; [done|by intros [=]]).
Qed.

Lemma static_round mon complete :
  NoDup (mapped_users mon) →
  ∃ acc, static_allocation rs users mon complete num_vms = Ok acc ∧ acc_nn acc ∧
    (complete = true → ∀ vm, vm ∈ mon → vm_fits S B acc.1 (vm_apps vm.2 users)).
Proof.
  intros Hm. unfold static_allocation. assert (H0 : acc_nn ([], [])) by (by intros u a).
  destruct complete.
  - destruct (serve_vms S B acc_nn users mon (λ vm, merge_vm rs (vm_apps vm.2 users)) ([], []) Hm)
      as (acc & -> & HI & Hfit); [|done|by exists acc].
    intros vm acc _ Hnd Hacc. apply (merge_vm_ok rs S B Hrs); [by apply NoDup_vm_apps|done].
  - unfold users_per_vm, py_floordiv. rewrite (proj2 (Z.eqb_neq _ _)) by done. cbn [mbind res_bind].
    set (per := Z.max 1 _).
    destruct (for_all_total acc_nn (λ i, merge_vm rs (flat_slice users num_vms per i)) (seqZ 0 num_vms) ([], []))
      as (acc & -> & Hacc); [|done|by exists acc].
    intros i t _ Ht. destruct (merge_vm_ok rs S B Hrs (flat_slice users num_vms per i) t) as (t' & ? & ? & _).
    { eapply sublist_NoDup; [exact Husers|]. unfold flat_slice.
      etrans; [apply sublist_take|apply sublist_drop]. }
    { done. }
    by exists t'.
Qed.

(** What a round gives the VMs of a complete map. *)
Definition round_fits (mon : vm_map) (al : dict Z units) : Prop :=
  is_complete_vm_map mon users = true → ∀ vm, vm ∈ mon → vm_fits S B al (vm_apps vm.2 users).

Lemma round_ok est skip mon s :
  est_nonzero est → NoDup (mapped_users (vm_to_app_map mon)) → fij_ok s →
  ∃ al s', allocate_and_parse rs interval est (Num g) skip users num_vms mon s = Ok (al, s') ∧
    fij_ok s' ∧ round_fits (vm_to_app_map mon) al.
Proof.
  intros Hest Hm Hs. unfold allocate_and_parse, round_fits. cbv zeta.
  set (m := vm_to_app_map mon) in *. destruct (is_complete_vm_map m users) eqn:Ec.
  - destruct (update_performance_ok mon s Hs) as (s1 & -> & Hs1). cbn [mbind res_bind].
    destruct (is_static_allocation interval skip users (total_record_of mon) s1) eqn:Est; cbn [orb negb].
    + destruct (static_round m true Hm) as ([al la] & -> & Hnn & Hfit). cbn [mbind res_bind].
      exists al. eexists. split; [reflexivity|]. split; [|by auto].
      split; simpl; [by intros d [= <-]|done].
    + assert (Hd : dyn_ok ([], s1)).
      { destruct Hs1 as [Hl Hn]. destruct (last_allocation s1) as [d|] eqn:El.
        - exists d. split; [done|]. by apply Hl.
        - exfalso. destruct (Hn eq_refl) as [_ Hp]. unfold is_static_allocation in Est. by rewrite Hp in Est. }
      destruct (serve_vms S B dyn_ok users m (allocate_vm rs est mon (Num g) users) ([], s1) Hm)
        as ([al s2] & -> & (d & Hl & Hd2) & Hfit); [|done|].
      { intros vm acc _ Hnd Hacc. by apply fij_vm_ok. }
      exists al, s2. split; [done|]. split; [|by auto]. simpl in Hl.
      split; [by intros d' Hd'; rewrite Hl in Hd'; injection Hd' as <-|by rewrite Hl].
  - cbn [mbind res_bind negb]. rewrite orb_true_r.
    destruct (static_round m false Hm) as ([al la] & -> & Hnn & _). cbn [mbind res_bind].
    exists al. eexists. split; [reflexivity|]. split; [|done].
    split; simpl; [by intros d [= <-]|done].
Qed.

(** The allocator's states over any sequence of rounds, with any monitor and
    any estimator in each. *)
Inductive fij_reach : fij xnum → Prop :=
  | fij_new : fij_reach new_fij
  | fij_round est skip mon s al s' :
      est_nonzero est → NoDup (mapped_users (vm_to_app_map mon)) → fij_reach s →
      allocate_and_parse rs interval est (Num g) skip users num_vms mon s = Ok (al, s') →
      fij_reach s'.

Lemma fij_reach_ok s : fij_reach s → fij_ok s.
Proof.
  induction 1 as [|est skip mon s al s' Hest Hm _ IH Hr]; [by split|].
  destruct (round_ok est skip mon s Hest Hm IH) as (al1 & s1 & Hr' & Hok & _). congruence.
Qed.

(** C22: in exact arithmetic, with an estimator that never predicts a
    performance of 0, as the runtime estimator ([runtime_estimator_nonzero]),
    every round of the trading allocator returns, whatever was reported
    before, and on a complete VM map the units it gives the applications of a
    VM add up to at most the VM's cache and bandwidth. *)
Theorem fij_round_fits est skip mon s :
  est_nonzero est → NoDup (mapped_users (vm_to_app_map mon)) → fij_reach s →
  ∃ al s', allocate_and_parse rs interval est (Num g) skip users num_vms mon s = Ok (al, s') ∧
    fij_reach s' ∧ round_fits (vm_to_app_map mon) al.
Proof.
  intros Hest Hm Hs. destruct (round_ok est skip mon s Hest Hm (fij_reach_ok s Hs)) as (al & s' & Hr & _ & Hf).
  exists al, s'. split; [done|]. split; [by eapply fij_round|done].
Qed.
End reach.

(** In exact arithmetic, the exchange of a trade creates and destroys nothing: for shares that
    add up to at most one, the whole allocation of a VM is the traded one (its
    normalisation does nothing), and each resource's total is unchanged. *)
Theorem trade_conserves mon last rs S B g users adjusted cur f c b :
  limits_ok rs S B → (0 <= g)%Qc → stored_nn last → NoDup users → repr users cur f → nn users f →
  trades rs (Num g) users adjusted cur c b → (∀ k, (total k users f <= 1)%Qc) →
  ∃ cur' f', trade_resources rs mon last (Num g) c b cur = Ok cur' ∧ repr users cur' f' ∧
    (∀ k, total k users f' = total k users f) ∧
    ∀ k, normalize k users cur' = Ok cur'.
Proof.
  intros Hrs Hg Hlast Hnd Hr Hnn Ht Hle.
  destruct (trade_ok rs S B Hrs g Hg mon last users adjusted cur f c b Hlast Hnd Hr Hnn Ht)
    as (cur' & f' & Hc & Hr' & Hnn' & Htot).
  exists cur', f'. split; [done|]. split; [done|]. split; [done|]. intros k.
  destruct (normalize_ok k users cur' f' Hnd Hr' Hnn') as (cur2 & f2 & -> & _ & _ & _ & _ & Hsame).
  by rewrite Hsame by by rewrite Htot.
Qed.
