(* ===== verification/IncTrade.v ===== *)
(** * The incremental trading allocator: allocators/inc_trade_allocator.py

    Per VM, the application that lost most against its static performance is
    given one unit of a resource from a pool; when the pool is empty, a unit
    is harvested from the application that lost least.  The performance that
    follows decides which resource is tried next. *)

From S2P Require Import Prelude PyDict PyFloat Resources Base Monitor FijTrade.

Module Inc.

Inductive direction := Up | Down.

(** An entry of [user_performances]. *)
Record performance (F : Type) := Performance {
  p_res_type : kind;
  p_direction : direction;
  p_performance : option F;
}.
Arguments Performance {F}.
Arguments p_res_type {F}.
Arguments p_direction {F}.
Arguments p_performance {F}.

(** An entry of [vm_allocation_decisions[vm_id]]. *)
Record decision (F : Type) := Decision {
  d_res_type : kind;
  d_direction : direction;
  d_performance : option F;
  d_last_updated : F;
}.
Arguments Decision {F}.
Arguments d_res_type {F}.
Arguments d_direction {F}.
Arguments d_performance {F}.
Arguments d_last_updated {F}.

(** The mutable fields of [IncrementalTradeAllocator] that are used. *)
Record inc (F : Type) := IncState {
  last_allocation : option (dict Z (alloc F));
  last_static_allocation : option (dict Z (alloc F));
  last_static_performance : option (dict Z F);
  user_performances : dict Z (performance F);
  vm_allocation_decisions : dict Z (dict Z (decision F));
  remaining_resources : price F;
  last_adjusted_users : dict Z (list Z);
}.
Arguments IncState {F}.
Arguments last_allocation {F}.
Arguments last_static_allocation {F}.
Arguments last_static_performance {F}.
Arguments user_performances {F}.
Arguments vm_allocation_decisions {F}.
Arguments remaining_resources {F}.
Arguments last_adjusted_users {F}.

Definition opposite_resource (k : kind) : kind := match k with Cache => MemBw | MemBw => Cache end.

(** [remaining_resources[res_type]] *)
Definition pool_get {F} (k : kind) (p : price F) : F :=
  match k with Cache => p_cache p | MemBw => p_mem_bw p end.
Definition pool_set {F} (k : kind) (x : F) (p : price F) : price F :=
  match k with Cache => Price x (p_mem_bw p) | MemBw => Price (p_cache p) x end.

Section operations.
Context {F : Type} `{PyFloat F}.
Local Open Scope py_scope.

Definition set_last la (s : inc F) : inc F :=
  IncState la (last_static_allocation s) (last_static_performance s) (user_performances s)
    (vm_allocation_decisions s) (remaining_resources s) (last_adjusted_users s).
Definition set_pool p (s : inc F) : inc F :=
  IncState (last_allocation s) (last_static_allocation s) (last_static_performance s)
    (user_performances s) (vm_allocation_decisions s) p (last_adjusted_users s).
Definition set_adjusted vm us (s : inc F) : inc F :=
  IncState (last_allocation s) (last_static_allocation s) (last_static_performance s)
    (user_performances s) (vm_allocation_decisions s) (remaining_resources s)
    (dset (last_adjusted_users s) vm us).

(** [vm_allocation_decisions[vm][user] = d] together with
    [user_performances[user]] *)
Definition record_decision (vm user : Z) (d : decision F) (s : inc F) : inc F :=
  IncState (last_allocation s) (last_static_allocation s) (last_static_performance s)
    (dset (user_performances s) user
       (Performance (d_res_type d) (d_direction d) (d_performance d)))
    (dset (vm_allocation_decisions s) vm
       (dset (default [] (dget (vm_allocation_decisions s) vm)) user d))
    (remaining_resources s) (last_adjusted_users s).

(** [IncrementalTradeAllocator.__init__] *)
Definition new_inc : inc F := IncState None None None [] [] (Price (of_Z 0) (of_Z 0)) [].

Context (rs : scale F) (init_phase_interval : Z).

(** ** Static allocation *)

(** [is_static_allocation] *)
Definition is_static_allocation (skip_monitoring : bool) (users : list Z)
    (total_record : Z → option Z) (s : inc F) : bool :=
  match last_static_performance s with
  | None => true
  | Some _ =>
      if skip_monitoring then
        match last_static_allocation s with None => true | Some _ => false end
      else
        bool_decide (users = []) ||
        existsb (λ u, match total_record u with
                      | None => true
                      | Some n => (n <? init_phase_interval)%Z
                      end) users
  end.

(** [_get_static_allocation_with_vm_mapping] and the two methods it calls are
    the pairwise allocator's, line by line. *)
Definition static_allocation (users : list Z) (m : vm_map) (complete : bool) (num_vms : Z)
    : res (dict Z units * dict Z (alloc F)) :=
  Fij.static_allocation rs users m complete num_vms.

(** So are these three. *)
Definition is_complete_vm_map (m : vm_map) (users : list Z) : bool := Base.is_complete_vm_map m users.

Definition initialize_allocation (users : list Z) (last : dict Z (alloc F)) : res (dict Z (alloc F)) :=
  Fij.initialize_allocation users last.

Definition normalize_allocations (users : list Z) (cur : dict Z (alloc F)) : res (dict Z (alloc F)) :=
  cur ← Fij.normalize Cache users cur;
  Fij.normalize MemBw users cur.

(** ** Performance *)

(** A user's performance under the static allocation (lines 236-276). *)
Definition static_performance (mon : monitor F) (static : alloc F) (user : Z) : option F :=
  if dmem (collected_data mon) user then
    let cache := a_cache static * s_cache rs in
    Fij.mean_near (collect_recent_measurement mon user)
      (Fij.closest (λ x, fabs (of_Z x - cache))) (a_mem_bw static * s_mem_bw rs)
  else None.

(** [_update_last_static_performance]: one user (lines 236-283) *)
Definition record_static (mon : monitor F) (static : dict Z (alloc F)) (user : Z)
    (acc : dict Z F * dict Z (performance F)) : dict Z F * dict Z (performance F) :=
  match dget static user ≫= (λ a, static_performance mon a user) with
  | Some p => (dset acc.1 user p, dset acc.2 user (Performance MemBw Up (Some p)))
  | None => acc
  end.

(** [_update_last_static_performance] *)
Definition update_last_static_performance (users : list Z) (mon : monitor F) (s : inc F)
    : res (inc F) :=
  match last_static_allocation s with
  | None => Ok s
  | Some static =>
      last ← or_raise TypeError (last_allocation s);
      if Fij.allocation_matches users last static then
        let '(perf, up) := foldl (λ acc u, record_static mon static u acc) ([], user_performances s) users in
        Ok (IncState (last_allocation s) (last_static_allocation s) (Some perf) up
              (vm_allocation_decisions s) (remaining_resources s) (last_adjusted_users s))
      else Ok s
  end.

(** [_get_current_performance] *)
Definition get_current_performance (mon : monitor F) (last : dict Z (alloc F)) (user : Z)
    : res (option F) :=
  if dmem (collected_data mon) user then
    let recent := collect_recent_measurement mon user in
    match recent, dget last user with
    | [], _ | _, None => Ok None
    | _, Some a =>
        abs_cache ← trunc (a_cache a * s_cache rs);
        Ok (Fij.mean_near recent
              (Fij.first_min (λ x y, Z.abs (x - abs_cache) <? Z.abs (y - abs_cache))%Z)
              (a_mem_bw a * s_mem_bw rs))
    end
  else Ok None.

(** ** Judging the last adjustment *)

(** The user of the VM whose decision is the most recent (lines 524-531). *)
Definition most_recent (users : list Z) (decisions : dict Z (decision F)) : option Z :=
  (foldl (λ best p,
    if bool_decide (p.1 ∈ users) && (d_last_updated p.2 >? best.2) then (Some p.1, d_last_updated p.2)
    else best) (None, of_Z 0) decisions).1.

(** Give the unit of a decision back in [last_allocation] and take it from the
    pool (lines 546-550). *)
Definition revoke (unit : F) (user : Z) (k : kind) (s : inc F) : res (inc F) :=
  last ← or_raise TypeError (last_allocation s);
  a ← dgetE last user;
  let s := set_last (Some (dset last user (a_set k (a_get k a + unit) a))) s in
  let p := remaining_resources s in
  Ok (set_pool (pool_set k (fmax (of_Z 0) (pool_get k p - unit)) p) s).

(** What the observed performance does to the user's decision
    (lines 540-570). *)
Definition judge (unit : F) (vm user : Z) (d : decision F) (perf : F) (s : inc F) : res (inc F) :=
  old ← or_raise TypeError (d_performance d);
  '(k, s) ←
    match d_direction d with
    | Down =>
        if perf <? old - lit 1 100 then
          s ← (if perf <? old - lit 1 10 then revoke unit user (d_res_type d) s else Ok s);
          Ok (opposite_resource (d_res_type d), s)
        else Ok (d_res_type d, s)
    | Up =>
        if perf <=? old - lit 1 100 then Ok (opposite_resource (d_res_type d), s)
        else Ok (d_res_type d, s)
    end;
  Ok (record_decision vm user (Decision k (d_direction d) (Some perf) (d_last_updated d)) s).

(** [_check_performance_changes] *)
Definition check_performance_changes (mon : monitor F) (unit : F) (vm : Z) (users : list Z)
    (s : inc F) : res (inc F) :=
  let decisions := default [] (dget (vm_allocation_decisions s) vm) in
  match most_recent users decisions with
  | None => Ok s
  | Some user =>
      if (user =? 0)%Z then Ok s else
      d ← dgetE decisions user;
      last ← or_raise TypeError (last_allocation s);
      perf ← get_current_performance mon last user;
      match perf with
      | None => Ok s
      | Some p => judge unit vm user d p s
      end
  end.

(** ** Whom to give, whom to take from *)

(** [_get_resource_type_for_user] *)
Definition resource_type_for_user (vm user : Z) (s : inc F) : kind :=
  match dget (vm_allocation_decisions s) vm ≫= (λ ds, dget ds user) with
  | Some d => d_res_type d
  | None =>
      match dget (user_performances s) user with
      | Some p => p_res_type p
      | None => Cache
      end
  end.

(** [cur_alloc[user][k] + unit > max_k / scale_k] *)
Definition above_max (unit : F) (k : kind) (a : alloc F) : res bool :=
  m ← or_raise KeyError (match k with Cache => s_max_cache rs | MemBw => s_max_mem_bw rs end);
  q ← m / s_get k rs;
  Ok (a_get k a + unit >? q).

(** [cur_alloc[user][k] - unit < min_k / scale_k] *)
Definition below_min (unit : F) (k : kind) (a : alloc F) : res bool :=
  m ← or_raise KeyError (match k with Cache => s_min_cache rs | MemBw => s_min_mem_bw rs end);
  q ← m / s_get k rs;
  Ok (a_get k a - unit <? q).

(** [current_perf / baseline_perf if baseline_perf > 0 else inf] *)
Definition perf_ratio (perf baseline : F) : res F :=
  if baseline >? of_Z 0 then perf / baseline else Ok finf.

(** The running result of [_find_worst_performer_for_allocation]. *)
Record worst_search := WorstSearch {
  worst_user : option Z;
  worst_ratio : F;
  performance_ratios : dict Z F;
}.

(** One user of [_find_worst_performer_for_allocation]. *)
Definition worst_step (mon : monitor F) (unit : F) (vm : Z) (adjusted : list Z)
    (cur : dict Z (alloc F)) (s : inc F) (user : Z) (w : worst_search) : res worst_search :=
  if bool_decide (user ∈ adjusted) then Ok w else
  last ← or_raise TypeError (last_allocation s);
  perf ← get_current_performance mon last user;
  match perf, last_static_performance s ≫= (λ d, dget d user) with
  | Some perf, Some baseline =>
      ratio ← perf_ratio perf baseline;
      let w := WorstSearch (worst_user w) (worst_ratio w) (dset (performance_ratios w) user ratio) in
      if ratio <? worst_ratio w then
        a ← dgetE cur user;
        above ← above_max unit (resource_type_for_user vm user s) a;
        if above : bool then Ok w
        else Ok (WorstSearch (Some user) ratio (performance_ratios w))
      else Ok w
  | _, _ => Ok w
  end.

(** [_find_worst_performer_for_allocation] *)
Definition find_worst_performer (mon : monitor F) (unit : F) (vm : Z) (users : list Z)
    (cur : dict Z (alloc F)) (s : inc F) : res worst_search :=
  for_all (worst_step mon unit vm (default [] (dget (last_adjusted_users s) vm)) cur s) users
    (WorstSearch None finf []).

(** One user of [_find_best_performer_for_harvest]; [best] is the best user so
    far and its ratio. *)
Definition best_step (unit : F) (k : kind) (adjusted : list Z) (cur : dict Z (alloc F))
    (p : Z * F) (best : option Z * F) : res (option Z * F) :=
  if bool_decide (p.1 ∈ adjusted) then Ok best
  else if p.2 >? best.2 then
    a ← dgetE cur p.1;
    below ← below_min unit k a;
    Ok (if below : bool then best else (Some p.1, p.2))
  else Ok best.

(** [_find_best_performer_for_harvest] *)
Definition find_best_performer (unit : F) (vm : Z) (k : kind) (ratios : dict Z F)
    (cur : dict Z (alloc F)) (s : inc F) : res (option Z) :=
  b ← for_all (best_step unit k (default [] (dget (last_adjusted_users s) vm)) cur) ratios (None, fninf);
  Ok b.1.

(** ** Adjusting *)

(** [cur_alloc[user][k] = f(cur_alloc[user][k])] *)
Definition adjust (k : kind) (f : F → F) (user : Z) (cur : dict Z (alloc F)) : res (dict Z (alloc F)) :=
  a ← dgetE cur user;
  Ok (dset cur user (a_set k (f (a_get k a)) a)).

(** [_allocate_resources]; [now] is [time.time()].  The flag says whether an
    allocation was made. *)
Definition allocate_resources (mon : monitor F) (now unit : F) (vm worst : Z) (k : kind)
    (cur : dict Z (alloc F)) (s : inc F) : res (bool * dict Z (alloc F) * inc F) :=
  let p := remaining_resources s in
  if pool_get k p >? of_Z 0 then
    let s := set_pool (pool_set k (pool_get k p - unit) p) s in
    last ← or_raise TypeError (last_allocation s);
    old ← get_current_performance mon last worst;
    cur ← adjust k (λ x, x + unit) worst cur;
    Ok (true, cur, record_decision vm worst (Decision k Up old now) s)
  else Ok (false, cur, s).

(** [_harvest_resources] *)
Definition harvest_resources (mon : monitor F) (now unit : F) (vm : Z) (k : kind)
    (ratios : dict Z F) (cur : dict Z (alloc F)) (s : inc F)
    : res (option Z * dict Z (alloc F) * inc F) :=
  best ← find_best_performer unit vm k ratios cur s;
  match best with
  | None => Ok (None, cur, s)
  | Some user =>
      last ← or_raise TypeError (last_allocation s);
      old ← get_current_performance mon last user;
      cur ← adjust k (λ x, if x - unit <? of_Z 0 then of_Z 0 else x - unit) user cur;
      let p := remaining_resources s in
      let s := set_pool (pool_set k (pool_get k p + unit) p) s in
      Ok (Some user, cur, record_decision vm user (Decision (opposite_resource k) Down old now) s)
  end.

(** [if vm_id not in ...: ... = {} / set()] (lines 400-406) *)
Definition ensure_vm (vm : Z) (s : inc F) : inc F :=
  IncState (last_allocation s) (last_static_allocation s) (last_static_performance s)
    (user_performances s) (dsetdefault (vm_allocation_decisions s) vm []) (remaining_resources s)
    (dsetdefault (last_adjusted_users s) vm []).

(** [allocate]: one VM's allocation and the new state *)
Definition allocate (mon : monitor F) (now unit : F) (vm : Z) (users : list Z) (s : inc F)
    : res (dict Z (alloc F) * inc F) :=
  let s := ensure_vm vm s in
  last ← or_raise TypeError (last_allocation s);
  cur ← initialize_allocation users last;
  s ← check_performance_changes mon unit vm users s;
  w ← find_worst_performer mon unit vm users cur s;
  match worst_user w with
  | None => Ok (cur, s)
  | Some worst =>
      let k := resource_type_for_user vm worst s in
      '(made, cur, s) ← allocate_resources mon now unit vm worst k cur s;
      '(cur, s) ←
        (if made : bool then Ok (cur, set_adjusted vm [worst] s)
         else
           '(best, cur, s) ← harvest_resources mon now unit vm k (performance_ratios w) cur s;
           Ok (cur, set_adjusted vm (match best with Some u => [u] | None => [] end) s));
      cur ← normalize_allocations users cur;
      Ok (cur, s)
  end.

(** ** A whole round *)

(** One VM of the dynamic branch (lines 319-367); [clock vm] is the time of
    the VM's adjustment. *)
Definition allocate_vm (mon : monitor F) (clock : Z → F) (unit : F) (users : list Z)
    (vm : Z * list Z) (acc : dict Z units * inc F) : res (dict Z units * inc F) :=
  let '(allocation, s) := acc in
  match vm_apps vm.2 users with
  | [] => Ok acc
  | apps =>
      '(cur, s) ← allocate mon (clock vm.1) unit vm.1 apps s;
      last ← or_raise TypeError (last_allocation s);
      '(allocation, last) ← for_all (Fij.record_user rs) cur (allocation, last);
      Ok (allocation, set_last (Some last) s)
  end.

(** [allocate_and_parse] *)
Definition allocate_and_parse (clock : Z → F) (unit : F) (skip_monitoring : bool) (users : list Z)
    (num_vms : Z) (mon : monitor F) (s : inc F) : res (dict Z units * inc F) :=
  let m := vm_to_app_map mon in
  let complete := is_complete_vm_map m users in
  s ← (if complete then update_last_static_performance users mon s else Ok s);
  if is_static_allocation skip_monitoring users (total_record_of mon) s || negb complete then
    '(al, last) ← static_allocation users m complete num_vms;
    Ok (al, IncState (Some last) (Some last) (last_static_performance s) (user_performances s)
              (vm_allocation_decisions s) (remaining_resources s) (last_adjusted_users s))
  else for_all (allocate_vm mon clock unit users) m ([], s).
End operations.

Arguments worst_search : clear implicits.
End Inc.
