(* ===== verification/IncFacts.v ===== *)
(** * Whom the incremental allocator serves, and when it stops

    For any floats: the user given a unit lost most among those that may take
    one, the user harvested lost least among those that may give one; and a
    VM whose applications were all adjusted in its last adjustment is not
    adjusted again by any round of the dynamic branch. *)

From S2P Require Import Prelude PyDict PyFloat Resources Base Monitor FijTrade IncTrade.
Import Inc.

(** The users adjusted in the VM's last adjustment. *)
Definition adjusted_in {F} (vm : Z) (s : inc F) : list Z := default [] (dget (last_adjusted_users s) vm).

Section search.
Context {F : Type} `{PyFloatLaws F}.
Context (rs : scale F) (mon : monitor F) (unit : F) (vm : Z) (cur : dict Z (alloc F)) (s : inc F).

(** User [u] has the performance ratio [r]. *)
Definition has_ratio (u : Z) (r : F) : Prop :=
  ∃ last perf baseline, last_allocation s = Some last ∧
    get_current_performance rs mon last u = Ok (Some perf) ∧
    last_static_performance s ≫= (λ d, dget d u) = Some baseline ∧
    perf_ratio perf baseline = Ok r.

Lemma has_ratio_fun u r r' : has_ratio u r → has_ratio u r' → r = r'.
Proof.
  intros (la & p & b & E1 & E2 & E3 & E4) (la' & p' & b' & E1' & E2' & E3' & E4'). congruence.
Qed.

(** [u] may take a unit of the resource chosen for it. *)
Definition may_take (u : Z) : Prop :=
  ∃ a, dget cur u = Some a ∧ above_max rs unit (resource_type_for_user vm u s) a = Ok false.

(** [u] may give a unit of [k]. *)
Definition may_give (k : kind) (u : Z) : Prop :=
  ∃ a, dget cur u = Some a ∧ below_min rs unit k a = Ok false.

Record worst_ok (adjusted seen : list Z) (w : worst_search F) : Prop := {
  wo_ratios : ∀ u r, (u, r) ∈ performance_ratios w → u ∈ seen ∧ (u ∉ adjusted) ∧ has_ratio u r;
  wo_user : ∀ u, worst_user w = Some u →
    u ∈ seen ∧ (u ∉ adjusted) ∧ has_ratio u (worst_ratio w) ∧ may_take u;
  wo_least : ∀ u r, u ∈ seen → u ∉ adjusted → has_ratio u r → may_take u →
    fltb r (worst_ratio w) = false;
}.

Lemma worst_step_ok adjusted seen u w w' :
  worst_ok adjusted seen w → worst_step rs mon unit vm adjusted cur s u w = Ok w' →
  worst_ok adjusted (seen ++ [u]) w'.
Proof.
  intros [Hr Hu Hl] Hs. unfold worst_step in Hs.
  assert (Hskip : (∀ r, u ∉ adjusted → has_ratio u r → may_take u → fltb r (worst_ratio w) = false) →
    worst_ok adjusted (seen ++ [u]) w).
  { intros Hno. split.
    - intros v r Hv. destruct (Hr v r Hv) as (? & ? & ?). split; [set_solver|done].
    - intros v Hv. destruct (Hu v Hv) as (? & ? & ? & ?). split; [set_solver|done].
    - intros v r [Hv| ->%list_elem_of_singleton]%elem_of_app; [by apply Hl|by apply Hno]. }
  case_bool_decide as Had; [injection Hs as <-; apply Hskip; by intros|].
  apply bind_Ok in Hs as (last & Hlast & Hs). apply or_raise_Ok in Hlast.
  apply bind_Ok in Hs as (perf & Hperf & Hs).
  destruct perf as [perf|]; [|injection Hs as <-; apply Hskip;
    intros r _ (la & p & b & E1 & E2 & _); congruence].
  destruct (last_static_performance s ≫= (λ d, dget d u)) as [base|] eqn:Eb;
    [|injection Hs as <-; apply Hskip; intros r _ (la & p & b & E1 & E2 & E3 & _); congruence].
  apply bind_Ok in Hs as (ratio & Hratio & Hs).
  assert (Hhas : has_ratio u ratio) by (exists last, perf, base; done).
  assert (Hin : ∀ (wu : option Z) wr v r,
    (v, r) ∈ performance_ratios (WorstSearch wu wr (dset (performance_ratios w) u ratio)) →
    v ∈ seen ++ [u] ∧ (v ∉ adjusted) ∧ has_ratio v r).
  { intros wu wr v r Hv. simpl in Hv. apply dset_elem in Hv as [[= -> ->]|Hv]; [set_solver|].
    destruct (Hr v r Hv) as (? & ? & ?). set_solver. }
  cbn [worst_ratio] in Hs. destruct (fltb ratio (worst_ratio w)) eqn:Elt.
  - apply bind_Ok in Hs as (a & Ha & Hs). apply or_raise_Ok in Ha.
    apply bind_Ok in Hs as (above & Habove & Hs). destruct above; injection Hs as <-.
    + split; [apply Hin| |].
      * intros v Hv. destruct (Hu v Hv) as (? & ? & ? & ?). split; [set_solver|done].
      * intros v r [Hv| ->%list_elem_of_singleton]%elem_of_app Hva Hvr Ht; [by apply (Hl v)|].
        destruct Ht as (a' & Ha' & Hab). congruence.
    + split; [apply Hin| |].
      * intros v [= <-]. split; [set_solver|]. split; [done|]. split; [done|]. by exists a.
      * intros v r [Hv| ->%list_elem_of_singleton]%elem_of_app Hva Hvr Ht; simpl.
        -- apply (ltb_false_lt _ (worst_ratio w)); [by eapply Hl|done].
        -- rewrite (has_ratio_fun u r ratio); [apply ltb_irrefl|done|done].
  - injection Hs as <-. split; [apply Hin| |].
    + intros v Hv. destruct (Hu v Hv) as (? & ? & ? & ?). split; [set_solver|done].
    + intros v r [Hv| ->%list_elem_of_singleton]%elem_of_app Hva Hvr Ht; [by apply (Hl v)|].
      by rewrite (has_ratio_fun u r ratio).
Qed.

Lemma find_worst_ok users w :
  find_worst_performer rs mon unit vm users cur s = Ok w → worst_ok (adjusted_in vm s) users w.
Proof.
  unfold find_worst_performer. fold (adjusted_in vm s).
  assert (Hgen : ∀ us seen w0, worst_ok (adjusted_in vm s) seen w0 →
    for_all (worst_step rs mon unit vm (adjusted_in vm s) cur s) us w0 = Ok w →
    worst_ok (adjusted_in vm s) (seen ++ us) w).
  { induction us as [|u us IH]; intros seen w0 Hw Hr; simpl in Hr.
    - injection Hr as <-. by rewrite app_nil_r.
    - apply bind_Ok in Hr as (w1 & Hs & Hr). change (seen ++ u :: us) with (seen ++ [u] ++ us).
      rewrite app_assoc. eapply IH; [|exact Hr]. by eapply worst_step_ok. }
  intros Hr. apply (Hgen users [] (WorstSearch None finf [])); [|done].
  split; simpl; [set_solver|done|set_solver].
Qed.

Record best_ok (k : kind) (adjusted : list Z) (seen : list (Z * F)) (best : option Z * F) : Prop := {
  bo_user : ∀ u, best.1 = Some u → (u, best.2) ∈ seen ∧ (u ∉ adjusted) ∧ may_give k u;
  bo_most : ∀ p, p ∈ seen → p.1 ∉ adjusted → may_give k p.1 → fltb best.2 p.2 = false;
}.

Lemma best_step_ok k adjusted seen p best best' :
  best_ok k adjusted seen best → best_step rs unit k adjusted cur p best = Ok best' →
  best_ok k adjusted (seen ++ [p]) best'.
Proof.
  intros [Hu Hm] Hs. unfold best_step in Hs.
  assert (Hskip : (p.1 ∉ adjusted → may_give k p.1 → fltb best.2 p.2 = false) →
    best_ok k adjusted (seen ++ [p]) best).
  { intros Hno. split; [intros u E; destruct (Hu u E) as (? & ? & ?); set_solver|].
    intros q [Hq| ->%list_elem_of_singleton]%elem_of_app; auto. }
  case_bool_decide; [injection Hs as <-; apply Hskip; done|].
  destruct (fltb best.2 p.2) eqn:Elt; [|injection Hs as <-; by apply Hskip].
  apply bind_Ok in Hs as (a & Ha & Hs). apply or_raise_Ok in Ha.
  apply bind_Ok in Hs as (below & Hb & Hs). destruct below; injection Hs as <-.
  - apply Hskip. intros _ (a' & Ha' & Hb'). congruence.
  - split; simpl.
    + intros u [= <-]. split; [destruct p; set_solver|]. split; [done|]. by exists a.
    + intros q [Hq| ->%list_elem_of_singleton]%elem_of_app Hqa Hg; [|apply ltb_irrefl].
      destruct (fltb p.2 q.2) eqn:E; [|done]. rewrite <- (Hm q Hq Hqa Hg). symmetry.
      by eapply ltb_trans.
Qed.

Lemma find_best_ok k ratios o :
  find_best_performer rs unit vm k ratios cur s = Ok o →
  ∃ r, best_ok k (adjusted_in vm s) ratios (o, r).
Proof.
  unfold find_best_performer. fold (adjusted_in vm s). intros Hf.
  apply bind_Ok in Hf as ([o' r] & Hf & [= <-]). exists r.
  assert (Hgen : ∀ ps seen b0, best_ok k (adjusted_in vm s) seen b0 →
    for_all (best_step rs unit k (adjusted_in vm s) cur) ps b0 = Ok (o', r) →
    best_ok k (adjusted_in vm s) (seen ++ ps) (o', r)).
  { induction ps as [|p ps IH]; intros seen b0 Hb Hr; simpl in Hr.
    - injection Hr as ->. by rewrite app_nil_r.
    - apply bind_Ok in Hr as (b1 & Hs & Hr). change (seen ++ p :: ps) with (seen ++ [p] ++ ps).
      rewrite app_assoc. eapply IH; [|exact Hr]. by eapply best_step_ok. }
  apply (Hgen ratios [] (None, fninf)); [|done]. split; simpl; [done|set_solver].
Qed.
End search.

(** ** What an idle round leaves unchanged *)

Section frame.
Context {F : Type} `{PyFloat F}.
Context (rs : scale F).
Implicit Types (s : inc F) (d : dict Z (alloc F)).

(** The same cache and bandwidth share. *)
Definition same_alloc (a b : alloc F) : Prop := a_cache a = a_cache b ∧ a_mem_bw a = a_mem_bw b.

#[export] Instance same_alloc_equiv : Equivalence same_alloc.
Proof. split; [done|by intros a b []|]. intros a b c [] []. split; congruence. Qed.

Lemma a_update_same old new : same_alloc (a_update old new) new.
Proof. done. Qed.

(** [last_allocation] after a VM's shares were stored. *)
Lemma record_users_last (cur : dict Z (alloc F)) al d al' d' :
  NoDup (dkeys cur) → for_all (Fij.record_user rs) cur (al, d) = Ok (al', d') →
  (∀ u a, dget cur u = Some a → ∃ a', dget d' u = Some a' ∧ same_alloc a' a) ∧
  ∀ u, dget cur u = None → dget d' u = dget d u.
Proof.
  revert al d. induction cur as [|[u a] cur IH]; intros al d Hnd Hr; simpl in Hr.
  { injection Hr as <- <-. done. }
  rewrite dkeys_cons in Hnd. apply NoDup_cons in Hnd as [Hu Hnd].
  apply bind_Ok in Hr as ([al1 d1] & Hs & Hr). unfold Fij.record_user in Hs. simpl in Hs.
  apply bind_Ok in Hs as (x & _ & [= <- <-]).
  destruct (IH _ _ Hnd Hr) as [Hget Hkeep]. apply dget_None_keys in Hu. split.
  - intros v b. simpl. case_decide as Ev; [|apply Hget]. subst v. intros [= <-].
    rewrite (Hkeep u Hu), dget_dset_eq. eexists. split; [done|]. by case_match.
  - intros v. simpl. case_decide as Ev; [done|]. intros Hv. rewrite (Hkeep v Hv).
    by apply dget_dset_ne.
Qed.

(** The pool aside, judging a decision changes [last_allocation] of its own
    user only. *)
Lemma check_frame mon unit vm users s s' :
  check_performance_changes rs mon unit vm users s = Ok s' →
  last_adjusted_users s' = last_adjusted_users s ∧
  last_static_performance s' = last_static_performance s ∧
  last_static_allocation s' = last_static_allocation s ∧
  ∀ d, last_allocation s = Some d → ∃ d', last_allocation s' = Some d' ∧
    (∀ u, u ∉ users → dget d' u = dget d u) ∧
    ∀ u, is_Some (dget d' u) ↔ is_Some (dget d u).
Proof.
  assert (Hid : last_adjusted_users s = last_adjusted_users s ∧
    last_static_performance s = last_static_performance s ∧
    last_static_allocation s = last_static_allocation s ∧
    ∀ d, last_allocation s = Some d → ∃ d', last_allocation s = Some d' ∧
    (∀ u, u ∉ users → dget d' u = dget d u) ∧ ∀ u, is_Some (dget d' u) ↔ is_Some (dget d u))
    by (do 3 (split; [done|]); intros d Hd; by exists d).
  unfold check_performance_changes. intros Hc.
  destruct (most_recent users (default [] (dget (vm_allocation_decisions s) vm))) as [u|] eqn:Em;
    [|by injection Hc as <-].
  destruct (u =? 0)%Z; [by injection Hc as <-|].
  apply bind_Ok in Hc as (dec & _ & Hc). apply bind_Ok in Hc as (d & Hd & Hc).
  apply or_raise_Ok in Hd. apply bind_Ok in Hc as (o & _ & Hc).
  destruct o as [p|]; [|by injection Hc as <-].
  assert (Hu : u ∈ users).
  { revert Em. unfold most_recent.
    assert (Hgen : ∀ l (b : option Z * F), (∀ v, b.1 = Some v → v ∈ users) →
      ∀ v, (foldl (λ best p, if bool_decide (p.1 ∈ users) && fltb best.2 (d_last_updated p.2)
        then (Some p.1, d_last_updated p.2) else best) b l).1 = Some v → v ∈ users).
    { induction l as [|q l IH]; intros b Hb v; simpl; [apply Hb|]. apply IH.
      case_bool_decide; simpl; [|apply Hb]. case_match; [|apply Hb]. by intros ? [= <-]. }
    apply Hgen. done. }
  unfold judge in Hc. apply bind_Ok in Hc as (old & _ & Hc).
  apply bind_Ok in Hc as ([k s1] & Hk & [= <-]). simpl.
  assert (Hs1 : s1 = s ∨ ∃ k', revoke unit u k' s = Ok s1).
  { destruct (d_direction dec).
    - case_match; injection Hk as _ <-; auto.
    - case_match; [|injection Hk as _ <-; auto].
      apply bind_Ok in Hk as (s2 & Hk & [= _ <-]). case_match; [eauto|injection Hk as <-; auto]. }
  destruct Hs1 as [->|[k' Hrev]]; [exact Hid|].
  unfold revoke in Hrev. apply bind_Ok in Hrev as (d1 & Hd1 & Hrev). apply or_raise_Ok in Hd1.
  apply bind_Ok in Hrev as (a & Ha & [= <-]). apply or_raise_Ok in Ha. simpl.
  do 3 (split; [done|]). intros d2 Hd2. rewrite Hd1 in Hd2. injection Hd2 as <-.
  eexists. split; [done|]. split.
  - intros v Hv. apply dget_dset_ne. by intros ->.
  - intros v. rewrite dget_dset. case_decide as E; [|done]. subst v. rewrite Ha. split; by eauto.
Qed.

(** ** Rounds in which nobody is served *)

(** In [s] every application of [apps] has the shares it has in [s0]. *)
Definition same_shares (apps : list Z) s0 s : Prop :=
  ∃ d0 d, last_allocation s0 = Some d0 ∧ last_allocation s = Some d ∧
    ∀ u, u ∈ apps → ∃ a0 a, dget d0 u = Some a0 ∧ dget d u = Some a ∧ same_alloc a a0.

Definition has_shares (apps : list Z) s : Prop :=
  ∃ d, last_allocation s = Some d ∧ ∀ u, u ∈ apps → is_Some (dget d u).

Lemma initialize_keeps apps d cur :
  Fij.initialize_allocation apps d = Ok cur → NoDup apps →
  dkeys cur = apps ∧
  ∀ u, u ∈ apps → ∃ a, dget cur u = Some a ∧ ∀ a0, dget d u = Some a0 → same_alloc a a0.
Proof.
  unfold Fij.initialize_allocation. intros Hi Hnd. apply bind_Ok in Hi as (q & _ & [= <-]).
  split; [rewrite (dkeys_foldl_dset _ apps []); [done|done|]; intros u _; apply not_elem_of_nil|].
  intros u Hu. rewrite (dget_foldl_dset _ apps []), decide_True by done. eexists. split; [done|].
  intros a0 ->. done.
Qed.

(** When no user is found to serve, a VM's round stores the shares the VM had
    before it: whatever the judgement of the last decision added to
    [last_allocation] is overwritten. *)
Lemma idle_round mon clock unit users vm al s al' s' :
  NoDup vm.2 → has_shares (vm_apps vm.2 users) s → vm_apps vm.2 users ≠ [] →
  (∀ cur s1, check_performance_changes rs mon unit vm.1 (vm_apps vm.2 users) (ensure_vm vm.1 s) = Ok s1 →
    ∃ w, find_worst_performer rs mon unit vm.1 (vm_apps vm.2 users) cur s1 = Ok w ∧ worst_user w = None) →
  allocate_vm rs mon clock unit users vm (al, s) = Ok (al', s') →
  same_shares (vm_apps vm.2 users) s s' ∧
  ∃ s1, check_performance_changes rs mon unit vm.1 (vm_apps vm.2 users) (ensure_vm vm.1 s) = Ok s1 ∧
    remaining_resources s' = remaining_resources s1 ∧ last_adjusted_users s' = last_adjusted_users s1.
Proof.
  intros Hnd (d & Hd & Hall) Hne Hidle Hr. pose proof (NoDup_vm_apps _ users Hnd) as Hnd'.
  unfold allocate_vm in Hr. destruct (vm_apps vm.2 users) as [|v apps] eqn:Ea; [done|].
  rewrite <- Ea in *. clear Hne. unfold allocate in Hr. cbn [ensure_vm last_allocation] in Hr.
  rewrite Hd in Hr. cbn [or_raise mbind res_bind] in Hr.
  apply bind_Ok in Hr as ([cur s2] & Hal & Hr).
  apply bind_Ok in Hal as (cur0 & Hi & Hal). apply bind_Ok in Hal as (s1 & Hc & Hal).
  destruct (Hidle cur0 s1 Hc) as (w & Hw & Hnone). rewrite Hw in Hal. cbn [mbind res_bind] in Hal.
  rewrite Hnone in Hal. injection Hal as <- <-.
  destruct (check_frame _ _ _ _ _ _ Hc) as (_ & _ & _ & Hlast).
  destruct (Hlast d Hd) as (d1 & Hd1 & _). rewrite Hd1 in Hr. cbn [or_raise mbind res_bind] in Hr.
  apply bind_Ok in Hr as ([al2 d2] & Hrec & [= <- <-]).
  destruct (initialize_keeps _ _ _ Hi Hnd') as [Hk Hcur].
  split; [|by exists s1].
  exists d, d2. split; [done|]. split; [done|]. intros u Hu.
  destruct (Hcur u Hu) as (a & Ea1 & Hsame). destruct (Hall u Hu) as [a0 Ea0].
  destruct (record_users_last cur0 al d1 al2 d2) as [Hget _]; [by rewrite Hk|done|].
  destruct (Hget u a Ea1) as (a' & Ea' & Hs'). exists a0, a'. split; [done|]. split; [done|].
  etrans; [exact Hs'|by apply Hsame].
Qed.
End frame.

(** ** What a VM's round leaves of the others *)

Section others.
Context {F : Type} `{PyFloat F}.
Context (rs : scale F).
Implicit Types (s : inc F) (cur d : dict Z (alloc F)).

Lemma dkeys_dset_present {V} (d : dict Z V) k v x : dget d k = Some x → dkeys (dset d k v) = dkeys d.
Proof. intros Hk. rewrite dkeys_dset. by rewrite (proj2 (dmem_true d k) (proj1 (dget_is_Some_keys d k) (ex_intro _ _ Hk))). Qed.

Lemma adjust_keys k f u cur cur' : adjust k f u cur = Ok cur' → dkeys cur' = dkeys cur.
Proof.
  unfold adjust. intros Ha. apply bind_Ok in Ha as (a & Ha & [= <-]). apply or_raise_Ok in Ha.
  by eapply dkeys_dset_present.
Qed.

Lemma normalize_keys k us cur cur' : Fij.normalize k us cur = Ok cur' → dkeys cur' = dkeys cur.
Proof.
  unfold Fij.normalize. intros Hn. apply bind_Ok in Hn as (l & _ & Hn).
  case_match; [|by injection Hn as <-].
  revert Hn. apply (for_all_inv (λ c, dkeys c = dkeys cur)); [|done].
  intros u c c' _ E Hd. unfold Fij.divide_share in Hd. apply bind_Ok in Hd as (x & Hx & Hd).
  apply bind_Ok in Hd as (y & _ & [= <-]). apply or_raise_Ok in Hx. rewrite <- E. by eapply dkeys_dset_present.
Qed.

(** What the state keeps when the VM [q] with the applications [us] is served:
    the shares of other users, and whom other VMs adjusted last. *)
Definition keeps_others (q : Z) (us : list Z) s s' : Prop :=
  (∀ k, k ≠ q → adjusted_in k s' = adjusted_in k s) ∧
  ∀ d, last_allocation s = Some d → ∃ d', last_allocation s' = Some d' ∧
    ∀ u, u ∉ us → dget d' u = dget d u.

Lemma keeps_others_trans q us s1 s2 s3 :
  keeps_others q us s1 s2 → keeps_others q us s2 s3 → keeps_others q us s1 s3.
Proof.
  intros [A1 L1] [A2 L2]. split; [intros k Hk; by rewrite A2, A1|].
  intros d Hd. destruct (L1 d Hd) as (d1 & Hd1 & E1). destruct (L2 d1 Hd1) as (d2 & Hd2 & E2).
  exists d2. split; [done|]. intros u Hu. by rewrite E2, E1.
Qed.

(** A step that keeps both fields. *)
Lemma keeps_same q us s s' :
  last_allocation s' = last_allocation s → (∀ k, k ≠ q → adjusted_in k s' = adjusted_in k s) →
  keeps_others q us s s'.
Proof. intros El Ea. split; [done|]. intros d Hd. exists d. by rewrite El. Qed.

Lemma ensure_keeps q us s : keeps_others q us s (ensure_vm q s).
Proof.
  apply keeps_same; [done|]. intros k Hk. unfold adjusted_in, ensure_vm, dsetdefault. simpl.
  case_match; [done|]. by rewrite dget_dset_ne.
Qed.

Lemma check_keeps mon unit q us s s' :
  check_performance_changes rs mon unit q us s = Ok s' → keeps_others q us s s'.
Proof.
  intros (Ea & _ & _ & Hl)%check_frame. split; [intros k _; unfold adjusted_in; by rewrite Ea|].
  intros d Hd. destruct (Hl d Hd) as (d' & Hd' & E & _). eauto.
Qed.

Lemma adjust_step mon now unit q worst k cur s made cur' s' :
  allocate_resources rs mon now unit q worst k cur s = Ok (made, cur', s') →
  dkeys cur' = dkeys cur ∧ last_allocation s' = last_allocation s ∧ last_adjusted_users s' = last_adjusted_users s.
Proof.
  unfold allocate_resources. intros Ha. case_match; [|by injection Ha as <- <- <-].
  apply bind_Ok in Ha as (la & _ & Ha). apply bind_Ok in Ha as (old & _ & Ha).
  apply bind_Ok in Ha as (c & Hc & [= <- <- <-]). by apply adjust_keys in Hc.
Qed.

Lemma harvest_step mon now unit q k w cur s best cur' s' :
  harvest_resources rs mon now unit q k w cur s = Ok (best, cur', s') →
  dkeys cur' = dkeys cur ∧ last_allocation s' = last_allocation s ∧ last_adjusted_users s' = last_adjusted_users s.
Proof.
  unfold harvest_resources. intros Ha. apply bind_Ok in Ha as (b & _ & Ha).
  destruct b; [|by injection Ha as <- <- <-].
  apply bind_Ok in Ha as (la & _ & Ha). apply bind_Ok in Ha as (old & _ & Ha).
  apply bind_Ok in Ha as (c & Hc & [= <- <- <-]). by apply adjust_keys in Hc.
Qed.

Lemma set_adjusted_keeps q us vs s s' :
  last_allocation s' = last_allocation s → last_adjusted_users s' = last_adjusted_users s →
  keeps_others q us s (set_adjusted q vs s').
Proof.
  intros El Ea. apply keeps_same; [done|]. intros k Hk. unfold adjusted_in. simpl.
  by rewrite dget_dset_ne, Ea.
Qed.

Lemma allocate_keeps mon now unit q us s cur s' :
  NoDup us → allocate rs mon now unit q us s = Ok (cur, s') → dkeys cur = us ∧ keeps_others q us s s'.
Proof.
  intros Hnd Ha. unfold allocate in Ha. apply bind_Ok in Ha as (d & _ & Ha).
  apply bind_Ok in Ha as (cur0 & Hi & Ha). apply bind_Ok in Ha as (s1 & Hc & Ha).
  apply bind_Ok in Ha as (w & _ & Ha).
  destruct (initialize_keeps _ _ _ Hi Hnd) as [Hk0 _].
  assert (H1 : keeps_others q us s s1) by (eapply keeps_others_trans; [apply ensure_keeps|by eapply check_keeps]).
  destruct (worst_user w) as [worst|]; [|injection Ha as <- <-; done].
  apply bind_Ok in Ha as ([[made cur1] s2] & Hal & Ha). apply bind_Ok in Ha as ([cur2 s3] & Hh & Ha).
  apply bind_Ok in Ha as (cur3 & Hn & [= <- <-]).
  unfold normalize_allocations in Hn. apply bind_Ok in Hn as (cur4 & Hn1 & Hn2).
  rewrite (normalize_keys _ _ _ _ Hn2), (normalize_keys _ _ _ _ Hn1). clear Hn1 Hn2.
  assert (Hs : dkeys cur2 = dkeys cur0 ∧ keeps_others q us s1 s3).
  { destruct made.
    - apply adjust_step in Hal as (Ek & El & Ea).
      injection Hh as <- <-. split; [done|]. by apply set_adjusted_keeps.
    - apply bind_Ok in Hh as ([[best cur5] s4] & Hh & [= <- <-]).
      pose proof (harvest_step _ _ _ _ _ _ _ _ _ _ _ Hh) as (Ek2 & El2 & Ea2).
      apply adjust_step in Hal as (Ek & El & Ea).
      split; [congruence|]. apply set_adjusted_keeps; congruence. }
  destruct Hs as [Ek Hs]. split; [congruence|]. by eapply keeps_others_trans.
Qed.

Lemma allocate_vm_keeps mon clock unit users q al s al' s' :
  NoDup q.2 → allocate_vm rs mon clock unit users q (al, s) = Ok (al', s') →
  keeps_others q.1 (vm_apps q.2 users) s s'.
Proof.
  intros Hnd Hr. unfold allocate_vm in Hr. pose proof (NoDup_vm_apps _ users Hnd) as Hnd'.
  destruct (vm_apps q.2 users) as [|v apps] eqn:Ea.
  { injection Hr as <- <-. by apply keeps_same. }
  rewrite <- Ea in *. apply bind_Ok in Hr as ([cur s1] & Hal & Hr).
  destruct (allocate_keeps _ _ _ _ _ _ _ _ Hnd' Hal) as [Hk H1].
  apply bind_Ok in Hr as (d1 & Hd1 & Hr). apply or_raise_Ok in Hd1.
  apply bind_Ok in Hr as ([al2 d2] & Hrec & [= <- <-]).
  eapply keeps_others_trans; [exact H1|]. split; [done|]. intros d Hd. exists d2. split; [done|].
  rewrite Hd1 in Hd. injection Hd as <-. intros u Hu.
  destruct (record_users_last rs cur al d1 al2 d2) as [_ Hkeep]; [by rewrite Hk|done|].
  apply Hkeep, dget_None_keys. by rewrite Hk.
Qed.
End others.

Section stuck.
Context {F : Type} `{PyFloat F}.
Context (rs : scale F) (unit : F) (users : list Z) (vm : Z * list Z).
Local Abbreviation apps := (vm_apps vm.2 users).

Lemma dget_dsetdefault_nil {V} (d : dict Z (list V)) k :
  default [] (dget (dsetdefault d k []) k) = default [] (dget d k).
Proof.
  unfold dsetdefault. destruct (dmem d k) eqn:E; [done|]. rewrite dget_dset_eq.
  apply dmem_false, dget_None_keys in E. by rewrite E.
Qed.

Lemma find_worst_adjusted mon us cur s :
  (∀ u, u ∈ us → u ∈ adjusted_in vm.1 s) →
  find_worst_performer rs mon unit vm.1 us cur s = Ok (WorstSearch None finf []).
Proof.
  unfold find_worst_performer. fold (adjusted_in vm.1 s). generalize (WorstSearch None finf [] : worst_search F).
  induction us as [|u us IH]; intros w Hall; [done|].
  assert (Hu : worst_step rs mon unit vm.1 (adjusted_in vm.1 s) cur s u w = Ok w).
  { unfold worst_step. by rewrite bool_decide_true by (apply Hall; left). }
  simpl. rewrite Hu. apply IH. intros v Hv. apply Hall. by right.
Qed.

(** The VM has its shares, and all of its applications were adjusted last. *)
Record stuck (s : inc F) : Prop := {
  st_shares : has_shares apps s;
  st_adjusted : ∀ u, u ∈ apps → u ∈ adjusted_in vm.1 s;
}.

Lemma same_shares_refl (s : inc F) : has_shares apps s → same_shares apps s s.
Proof.
  intros (d & Hd & Hall). exists d, d. split; [done|]. split; [done|].
  intros u Hu. destruct (Hall u Hu) as [a Ha]. by exists a, a.
Qed.

Lemma same_shares_trans (s1 s2 s3 : inc F) : same_shares apps s1 s2 → same_shares apps s2 s3 → same_shares apps s1 s3.
Proof.
  intros (d & d1 & Hd & Hd1 & Hsame) (d1' & d2 & Hd1' & Hd2 & Hsame2).
  rewrite Hd1 in Hd1'. injection Hd1' as <-. exists d, d2. split; [done|]. split; [done|].
  intros u Hu. destruct (Hsame u Hu) as (a0 & a & E0 & Ea & Hs1).
  destruct (Hsame2 u Hu) as (a' & a2 & Ea' & E2 & Hs2). rewrite Ea in Ea'. injection Ea' as <-.
  exists a0, a2. split; [done|]. split; [done|]. by etrans.
Qed.

Lemma same_shares_has (s s' : inc F) : same_shares apps s s' → has_shares apps s'.
Proof.
  intros (d & d1 & Hd & Hd1 & Hsame). exists d1. split; [done|]. intros u Hu.
  destruct (Hsame u Hu) as (a0 & a & _ & -> & _). by exists a.
Qed.

(** The round of the VM itself. *)
Lemma own_round_stuck mon clock al s al' s' :
  NoDup vm.2 → stuck s → allocate_vm rs mon clock unit users vm (al, s) = Ok (al', s') →
  same_shares apps s s' ∧ stuck s'.
Proof.
  intros Hnd [Hsh Hadj] Hr.
  destruct (decide (apps = [])) as [E|Hne].
  { unfold allocate_vm in Hr. rewrite E in Hr. injection Hr as _ <-. split; [|done]. by apply same_shares_refl. }
  assert (Ha1 : ∀ s1, check_performance_changes rs mon unit vm.1 apps (ensure_vm vm.1 s) = Ok s1 →
    adjusted_in vm.1 s1 = adjusted_in vm.1 s).
  { intros s2 Hc. destruct (check_frame _ _ _ _ _ _ _ Hc) as (E & _). unfold adjusted_in.
    rewrite E. apply dget_dsetdefault_nil. }
  destruct (idle_round rs mon clock unit users vm al s al' s') as [Hsame (s2 & Hc & _ & Eadj)]; try done.
  { intros cur s2 Hc. exists (WorstSearch None finf []). split; [|done]. apply find_worst_adjusted.
    rewrite (Ha1 s2 Hc). exact Hadj. }
  split; [done|]. split; [by eapply same_shares_has|]. intros u Hu. unfold adjusted_in. rewrite Eadj.
  change (u ∈ adjusted_in vm.1 s2). rewrite (Ha1 s2 Hc). by apply Hadj.
Qed.

(** The round of another VM. *)
Lemma other_round_stuck m mon clock q al s al' s' :
  NoDup (dkeys m) → NoDup (mapped_users m) → vm ∈ m → q ∈ m → q ≠ vm → stuck s →
  allocate_vm rs mon clock unit users q (al, s) = Ok (al', s') → same_shares apps s s' ∧ stuck s'.
Proof.
  intros Hids Hm Hvm Hq Hne [(d & Hd & Hall) Hadj] Hr.
  destruct (allocate_vm_keeps rs _ _ _ _ _ _ _ _ _ (vm_NoDup m Hm q Hq) Hr) as [Ea Hl].
  destruct (Hl d Hd) as (d' & Hd' & E).
  assert (Hout : ∀ u, u ∈ apps → u ∉ vm_apps q.2 users).
  { intros u [Hu _]%elem_of_vm_apps [Hu' _]%elem_of_vm_apps. apply Hne. symmetry. by apply (vm_disjoint m Hm _ _ u). }
  assert (Hid : vm.1 ≠ q.1).
  { intros Eid. apply Hne. destruct q as [i l], vm as [j k]. simpl in Eid. subst j.
    apply (dget_In m _ _ Hids) in Hq, Hvm. congruence. }
  assert (Hsame : same_shares apps s s').
  { exists d, d'. split; [done|]. split; [done|]. intros u Hu. destruct (Hall u Hu) as [a Ha].
    exists a, a. rewrite E by by apply Hout. done. }
  split; [done|]. split; [by eapply same_shares_has|]. intros u Hu. rewrite Ea by done. by apply Hadj.
Qed.

(** The round takes the dynamic branch of [allocate_and_parse]. *)
Definition is_dynamic (interval : Z) (skip : bool) (mon : monitor F) (s : inc F) : bool :=
  is_complete_vm_map (vm_to_app_map mon) users &&
  match update_last_static_performance rs users mon s with
  | Ok s0 => negb (is_static_allocation interval skip users (total_record_of mon) s0)
  | Err _ => false
  end.

(** Rounds of the dynamic branch, one after another, on maps that hold the VM
    with its applications. *)
Inductive dynamic_rounds (interval num_vms : Z) : inc F → inc F → Prop :=
  | no_round s : dynamic_rounds interval num_vms s s
  | next_round clock skip mon s al s1 s2 :
      vm ∈ vm_to_app_map mon → NoDup (dkeys (vm_to_app_map mon)) → NoDup (mapped_users (vm_to_app_map mon)) →
      is_dynamic interval skip mon s = true →
      allocate_and_parse rs interval clock unit skip users num_vms mon s = Ok (al, s1) →
      dynamic_rounds interval num_vms s1 s2 → dynamic_rounds interval num_vms s s2.

Lemma update_stuck mon s s0 :
  update_last_static_performance rs users mon s = Ok s0 → stuck s →
  stuck s0 ∧ last_allocation s0 = last_allocation s.
Proof.
  unfold update_last_static_performance. destruct (last_static_allocation s); [|intros [= <-] ?; done].
  intros Hu. apply bind_Ok in Hu as (la & _ & Hu). case_match; [|by injection Hu as <-].
  destruct (foldl _ _ users) as [perf up]. injection Hu as <-. intros [Hs Ha]. by split; [split|].
Qed.

Lemma round_stuck interval clock skip num_vms mon s al s' :
  vm ∈ vm_to_app_map mon → NoDup (dkeys (vm_to_app_map mon)) → NoDup (mapped_users (vm_to_app_map mon)) →
  is_dynamic interval skip mon s = true → stuck s →
  allocate_and_parse rs interval clock unit skip users num_vms mon s = Ok (al, s') →
  same_shares apps s s' ∧ stuck s'.
Proof.
  intros Hvm Hids Hm Hdyn Hs Hr. unfold is_dynamic in Hdyn. apply andb_true_iff in Hdyn as [Hc Hdyn].
  unfold allocate_and_parse in Hr. rewrite Hc in Hr.
  destruct (update_last_static_performance rs users mon s) as [s0|] eqn:Eu; [|done].
  cbn [mbind res_bind] in Hr. apply negb_true_iff in Hdyn. rewrite Hdyn in Hr. cbn [orb negb] in Hr.
  destruct (update_stuck _ _ _ Eu Hs) as [Hs0 El].
  assert (Hinv : same_shares apps s0 s' ∧ stuck s').
  { revert Hr. apply (for_all_inv (λ acc : dict Z units * inc F, same_shares apps s0 acc.2 ∧ stuck acc.2) _ _ _ (al, s')).
    - intros q [al1 s1] [al2 s2] Hq [Hsame Hst] Hstep. simpl in *.
      destruct (decide (q = vm)) as [->|Hne].
      + destruct (own_round_stuck _ _ _ _ _ _ (vm_NoDup _ Hm vm Hvm) Hst Hstep). split; [|done]. by eapply same_shares_trans.
      + destruct (other_round_stuck _ _ _ _ _ _ _ _ Hids Hm Hvm Hq Hne Hst Hstep). split; [|done]. by eapply same_shares_trans.
    - simpl. split; [|done]. apply same_shares_refl, Hs0. }
  destruct Hinv as [(d & d' & Hd & Hd' & Hall) Hst]. split; [|done]. exists d, d'. by rewrite <- El.
Qed.


(** The unit a harvest took is never what a revocation gives back: after
    a unit of [k] was harvested from [u], a drop in performance beyond both
    margins adds a unit of the other resource to the user's share and takes it
    from the other resource's pool. *)
Theorem inc_revokes_other_resource mon now vm_id k ratios cur s u cur' s' perf s1 last a :
  harvest_resources rs mon now unit vm_id k ratios cur s = Ok (Some u, cur', s') →
  last_allocation s1 = Some last → dget last u = Some a →
  ∃ ds d, dget (vm_allocation_decisions s') vm_id = Some ds ∧ dget ds u = Some d ∧
    ∀ o, d_performance d = Some o → fltb perf (fsub o (lit 1 100)) = true → fltb perf (fsub o (lit 1 10)) = true →
    ∃ s2 last2, judge unit vm_id u d perf s1 = Ok s2 ∧ last_allocation s2 = Some last2 ∧
      dget last2 u = Some (a_set (opposite_resource k) (fadd (a_get (opposite_resource k) a) unit) a) ∧
      pool_get k (remaining_resources s2) = pool_get k (remaining_resources s1).
Proof.
  intros Hh Hl Ha. unfold harvest_resources in Hh. apply bind_Ok in Hh as (o & _ & Hh).
  destruct o as [v|]; [|done]. apply bind_Ok in Hh as (la & _ & Hh).
  apply bind_Ok in Hh as (old & _ & Hh). apply bind_Ok in Hh as (cur1 & _ & Hh).
  injection Hh as -> _ <-. simpl. rewrite dget_dset_eq. eexists _, _. split; [done|].
  rewrite dget_dset_eq. split; [done|]. simpl. intros o -> H1 H2.
  unfold judge, revoke, dgetE. simpl. rewrite H1, H2, Hl. simpl. rewrite Ha. simpl.
  eexists _, _. split; [reflexivity|]. split; [reflexivity|]. rewrite dget_dset_eq.
  split; [done|]. by destruct k.
Qed.

(** A harvest that is judged harmful is not undone: when the revocation
    has returned the unit to the user in [last_allocation] and taken it from
    the pool, and no user is served in this round, the VM ends with the shares
    it had before and the smaller pool. *)
Theorem inc_revoke_lost mon clock s s1 s2 u k al s' :
  NoDup vm.2 → has_shares apps s → apps ≠ [] →
  check_performance_changes rs mon unit vm.1 apps (ensure_vm vm.1 s) = Ok s1 →
  revoke unit u k (ensure_vm vm.1 s) = Ok s2 →
  last_allocation s1 = last_allocation s2 → remaining_resources s1 = remaining_resources s2 →
  (∀ cur, ∃ w, find_worst_performer rs mon unit vm.1 apps cur s1 = Ok w ∧ worst_user w = None) →
  allocate_vm rs mon clock unit users vm ([], s) = Ok (al, s') →
  same_shares apps s s' ∧
  pool_get k (remaining_resources s') = fmax (of_Z 0) (fsub (pool_get k (remaining_resources s)) unit).
Proof.
  intros Hnd Hsh Hne Hc Hrev _ Ep Hidle Hr.
  destruct (idle_round rs mon clock unit users vm [] s al s') as [Hsame (s3 & Hc' & Epool & _)]; try done.
  { intros cur s3 Hc3. rewrite Hc in Hc3. injection Hc3 as <-. apply Hidle. }
  split; [done|]. rewrite Hc in Hc'. injection Hc' as <-. rewrite Epool, Ep.
  unfold revoke in Hrev. apply bind_Ok in Hrev as (d & _ & Hrev).
  apply bind_Ok in Hrev as (a & _ & [= <-]). by destruct k.
Qed.
End stuck.

(** ** The choices *)

Section choices.
Context {F : Type} `{PyFloatLaws F}.
Context (rs : scale F).

(** The user that is given a unit was not adjusted in the VM's last
    adjustment and stays within its maximum, and of the users of which this
    holds none did worse against its static performance. *)
Theorem inc_serves_worst mon unit vm users cur s w u :
  find_worst_performer rs mon unit vm users cur s = Ok w → worst_user w = Some u →
  u ∈ users ∧ (u ∉ adjusted_in vm s) ∧ may_take rs unit vm cur s u ∧
  ∃ r, has_ratio rs mon s u r ∧
    ∀ v r', v ∈ users → v ∉ adjusted_in vm s → may_take rs unit vm cur s v →
      has_ratio rs mon s v r' → fltb r' r = false.
Proof.
  intros [_ Hu Hl]%find_worst_ok Hw. destruct (Hu u Hw) as (H1 & H2 & H3 & H4).
  do 3 (split; [done|]). exists (worst_ratio w). split; [done|]. eauto.
Qed.

(** A unit is harvested from a user that was not adjusted in the VM's
    last adjustment and stays above its minimum, and of the users of which
    this holds none did better against its static performance. *)
Theorem inc_harvests_best mon unit vm users cur s w k u :
  find_worst_performer rs mon unit vm users cur s = Ok w →
  find_best_performer rs unit vm k (performance_ratios w) cur s = Ok (Some u) →
  u ∈ users ∧ (u ∉ adjusted_in vm s) ∧ may_give rs unit cur k u ∧
  ∃ r, has_ratio rs mon s u r ∧
    ∀ v r', (v, r') ∈ performance_ratios w → may_give rs unit cur k v → fltb r r' = false.
Proof.
  intros [Hr _ _]%find_worst_ok Hf. apply find_best_ok in Hf as (r & [Hu Hm]).
  destruct (Hu u eq_refl) as (Hin & Hadj & Hg). destruct (Hr u r Hin) as (Hus & _ & Hhas).
  do 3 (split; [done|]). exists r. split; [done|]. intros v r' Hv Hgv. simpl in Hm.
  apply (Hm (v, r') Hv); [|done]. by destruct (Hr v r' Hv) as (_ & ? & _).
Qed.
End choices.
