(* ===== verification/IncExact.v ===== *)
(** * The incremental trading allocator in exact arithmetic

    Every round from every reachable state returns, and from the first static
    round on a VM map on, every round on that map gives each VM at most its
    capacity. *)

From S2P Require Import Prelude PyDict PyFloat Exact Resources PtasExact Base BaseExact Monitor FijTrade FijExact IncTrade IncFacts.
Import Inc.

(** The cluster's resources with all four per-user limits given. *)
Record full_limits (rs : scale xnum) (S B : Qc) : Prop := {
  fl_limits : limits_ok rs S B;
  fl_min : is_Some (s_min_cache rs) ∧ is_Some (s_min_mem_bw rs);
  fl_max : is_Some (s_max_cache rs) ∧ is_Some (s_max_mem_bw rs);
}.

(** [d] gives every user [u] of [users] the shares [f u]. *)
Definition gives (d : dict Z (alloc xnum)) (users : list Z) (f : Z → Qc * Qc) : Prop :=
  ∀ u, u ∈ users → ∃ p, dget d u = Some (Alloc (Num (f u).1) (Num (f u).2) p).

(** The stored shares of [apps] fit into a VM. *)
Definition sum_ok (d : dict Z (alloc xnum)) (apps : list Z) : Prop :=
  ∃ f, gives d apps f ∧ nn apps f ∧ ∀ k, (total k apps f <= 1)%Qc.

Lemma sum_ok_ext d d' apps :
  (∀ u, u ∈ apps → dget d' u = dget d u) → sum_ok d apps → sum_ok d' apps.
Proof.
  intros He (f & Hg & Hf). exists f. split; [|done]. intros u Hu. rewrite He by done. by apply Hg.
Qed.

(** Stored shares are functions. *)
Lemma stored_gives d users : stored_nn d → (∀ u, u ∈ users → is_Some (dget d u)) →
  ∃ f, gives d users f ∧ nn users f.
Proof.
  intros Hd Hall.
  exists (λ u, match dget d u with Some a => (qc (a_cache a), qc (a_mem_bw a)) | None => (0, 0)%Qc end).
  split; intros u Hu; destruct (Hall u Hu) as [[c b p] Ea]; rewrite Ea;
    destruct (Hd u _ Ea) as [(x & Ex & ?) (y & Ey & ?)]; simpl in *; subst; simpl; eauto.
Qed.

Lemma initialize_gives users d f :
  users ≠ [] → NoDup users → gives d users f →
  ∃ cur, Fij.initialize_allocation users d = Ok cur ∧ repr users cur f.
Proof.
  intros Hne Hnd Hg. unfold Fij.initialize_allocation. change (lit 1 1 : xnum) with (Num 1%Qc).
  assert (Hn : (0 < Z.of_nat (length users))%Z) by (destruct users; [done|simpl; lia]).
  rewrite (fdiv_zq _ Hn). cbn [mbind res_bind]. eexists. split; [reflexivity|]. split.
  - rewrite (dkeys_foldl_dset _ users []); [done|done|]. intros u _. apply not_elem_of_nil.
  - intros u Hu. exists None. rewrite (dget_foldl_dset _ users []), decide_True by done.
    by destruct (Hg u Hu) as [p ->].
Qed.

Section total.
Context (rs : scale xnum) (S B : Qc) (Hrs : full_limits rs S B).
Context (g : Qc) (Hg : (0 <= g)%Qc).

(** The reading of a performance is the pairwise allocator's. *)
Lemma inc_perf_total mon d u :
  stored_nn d → ∃ o, get_current_performance rs mon d u = Ok o.
Proof using Hrs. apply (FijExact.perf_total rs S B). apply Hrs. Qed.

Lemma limit_total k :
  ∃ lo hi q, (match k with Cache => s_min_cache rs | MemBw => s_min_mem_bw rs end) = Some (Num lo) ∧
    (match k with Cache => s_max_cache rs | MemBw => s_max_mem_bw rs end) = Some (Num hi) ∧
    s_get k rs = Num q ∧ q ≠ 0%Qc.
Proof.
  destruct Hrs as [[[HS HS0] [HB HB0] Hmin Hmax] [[x1 E1] [x2 E2]] [[y1 F1] [y2 F2]]].
  apply pos_ne0 in HS0, HB0. destruct k.
  - destruct (Hmin x1) as (lo & -> & _); [auto|]. destruct (Hmax y1) as [hi ->]; [auto|].
    by exists lo, hi, S.
  - destruct (Hmin x2) as (lo & -> & _); [auto|]. destruct (Hmax y2) as [hi ->]; [auto|].
    by exists lo, hi, B.
Qed.

Lemma above_total k a : ∃ b, above_max rs (Num g) k a = Ok b.
Proof.
  destruct (limit_total k) as (lo & hi & q & _ & E & Eq & Hq). unfold above_max. rewrite E, Eq. simpl.
  rewrite fdiv_Num by done. by eauto.
Qed.

Lemma below_total k a : ∃ b, below_min rs (Num g) k a = Ok b.
Proof.
  destruct (limit_total k) as (lo & hi & q & E & _ & Eq & Hq). unfold below_min. rewrite E, Eq. simpl.
  rewrite fdiv_Num by done. by eauto.
Qed.

Lemma ratio_total (perf base : xnum) : ∃ r, perf_ratio perf base = Ok r.
Proof.
  unfold perf_ratio. destruct (fltb (of_Z 0) base) eqn:E; [|by eauto]. unfold fdiv.
  destruct (feqb base (of_Z 0)) eqn:Ez; [|by eauto]. exfalso.
  destruct base as [q| | |]; try done.
  change (of_Z 0 : xnum) with (Num 0%Qc) in *. apply xltb_Num in E.
  apply andb_true_iff in Ez as [Ez _]. change (fleb (Num q) (Num 0%Qc) = true) in Ez.
  apply xleb_Num in Ez. qc_lra.
Qed.

Lemma worst_total mon vm users cur f s d :
  last_allocation s = Some d → stored_nn d → repr users cur f →
  ∃ w, find_worst_performer rs mon (Num g) vm users cur s = Ok w.
Proof.
  intros Hl Hd Hr. unfold find_worst_performer.
  destruct (for_all_total (λ _, True) (worst_step rs mon (Num g) vm
    (default [] (dget (last_adjusted_users s) vm)) cur s) users (WorstSearch None finf []))
    as (w & Hw & _); [|done|by exists w].
  intros u w Hu _. unfold worst_step. case_bool_decide; [by eauto|]. rewrite Hl. cbn [or_raise mbind res_bind].
  destruct (inc_perf_total mon d u Hd) as [[p|] ->]; cbn [mbind res_bind]; [|by eauto].
  destruct (last_static_performance s ≫= _) as [base|]; [|by eauto].
  destruct (ratio_total p base) as [r ->]. cbn [mbind res_bind worst_ratio].
  destruct (fltb r (worst_ratio w)); [|by eauto].
  destruct (proj2 Hr u Hu) as [pr Ea]. unfold dgetE. rewrite Ea. cbn [or_raise mbind res_bind].
  destruct (above_total (resource_type_for_user vm u s) (Alloc (Num (f u).1) (Num (f u).2) pr)) as [b ->].
  cbn [mbind res_bind]. destruct b; by eauto.
Qed.

Lemma best_total vm k ratios users cur f s :
  (∀ p, p ∈ ratios → p.1 ∈ users) → repr users cur f →
  ∃ o, find_best_performer rs (Num g) vm k ratios cur s = Ok o.
Proof.
  intros Hin Hr. unfold find_best_performer.
  destruct (for_all_total (λ _, True) (best_step rs (Num g) k
    (default [] (dget (last_adjusted_users s) vm)) cur) ratios (None, fninf)) as (b & -> & _);
    [|done|by exists b.1].
  intros p b Hp _. unfold best_step. case_bool_decide; [by eauto|]. case_match; [|by eauto].
  destruct (proj2 Hr p.1 (Hin p Hp)) as [pr Ea]. unfold dgetE. rewrite Ea. cbn [or_raise mbind res_bind].
  destruct (below_total k (Alloc (Num (f p.1).1) (Num (f p.1).2) pr)) as [x ->]. cbn [mbind res_bind]. by eauto.
Qed.

(** ** Judging *)

Definition decisions_ok (s : inc xnum) : Prop :=
  ∀ vm ds u dec, dget (vm_allocation_decisions s) vm = Some ds → dget ds u = Some dec →
    is_Some (d_performance dec).

Lemma record_decision_ok vm u dec s :
  decisions_ok s → is_Some (d_performance dec) → decisions_ok (record_decision vm u dec s).
Proof.
  intros Hs Hd v ds w dec' Hv Hw. simpl in Hv. rewrite dget_dset in Hv. case_decide; [|by eapply Hs].
  injection Hv as <-. rewrite dget_dset in Hw. case_decide; [by injection Hw as <-|].
  destruct (dget (vm_allocation_decisions s) vm) as [ds|] eqn:E; [|done]. by eapply Hs.
Qed.

Lemma ensure_vm_ok vm s : decisions_ok s → decisions_ok (ensure_vm vm s).
Proof.
  intros Hs v ds u dec Hv Hu. simpl in Hv. unfold dsetdefault in Hv.
  destruct (dmem _ vm) eqn:E; [by eapply Hs|]. rewrite dget_dset in Hv.
  case_decide; [by injection Hv as <-|by eapply Hs].
Qed.

Lemma most_recent_in users (ds : dict Z (decision xnum)) u :
  most_recent users ds = Some u → u ∈ dkeys ds.
Proof.
  unfold most_recent.
  assert (Hgen : ∀ l (b : option Z * xnum), (∀ v, b.1 = Some v → v ∈ dkeys ds) →
    (∀ p, p ∈ l → p ∈ ds) →
    ∀ v, (foldl (λ best p, if bool_decide (p.1 ∈ users) && fltb best.2 (d_last_updated p.2)
      then (Some p.1, d_last_updated p.2) else best) b l).1 = Some v → v ∈ dkeys ds).
  { induction l as [|q l IH]; intros b Hb Hl v; simpl; [apply Hb|]. apply IH; [|set_solver].
    case_match; [|apply Hb]. intros ? [= <-]. apply list_elem_of_fmap. exists q. split; [done|].
    apply Hl. left. }
  by apply Hgen.
Qed.

Lemma stored_nn_dset d u a : stored_nn d → nonneg (a_cache a) → nonneg (a_mem_bw a) → stored_nn (dset d u a).
Proof. intros Hd Hc Hb v b. rewrite dget_dset. case_decide; [intros [= <-]; done|apply Hd]. Qed.

Lemma nonneg_plus x : nonneg x → nonneg (x + Num g)%py.
Proof. intros (q & -> & Hq). exists (q + g)%Qc. split; [done|]. qc_lra. Qed.

Lemma revoke_total u k s d :
  last_allocation s = Some d → stored_nn d → is_Some (dget d u) →
  ∃ s', revoke (Num g) u k s = Ok s' ∧ vm_allocation_decisions s' = vm_allocation_decisions s ∧
    ∃ d', last_allocation s' = Some d' ∧ stored_nn d'.
Proof.
  intros Hl Hd [a Ha]. unfold revoke. rewrite Hl. unfold dgetE. cbn [or_raise mbind res_bind]. rewrite Ha.
  eexists. split; [reflexivity|]. split; [done|]. eexists. split; [reflexivity|].
  destruct (Hd u a Ha) as [Hc Hb]. apply stored_nn_dset; [done|..]; destruct k; simpl; try done;
    by apply nonneg_plus.
Qed.

Lemma check_total mon vm users s d :
  decisions_ok s → last_allocation s = Some d → stored_nn d →
  ∃ s', check_performance_changes rs mon (Num g) vm users s = Ok s' ∧ decisions_ok s' ∧
    ∃ d', last_allocation s' = Some d' ∧ stored_nn d'.
Proof.
  intros Hdec Hl Hd. unfold check_performance_changes.
  set (ds := default [] (dget (vm_allocation_decisions s) vm)).
  destruct (most_recent users ds) as [u|] eqn:Em; [|by eauto 10].
  destruct (u =? 0)%Z; [by eauto 10|].
  apply most_recent_in, dget_is_Some_keys in Em as [dec Edec]. unfold dgetE at 1.
  rewrite Edec, Hl. cbn [or_raise mbind res_bind].
  destruct (inc_perf_total mon d u Hd) as [[p|] Hp]; rewrite Hp; cbn [mbind res_bind]; [|by eauto 10].
  assert (Hperf : is_Some (d_performance dec)).
  { subst ds. destruct (dget (vm_allocation_decisions s) vm) as [ds|] eqn:E; [|done]. by eapply Hdec. }
  assert (Hu : is_Some (dget d u)).
  { unfold get_current_performance in Hp. case_match; [|done].
    destruct (collect_recent_measurement mon u); [done|]. destruct (dget d u); [by eauto|done]. }
  destruct Hperf as [old Eold]. unfold judge. rewrite Eold. cbn [or_raise mbind res_bind].
  assert (Hs1 : ∃ k s1, match d_direction dec with
    | Down =>
        if (p <? old - lit 1 100)%py then
          s ← (if (p <? old - lit 1 10)%py then revoke (Num g) u (d_res_type dec) s else Ok s);
          Ok (opposite_resource (d_res_type dec), s)
        else Ok (d_res_type dec, s)
    | Up =>
        if (p <=? old - lit 1 100)%py then Ok (opposite_resource (d_res_type dec), s)
        else Ok (d_res_type dec, s)
    end = Ok (k, s1) ∧ vm_allocation_decisions s1 = vm_allocation_decisions s ∧
    ∃ d', last_allocation s1 = Some d' ∧ stored_nn d').
  { destruct (revoke_total u (d_res_type dec) s d Hl Hd Hu) as (s1 & Hrev & E1 & d1 & Hl1 & Hd1).
    destruct (d_direction dec); repeat case_match; rewrite ?Hrev; cbn [mbind res_bind]; by eauto 10. }
  destruct Hs1 as (k & s1 & -> & E1 & d1 & Hl1 & Hd1). cbn [mbind res_bind].
  eexists. split; [reflexivity|]. split; [|by exists d1].
  apply record_decision_ok; [|by eauto]. intros v ds' w dec' Hv. rewrite E1 in Hv. by eapply Hdec.
Qed.

(** ** One VM *)

Lemma adjust_ok k h u users cur f :
  repr users cur f → nn users f → u ∈ users →
  (∀ q, (0 <= q)%Qc → ∃ q', h (Num q) = Num q' ∧ (0 <= q')%Qc) →
  ∃ cur' f', adjust k h u cur = Ok cur' ∧ repr users cur' f' ∧ nn users f'.
Proof.
  intros Hr Hnn Hu Hh. destruct (proj2 Hr u Hu) as [p Hp]. destruct (Hnn u Hu) as [Hc Hb].
  destruct (Hh (kq k (f u))) as (q' & Eq & Hq); [by destruct k|].
  set (q := match k with Cache => (q', (f u).2) | MemBw => ((f u).1, q') end).
  exists (dset cur u (Alloc (Num q.1) (Num q.2) p)), (upd f u q). split; [|split].
  - unfold adjust, dgetE. rewrite Hp. simpl. subst q. destruct k; simpl in *; by rewrite Eq.
  - by apply repr_dset.
  - intros v Hv. unfold upd. case_decide; [|by apply Hnn]. subst q. by destruct k.
Qed.

(** What an adjustment leaves behind. *)
Record adjusted_ok (users : list Z) (s : inc xnum) (cur : dict Z (alloc xnum)) (s' : inc xnum) : Prop := {
  ao_shares : ∃ f, repr users cur f ∧ nn users f;
  ao_decisions : decisions_ok s';
  ao_last : last_allocation s' = last_allocation s;
}.

Lemma has_ratio_perf mon s u r :
  has_ratio rs mon s u r →
  ∃ d p, last_allocation s = Some d ∧ get_current_performance rs mon d u = Ok (Some p).
Proof. intros (d & p & _ & Hl & Hp & _). eauto. Qed.

Lemma allocate_resources_ok mon now vm users k cur f s u r :
  repr users cur f → nn users f → decisions_ok s → u ∈ users → has_ratio rs mon s u r →
  ∃ made cur' s', allocate_resources rs mon now (Num g) vm u k cur s = Ok (made, cur', s') ∧
    adjusted_ok users s cur' s' ∧ (made = false → cur' = cur ∧ s' = s).
Proof.
  intros Hr Hnn Hdec Hu (d & p & Hl & Hp)%has_ratio_perf. unfold allocate_resources.
  destruct (fltb _ _); [|eexists _, _, _; split; [reflexivity|]; split; [split; by eauto|done]].
  cbn [set_pool last_allocation]. rewrite Hl. cbn [or_raise mbind res_bind]. rewrite Hp. cbn [mbind res_bind].
  destruct (adjust_ok k (λ x, (x + Num g)%py) u users cur f Hr Hnn Hu) as (cur' & f' & -> & Hr' & Hnn').
  { intros q Hq. exists (q + g)%Qc. split; [done|]. qc_lra. }
  cbn [mbind res_bind]. eexists _, _, _. split; [reflexivity|]. split; [|done].
  split; [by eauto| |done]. apply record_decision_ok; [done|by eauto].
Qed.

Lemma harvest_ok mon now vm users k ratios cur f s :
  repr users cur f → nn users f → decisions_ok s →
  (∀ u r, (u, r) ∈ ratios → u ∈ users ∧ has_ratio rs mon s u r) →
  ∃ o cur' s', harvest_resources rs mon now (Num g) vm k ratios cur s = Ok (o, cur', s') ∧
    adjusted_ok users s cur' s'.
Proof.
  intros Hr Hnn Hdec Hratios. unfold harvest_resources.
  destruct (best_total vm k ratios users cur f s) as [o Ho]; [|done|].
  { intros [u r] Hin. by apply (Hratios u r). }
  rewrite Ho. cbn [mbind res_bind]. apply find_best_ok in Ho as (r & [Hu _]).
  destruct o as [u|]; [|eexists _, _, _; split; [reflexivity|]; split; by eauto].
  destruct (Hu u eq_refl) as (Hin & _). apply Hratios in Hin as [Hus (d & p & Hl & Hp)%has_ratio_perf].
  rewrite Hl. cbn [or_raise mbind res_bind]. rewrite Hp. cbn [mbind res_bind].
  destruct (adjust_ok k (λ x, if (x - Num g <? of_Z 0)%py then of_Z 0 else (x - Num g)%py) u users cur f
    Hr Hnn Hus) as (cur' & f' & -> & Hr' & Hnn').
  { intros q Hq. change (Num q - Num g)%py with (Num (q - g)%Qc). change (of_Z 0 : xnum) with (Num 0%Qc).
    destruct (fltb (Num (q - g)%Qc) (Num 0%Qc)) eqn:E; [by exists 0%Qc|].
    apply xltb_Num_false in E. by exists (q - g)%Qc. }
  cbn [mbind res_bind]. eexists _, _, _. split; [reflexivity|].
  split; [by eauto| |done]. apply record_decision_ok; [done|by eauto].
Qed.

(** The allocation of one VM: its shares are the ones it started from, or fit. *)
Lemma inc_allocate_ok mon now vm users s d cur0 f0 :
  NoDup users → decisions_ok s → last_allocation s = Some d → stored_nn d →
  Fij.initialize_allocation users d = Ok cur0 → repr users cur0 f0 → nn users f0 →
  ∃ cur s' f, allocate rs mon now (Num g) vm users s = Ok (cur, s') ∧
    repr users cur f ∧ nn users f ∧ decisions_ok s' ∧
    (∃ d', last_allocation s' = Some d' ∧ stored_nn d' ∧ ∀ u, u ∉ users → dget d' u = dget d u) ∧
    (f = f0 ∨ ∀ k, (total k users f <= 1)%Qc).
Proof.
  intros Hnd Hdec Hl Hd Hi Hr Hnn. unfold allocate, initialize_allocation, normalize_allocations. cbn [ensure_vm last_allocation]. rewrite Hl.
  cbn [or_raise mbind res_bind]. rewrite Hi. cbn [mbind res_bind].
  destruct (check_total mon vm users (ensure_vm vm s) d) as (s1 & Hc & Hdec1 & d1 & Hl1 & Hd1);
    [by apply ensure_vm_ok|done|done|].
  destruct (check_frame _ _ _ _ _ _ _ Hc) as (_ & _ & _ & Hfr).
  destruct (Hfr d Hl) as (d1' & Hl1' & Hkeep & _). rewrite Hl1 in Hl1'. injection Hl1' as <-.
  rewrite Hc. cbn [mbind res_bind].
  destruct (worst_total mon vm users cur0 f0 s1 d1 Hl1 Hd1 Hr) as [w Hw]. rewrite Hw. cbn [mbind res_bind].
  apply find_worst_ok in Hw as [Hratios Hworst _].
  destruct (worst_user w) as [u|]; [|by eauto 20].
  destruct (Hworst u eq_refl) as (Hu & _ & Hhas & _).
  destruct (allocate_resources_ok mon now vm users (resource_type_for_user vm u s1) cur0 f0 s1 u _
    Hr Hnn Hdec1 Hu Hhas) as (made & cur1 & s2 & -> & Ha & Hmade). cbn [mbind res_bind].
  assert (Hs3 : ∃ cur2 s3, (if made then Ok (cur1, set_adjusted vm [u] s2)
      else '(best, cur, s) ← harvest_resources rs mon now (Num g) vm (resource_type_for_user vm u s1)
                               (performance_ratios w) cur1 s2;
           Ok (cur, set_adjusted vm (match best with Some u => [u] | None => [] end) s)) = Ok (cur2, s3) ∧
    adjusted_ok users s1 cur2 s3).
  { destruct made; [eexists _, _; split; [reflexivity|]; by destruct Ha; split|].
    destruct (Hmade eq_refl) as [-> ->].
    destruct (harvest_ok mon now vm users (resource_type_for_user vm u s1) (performance_ratios w) cur0 f0 s1)
      as (o & cur2 & s3 & -> & Hh); [done|done|done|intros v r Hv; by destruct (Hratios v r Hv) as (? & _ & ?)|].
    eexists _, _. split; [reflexivity|]. by destruct Hh; split. }
  destruct Hs3 as (cur2 & s3 & -> & [(f2 & Hr2 & Hnn2) Hdec3 Hl3]). cbn [mbind res_bind].
  destruct (normalize_ok Cache users cur2 f2 Hnd Hr2 Hnn2) as (cur3 & f3 & -> & Hr3 & Hnn3 & Hc3 & _).
  cbn [mbind res_bind].
  destruct (normalize_ok MemBw users cur3 f3 Hnd Hr3 Hnn3) as (cur4 & f4 & -> & Hr4 & Hnn4 & Hb4 & Hk & _).
  cbn [mbind res_bind]. exists cur4, s3, f4. split; [done|]. split; [done|]. split; [done|]. split; [done|]. split.
  - rewrite Hl3, Hl1. eauto.
  - right. intros []; [by rewrite Hk|done].
Qed.

Definition lastd (s : inc xnum) : dict Z (alloc xnum) := default [] (last_allocation s).

(** The state of a dynamic round. *)
Record dyn_ok (acc : dict Z units * inc xnum) : Prop := {
  do_last : is_Some (last_allocation acc.2);
  do_stored : stored_nn (lastd acc.2);
  do_decisions : decisions_ok acc.2;
}.

Lemma initialize_unique users d f :
  users ≠ [] → NoDup users → stored_nn d →
  ∃ cur0 f0, Fij.initialize_allocation users d = Ok cur0 ∧ repr users cur0 f0 ∧ nn users f0 ∧
    (gives d users f → ∀ u, u ∈ users → f0 u = f u).
Proof.
  intros Hne Hnd Hd. destruct (initialize_ok users d Hne Hnd Hd) as (cur0 & f0 & Hi & Hr & Hnn).
  exists cur0, f0. do 3 (split; [done|]). intros Hgv u Hu.
  destruct (initialize_gives users d f Hne Hnd Hgv) as (cur1 & Hi' & Hr'). rewrite Hi in Hi'.
  injection Hi' as <-. destruct (proj2 Hr u Hu) as [p Ep]. destruct (proj2 Hr' u Hu) as [p' Ep'].
  rewrite Ep in Ep'. injection Ep' as E1 E2 _. by apply injective_projections.
Qed.

(** One VM of a dynamic round. *)
Lemma inc_vm_ok mon clock users vm acc :
  NoDup vm.2 → dyn_ok acc →
  ∃ acc', allocate_vm rs mon clock (Num g) users vm acc = Ok acc' ∧ dyn_ok acc' ∧
    (sum_ok (lastd acc.2) (vm_apps vm.2 users) →
      vm_fits S B acc'.1 (vm_apps vm.2 users) ∧ sum_ok (lastd acc'.2) (vm_apps vm.2 users)) ∧
    ∀ u, u ∉ vm_apps vm.2 users →
      dget acc'.1 u = dget acc.1 u ∧ dget (lastd acc'.2) u = dget (lastd acc.2) u.
Proof.
  intros Hnd [[d Hl] Hd Hdec]. destruct acc as [al s]. simpl in Hl, Hdec. unfold allocate_vm.
  pose proof (NoDup_vm_apps vm.2 users Hnd) as Hnd'. pose proof (fl_limits _ _ _ Hrs) as Hlim.
  destruct Hlim as [[_ HS] [_ HB] _ _].
  destruct (vm_apps vm.2 users) as [|v apps] eqn:Ea.
  { exists (al, s). split; [done|]. split; [split; by eauto|]. split; [|done]. intros Hs. split; [|done].
    apply (vm_fits_shares S B al [] (λ _, (0%Qc, 0%Qc))); [by apply Qclt_le_weak..|by intros []|set_solver]. }
  rewrite <- Ea in *. assert (Hne : vm_apps vm.2 users ≠ []) by (by rewrite Ea). clear v apps Ea.
  set (apps := vm_apps vm.2 users) in *. unfold lastd in Hd. simpl in Hd. rewrite Hl in Hd. simpl in Hd.
  destruct (initialize_ok apps d Hne Hnd' Hd) as (cur0 & f0 & Hi & Hr0 & Hnn0).
  destruct (inc_allocate_ok mon (clock vm.1) vm.1 apps s d cur0 f0 Hnd' Hdec Hl Hd Hi Hr0 Hnn0)
    as (cur & s1 & f & -> & Hr & Hnn & Hdec1 & (d1 & Hl1 & Hd1 & Hkeep1) & Hf).
  cbn [mbind res_bind]. rewrite Hl1. cbn [or_raise mbind res_bind].
  assert (Hcur : stored_nn cur).
  { intros u a Hu. assert (Hin : u ∈ apps) by (rewrite <- (proj1 Hr); apply dget_is_Some_keys; eauto).
    destruct (proj2 Hr u Hin) as [p Hp]. rewrite Hu in Hp. injection Hp as ->.
    destruct (Hnn u Hin). split; simpl; eexists; done. }
  destruct (record_ok rs S B (fl_limits _ _ _ Hrs) cur al d1) as (al' & d' & Hrec & Hd' & Hget & Hkeep);
    [by rewrite (proj1 Hr)|done|done|].
  rewrite Hrec. cbn [mbind res_bind]. eexists. split; [reflexivity|].
  destruct (record_users_last rs cur al d1 al' d') as [Hlast Hlast'];
    [by rewrite (proj1 Hr)|done|].
  split; [split; simpl; by eauto|]. simpl. split.
  - intros (f1 & Hg1 & Hnn1 & Ht1). unfold lastd in Hg1. rewrite Hl in Hg1. simpl in Hg1.
    assert (Ht : ∀ k, (total k apps f <= 1)%Qc).
    { destruct Hf as [->|Hf]; [|done]. intros k. rewrite (total_ext k apps f0 f1); [done|].
      destruct (initialize_unique apps d f1 Hne Hnd' Hd) as (cur1 & f2 & Hi' & Hr2 & _ & Hu).
      rewrite Hi in Hi'. injection Hi' as <-. intros u Hus. rewrite <- (Hu Hg1 u Hus).
      destruct (proj2 Hr0 u Hus) as [p Ep]. destruct (proj2 Hr2 u Hus) as [p' Ep'].
      rewrite Ep in Ep'. injection Ep' as E1 E2 _. by destruct k. }
    split.
    + apply (vm_fits_shares S B al' _ f); [by apply Qclt_le_weak..|done|].
      intros u Hu. destruct (proj2 Hr u Hu) as [p Hp]. by apply (Hget u) in Hp.
    + exists f. split; [|done]. intros u Hu. destruct (proj2 Hr u Hu) as [p Hp].
      destruct (Hlast u _ Hp) as (a' & Ea' & E1 & E2). simpl in E1, E2. exists (a_price a').
      unfold lastd. simpl. rewrite Ea'. destruct a'; simpl in *; by subst.
  - intros u Hu. assert (Hn : dget cur u = None) by (apply dget_None_keys; by rewrite (proj1 Hr)).
    split; [apply Hkeep; by rewrite (proj1 Hr)|]. unfold lastd. simpl. rewrite Hl. simpl.
    rewrite (Hlast' u Hn). by apply Hkeep1.
Qed.
End total.

(** ** Rounds *)

Section reach.
Context (rs : scale xnum) (S B : Qc) (Hrs : full_limits rs S B).
Context (interval : Z) (g : Qc) (Hg : (0 <= g)%Qc).
Context (users : list Z) (Husers : NoDup users) (num_vms : Z) (Hvms : num_vms ≠ 0%Z).

Record inc_ok (s : inc xnum) : Prop := {
  io_stored : ∀ d, last_allocation s = Some d → stored_nn d;
  io_fresh : last_allocation s = None → last_static_allocation s = None ∧ last_static_performance s = None;
  io_decisions : decisions_ok s;
}.

Lemma inc_update_ok mon s :
  inc_ok s → ∃ s', update_last_static_performance rs users mon s = Ok s' ∧ inc_ok s' ∧
    last_allocation s' = last_allocation s.
Proof.
  intros [Hl Hn Hdec]. unfold update_last_static_performance.
  destruct (last_static_allocation s) as [st|] eqn:Es;
    [|exists s; split; [done|]; split; [split; [done|by rewrite Es|done]|done]].
  destruct (last_allocation s) as [d|] eqn:El; [|by destruct (Hn eq_refl)]. simpl.
  case_match; [|exists s; split; [done|]; split; [split; rewrite ?El; done|done]].
  destruct (foldl _ _ users) as [perf up]. eexists. split; [reflexivity|].
  split; [split; simpl; rewrite ?El; done|done].
Qed.

(** The state after a static round. *)
Lemma static_state_ok s la :
  inc_ok s → stored_nn la →
  inc_ok (IncState (Some la) (Some la) (last_static_performance s) (user_performances s)
            (vm_allocation_decisions s) (remaining_resources s) (last_adjusted_users s)).
Proof. intros [_ _ Hdec] Hla. split; simpl; [by intros d [= <-]|done|done]. Qed.

(** Equal shares fit, and they are what a static round on a complete map
    leaves behind. *)
Lemma static_sums m :
  NoDup (mapped_users m) →
  ∃ acc, static_allocation rs users m true num_vms = Ok acc ∧ stored_nn acc.2 ∧
    ∀ vm, vm ∈ m → vm_fits S B acc.1 (vm_apps vm.2 users) ∧ sum_ok acc.2 (vm_apps vm.2 users).
Proof.
  intros Hm. pose proof (fl_limits _ _ _ Hrs) as Hlim. unfold static_allocation, Fij.static_allocation.
  destruct (for_all_cover acc_nn
    (λ vm acc, vm ∈ m → vm_fits S B acc.1 (vm_apps vm.2 users) ∧ sum_ok acc.2 (vm_apps vm.2 users))
    (λ vm, Fij.merge_vm rs (vm_apps vm.2 users)) m ([], [])) as (acc & Hr & HI & Hall & _);
    [|by intros u a|by exists acc; eauto].
  intros vm t Hvm Ht. set (apps := vm_apps vm.2 users).
  assert (Hnd : NoDup apps) by (by apply NoDup_vm_apps, (vm_NoDup m Hm)).
  destruct (merge_vm_ok rs S B Hlim apps t Hnd Ht) as (t' & Hr & Ht' & Hfit & Hkeep).
  assert (Hother : ∀ q u, q ∈ m → q ≠ vm → u ∈ vm_apps q.2 users → u ∉ apps).
  { intros q u Hq Hne [Hu _]%elem_of_vm_apps [Hu' _]%elem_of_vm_apps.
    apply Hne. by apply (vm_disjoint m Hm _ _ u). }
  assert (HC : vm_fits S B t'.1 apps ∧ sum_ok t'.2 apps).
  { split; [done|]. destruct (decide (apps = [])) as [->|Hne].
    { exists (λ _, (0, 0)%Qc). split; [by intros u Hu%elem_of_nil|].
      split; [by intros u Hu%elem_of_nil|by intros []]. }
    destruct (merge_vm_run rs S B Hlim apps t Hnd Hne) as (x & al & la & Hr' & _ & _ & Hla).
    set (n := Z.of_nat (length apps)) in *. rewrite Hr in Hr'. injection Hr' as ->.
    assert (Hn : (0 < n)%Z) by (subst n; destruct apps; [done|simpl; lia]).
    exists (λ _, (/ zq n, / zq n)%Qc). split; [|split].
    - intros u Hu. exists None. cbn [snd]. rewrite Hla, decide_True by done. done.
    - intros u _. simpl. split; rewrite <- (Qcmult_1_l (/ _)); by apply Qclt_le_weak, Qcdiv_pos, zq_pos.
    - intros k. unfold total.
      replace (λ _ : Z, kq k ((/ zq n)%Qc, (/ zq n)%Qc)) with (λ _ : Z, (/ zq n)%Qc) by (by destruct k).
      unfold n. rewrite equal_shares_sum by done. apply Qcle_refl. }
  exists t'. split; [done|]. split; [done|]. split; [done|].
  intros q Hq Hqm. destruct (decide (q = vm)) as [->|Hqv]; [done|]. destruct (Hq Hqm) as [Hf Hs].
  split; [eapply vm_fits_ext; [|exact Hf]|eapply sum_ok_ext; [|exact Hs]]; intros u Hu.
  - apply Hkeep. by apply (Hother q).
  - destruct (decide (apps = [])) as [E|Hne]; [rewrite E in Hr; by injection Hr as <-|].
    destruct (merge_vm_run rs S B Hlim apps t Hnd Hne) as (x & al & la & Hr' & _ & _ & Hla).
    rewrite Hr in Hr'. injection Hr' as ->. cbn [snd].
    rewrite Hla, decide_False; [done|]. by apply (Hother q).
Qed.

(** The stored shares fit into every VM of the map. *)
Definition sums_ok (m : vm_map) (s : inc xnum) : Prop :=
  ∀ vm, vm ∈ m → sum_ok (lastd s) (vm_apps vm.2 users).

Definition all_fit (m : vm_map) (al : dict Z units) : Prop :=
  ∀ vm, vm ∈ m → vm_fits S B al (vm_apps vm.2 users).

(** The VMs of a dynamic round. *)
Lemma dynamic_ok mon clock m acc :
  NoDup (mapped_users m) → dyn_ok acc →
  ∃ acc', for_all (allocate_vm rs mon clock (Num g) users) m acc = Ok acc' ∧ dyn_ok acc' ∧
    (sums_ok m acc.2 → all_fit m acc'.1 ∧ sums_ok m acc'.2).
Proof.
  intros Hm Hacc. set (P := sums_ok m acc.2).
  destruct (for_all_cover (λ t, dyn_ok t ∧ (P → sums_ok m t.2))
    (λ vm t, P → vm ∈ m → vm_fits S B t.1 (vm_apps vm.2 users))
    (allocate_vm rs mon clock (Num g) users) m acc) as (acc' & Hr & [Hd Hs] & Hall & _);
    [|done|by exists acc'; split; [done|]; split; [done|]; intros HP; split; [|by apply Hs]; intros vm Hvm; by apply Hall].
  intros vm t Hvm [Ht HPt].
  destruct (inc_vm_ok rs S B Hrs g Hg mon clock users vm t (vm_NoDup m Hm vm Hvm) Ht)
    as (t' & Hr & Ht' & Hsum & Hkeep).
  assert (Hother : ∀ q u, q ∈ m → q ≠ vm → u ∈ vm_apps q.2 users → u ∉ vm_apps vm.2 users).
  { intros q u Hq Hne [Hu _]%elem_of_vm_apps [Hu' _]%elem_of_vm_apps.
    apply Hne. by apply (vm_disjoint m Hm _ _ u). }
  exists t'. split; [done|]. split; [|split].
  - split; [done|]. intros HP q Hq. destruct (decide (q = vm)) as [->|Hne]; [by apply Hsum, HPt|].
    eapply sum_ok_ext; [|by apply (HPt HP q Hq)]. intros u Hu. apply Hkeep. by apply (Hother q).
  - intros HP _. by apply Hsum, HPt.
  - intros q Hq HP Hqm. destruct (decide (q = vm)) as [->|Hne]; [by apply Hsum, HPt|].
    eapply vm_fits_ext; [|by apply Hq]. intros u Hu. apply Hkeep. by apply (Hother q).
Qed.

(** The round takes the static branch. *)
Definition static_phase (skip : bool) (mon : monitor xnum) (s : inc xnum) : Prop :=
  ∃ s1, update_last_static_performance rs users mon s = Ok s1 ∧
    is_static_allocation interval skip users (total_record_of mon) s1 = true.

Lemma inc_round_ok clock skip mon s :
  NoDup (mapped_users (vm_to_app_map mon)) → inc_ok s →
  ∃ al s', allocate_and_parse rs interval clock (Num g) skip users num_vms mon s = Ok (al, s') ∧
    inc_ok s' ∧
    (is_complete_vm_map (vm_to_app_map mon) users = true →
     static_phase skip mon s ∨ sums_ok (vm_to_app_map mon) s →
     all_fit (vm_to_app_map mon) al ∧ sums_ok (vm_to_app_map mon) s').
Proof.
  intros Hm Hs. unfold allocate_and_parse. cbv zeta. set (m := vm_to_app_map mon) in *.
  destruct (is_complete_vm_map m users) eqn:Ec.
  - destruct (inc_update_ok mon s Hs) as (s1 & Hup & Hs1 & El). rewrite Hup. cbn [mbind res_bind].
    destruct (is_static_allocation interval skip users (total_record_of mon) s1) eqn:Est; cbn [orb negb].
    + destruct (static_sums m Hm) as ([al la] & -> & Hnn & Hfit). cbn [mbind res_bind].
      exists al. eexists. split; [reflexivity|]. split; [by apply static_state_ok|].
      intros _ _. split; intros vm Hvm; by apply Hfit.
    + assert (Hd : dyn_ok ([], s1)).
      { destruct Hs1 as [Hl Hn Hdec]. destruct (last_allocation s1) as [d|] eqn:El1.
        - split; simpl; [by rewrite El1|unfold lastd; rewrite El1; by apply Hl|done].
        - exfalso. destruct (Hn eq_refl) as [_ Hp]. unfold is_static_allocation in Est. by rewrite Hp in Est. }
      destruct (dynamic_ok mon clock m ([], s1) Hm Hd) as ([al s2] & -> & [[d Hl2] Hst2 Hdec2] & Hsum).
      simpl in Hl2, Hst2, Hdec2. exists al, s2. split; [done|]. split.
      { split; [|by rewrite Hl2|done]. intros d' Hd'. rewrite Hl2 in Hd'. injection Hd' as <-.
        unfold lastd in Hst2. by rewrite Hl2 in Hst2. }
      intros _ [(s1' & Hup' & Est')|HP]; [rewrite Hup in Hup'; injection Hup' as <-; congruence|].
      apply Hsum. intros vm Hvm. unfold lastd. simpl. rewrite El. by apply HP.
  - cbn [mbind res_bind negb]. rewrite orb_true_r.
    destruct (static_round rs S B (fl_limits _ _ _ Hrs) users Husers num_vms Hvms m false Hm)
      as ([al la] & Hst & Hnn & _). unfold static_allocation. rewrite Hst. cbn [mbind res_bind].
    exists al. eexists. split; [reflexivity|]. split; [by apply static_state_ok|done].
Qed.

(** The allocator's states over any sequence of rounds, with any monitor and
    any clock in each. *)
Inductive inc_reach : inc xnum → Prop :=
  | inc_start : inc_reach new_inc
  | inc_round clock skip mon s al s' :
      NoDup (mapped_users (vm_to_app_map mon)) → inc_reach s →
      allocate_and_parse rs interval clock (Num g) skip users num_vms mon s = Ok (al, s') →
      inc_reach s'.

Lemma inc_reach_ok s : inc_reach s → inc_ok s.
Proof.
  induction 1 as [|clock skip mon s al s' Hm _ IH Hr]; [by split|].
  destruct (inc_round_ok clock skip mon s Hm IH) as (al1 & s1 & Hr' & Hok & _). congruence.
Qed.

(** C21: every round of the incremental allocator returns, from every
    reachable state and whatever was measured. *)
Theorem inc_round_returns clock skip mon s :
  NoDup (mapped_users (vm_to_app_map mon)) → inc_reach s →
  ∃ al s', allocate_and_parse rs interval clock (Num g) skip users num_vms mon s = Ok (al, s') ∧
    inc_reach s'.
Proof.
  intros Hm Hs. destruct (inc_round_ok clock skip mon s Hm (inc_reach_ok s Hs)) as (al & s' & Hr & _).
  exists al, s'. split; [done|]. by eapply inc_round.
Qed.

(** The rounds on one complete map, from the first static one on. *)
Inductive inc_steady (m : vm_map) : dict Z units → inc xnum → Prop :=
  | steady_first clock skip mon s al s' :
      inc_reach s → vm_to_app_map mon = m → static_phase skip mon s →
      allocate_and_parse rs interval clock (Num g) skip users num_vms mon s = Ok (al, s') →
      inc_steady m al s'
  | steady_next clock skip mon al0 s al s' :
      inc_steady m al0 s → vm_to_app_map mon = m →
      allocate_and_parse rs interval clock (Num g) skip users num_vms mon s = Ok (al, s') →
      inc_steady m al s'.

Lemma inc_steady_ok m al s :
  NoDup (mapped_users m) → is_complete_vm_map m users = true →
  inc_steady m al s → inc_ok s ∧ all_fit m al ∧ sums_ok m s.
Proof.
  intros Hm Hc. induction 1 as [clock skip mon s al s' Hs Em Hst Hr|clock skip mon al0 s al s' _ (Hs & _ & Hsum) Em Hr].
  - destruct (inc_round_ok clock skip mon s) as (al1 & s1 & Hr' & Hok & Hfit);
      [by rewrite Em|by apply inc_reach_ok|].
    rewrite Hr in Hr'. injection Hr' as <- <-. rewrite Em in Hfit. by split; [|apply Hfit; auto].
  - destruct (inc_round_ok clock skip mon s) as (al1 & s1 & Hr' & Hok & Hfit); [by rewrite Em|done|].
    rewrite Hr in Hr'. injection Hr' as <- <-. rewrite Em in Hfit. by split; [|apply Hfit; auto].
Qed.

(** C20: as long as the VM map does not change, every round of the incremental
    allocator, from the first static one on, gives the applications of each VM
    units that add up to at most the VM's cache and bandwidth. *)
Theorem inc_steady_fits m al s :
  NoDup (mapped_users m) → is_complete_vm_map m users = true → inc_steady m al s → all_fit m al.
Proof. intros Hm Hc Hs. by apply (inc_steady_ok m al s). Qed.
End reach.
