(* ===== verification/Oracle.v ===== *)
(** * The oracle allocator: allocators/oracle_allocator.py

    The allocation of each profile of the configuration, or, without one, an
    allocation by the sensitivity the profiles declare
    ([RuntimeEstimator.get_sensitivity]). *)

From S2P Require Import Prelude PyDict PyFloat Resources Base.

Module Oracle.

(** The ["sensitivity"] of a profile. *)
Inductive sensitivity := SensCache | SensMemBw | SensOther (id : Z).

#[export] Instance sensitivity_eq_dec : EqDecision sensitivity.
Proof. solve_decision. Defined.

(** A dictionary [{"cache": .., "mem_bw": ..}] of which either key may be
    absent: the ["oracle_allocation"] of a profile, and what is handed to the
    deployer. *)
Record request := Request { r_cache : option Z; r_mem_bw : option Z }.

(** [d.get(k, 0)] *)
Definition r_get (k : kind) (r : request) : Z :=
  default 0%Z (match k with Cache => r_cache r | MemBw => r_mem_bw r end).

(** [d[k] = v] *)
Definition r_set (k : kind) (v : Z) (r : request) : request :=
  match k with
  | Cache => Request (Some v) (r_mem_bw r)
  | MemBw => Request (r_cache r) (Some v)
  end.

(** The fields of a profile the allocator reads. *)
Record profile := Profile {
  user_id : Z;
  profile_sensitivity : option sensitivity;
  oracle_allocation : option request;
}.

(** What the allocator computes for its users: [None] for a profile without
    the key ["oracle_allocation"]. *)
Abbreviation allocation := (dict Z (option request)).

(** [profiles_config]: absent when the configuration has no profiles. *)
Abbreviation profiles := (option (list profile)).

(** [allocation[profile.get("user_id")] = profile.get("oracle_allocation")]
    for every profile: the values are the configuration's own dictionaries. *)
Definition profile_allocation (l : list profile) : allocation :=
  foldl (λ acc p, dset acc (user_id p) (oracle_allocation p)) [] l.

(** The configuration after its dictionaries were written to through
    [allocation]: the entry of a user is the dictionary of the last profile
    with this id. *)
Fixpoint write_back (al : allocation) (l : list profile) : list profile :=
  match l with
  | [] => []
  | p :: l' =>
      (if bool_decide (user_id p ∈ user_id <$> l') then p
       else Profile (user_id p) (profile_sensitivity p)
              (default (oracle_allocation p) (dget al (user_id p)))) :: write_back al l'
  end.

(** ** Writes that may raise

    A statement that changes the state and then possibly raises: what was
    written before the exception stays written. *)
Definition stmt (S : Type) := S → S * option exn.

(** [f; g] *)
Definition stmt_seq {S} (f g : stmt S) : stmt S := λ s,
  match f s with (s', None) => g s' | (s', Some e) => (s', Some e) end.

(** [for x in xs: body x] *)
Fixpoint stmt_all {X S} (body : X → stmt S) (xs : list X) : stmt S :=
  match xs with
  | [] => λ s, (s, None)
  | x :: xs' => stmt_seq (body x) (stmt_all body xs')
  end.

(** [vm_users]: the users of each VM the map knows, VM 0 excluded
    ([if vm:]). *)
Definition group_users (app_to_vm : dict Z Z) (users : list Z) : dict Z (list Z) :=
  foldl (λ acc u,
    match dget app_to_vm u with
    | Some vm => if (vm =? 0)%Z then acc else dset acc vm (default [] (dget acc vm) ++ [u])
    | None => acc
    end) [] users.

(** [sum([allocation[user].get(k, 0) for user in users])] *)
Definition total_of (al : allocation) (k : kind) (users : list Z) : res Z :=
  for_all (λ u acc,
    o ← dgetE al u; r ← or_raise AttributeError o; Ok (acc + r_get k r)%Z) users 0%Z.

Section operations.
Context {F : Type} `{PyFloat F}.
Local Open Scope py_scope.
Context (rs : scale F).

(** [get_app_ids] *)
Definition get_app_ids (ps : profiles) : res (list Z) :=
  match ps with None => Err TypeError | Some l => Ok (user_id <$> l) end.

(** [get_sensitivity] *)
Definition get_sensitivity (ps : list profile) : res (dict sensitivity (list Z)) :=
  let d := foldl (λ acc p,
    match profile_sensitivity p with
    | None => acc
    | Some s => dset acc s (default [] (dget acc s) ++ [user_id p])
    end) [] ps in
  match d with [] => Err ValueError | _ => Ok d end.

(** [int(d.get(k, 0) * scale[k] / total)], the bandwidth in Mbps. *)
Definition portion (k : kind) (x total : Z) : res Z :=
  q ← match k with
      | Cache => of_Z x * s_cache rs / of_Z total
      | MemBw => of_Z (x * 1024)%Z * s_mem_bw rs / of_Z total
      end;
  trunc q.

(** [if total > 0: user_alloc[k] = ...] *)
Definition scale_key (k : kind) (total user : Z) : stmt allocation := λ al,
  if (total <=? 0)%Z then (al, None)
  else match r ← (o ← dgetE al user; or_raise AttributeError o);
             z ← portion k (r_get k r) total; Ok (r_set k z r) with
       | Ok r => (dset al user (Some r), None)
       | Err e => (al, Some e)
       end.

(** The VM's requests exceed its resources. *)
Definition exceeds (total_cache total_bw : Z) : bool :=
  (of_Z total_cache >? s_cache rs) || (of_Z total_bw >? s_mem_bw rs * of_Z 1024).

(** The iteration of the normalisation for one VM (lines 79-93). *)
Definition normalize_vm (vm_users : Z * list Z) : stmt allocation := λ al,
  match tc ← total_of al Cache vm_users.2; tb ← total_of al MemBw vm_users.2; Ok (tc, tb) with
  | Err e => (al, Some e)
  | Ok (tc, tb) =>
      if exceeds tc tb
      then stmt_all (λ u, stmt_seq (scale_key Cache tc u) (scale_key MemBw tb u)) vm_users.2 al
      else (al, None)
  end.

(** [get_oracle_allocation(alloc_remaining)]: the configuration it leaves and
    the allocation.  [len(None)] and every exception of the normalisation is
    caught and answered with [None], an empty list falls through to [None]. *)
Definition get_oracle_allocation (alloc_remaining : bool) (m : vm_map) (ps : profiles)
    : profiles * option allocation :=
  match ps with
  | None | Some [] => (ps, None)
  | Some l =>
      let al := profile_allocation l in
      if alloc_remaining then
        let vm_users := group_users (create_app_to_vm_map m) (dkeys al) in
        let '(al', e) := stmt_all normalize_vm vm_users al in
        (Some (write_back al' l), match e with None => Some al' | Some _ => None end)
      else (ps, Some al)
  end.

(** [len(sensitivity[k]) * resource_scale[..]] if the kind occurs, else 0
    (lines 113-124). *)
Definition reserved (sens : dict sensitivity (list Z)) (k : sensitivity) (minimum : option F)
    : res F :=
  match dget sens k with
  | Some us => x ← or_raise KeyError minimum; Ok (of_Z (Z.of_nat (length us)) * x)
  | None => Ok (of_Z 0)
  end.

(** The requests of the two kinds of sensitive users (lines 113-129). *)
Definition sensitive_units (sens : dict sensitivity (list Z)) : res (request * request) :=
  let count k := of_Z (Z.of_nat (length (default [] (dget sens k)))) in
  for_mem ← reserved sens SensMemBw (s_min_cache rs);
  for_cache ← reserved sens SensCache (s_min_mem_bw rs);
  c ← (s_cache rs - for_mem) / count SensCache;
  min_bw ← or_raise KeyError (s_min_mem_bw rs);
  min_cache ← or_raise KeyError (s_min_cache rs);
  b ← (s_mem_bw rs - for_cache) / count SensMemBw;
  cc ← trunc c;
  cb ← trunc (min_bw * of_Z 1024);
  bc ← trunc min_cache;
  bb ← trunc (b * of_Z 1024);
  Ok (Request (Some cc) (Some cb), Request (Some bc) (Some bb)).

(** The allocation by sensitivity (lines 131-139): an empty dictionary for a
    user of neither kind. *)
Definition allocate_by_sensitivity (users : list Z) (sens : dict sensitivity (list Z))
    : res allocation :=
  '(uc, ub) ← sensitive_units sens;
  Ok (foldl (λ acc u, dset acc u (Some
    (if bool_decide (u ∈ default [] (dget sens SensCache)) then uc
     else if bool_decide (u ∈ default [] (dget sens SensMemBw)) then ub
     else Request None None))) [] users).

(** [allocate_and_parse] *)
Definition allocate_and_parse (m : vm_map) (ps : profiles) : res allocation :=
  users ← get_app_ids ps;
  match (get_oracle_allocation false m ps).2 with
  | Some al => Ok al
  | None => sens ← get_sensitivity (default [] ps); allocate_by_sensitivity users sens
  end.
End operations.

(** The oracle never allocates by sensitivity.  Any configuration with a
    profile gets the allocations written in it, profiles that have none
    included (they get none), and a configuration without profiles an
    exception. *)
Theorem oracle_ignores_sensitivity {F} `{PyFloat F} (rs : scale F) (m : vm_map) (ps : profiles) :
  allocate_and_parse rs m ps =
    match ps with
    | None => Err TypeError
    | Some [] => Err ValueError
    | Some l => Ok (profile_allocation l)
    end.
Proof. by destruct ps as [[|p l]|]. Qed.
End Oracle.
