(* ===== verification/OracleExact.v ===== *)
(** * The oracle's normalisation in exact arithmetic

    [get_oracle_allocation(alloc_remaining=True)] scales the requests of every
    VM that asks for more than it has: it returns, and afterwards what the
    users of each VM get fits into the VM.  VM 0 is left out of it. *)

From S2P Require Import Prelude PyDict PyFloat Exact Resources Base BaseExact Oracle.

Module OracleExact.
Import Oracle.

(** ** Grouping users by VM *)

Section grouping.
Context (a2v : dict Z Z).

(** The users of a VM, in the order of the allocation. *)
Definition users_of (vm : Z) (us : list Z) : list Z :=
  filter (λ u, dget a2v u = Some vm) us.

Lemma group_users_step g u vm :
  vm ≠ 0%Z →
  dget (match dget a2v u with
        | Some w => if (w =? 0)%Z then g else dset g w (default [] (dget g w) ++ [u])
        | None => g
        end) vm =
  if decide (dget a2v u = Some vm) then Some (default [] (dget g vm) ++ [u]) else dget g vm.
Proof.
  intros Hvm. destruct (dget a2v u) as [w|]; [|by rewrite decide_False].
  destruct (decide (w = vm)) as [->|Hne].
  - by rewrite decide_True, (proj2 (Z.eqb_neq vm 0)), dget_dset_eq by done.
  - rewrite (decide_False (P := Some w = Some vm)) by congruence.
    destruct (w =? 0)%Z; [done|]. by rewrite dget_dset_ne.
Qed.

Lemma group_users_get us vm :
  vm ≠ 0%Z →
  dget (group_users a2v us) vm =
    match users_of vm us with [] => None | l => Some l end.
Proof.
  intros Hvm. unfold group_users, users_of. induction us as [|u us IH] using rev_ind; [done|].
  rewrite foldl_app. simpl. rewrite group_users_step, IH, filter_app by done.
  rewrite filter_cons, filter_nil.
  destruct (decide (dget a2v u = Some vm)); [|by rewrite app_nil_r].
  by destruct (filter _ us).
Qed.

Lemma group_users_zero us : 0%Z ∉ dkeys (group_users a2v us).
Proof.
  unfold group_users. induction us as [|u us IH] using rev_ind; [set_solver|].
  rewrite foldl_app. simpl. destruct (dget a2v u) as [w|]; [|done].
  destruct (w =? 0)%Z eqn:E; [done|]. apply Z.eqb_neq in E.
  rewrite elem_of_dkeys_dset. naive_solver.
Qed.

Lemma group_users_NoDup us : NoDup (dkeys (group_users a2v us)).
Proof.
  unfold group_users. induction us as [|u us IH] using rev_ind; [constructor|].
  rewrite foldl_app. simpl. destruct (dget a2v u) as [w|]; [|done].
  destruct (w =? 0)%Z; [done|by apply NoDup_dset].
Qed.

(** Every group is the users of its VM. *)
Lemma group_users_elem us vm l :
  (vm, l) ∈ group_users a2v us → vm ≠ 0%Z ∧ l = users_of vm us.
Proof.
  intros Hin. assert (Hvm : vm ≠ 0%Z).
  { intros ->. apply (group_users_zero us). apply list_elem_of_fmap. by exists (0%Z, l). }
  split; [done|]. apply dget_In in Hin; [|apply group_users_NoDup].
  rewrite group_users_get in Hin by done. by destruct (users_of vm us); simplify_eq.
Qed.
End grouping.

(** ** Scaling the requests of a VM *)

(** Every allocated user has a request, of non-negative amounts. *)
Definition requested (al : allocation) : Prop :=
  ∀ u o, dget al u = Some o → ∃ r, o = Some r ∧ ∀ k, (0 <= r_get k r)%Z.

(** What a user asks for. *)
Definition asks (al : allocation) (k : kind) (u : Z) : Z :=
  match dget al u with Some (Some r) => r_get k r | _ => 0%Z end.

Lemma asks_nonneg al k u : requested al → (0 <= asks al k u)%Z.
Proof.
  intros Hal. unfold asks. destruct (dget al u) as [o|] eqn:E; [|done].
  by destruct (Hal _ _ E) as (r & -> & Hr).
Qed.

Lemma total_of_ok al k us :
  requested al → Forall (λ u, u ∈ dkeys al) us →
  total_of al k us = Ok (zsum (asks al k <$> us)).
Proof.
  intros Hal Hus. unfold total_of. rewrite <- (Z.add_0_l (zsum _)). generalize 0%Z as acc.
  induction Hus as [|u us Hu _ IH]; intros acc; csimpl; [by rewrite Z.add_0_r|].
  apply dget_is_Some_keys in Hu as [o Ho]. destruct (Hal _ _ Ho) as (r & -> & _).
  unfold dgetE. rewrite Ho. simpl. rewrite IH. f_equal.
  unfold asks at 2. rewrite Ho. lia.
Qed.

Lemma zsum_nonneg l : Forall (Z.le 0) l → (0 <= zsum l)%Z.
Proof. induction 1; simpl; lia. Qed.

Section scaling.
Context (rs : scale xnum) (S B : Qc).
Hypotheses (HS : s_cache rs = Num S) (HB : s_mem_bw rs = Num B).
Hypotheses (HS0 : (0 < S)%Qc) (HB0 : (0 < B)%Qc).

(** The VM's capacity in the units of the requests. *)
Definition capacity (k : kind) : Qc := match k with Cache => S | MemBw => (B * zq 1024)%Qc end.

Lemma capacity_pos k : (0 < capacity k)%Qc.
Proof using HS0 HB0.
  destruct k; simpl; [done|]. pose proof (zq_pos 1024 ltac:(lia)). qc_nra.
Qed.

(** The amount a request becomes. *)
Definition scaled (k : kind) (x total : Z) : Z :=
  match portion rs k x total with Ok z => z | Err _ => 0%Z end.

Lemma portion_ok k x t :
  (0 <= x)%Z → (0 < t)%Z →
  portion rs k x t = Ok (scaled k x t) ∧ (0 <= scaled k x t)%Z ∧
  (zq (scaled k x t) <= zq x * (capacity k / zq t))%Qc.
Proof using HS HB HS0 HB0.
  intros Hx Ht. unfold scaled.
  assert (Hq : portion rs k x t = trunc (Num (zq x * (capacity k / zq t))%Qc)).
  { unfold portion. change (@of_Z xnum _) with (λ z, Num (zq z)). simpl.
    pose proof (pos_ne0 _ (zq_pos t Ht)). destruct k; simpl; rewrite ?HS, ?HB;
      change (@fmul xnum _ (Num ?a) (Num ?b)) with (Num (a * b)%Qc);
      rewrite fdiv_Num by done; simpl; do 2 f_equal; rewrite ?zq_mul; unfold Qcdiv; ring. }
  assert (H0 : (0 <= zq x * (capacity k / zq t))%Qc).
  { pose proof (Qcdiv_pos _ _ (capacity_pos k) (zq_pos t Ht)) as Hd.
    apply zq_le in Hx. change (zq 0) with 0%Qc in Hx. revert Hd Hx.
    generalize (capacity k / zq t)%Qc (zq x). intros a b ??. qc_nra. }
  rewrite Hq. destruct (trunc_nonneg _ H0) as (z & Hz & _).
  rewrite Hz. split; [done|]. split; by apply (trunc_le_nonneg _ _ H0 Hz).
Qed.

(** The scaled requests of users who together ask for [t] fit. *)
Lemma scaled_fits k xs :
  Forall (Z.le 0) xs → (0 < zsum xs)%Z →
  (zq (zsum ((λ x, scaled k x (zsum xs)) <$> xs)) <= capacity k)%Qc.
Proof using HS HB HS0 HB0.
  intros Hxs Ht. set (t := zsum xs) in *.
  trans (zq (zsum xs) * (capacity k / zq t))%Qc.
  - rewrite !zq_zsum, <- (qsum_scale zq). apply qsum_le. rewrite <- list_fmap_compose.
    clearbody t. induction Hxs as [|x xs Hx _ IH]; csimpl; constructor; [|done].
    by apply portion_ok.
  - unfold t. pose proof (pos_ne0 _ (zq_pos _ Ht)).
    unfold Qcdiv. rewrite (Qcmult_comm (capacity k)), Qcmult_assoc, Qcmult_inv_r, Qcmult_1_l by done.
    apply Qcle_refl.
Qed.

(** What the loop body leaves of a user's request. *)
Definition resized (k : kind) (t x : Z) : Z := if (t <=? 0)%Z then x else scaled k x t.

Definition keeps (al al' : allocation) (us : list Z) : Prop :=
  dkeys al' = dkeys al ∧ requested al' ∧ ∀ v, v ∉ us → dget al' v = dget al v.

Lemma keeps_trans al1 al2 al3 us vs ws :
  us ⊆ ws → vs ⊆ ws → keeps al1 al2 us → keeps al2 al3 vs → keeps al1 al3 ws.
Proof.
  intros Hu Hv (Hk & _ & Hd) (Hk' & Hr & Hd'). split; [congruence|]. split; [done|].
  intros v Hn. rewrite Hd', Hd by set_solver. done.
Qed.

Lemma asks_keeps al al' us k v : keeps al al' us → v ∉ us → asks al' k v = asks al k v.
Proof. intros (_ & _ & Hd) Hv. unfold asks. by rewrite Hd. Qed.

Lemma r_get_set k k' z r : r_get k' (r_set k z r) = if decide (k = k') then z else r_get k' r.
Proof. by destruct k, k'. Qed.

Lemma scale_key_ok k t u al :
  requested al → u ∈ dkeys al →
  ∃ al', scale_key rs k t u al = (al', None) ∧ keeps al al' [u] ∧
    ∀ k', asks al' k' u = if decide (k = k') then resized k t (asks al k u) else asks al k' u.
Proof using HS HB HS0 HB0.
  intros Hal Hu. pose proof Hu as [o Ho]%dget_is_Some_keys. destruct (Hal _ _ Ho) as (r & -> & Hr).
  unfold scale_key, resized. destruct (t <=? 0)%Z eqn:Et.
  { exists al. split; [done|]. split; [by split|]. intros k'. by case_decide as E; [rewrite E|]. }
  apply Z.leb_gt in Et. unfold dgetE. rewrite Ho. simpl.
  destruct (portion_ok k (r_get k r) t (Hr k) Et) as (-> & H0 & _). simpl.
  eexists. split; [done|]. split; [split; [|split]|].
  - by rewrite dkeys_dset, (proj2 (dmem_true al u)).
  - intros v o. rewrite dget_dset. case_decide as Ev; [|by apply Hal].
    intros [= <-]. eexists. split; [done|]. intros k'. rewrite r_get_set. by case_decide.
  - intros v Hv. rewrite dget_dset_ne; [done|set_solver].
  - intros k'. unfold asks. rewrite dget_dset_eq, Ho, r_get_set. done.
Qed.

Lemma scale_user_ok tc tb u al :
  requested al → u ∈ dkeys al →
  ∃ al', stmt_seq (scale_key rs Cache tc u) (scale_key rs MemBw tb u) al = (al', None) ∧
    keeps al al' [u] ∧
    ∀ k, asks al' k u = resized k (match k with Cache => tc | MemBw => tb end) (asks al k u).
Proof using HS HB HS0 HB0.
  intros Hal Hu. destruct (scale_key_ok Cache tc u al Hal Hu) as (al1 & E1 & K1 & A1).
  destruct (scale_key_ok MemBw tb u al1) as (al2 & E2 & K2 & A2); [apply K1|by rewrite (proj1 K1)|].
  exists al2. unfold stmt_seq. rewrite E1. split; [done|]. split; [by eapply keeps_trans|].
  intros []; rewrite A2, !A1; done.
Qed.

Lemma scale_users_ok tc tb us al :
  NoDup us → requested al → Forall (λ u, u ∈ dkeys al) us →
  ∃ al', stmt_all (λ u, stmt_seq (scale_key rs Cache tc u) (scale_key rs MemBw tb u)) us al
           = (al', None) ∧ keeps al al' us ∧
    ∀ k u, u ∈ us →
      asks al' k u = resized k (match k with Cache => tc | MemBw => tb end) (asks al k u).
Proof using HS HB HS0 HB0.
  intros Hnd. revert al. induction Hnd as [|u us Hu Hnd IH]; intros al Hal Hus; simpl.
  { exists al. split; [done|]. split; [by split|]. set_solver. }
  apply Forall_cons in Hus as [Hin Hus].
  destruct (scale_user_ok tc tb u al Hal Hin) as (al1 & E1 & K1 & A1).
  destruct (IH al1) as (al2 & E2 & K2 & A2); [apply K1|by rewrite (proj1 K1)|].
  exists al2. unfold stmt_seq at 1. rewrite E1. split; [done|].
  split; [by eapply keeps_trans; [| |exact K1|exact K2]; set_solver|].
  intros k v [->|Hv]%elem_of_cons.
  - by rewrite (asks_keeps _ _ _ k u K2 Hu), A1.
  - rewrite A2 by done. f_equal. apply (asks_keeps _ _ _ k v K1). set_solver.
Qed.

(** The demand of a group of users fits into a VM. *)
Definition group_fits (us : list Z) (al : allocation) : Prop :=
  ∀ k, (zq (zsum (asks al k <$> us)) <= capacity k)%Qc.

Lemma exceeds_false tc tb :
  exceeds rs tc tb = false → (zq tc <= capacity Cache)%Qc ∧ (zq tb <= capacity MemBw)%Qc.
Proof using HS HB.
  unfold exceeds. rewrite orb_false_iff, HS, HB. change (@of_Z xnum _) with (λ z, Num (zq z)).
  cbv beta. change (@fmul xnum _ (Num ?a) (Num ?b)) with (Num (a * b)%Qc). simpl.
  by rewrite !xltb_Num_false.
Qed.

Lemma resized_fits k al al' us :
  requested al → let t := zsum (asks al k <$> us) in
  (∀ u, u ∈ us → asks al' k u = resized k t (asks al k u)) →
  (zq (zsum (asks al' k <$> us)) <= capacity k)%Qc.
Proof using HS HB HS0 HB0.
  intros Hal t Hsz. assert (E : asks al' k <$> us = resized k t <$> (asks al k <$> us)).
  { rewrite <- list_fmap_compose. apply list_fmap_ext. intros i u Hi.
    apply Hsz. by apply list_elem_of_lookup_2 in Hi. }
  rewrite E. unfold resized. destruct (t <=? 0)%Z eqn:Et.
  - rewrite list_fmap_id. fold t. apply Z.leb_le, zq_le in Et. change (zq 0) with 0%Qc in Et.
    pose proof (capacity_pos k). qc_lra.
  - apply scaled_fits; [|by apply Z.leb_gt in Et]. apply Forall_fmap, Forall_forall.
    intros u _. by apply asks_nonneg.
Qed.

Lemma normalize_vm_ok vm us al :
  NoDup us → requested al → Forall (λ u, u ∈ dkeys al) us →
  ∃ al', normalize_vm rs (vm, us) al = (al', None) ∧ keeps al al' us ∧ group_fits us al'.
Proof using HS HB HS0 HB0.
  intros Hnd Hal Hus. unfold normalize_vm. simpl. rewrite !total_of_ok by done. simpl.
  destruct (exceeds rs _ _) eqn:E.
  - destruct (scale_users_ok (zsum (asks al Cache <$> us)) (zsum (asks al MemBw <$> us)) us al)
      as (al' & Hrun & K & A); [done..|]. exists al'. split; [done|]. split; [done|].
    intros k. apply (resized_fits k al al' us Hal). intros u Hu. rewrite A by done. by destruct k.
  - exists al. split; [done|]. split; [by split|]. apply exceeds_false in E as [Ec Eb].
    by intros [].
Qed.

(** ** All VMs *)

Section vms.
Context (a2v : dict Z Z) (al0 : allocation) (Hnd0 : NoDup (dkeys al0)).

(** Users of no VM, and those of VM 0. *)
Definition unmanaged (u : Z) : Prop := dget a2v u = None ∨ dget a2v u = Some 0%Z.

Definition progress (al : allocation) : Prop :=
  dkeys al = dkeys al0 ∧ requested al ∧ ∀ u, unmanaged u → dget al u = dget al0 u.

Lemma normalize_group vm us al :
  (vm, us) ∈ group_users a2v (dkeys al0) → progress al →
  ∃ al', normalize_vm rs (vm, us) al = (al', None) ∧ progress al' ∧ group_fits us al' ∧
    ∀ g, g ∈ group_users a2v (dkeys al0) → group_fits g.2 al → group_fits g.2 al'.
Proof using HS HB HS0 HB0 Hnd0.
  intros [Hvm Hus]%group_users_elem (Hk & Hr & Hun).
  destruct (normalize_vm_ok vm us al) as (al' & Hrun & K & Hfit).
  { rewrite Hus. by apply NoDup_filter. }
  { done. }
  { rewrite Hus, Hk. apply Forall_forall. intros u. unfold users_of.
    rewrite list_elem_of_filter. tauto. }
  exists al'. split; [done|]. split; [|split; [done|]].
  - destruct K as (Hk' & Hr' & Hd'). split; [congruence|]. split; [done|]. intros u Hu.
    rewrite Hd', Hun by (try done; rewrite Hus; unfold users_of, unmanaged in *;
      rewrite list_elem_of_filter; intros [E _]; destruct Hu; congruence). done.
  - intros [w ws] [_ Hws]%group_users_elem Hg. simpl in *.
    destruct (decide (w = vm)) as [->|Hne]; [by rewrite Hws, <- Hus|].
    intros k. specialize (Hg k). erewrite list_fmap_ext; [exact Hg|].
    intros i u Hi%list_elem_of_lookup_2. simpl. apply (asks_keeps _ _ _ k u K).
    rewrite Hws in Hi. rewrite Hus. unfold users_of in *. rewrite list_elem_of_filter in *.
    intros [E _]. destruct Hi as [E' _]. congruence.
Qed.
End vms.
End scaling.

(** A loop whose iterations all return, keep [I], establish [C] and keep it
    for the others. *)
Lemma stmt_all_cover {X T} (I : T → Prop) (C : X → T → Prop) (P : X → Prop)
    (body : X → stmt T) xs s :
  (∀ x t, P x → I t →
     ∃ t', body x t = (t', None) ∧ I t' ∧ C x t' ∧ ∀ y, P y → C y t → C y t') →
  Forall P xs → I s →
  ∃ s', stmt_all body xs s = (s', None) ∧ I s' ∧ Forall (λ x, C x s') xs ∧
    ∀ y, P y → C y s → C y s'.
Proof.
  intros Hstep Hxs. revert s. induction Hxs as [|x xs Hx Hxs IH]; intros s HI; simpl.
  { exists s. auto. }
  destruct (Hstep x s Hx HI) as (t & E & Ht & Cx & Hkeep).
  destruct (IH t Ht) as (s' & E' & Hs' & Call & Hk). exists s'. unfold stmt_seq. rewrite E.
  split; [done|]. split; [done|]. split; [|by auto]. constructor; auto.
Qed.

(** ** The configuration after the writes *)

Section store.
Implicit Types (l : list profile) (al acc : allocation).

Abbreviation fill a l := (foldl (λ d p, dset d (user_id p) (oracle_allocation p)) a l).

Lemma fill_NoDup l acc : NoDup (dkeys acc) → NoDup (dkeys (fill acc l)).
Proof. revert acc. induction l as [|p l IH]; intros acc Hd; simpl; auto using NoDup_dset. Qed.

(** The keys of the allocation are the ids of the profiles. *)
Lemma fill_keys l acc u : u ∈ dkeys (fill acc l) ↔ u ∈ dkeys acc ∨ u ∈ user_id <$> l.
Proof.
  revert acc. induction l as [|p l IH]; intros acc; csimpl; [set_solver|].
  rewrite IH, elem_of_dkeys_dset. set_solver.
Qed.

Lemma fill_get l acc u o :
  dget (fill acc l) u = Some o → dget acc u = Some o ∨ ∃ p, p ∈ l ∧ oracle_allocation p = o.
Proof.
  revert acc. induction l as [|p l IH]; intros acc; csimpl; [auto|].
  intros [H|(q & Hq & Ho)]%IH.
  - rewrite dget_dset in H. case_decide; [|auto]. simplify_eq. right. exists p. set_solver.
  - right. exists q. set_solver.
Qed.

Lemma fill_write_back_keys al l acc acc' :
  dkeys acc = dkeys acc' → dkeys (fill acc (write_back al l)) = dkeys (fill acc' l).
Proof.
  revert acc acc'. induction l as [|p l IH]; intros acc acc' Hk; simpl; [done|]. apply IH.
  assert (Hid : user_id (if bool_decide (user_id p ∈ user_id <$> l) then p
    else Profile (user_id p) (profile_sensitivity p)
           (default (oracle_allocation p) (dget al (user_id p)))) = user_id p) by by case_match.
  rewrite Hid, !dkeys_dset, Hk.
  assert (dmem acc (user_id p) = dmem acc' (user_id p)) as ->; [|done].
  destruct (dmem acc' _) eqn:E; [apply dmem_true; rewrite Hk; by apply dmem_true|].
  apply dmem_false. rewrite Hk. by apply dmem_false.
Qed.

Lemma fill_write_back_get al l acc u :
  (∀ v, v ∈ user_id <$> l → is_Some (dget al v)) →
  dget (fill acc (write_back al l)) u = if decide (u ∈ user_id <$> l) then dget al u else dget acc u.
Proof.
  revert acc. induction l as [|p l IH]; intros acc Hal; [done|]. csimpl.
  rewrite IH by set_solver. destruct (decide (u ∈ user_id <$> l)) as [Hu|Hu].
  { by rewrite decide_True by by right. }
  case_bool_decide as Hp.
  - rewrite dget_dset_ne by congruence. rewrite decide_False; [done|]. set_solver.
  - simpl. rewrite dget_dset. destruct (decide (user_id p = u)) as [<-|Hne].
    + rewrite decide_True by left. by destruct (Hal (user_id p) ltac:(left)) as [o ->].
    + rewrite decide_False; [done|]. set_solver.
Qed.

Lemma dict_ext {V} (d e : dict Z V) :
  NoDup (dkeys d) → dkeys d = dkeys e → (∀ k, dget d k = dget e k) → d = e.
Proof.
  revert e. induction d as [|[k v] d IH]; intros [|[k' v'] e] Hnd Hk Hget; try done.
  rewrite !dkeys_cons in Hk. simplify_eq. rewrite dkeys_cons in Hnd.
  apply NoDup_cons in Hnd as [Hn Hnd]. f_equal.
  - specialize (Hget k'). simpl in Hget. rewrite !decide_True in Hget by done. by simplify_eq.
  - apply IH; [done..|]. intros u. destruct (decide (u = k')) as [->|Hne].
    + rewrite !(proj2 (dget_None_keys _ _)); [done|by rewrite <- H0|done].
    + specialize (Hget u). simpl in Hget. by rewrite !decide_False in Hget by done.
Qed.

(** Reading the written configuration gives the written allocation. *)
Lemma profile_allocation_write_back al l :
  dkeys al = dkeys (profile_allocation l) → profile_allocation (write_back al l) = al.
Proof.
  intros Hk. unfold profile_allocation in *. apply dict_ext.
  - apply fill_NoDup. constructor.
  - by rewrite (fill_write_back_keys al l [] []).
  - intros u. rewrite fill_write_back_get.
    + case_decide as Hu; [done|]. symmetry. apply dget_None_keys. rewrite Hk, fill_keys. set_solver.
    + intros v Hv. apply dget_is_Some_keys. rewrite Hk, fill_keys. auto.
Qed.
End store.

(** The requests of a configuration: every profile has one, of non-negative
    amounts. *)
Definition all_requested (l : list profile) : Prop :=
  Forall (λ p, ∃ r, oracle_allocation p = Some r ∧ ∀ k, (0 <= r_get k r)%Z) l.

Lemma profile_allocation_requested l : all_requested l → requested (profile_allocation l).
Proof.
  intros Hl u o [[=]|(p & Hp & <-)]%fill_get.
  unfold all_requested in Hl. rewrite Forall_forall in Hl. by apply Hl.
Qed.

(** C36: The normalising oracle returns, with the users of the plain allocation;
    the requests of the users of every VM but VM 0 fit into the VM, those of
    the other users are as configured; and the configuration has been changed
    along: the plain allocation of the next call is the normalised one. *)
Theorem oracle_normalised_fits (rs : scale xnum) (S B : Qc) (m : vm_map) (l : list profile) :
  s_cache rs = Num S → s_mem_bw rs = Num B → (0 < S)%Qc → (0 < B)%Qc →
  l ≠ [] → all_requested l →
  ∃ l' al,
    get_oracle_allocation rs true m (Some l) = (Some l', Some al) ∧
    dkeys al = dkeys (profile_allocation l) ∧
    (∀ vm, vm ≠ 0%Z →
       group_fits S B (users_of (create_app_to_vm_map m) vm (dkeys al)) al) ∧
    (∀ u, unmanaged (create_app_to_vm_map m) u → dget al u = dget (profile_allocation l) u) ∧
    get_oracle_allocation rs false m (Some l') = (Some l', Some al).
Proof.
  intros HS HB HS0 HB0 Hne Hl. set (a2v := create_app_to_vm_map m).
  set (al0 := profile_allocation l).
  assert (Hnd : NoDup (dkeys al0)) by (apply fill_NoDup; constructor).
  destruct (stmt_all_cover (progress a2v al0) (λ g, group_fits S B g.2)
      (λ g, g ∈ group_users a2v (dkeys al0)) (normalize_vm rs) (group_users a2v (dkeys al0)) al0)
    as (al & Hrun & (Hk & Hr & Hun) & Hfit & _).
  { intros [vm us] al Hg Hal. by apply normalize_group. }
  { by apply Forall_forall. }
  { split; [done|]. split; [by apply profile_allocation_requested|done]. }
  exists (write_back al l), al. split; [|split; [done|split; [|split; [done|]]]].
  - destruct l as [|p l]; [done|]. unfold get_oracle_allocation. fold al0 a2v.
    by rewrite Hrun.
  - intros vm Hvm. rewrite Hk. pose proof (group_users_get a2v (dkeys al0) vm Hvm) as Hg.
    destruct (users_of a2v vm (dkeys al0)) as [|u us] eqn:E.
    + intros k. csimpl. change (zq 0) with 0%Qc. pose proof (capacity_pos S B HS0 HB0 k). qc_lra.
    + rewrite Forall_forall in Hfit. apply dget_Some_elem in Hg. by apply (Hfit (vm, u :: us)).
  - unfold get_oracle_allocation. destruct l as [|p l]; [done|]. simpl write_back at 1.
    do 2 f_equal. by apply (profile_allocation_write_back al (p :: l)).
Qed.
End OracleExact.
