(* ===== verification/Server.v ===== *)
(** * The metrics reset API: metrics_reset_server.py

    A POST to [/reset_metrics] names an application, in a JSON body or in the
    query string, and resets its metrics in the monitor.  Requests are what
    the client sends: the request target, the length header and the bytes of
    the body; the parsing of targets and query strings ([urllib.parse]) is
    modelled.  An exception that the handler does not catch ends the request
    without a response.  As in PyStr, digits and white space are those of
    ASCII. *)

From S2P Require Import Prelude PyDict Nested PyFloat PyStr Json Dumps Resources Base Monitor MonitorFacts System Interleaving.
From Stdlib Require Import Ascii.

(** ** [urllib.parse] *)

(** [s.split(c, 1)]: what is before the first [c], and what is after it. *)
Fixpoint partition (c : ascii) (s : text) : text * option text :=
  match s with
  | [] => ([], None)
  | d :: s' =>
      if bool_decide (d = c) then ([], Some s')
      else let '(a, r) := partition c s' in (d :: a, r)
  end.

(** [_splitparams]: the path up to the first semicolon of its last segment. *)
Fixpoint split_params (path : text) : text :=
  match path with
  | [] => []
  | c :: path' =>
      if bool_decide (c = ";"%char ∧ "/"%char ∉ path') then [] else c :: split_params path'
  end.

(** The path and the query of [urlparse(url)], for a [url] that starts with a
    single slash: it has no scheme and no host. *)
Definition urlparse (url : text) : text * text :=
  let '(path, query) := partition "?"%char (partition "#"%char url).1 in
  (split_params path, default [] query).

(** [unquote]: escapes [%XX] that are not two hexadecimal digits stay. *)
Fixpoint unquote (s : text) : text :=
  match s with
  | [] => []
  | c :: s1 =>
      if bool_decide (c = "%"%char) then
        match s1 with
        | a :: b :: s2 =>
            match hex_val a, hex_val b with
            | Some x, Some y => byte (16 * x + y) :: unquote s2
            | _, _ => c :: unquote s1
            end
        | _ => c :: unquote s1
        end
      else c :: unquote s1
  end.

Definition unplus (s : text) : text := (λ c, if bool_decide (c = "+"%char) then " "%char else c) <$> s.

(** A field of a query string; one without a value is dropped. *)
Definition qs_pair (field : text) : option (text * text) :=
  match partition "="%char field with
  | (name, Some (c :: value)) => Some (unquote (unplus name), unquote (unplus (c :: value)))
  | _ => None
  end.

Definition parse_qs (query : text) : list (text * text) := omap qs_pair (PyStr.split ["&"%char] query).

(** ** Requests *)

Record request := Request {
  req_target : text;           (* the request target after its first slash *)
  req_length : option text;    (* the header Content-Length *)
  req_body : text;             (* the bytes sent after the headers *)
}.

(** [self.path]: [http.server] reduces the slashes at the start to one. *)
Definition request_path (r : request) : text :=
  "/"%char :: lstrip (λ c, bool_decide (c = "/"%char)) (req_target r).

(** [rfile.read(n)]: everything for a negative [n]. *)
Definition rfile_read (n : Z) (body : text) : text :=
  if (n <? 0)%Z then body else take (Z.to_nat n) body.

(** ** Responses *)

Record response := Response {
  res_status : Z;
  res_type : text;             (* the header Content-type *)
  res_body : text;
}.

Definition respond (status : Z) (body : dict text text) : response :=
  Response status (str "application/json") (dumps body).

Definition report (status message : text) : dict text text :=
  [(str "status", status); (str "message", message)].

Definition error_response (status : Z) (message : text) : response :=
  respond status (report (str "error") message).

(** [do_GET] *)
Definition do_GET : response :=
  respond 200
    [(str "status", str "ok");
     (str "message", str "Metrics reset API is running");
     (str "usage", str "Send a POST request to /reset_metrics with app_id parameter")].

Module Server.
Section server.
Context {F : Type} `{PyFloat F}.

(** [data.get('app_id')] of the decoded body; only a dictionary has [get]. *)
Definition data_get (data : json F) (k : text) : res (json F) :=
  match data with JObj d => Ok (default JNull (dget d k)) | _ => Err AttributeError end.

(** [query_params.get('app_id', [None])[0]] *)
Definition query_app (query : text) : json F :=
  match filter (λ p, p.1 = str "app_id") (parse_qs query) with
  | (_, v) :: _ => JStr v
  | [] => JNull
  end.

(** The value that names the application. *)
Definition requested_app (query : text) (r : request) : res (json F) :=
  content_length ← match req_length r with Some t => py_int t | None => Ok 0%Z end;
  post_data ← decode_utf8 (rfile_read content_length (req_body r));
  match json_loads post_data with
  | Ok data => data_get data (str "app_id")
  | Err _ => Ok (query_app query)
  end.

(** [int(app_id)] *)
Definition app_int (v : json F) : res Z :=
  match v with
  | JBool b => Ok (Z.b2z b)
  | JInt z => Ok z
  | JFloat x => trunc x
  | JStr s => py_int s
  | _ => Err TypeError
  end.

(** The answer for an application number. *)
Definition reset_response (app : Z) (mon : option (monitor F)) : response * option (monitor F) :=
  match mon with
  | Some m =>
      let '(m', success) := reset_metrics_for_app app m in
      (if success
       then respond 200 (report (str "success") (str "Metrics reset for application " ++ show app))
       else error_response 404 (str "Application " ++ show app ++ str " not found"), Some m')
  | None =>
      (error_response 500 (str "Monitor not available or reset_metrics_for_app method not implemented"), None)
  end.

(** [do_POST]: the response, or the exception that ends the request, and the
    monitor afterwards. *)
Definition do_POST (r : request) (mon : option (monitor F)) : res response * option (monitor F) :=
  let '(path, query) := urlparse (request_path r) in
  if bool_decide (path ≠ str "/reset_metrics") then (Ok (error_response 404 (str "Endpoint not found")), mon)
  else
    match requested_app query r with
    | Err e => (Err e, mon)
    | Ok app_id =>
        if negb (truthy app_id)
        then (Ok (error_response 400 (str "Missing required parameter: app_id")), mon)
        else
          match app_int app_id with
          | Err ValueError => (Ok (error_response 400 (str "app_id must be an integer")), mon)
          | Err e => (Err e, mon)
          | Ok app => let '(resp, mon') := reset_response app mon in (Ok resp, mon')
          end
    end.

(** The application the request names as the code wants it: with the right
    path and a true value that [int] accepts. *)
Definition named_app (r : request) : option Z :=
  let '(path, query) := urlparse (request_path r) in
  if bool_decide (path = str "/reset_metrics") then
    match requested_app query r with
    | Ok v => if truthy v then res_option (app_int v) else None
    | Err _ => None
    end
  else None.

(** ** The server object *)

(** [MetricsResetHandler.__init__]: the monitor given, or else the one of the
    class that [_create_handler_class] makes. *)
Definition handler_monitor (given bound : option (monitor F)) : option (monitor F) :=
  match given with Some _ => given | None => bound end.

(** [MetricsResetServer]: its port, and the HTTP server once it was started,
    which accepts requests or is closed. *)
Record server := ServerState {
  srv_port : Z;
  srv_running : option bool;
}.

Definition new_server (port : Z) : server := ServerState port None.

(** [start] and [stop], with the ports that are listened on. *)
Definition start (s : server) (ports : list Z) : res (server * list Z) :=
  if bool_decide (srv_port s ∈ ports) then Err OSError
  else Ok (ServerState (srv_port s) (Some true), srv_port s :: ports).

Definition stop (s : server) (ports : list Z) : server * list Z :=
  match srv_running s with
  | Some true => (ServerState (srv_port s) (Some false), filter (λ p, p ≠ srv_port s) ports)
  | _ => (s, ports)
  end.

(** A POST that arrives at the port of the server; [None]: the connection is
    refused. *)
Definition post (s : server) (r : request) (mon : option (monitor F)) :
    option (res response) * option (monitor F) :=
  match srv_running s with
  | Some true =>
      let '(out, mon') := do_POST r (handler_monitor None mon) in (Some out, mon')
  | _ => (None, mon)
  end.
(** Nothing of the application is left. *)
Definition cleared (app : Z) (m : monitor F) : Prop :=
  (∀ c b, records (collected_data m) app c b = [] ∧ get3 (buffered_data m) app c b = None ∧
          get3 (buffered_mrc m) app c b = None) ∧
  get_last_mrc m app = [] ∧ default [] (dget (recent_measurement m) app) = [].

Lemma reset_unknown app m :
  (reset_metrics_for_app app m).2 = false → (reset_metrics_for_app app m).1 = m.
Proof.
  unfold reset_metrics_for_app. simpl. intros Hf.
  apply orb_false_iff in Hf as [Hf E5]. apply orb_false_iff in Hf as [Hf E4].
  apply orb_false_iff in Hf as [Hf E3]. apply orb_false_iff in Hf as [E1 E2].
  unfold clear_key. rewrite E1, E2, E3, E4, E5. by destruct m.
Qed.

Lemma reset_cleared app m : cleared app (reset_metrics_for_app app m).1.
Proof.
  unfold cleared, get_last_mrc, records. simpl. split; [intros c b|]; rewrite ?get3_clear_key, ?dget_clear_key, ?decide_True by done.
  - by destruct (dget (collected_data m) app).
  - by destruct (dget (collected_data m) app), (dget (recent_measurement m) app).
Qed.

(** Everything of user [u] is the same. *)
Definition same_user (u : Z) (m m' : monitor F) : Prop :=
  dget (collected_data m') u = dget (collected_data m) u ∧
  dget (buffered_data m') u = dget (buffered_data m) u ∧
  dget (buffered_mrc m') u = dget (buffered_mrc m) u ∧
  dget (last_usage m') u = dget (last_usage m) u ∧
  dget (recent_measurement m') u = dget (recent_measurement m) u.

Lemma reset_others app m u : u ≠ app → same_user u m (reset_metrics_for_app app m).1.
Proof. intros Hu. unfold same_user. simpl. by rewrite !dget_clear_key, !decide_False by done. Qed.

#[local] Opaque reset_metrics_for_app.

(** ** What a request does to the monitor *)

Lemma do_POST_named r mon :
  (do_POST r mon).2 = match named_app r with Some app => (reset_response app mon).2 | None => mon end ∧
  (res_status <$> res_option (do_POST r mon).1 = Some 200%Z ↔
   ∃ app m, named_app r = Some app ∧ mon = Some m ∧ (reset_metrics_for_app app m).2 = true).
Proof.
  unfold do_POST, named_app. destruct (urlparse (request_path r)) as [path query].
  destruct (decide (path = str "/reset_metrics")) as [Hp|Hp].
  2: { rewrite bool_decide_true, bool_decide_false by done. split; [done|]. naive_solver. }
  rewrite bool_decide_false, bool_decide_true by naive_solver.
  destruct (requested_app query r) as [v|e]; [|naive_solver].
  destruct (truthy v); [|naive_solver]. cbn [negb].
  destruct (app_int v) as [app|e]; [|by destruct e; naive_solver]. cbn [res_option].
  unfold reset_response. destruct mon as [m|]; [|naive_solver].
  destruct (reset_metrics_for_app app m) as [m' ok] eqn:E. split; [done|]. split.
  - intros Hok. exists app, m. split; [done|]. split; [done|]. rewrite E. by destruct ok.
  - intros (app' & m2 & [= <-] & [= <-] & Hok). rewrite E in Hok. cbn in Hok. by subst ok.
Qed.

(** C33: a POST is answered with 200 exactly when its path is /reset_metrics
    and its body, or its query if the body is no JSON, names an application
    the monitor knows by a value other than zero or empty that converts to an
    integer; then the metrics of this application are cleared and those of
    every other one are untouched.  With any other answer, and when the
    request ends with an exception, nothing changes. *)
Theorem reset_request r m :
  let '(out, mon) := do_POST r (Some m) in
  (res_status <$> res_option out = Some 200%Z ↔
     ∃ app, named_app r = Some app ∧ (reset_metrics_for_app app m).2 = true) ∧
  (res_status <$> res_option out ≠ Some 200%Z → mon = Some m) ∧
  (res_status <$> res_option out = Some 200%Z → ∃ app m', named_app r = Some app ∧ mon = Some m' ∧
     cleared app m' ∧ ∀ u, u ≠ app → same_user u m m').
Proof.
  pose proof (do_POST_named r (Some m)) as [Hmon Hst].
  destruct (do_POST r (Some m)) as [out mon]. cbn [fst snd] in Hmon, Hst. subst mon.
  split; [|split].
  - rewrite Hst. split; [intros (app & m' & ? & [= <-] & ?); eauto|intros (app & ? & ?); eauto].
  - rewrite Hst. intros Hno. destruct (named_app r) as [app|]; [|done]. unfold reset_response.
    pose proof (reset_unknown app m) as Hun.
    destruct (reset_metrics_for_app app m) as [m' []] eqn:E; cbn in *; [|by rewrite Hun].
    destruct Hno. exists app, m. by rewrite E.
  - intros (app & m' & Hn & [= <-] & Hok)%Hst. exists app, (reset_metrics_for_app app m).1.
    rewrite Hn. unfold reset_response. split; [done|]. split.
    + by destruct (reset_metrics_for_app app m).
    + split; [apply reset_cleared|]. intros u Hu. by apply reset_others.
Qed.

(** A request is an event of the interleaved loop, or none. *)
Lemma post_event r interval th m :
  (do_POST r (Some m)).2 =
  Some (foldl (serve interval th) m match named_app r with Some app => [Reset app] | None => [] end).
Proof.
  rewrite (proj1 (do_POST_named r (Some m))). destruct (named_app r) as [app|]; [|done].
  unfold reset_response. cbn. by destruct (reset_metrics_for_app app m).
Qed.
End server.
End Server.
