(* ===== verification/ServerFacts.v ===== *)
(** * The reset API and its clients

    What the clients of the reset API read and write: every response is a JSON
    object that says whether the reset was done, and a request that names an
    application in the query string or in a JSON body is understood. *)

From S2P Require Import Prelude PyDict Nested PyFloat PyStr Json Dumps Resources Base Monitor MonitorFacts Server.
From Stdlib Require Import Ascii.

(** ** Texts *)

Ltac not_in_literal := by apply (bool_decide_unpack (_ ∉ str _)).

Create HintDb server.
#[local] Hint Resolve show_ascii ascii_app : server.
#[local] Hint Extern 1 (ascii_only (str _)) => ascii_literal : server.

Lemma partition_first c (a b : text) : c ∉ a → partition c (a ++ c :: b) = (a, Some b).
Proof.
  induction a as [|d a IH]; cbn [app partition]; [by rewrite bool_decide_true|].
  intros [Hd Ha]%not_elem_of_cons. rewrite bool_decide_false by congruence. by rewrite IH.
Qed.

Lemma partition_none c (a : text) : c ∉ a → partition c a = (a, None).
Proof.
  induction a as [|d a IH]; cbn [partition]; [done|].
  intros [Hd Ha]%not_elem_of_cons. rewrite bool_decide_false by congruence. by rewrite IH.
Qed.

Lemma unquote_plain s : "%"%char ∉ s → unquote s = s.
Proof.
  induction s as [|c s IH]; cbn [unquote]; [done|]. intros [Hc Hs]%not_elem_of_cons.
  rewrite bool_decide_false by congruence. by rewrite IH.
Qed.

Lemma unplus_plain s : "+"%char ∉ s → unplus s = s.
Proof.
  unfold unplus. induction s as [|c s IH]; [done|]. intros [Hc Hs]%not_elem_of_cons.
  cbn [fmap list_fmap]. rewrite bool_decide_false by congruence. by rewrite IH.
Qed.

Section facts.
Context {F : Type} `{PyFloat F}.

(** ** Responses *)

Lemma respond_decodes status s msg :
  ascii_only s → ascii_only msg →
  json_loads (res_body (respond status (report s msg))) =
  Ok (JObj (F := F) [(str "status", JStr s); (str "message", JStr msg)]).
Proof.
  intros Hs Hm. unfold respond, res_body. rewrite loads_dumps; [done|..].
  - by apply (bool_decide_unpack (NoDup _)).
  - repeat constructor; cbn [fst snd]; auto with server.
Qed.

(** The body says "success" with the status code 200 and "error" otherwise. *)
Definition truthful (resp : response) : Prop :=
  ∃ s msg, json_loads (res_body resp) = Ok (JObj (F := F) [(str "status", JStr s); (str "message", JStr msg)]) ∧
    s = if (res_status resp =? 200)%Z then str "success" else str "error".

Lemma error_truthful status msg :
  status ≠ 200%Z → ascii_only msg → truthful (error_response status msg).
Proof.
  intros Hs Hm. exists (str "error"), msg. split; [apply respond_decodes; auto with server|].
  cbn [res_status error_response respond]. by rewrite (proj2 (Z.eqb_neq _ _)).
Qed.

(** The body of every response to a POST is a JSON object with the keys
    status and message, and its status is "success" exactly when the status
    code is 200. *)
Theorem post_answer_decodes r mon :
  match (Server.do_POST (F := F) r mon).1 with Ok resp => truthful resp | Err _ => True end.
Proof.
  unfold Server.do_POST. destruct (urlparse (request_path r)) as [path query].
  case_bool_decide; [apply error_truthful; auto with server|].
  destruct (Server.requested_app query r) as [v|e]; [|done].
  destruct (truthy v); [|apply error_truthful; auto with server]. cbn [negb].
  destruct (Server.app_int v) as [app|e]; [|by destruct e; first [exact I|apply error_truthful; auto with server]].
  unfold Server.reset_response. destruct mon as [m|]; [|apply error_truthful; auto with server].
  destruct (reset_metrics_for_app app m) as [m' []]; cbn [fst]; [|apply error_truthful; auto 6 with server].
  exists (str "success"), (str "Metrics reset for application " ++ show app).
  split; [apply respond_decodes; auto with server|done].
Qed.

(** ** Requests *)

Lemma do_POST_reset r app mon :
  Server.named_app (F := F) r = Some app →
  Server.do_POST r mon = let '(resp, mon') := Server.reset_response app mon in (Ok resp, mon').
Proof.
  unfold Server.named_app, Server.do_POST. destruct (urlparse (request_path r)) as [path query].
  case_bool_decide as Hp; [|done]. rewrite bool_decide_false by naive_solver.
  destruct (Server.requested_app query r) as [v|e]; [|done]. destruct (truthy v); [|done].
  cbn [negb]. destruct (Server.app_int v); [|done]. by intros [= ->].
Qed.

(** A POST to /reset_metrics?app_id=<app> without a body. *)
Definition query_request (app : Z) : request :=
  Request (str "reset_metrics?app_id=" ++ show app) None [].

(** [json.dumps({"app_id": app})] *)
Definition app_body (app : Z) : text :=
  render (F := F) (λ _, []) [" "%char] (JObj [(str "app_id", JInt app)]).

Definition json_request (app : Z) : request :=
  Request (str "reset_metrics") (Some (show (Z.of_nat (length (app_body app))))) (app_body app).

Lemma query_named app : Server.named_app (F := F) (query_request app) = Some app.
Proof.
  assert (Hno : ∀ c, is_digit c = false → c ≠ "-"%char → c ∉ show app) by (intros; by apply show_not_elem).
  unfold Server.named_app, urlparse, request_path, query_request. cbn [req_target].
  change (lstrip ?p (str "reset_metrics?app_id=" ++ ?x)) with (str "reset_metrics?app_id=" ++ x).
  change ("/"%char :: str "reset_metrics?app_id=" ++ ?x) with
    (str "/reset_metrics" ++ "?"%char :: str "app_id=" ++ x).
  rewrite (partition_none "#"%char).
  2: { rewrite not_elem_of_app, not_elem_of_cons, not_elem_of_app.
       split_and!; [not_in_literal|done|not_in_literal|by apply Hno]. }
  cbn [fst]. rewrite partition_first by not_in_literal.
  change (split_params (str "/reset_metrics")) with (str "/reset_metrics").
  rewrite bool_decide_true by done.
  unfold Server.requested_app. cbn [req_length req_body mbind res_bind].
  change (decode_utf8 (rfile_read 0 [])) with (Ok (A := text) []). cbn [mbind res_bind].
  change (json_loads []) with (Err (A := json F) ValueError). cbv match.
  unfold Server.query_app, parse_qs. unfold default, from_option, id.
  rewrite (split_none ["&"%char] 0 "&"%char); [|done|].
  2: { rewrite not_elem_of_app. split; [not_in_literal|by apply Hno]. }
  cbn [omap list_omap]. unfold qs_pair.
  change (str "app_id=" ++ show app) with (str "app_id" ++ "="%char :: show app).
  rewrite partition_first by not_in_literal.
  destruct (show app) as [|c s] eqn:Es.
  { by pose proof (py_int_show app) as Hp; rewrite Es in Hp. }
  rewrite (unplus_plain (c :: s)), (unquote_plain (c :: s)) by (by apply Hno).
  change (unquote (unplus (str "app_id"))) with (str "app_id").
  cbn [filter list_filter]. rewrite decide_True by done. cbn [truthy].
  rewrite bool_decide_true by done. unfold Server.app_int. rewrite <- Es, py_int_show. done.
Qed.

Lemma app_body_loads app : json_loads (app_body app) = Ok (JObj (F := F) [(str "app_id", JInt app)]).
Proof.
  apply loads_render; [by repeat constructor|]. cbn [writable all_of]. split; [|split; [|done]].
  - apply NoDup_singleton.
  - split; [ascii_literal|done].
Qed.

Lemma app_body_ascii app : ascii_only (app_body app).
Proof.
  change (ascii_only ("{"%char :: (dump_string (str "app_id") ++ [":"; " "]%char ++ show app) ++ ["}"%char])).
  constructor; [done|]. repeat apply ascii_app; auto with server; ascii_literal.
Qed.

Lemma json_named app :
  Server.named_app (F := F) (json_request app) = if (app =? 0)%Z then None else Some app.
Proof.
  unfold Server.named_app. change (urlparse (request_path (json_request app))) with
    (str "/reset_metrics", @nil ascii).
  cbv match. rewrite bool_decide_true by done. unfold Server.requested_app, json_request.
  cbn [req_length req_body]. rewrite py_int_show. cbn [mbind res_bind].
  replace (rfile_read (Z.of_nat (length (app_body app))) (app_body app)) with (app_body app).
  2: { unfold rfile_read. rewrite (proj2 (Z.ltb_ge _ _)) by lia. by rewrite Nat2Z.id, firstn_all. }
  rewrite utf8_ascii by apply app_body_ascii.
  cbn [mbind res_bind]. rewrite app_body_loads. unfold Server.data_get.
  change (dget [(str "app_id", JInt (F := F) app)] (str "app_id")) with (Some (JInt (F := F) app)).
  unfold default, from_option, id. cbn [truthy Server.app_int res_option]. by destruct (app =? 0)%Z.
Qed.

(** A client that names a known application in the query string is always
    answered with 200 and its metrics are reset; the same request with the
    number in a JSON body is answered with 200 for every application but 0,
    whose number counts as missing. *)
Theorem reset_by_clients app m :
  (reset_metrics_for_app app m).2 = true →
  Server.do_POST (query_request app) (Some m) =
    (Ok (respond 200 (report (str "success") (str "Metrics reset for application " ++ show app))),
     Some (reset_metrics_for_app app m).1) ∧
  Server.do_POST (json_request app) (Some m) =
    if (app =? 0)%Z
    then (Ok (error_response 400 (str "Missing required parameter: app_id")), Some m)
    else Server.do_POST (F := F) (query_request app) (Some m).
Proof.
  intros Hok. assert (Hq : Server.do_POST (query_request app) (Some m) =
    (Ok (respond 200 (report (str "success") (str "Metrics reset for application " ++ show app))),
     Some (reset_metrics_for_app app m).1)).
  { rewrite (do_POST_reset _ app) by apply query_named. unfold Server.reset_response.
    destruct (reset_metrics_for_app app m). cbn in Hok. by subst. }
  split; [done|]. destruct (app =? 0)%Z eqn:E.
  - apply Z.eqb_eq in E as ->. done.
  - rewrite !(do_POST_reset _ app); [done|apply query_named|by rewrite json_named, E].
Qed.
End facts.
