(* ===== verification/Config.v ===== *)
(** * Configuration and entry point: utils/config.py, main_memcached.py and
      main_move_logs.py

    The configuration file as decoded JSON, the fields the program takes from
    it, the resource scale and the number of rounds [run_evaluation] computes,
    the allocator it starts, and the directory [move_logs] puts the logs in. *)

From S2P Require Import Prelude PyDict PyFloat Resources Base PyStr Json Params.
From Stdlib Require Import Ascii.

(** The attributes set from ["cluster"]. *)
Record cluster (F : Type) := Cluster {
  cluster_name : json F;
  cache_in_mb : json F;
  mem_bw_in_mbps : json F;
  min_cache_in_mb : json F;
  max_cache_in_mb : json F;
  min_mem_bw_in_mbps : json F;
  max_mem_bw_in_mbps : json F;
}.
Arguments Cluster {F}.
Arguments cluster_name {F}.
Arguments cache_in_mb {F}.
Arguments mem_bw_in_mbps {F}.
Arguments min_cache_in_mb {F}.
Arguments max_cache_in_mb {F}.
Arguments min_mem_bw_in_mbps {F}.
Arguments max_mem_bw_in_mbps {F}.

(** A [Config]: [conf_cluster] and [benchmark_map] are attributes that exist
    only once they are loaded. *)
Record config (F : Type) := Config {
  url : json F;
  collect_route : json F;
  deploy_route : json F;
  raw_json : json F;
  conf_cluster : option (cluster F);
  benchmark_map : option (json F);
  allocation_parameters : json F;
  conf_profiles : json F;
}.
Arguments Config {F}.
Arguments url {F}.
Arguments collect_route {F}.
Arguments deploy_route {F}.
Arguments raw_json {F}.
Arguments conf_cluster {F}.
Arguments benchmark_map {F}.
Arguments allocation_parameters {F}.
Arguments conf_profiles {F}.

Section config.
Context {F : Type} `{PyFloat F}.
Local Open Scope py_scope.

(** [Config.__init__] *)
Definition new_config : config F :=
  Config (JStr (str "http://localhost")) (JStr (str "/collect")) (JStr (str "/deploy"))
    JNull None None JNull JNull.

(** [d[k] if k in d.keys() else d[k']] *)
Definition jget_else (d : json F) (k k' : text) : res (json F) :=
  b ← jmem d k; if (b : bool) then jget d k else jget d k'.

(** The cluster's attributes (lines 19-26). *)
Definition load_cluster (data : json F) : res (cluster F) :=
  c ← jget data (str "cluster");
  name ← jget c (str "name");
  cache ← jget c (str "total_cache_in_mb");
  bw ← jget c (str "total_mem_bw_in_mbps");
  min_cache ← jget c (str "min_cache_in_mb");
  max_cache ← jget_else c (str "max_cache_in_mb") (str "total_cache_in_mb");
  min_bw ← jget c (str "min_mem_bw_in_mbps");
  max_bw ← jget_else c (str "max_mem_bw_in_mbps") (str "total_mem_bw_in_mbps");
  Ok (Cluster name cache bw min_cache max_cache min_bw max_bw).

(** [if k in data: self.field = data[k]] *)
Definition load_field {A} (data : json F) (k : text) (old : A) (f : json F → A) : res A :=
  b ← jmem data k; if (b : bool) then v ← jget data k; Ok (f v) else Ok old.

(** [load_config] *)
Definition load_config (data : json F) (self : config F) : res (config F) :=
  b ← jmem data (str "cluster");
  cl ← (if (b : bool) then c ← load_cluster data; Ok (Some c) else Ok (conf_cluster self));
  b ← jmem data (str "resource_controller");
  '(u, cr, dr) ← (if (b : bool) then
      rc ← jget data (str "resource_controller");
      u ← jget rc (str "base_url");
      cr ← jget rc (str "collect_route");
      dr ← jget rc (str "deploy_route");
      Ok (u, cr, dr)
    else Ok (url self, collect_route self, deploy_route self));
  bm ← load_field data (str "benchmark_map") (benchmark_map self) Some;
  ap ← load_field data (str "allocation_parameters") (allocation_parameters self) id;
  pr ← load_field data (str "profiles") (conf_profiles self) id;
  Ok (Config u cr dr data cl bm ap pr).

(** An attribute of the cluster. *)
Definition cluster_of (c : config F) : res (cluster F) := or_raise AttributeError (conf_cluster c).

(** ** [run_evaluation] *)

Definition gbps (x : F) : F := fquot x (of_Z 1024).

(** [resource_scale] (lines 42-46) *)
Definition resource_scale (c : config F) : res (scale F) :=
  cl ← cluster_of c;
  cache ← jfloat (cache_in_mb cl);
  min_cache ← jfloat (min_cache_in_mb cl);
  max_cache ← jfloat (max_cache_in_mb cl);
  bw ← jfloat (mem_bw_in_mbps cl);
  min_bw ← jfloat (min_mem_bw_in_mbps cl);
  max_bw ← jfloat (max_mem_bw_in_mbps cl);
  Ok (Scale cache (gbps bw) (Some min_cache) (Some max_cache) (Some (gbps min_bw)) (Some (gbps max_bw))).

(** The interval the configuration sets, if any, and the one in force. *)
Definition allocation_interval (c : config F) (dflt : json F) : res (json F) :=
  match allocation_parameters c with
  | JNull => Ok dflt
  | ap => b ← jmem ap (str "allocation_interval_in_sec");
          if (b : bool) then jget ap (str "allocation_interval_in_sec") else Ok dflt
  end.

(** [int(max_iter * 10 // interval)], the rounds [start] runs; a quotient with
    a float interval is the floor of the exact quotient. *)
Definition max_iteration (max_iter : Z) (interval : json F) : res Z :=
  match interval with
  | JInt i => py_floordiv (max_iter * 10) i
  | JBool b => py_floordiv (max_iter * 10) (Z.b2z b)
  | JFloat x =>
      match fratio x with
      | Some (n, d) => py_floordiv (max_iter * 10 * Zpos d) n
      | None =>
          if feqb x finf then Ok (if (max_iter <? 0)%Z then -1 else 0)%Z
          else if feqb x fninf then Ok (if (0 <? max_iter)%Z then -1 else 0)%Z
          else Err ValueError
      end
  | _ => Err TypeError
  end.

Inductive allocator_kind := KSpirit | KStatic | KOracle | KIncTrade | KFijTrade.

(** The allocator named on the command line; the default name is unknown. *)
Definition select_allocator (name : text) : res allocator_kind :=
  if decide (name = str "spirit") then Ok KSpirit
  else if decide (name = str "static") then Ok KStatic
  else if decide (name = str "oracle") then Ok KOracle
  else if decide (name = str "inc-trade") then Ok KIncTrade
  else if decide (name = str "fij-trade") then Ok KFijTrade
  else Err PlainException.

(** [init_phase_interval] given to the allocator *)
Definition init_phase_interval (k : allocator_kind) : Z :=
  match k with KIncTrade => 3 * 3 | _ => 3 end.

(** The parameters given to [allocator.initialize] (lines 78-93). *)
Definition params_of (k : allocator_kind) (interval : json F) : res (alloc_params F) :=
  let n := init_phase_interval k in
  match k with
  | KSpirit => SpiritAllocatorParams interval n
  | KStatic => StaticAllocatorParams interval n
  | KOracle => OracleAllocatorParams interval n
  | KIncTrade => IncrementalTradeAllocatorParams interval n
  | KFijTrade => FijTradeAllocatorParams interval n
  end.

(** [len(config.benchmark_map)] *)
Definition jlen (v : json F) : res Z :=
  match v with
  | JStr s => Ok (Z.of_nat (length s))
  | JArr l => Ok (Z.of_nat (length l))
  | JObj d => Ok (Z.of_nat (length d))
  | _ => Err TypeError
  end.

(** What is set up before the loop starts. *)
Record evaluation := Evaluation {
  ev_scale : scale F;
  ev_rounds : Z;
  ev_kind : allocator_kind;
  ev_params : alloc_params F;
  ev_profiles : option (list (json F));
}.

(** [RuntimeEstimator._read_config], which [allocator.initialize] calls: the
    profiles, [None] without any; each needs an id and a file.  The clipping
    values it also collects are never read. *)
Definition read_profiles (data : json F) : res (option (list (json F))) :=
  match data with
  | JNull => Ok None
  | _ =>
      found ← jmem data (str "profiles");
      if (found : bool) then
        p ← jget data (str "profiles");
        entries ← jiter p;
        _ ← for_all (λ entry _,
          has_id ← jmem entry (str "user_id");
          if (has_id : bool) then
            has_file ← jmem entry (str "file");
            if (has_file : bool) then Ok () else Err KeyError
          else Err KeyError) entries ();
        Ok (Some entries)
      else Ok None
  end.

(** [run_evaluation] up to [allocator.start]; [max_iter] and [allocator] are
    command-line arguments, the interval is the default of the function. *)
Definition run_evaluation (data : json F) (allocator : text) (max_iter : Z) : res evaluation :=
  c ← load_config data new_config;
  interval ← allocation_interval c (JInt 10);
  n ← max_iteration max_iter interval;
  bm ← or_raise AttributeError (benchmark_map c);
  _ ← jlen bm;
  rs ← resource_scale c;
  k ← select_allocator allocator;
  p ← params_of k interval;
  profiles ← read_profiles data;
  Ok (Evaluation rs n k p profiles).

(** ** [move_logs] *)

(** [f"{x:.1f}"] of a finite float: tenths, rounded half to even; the sign of
    a negative zero is not kept. *)
Definition round_div (n : Z) (d : Z) : Z :=
  let q := (n / d)%Z in
  let r := (n mod d)%Z in
  if (2 * r <? d)%Z then q
  else if (d <? 2 * r)%Z then (q + 1)%Z
  else if Z.even q then q else (q + 1)%Z.

Definition fixed1 (x : F) : text :=
  match fratio x with
  | Some (n, d) =>
      let t := round_div (10 * Z.abs n) (Zpos d) in
      (if (n <? 0)%Z then str "-" else []) ++ show (t / 10) ++ str "." ++ show (t mod 10)
  | None => if feqb x finf then str "inf" else if feqb x fninf then str "-inf" else str "nan"
  end.

(** [f"{v}"] of a value of the configuration; [repr] formats floats, lists
    and dictionaries. *)
Definition fmt (repr : json F → text) (v : json F) : text :=
  match v with
  | JNull => str "None"
  | JBool b => if b then str "True" else str "False"
  | JInt z => show z
  | JStr s => s
  | _ => repr v
  end.

(** [logs/<cluster>/<allocator>/App<n>_int_<interval>sec] *)
Definition log_base (repr : json F → text) (c : config F) (allocator : text) : res text :=
  interval ← allocation_interval c (JInt 10);
  interval ← jfloat interval;
  cl ← cluster_of c;
  bm ← or_raise AttributeError (benchmark_map c);
  n ← jlen bm;
  Ok (str "logs/" ++ fmt repr (cluster_name cl) ++ str "/" ++ allocator ++ str "/App" ++ show n ++
      str "_int_" ++ fixed1 interval ++ str "sec").

(** [new_dir], the directory the logs are moved to; [timestamp] is
    [time.strftime("%Y%m%d-%H%M%S")]. *)
Definition log_dir (repr : json F → text) (c : config F) (allocator timestamp : text) : res text :=
  base ← log_base repr c allocator;
  cl ← cluster_of c;
  Ok (base ++ str "/" ++ timestamp ++ str "_" ++ fmt repr (cache_in_mb cl) ++ str "mb_" ++
      fmt repr (mem_bw_in_mbps cl) ++ str "mbps").

(** [move_logs]: the shell commands it runs. *)
Definition move_logs (repr : json F → text) (data : json F) (allocator timestamp : text) : res (list text) :=
  c ← load_config data new_config;
  new_dir ← log_dir repr c allocator timestamp;
  Ok [str "mkdir -p " ++ new_dir; str "mv *.html " ++ new_dir ++ str "/.";
      str "mv logs/*.log " ++ new_dir ++ str "/."].
End config.
