(* ===== verification/ConfigFacts.v ===== *)
(** * What the configuration determines

    A configuration with integer budgets gives a resource scale in exact
    arithmetic, and the static controller set up from it runs through all its
    rounds. *)

From S2P Require Import Prelude PyDict PyFloat Exact Resources PtasExact Base BaseExact Spirit SpiritExact Monitor MonitorFacts System Controllers PyStr Json Params Config.
From Stdlib Require Import QArith Qcanon.

(** The integer budgets of a cluster; absent maxima are the totals. *)
Record budgets := Budgets {
  b_cache : Z;
  b_mem_bw : Z;
  b_min_cache : Z;
  b_min_mem_bw : Z;
  b_max_cache : option Z;
  b_max_mem_bw : option Z;
}.

Section well_formed.
Context {F : Type} `{PyFloat F}.
Implicit Types (top c : dict text (json F)) (data : json F).

(** The ["cluster"] object. *)
Record cluster_json c (b : budgets) : Prop := {
  cj_name : is_Some (dget c (str "name"));
  cj_cache : dget c (str "total_cache_in_mb") = Some (JInt (b_cache b));
  cj_mem_bw : dget c (str "total_mem_bw_in_mbps") = Some (JInt (b_mem_bw b));
  cj_min_cache : dget c (str "min_cache_in_mb") = Some (JInt (b_min_cache b));
  cj_min_mem_bw : dget c (str "min_mem_bw_in_mbps") = Some (JInt (b_min_mem_bw b));
  cj_max_cache : dget c (str "max_cache_in_mb") = JInt <$> b_max_cache b;
  cj_max_mem_bw : dget c (str "max_mem_bw_in_mbps") = JInt <$> b_max_mem_bw b;
}.

(** The ["profiles"], which may be left out: a list of objects with an id and
    a file. *)
Definition profiles_json (o : option (json F)) : Prop :=
  match o with
  | None => True
  | Some p => ∃ l, p = JArr l ∧ Forall (λ e, ∃ d, e = JObj d ∧
      is_Some (dget d (str "user_id")) ∧ is_Some (dget d (str "file"))) l
  end.

(** The whole file: a cluster, applications, profiles, and an interval of [i]
    seconds; the routes of the controller may be left out. *)
Record config_json data (b : budgets) (i : Z) : Prop := {
  cf_top : ∃ top c rc bm ap, data = JObj top ∧
    dget top (str "cluster") = Some (JObj c) ∧ cluster_json c b ∧
    dget top (str "resource_controller") = rc ∧
    match rc with
    | None => True
    | Some r => ∃ d, r = JObj d ∧ is_Some (dget d (str "base_url")) ∧
        is_Some (dget d (str "collect_route")) ∧ is_Some (dget d (str "deploy_route"))
    end ∧
    dget top (str "benchmark_map") = Some (JObj bm) ∧
    profiles_json (dget top (str "profiles")) ∧
    dget top (str "allocation_parameters") = Some (JObj ap) ∧
    dget ap (str "allocation_interval_in_sec") = Some (JInt i);
}.

Definition cluster_of_budgets (name : json F) (b : budgets) : cluster F :=
  Cluster name (JInt (b_cache b)) (JInt (b_mem_bw b)) (JInt (b_min_cache b))
    (JInt (default (b_cache b) (b_max_cache b))) (JInt (b_min_mem_bw b))
    (JInt (default (b_mem_bw b) (b_max_mem_bw b))).

Lemma jget_Some d k v : dget d k = Some v → jget (JObj d) k = Ok v (A := json F).
Proof. simpl. unfold dgetE. by intros ->. Qed.

Lemma jmem_obj d k : jmem (F := F) (JObj d) k = Ok (match dget d k with Some _ => true | None => false end).
Proof. done. Qed.

Lemma jget_else_max c k k' (o : option Z) z :
  dget c k = JInt <$> o → dget c k' = Some (JInt z) →
  jget_else (F := F) (JObj c) k k' = Ok (JInt (default z o)).
Proof.
  intros Hk Hk'. unfold jget_else. rewrite jmem_obj, Hk. destruct o as [m|]; cbn [fmap option_fmap option_map mbind res_bind].
  - by apply jget_Some.
  - by apply jget_Some.
Qed.

Lemma load_cluster_budgets top c b :
  dget top (str "cluster") = Some (JObj c) → cluster_json c b →
  ∃ name, load_cluster (JObj top) = Ok (cluster_of_budgets name b).
Proof.
  intros Ht [[name Hn] H1 H2 H3 H4 H5 H6]. exists name. unfold load_cluster.
  rewrite (jget_Some _ _ _ Ht). cbn [mbind res_bind].
  rewrite (jget_Some _ _ _ Hn), (jget_Some _ _ _ H1), (jget_Some _ _ _ H2), (jget_Some _ _ _ H3),
    (jget_Some _ _ _ H4). cbn [mbind res_bind].
  by rewrite (jget_else_max _ _ _ _ _ H5 H1), (jget_else_max _ _ _ _ _ H6 H2).
Qed.

(** What is loaded. *)
Lemma load_config_json data b i :
  config_json data b i →
  ∃ name (c : config F) bm, load_config data new_config = Ok c ∧
    conf_cluster c = Some (cluster_of_budgets name b) ∧ benchmark_map c = Some (JObj bm) ∧
    allocation_interval c (JInt 10) = Ok (JInt i).
Proof.
  intros [(top & c & rc & bm & ap & -> & Hc & Hcj & Hrc & Hr & Hbm & _ & Hap & Hi)].
  destruct (load_cluster_budgets _ _ _ Hc Hcj) as [name Hn].
  exists name. unfold load_config, load_field.
  rewrite !jmem_obj, Hc, Hbm, Hap, Hn, Hrc. cbn [mbind res_bind].
  rewrite (jget_Some _ _ _ Hbm), (jget_Some _ _ _ Hap). 
  assert (Hroutes : ∃ u cr dr, (if match rc with Some _ => true | None => false end then
      r ← jget (JObj top) (str "resource_controller");
      u ← jget r (str "base_url");
      cr ← jget r (str "collect_route");
      dr ← jget r (str "deploy_route");
      Ok (u, cr, dr)
    else Ok (url new_config, collect_route new_config, deploy_route new_config)) = Ok (u, cr, dr)).
  { destruct rc as [r|]; [|by do 3 eexists]. destruct Hr as (d & -> & [u Hu] & [cr Hcr] & [dr Hdr]).
    rewrite (jget_Some _ _ _ Hrc). cbn [mbind res_bind].
    rewrite (jget_Some _ _ _ Hu), (jget_Some _ _ _ Hcr), (jget_Some _ _ _ Hdr). by do 3 eexists. }
  destruct Hroutes as (u & cr & dr & ->). cbn [mbind res_bind].
  destruct (dget top (str "profiles")) as [p|] eqn:Hp;
    [rewrite (jget_Some _ _ _ Hp)|]; cbn [mbind res_bind]; do 2 eexists;
    (split; [reflexivity|]); cbn [conf_cluster benchmark_map allocation_parameters allocation_interval];
    unfold allocation_interval; cbn [allocation_parameters id]; rewrite jmem_obj, Hi;
    cbn [mbind res_bind]; by rewrite (jget_Some _ _ _ Hi).
Qed.

(** The profiles that are read. *)
Definition profiles_of data : option (list (json F)) :=
  match data with
  | JObj top => match dget top (str "profiles") with Some (JArr l) => Some l | _ => None end
  | _ => None
  end.

Lemma read_profiles_json data b i : config_json data b i → read_profiles data = Ok (profiles_of data).
Proof.
  intros [(top & c & rc & bm & ap & -> & _ & _ & _ & _ & _ & Hp & _)].
  unfold read_profiles, profiles_of. rewrite jmem_obj. unfold profiles_json in Hp.
  destruct (dget top (str "profiles")) as [p|] eqn:E; [|done]. destruct Hp as (l & -> & Hl).
  cbn [mbind res_bind]. rewrite (jget_Some _ _ _ E). cbn [mbind res_bind jiter].
  destruct (for_all_total (λ _ : unit, True) (λ entry _,
    has_id ← jmem entry (str "user_id");
    if (has_id : bool) then
      has_file ← jmem entry (str "file");
      if (has_file : bool) then Ok () else Err KeyError
    else Err KeyError) l ()) as ([] & -> & _); [|done|done].
  intros e [] He _. rewrite Forall_forall in Hl. destruct (Hl e He) as (d & -> & [x Hx] & [f Hf]).
  rewrite !jmem_obj, Hx, Hf. by exists ().
Qed.

(** What [run_evaluation] sets up. *)
Lemma evaluation_ok data b i allocator n k p :
  config_json data b i → i ≠ 0%Z → select_allocator allocator = Ok k → params_of k (JInt i) = Ok p →
  run_evaluation data allocator n =
  Ok (Evaluation (Scale (of_Z (b_cache b)) (gbps (of_Z (b_mem_bw b)))
       (Some (of_Z (b_min_cache b))) (Some (of_Z (default (b_cache b) (b_max_cache b))))
       (Some (gbps (of_Z (b_min_mem_bw b)))) (Some (gbps (of_Z (default (b_mem_bw b) (b_max_mem_bw b))))))
     (n * 10 / i)%Z k p (profiles_of data)).
Proof.
  intros Hd Hi Hk Hp. destruct (load_config_json data b i Hd) as (name & c & bm & Hc & Hcl & Hbm & Hint).
  unfold run_evaluation. rewrite Hc. cbn [mbind res_bind]. rewrite Hint. cbn [mbind res_bind max_iteration].
  unfold py_floordiv. rewrite (proj2 (Z.eqb_neq _ _) Hi), Hbm. cbn [mbind res_bind or_raise jlen].
  unfold resource_scale, cluster_of. rewrite Hcl, Hk. cbn [mbind res_bind jfloat cluster_of_budgets cache_in_mb or_raise]. by rewrite Hp, (read_profiles_json _ _ _ Hd).
Qed.
End well_formed.

(** ** In exact arithmetic *)

Definition budgets_ok (b : budgets) : Prop :=
  (0 < b_cache b ∧ 0 < b_mem_bw b ∧ 0 < b_min_cache b ∧ 0 < b_min_mem_bw b ∧
   0 < default (b_cache b) (b_max_cache b) ∧ 0 < default (b_mem_bw b) (b_max_mem_bw b))%Z.

Definition budget_scale (b : budgets) : scale xnum :=
  Scale (Num (zq (b_cache b))) (Num (zq (b_mem_bw b) / zq 1024)%Qc)
    (Some (Num (zq (b_min_cache b)))) (Some (Num (zq (default (b_cache b) (b_max_cache b)))))
    (Some (Num (zq (b_min_mem_bw b) / zq 1024)%Qc))
    (Some (Num (zq (default (b_mem_bw b) (b_max_mem_bw b)) / zq 1024)%Qc)).

Lemma gbps_pos z : (0 < z)%Z → (0 < zq z / zq 1024)%Qc.
Proof. intros Hz%zq_pos. by apply Qcdiv_pos. Qed.

Lemma budget_scale_ok b : budgets_ok b → scale_ok (budget_scale b).
Proof.
  intros (H1 & H2 & H3 & H4 & H5 & H6). split; simpl.
  - exists (zq (b_cache b)). split; [done|by apply zq_pos].
  - eexists. split; [reflexivity|by apply gbps_pos].
  - intros m [= <-]. fin_auto.
  - intros m [= <-]. fin_auto.
  - intros m [= <-]. fin_auto.
  - intros m [= <-]. fin_auto.
Qed.

(** The scale of a configuration is one the theorems on the Spirit allocator
    are about, also when the file names no maximum cache. *)
Lemma budget_scale_limits b :
  budgets_ok b → (default (b_cache b) (b_max_cache b) <= b_cache b)%Z → positive_limits (budget_scale b).
Proof.
  intros (H1 & H2 & H3 & H4 & H5 & H6) Hc. do 6 eexists. split; [reflexivity|].
  split_and!; try (by apply zq_pos); try (by apply gbps_pos). by apply zq_le.
Qed.

(** With the default parameters a configuration without maxima serves VMs of
    any number of applications: a minimum cache of more than 1e-5 of the total
    and a minimum bandwidth of at most 199/200 of the total are enough. *)
Lemma default_budget_serves b n :
  budgets_ok b → b_max_cache b = None → b_max_mem_bw b = None →
  (b_cache b < 100000 * b_min_cache b)%Z → (200 * b_min_mem_bw b <= 199 * b_mem_bw b)%Z →
  (1 <= Z.of_nat n < 100000)%Z → can_serve (budget_scale b) default_spirit_params n.
Proof.
  intros _ Hc Hb Hmin Hbw Hn. unfold budget_scale. rewrite Hc, Hb.
  do 6 eexists. exists (Q2Qc (1 # 200)), (Q2Qc (1 # 40)).
  split; [reflexivity|]. split; [reflexivity|].
  split; [apply (f_equal Num), Qc_is_canon; reflexivity|]. split; [done|]. split; [done|].
  right. destruct (decide (n = 1%nat)) as [->|Hne]; [right|left].
  - split; [done|]. split; [done|]. split; [|done]. apply zq_le in Hbw. rewrite !zq_mul in Hbw.
    change (zq 200) with (Q2Qc (200 # 1)) in Hbw. change (zq 199) with (Q2Qc (199 # 1)) in Hbw.
    set (x := zq (b_min_mem_bw b)) in *. set (y := zq (b_mem_bw b)) in *.
    change (zq 1024) with (Q2Qc (1024 # 1)). clearbody x y. qc_to_q.
    apply Qle_shift_div_r; [done|]. field_simplify. lra.
  - split; [lia|]. split; [|done]. apply zq_lt in Hmin. rewrite zq_mul in Hmin.
    change (zq 100000) with (Q2Qc (100000 # 1)) in Hmin. unfold precision.
    set (x := zq (b_cache b)) in *. set (y := zq (b_min_cache b)) in *. clearbody x y. clear - Hmin. qc_lra.
Qed.

(** The parameters for an interval of whole seconds, and the pause between
    the collections of a round. *)
Lemma params_seconds k i :
  (0 <= i)%Z → ∃ g r, params_of (F := xnum) k (JInt i) = Ok (AllocParams g (JInt i) false (init_phase_interval k) r (i / 4)).
Proof.
  intros Hi. destruct k; unfold params_of, SpiritAllocatorParams, StaticAllocatorParams,
    OracleAllocatorParams, IncrementalTradeAllocatorParams, FijTradeAllocatorParams;
    rewrite make_params_seconds by done; by do 2 eexists.
Qed.

Lemma params_sleep k i :
  (4 <= i)%Z → ∃ p t, params_of (F := xnum) k (JInt i) = Ok p ∧ sleep_interval p = Ok (Num t).
Proof.
  intros Hi. destruct (params_seconds k i ltac:(lia)) as (g & r & Hp).
  destruct (sleep_interval_seconds g r i (init_phase_interval k) Hi) as (t & Ht & _). eauto.
Qed.


(** C40: with an interval of less than four seconds every controller is set up and
    then stopped by its first division: the number of collections per round is
    zero.  The first allocation has been deployed by then. *)
Theorem short_interval_raises (data : json xnum) (b : budgets) (i n : Z) (name : text) (k : allocator_kind)
    {A} (alloc : option (dict Z units) → monitor xnum → A → res (dict Z units * A))
    (th : xnum) rounds s s1 :
  config_json data b i → (0 < i < 4)%Z → select_allocator name = Ok k →
  allocate_and_deploy alloc s = Ok s1 →
  ∃ ev, run_evaluation data name n = Ok ev ∧
    start alloc (Some (ev_params ev)) false i th rounds s = Err ZeroDivisionError.
Proof.
  intros Hd Hi Hk Hs. destruct (params_seconds k i ltac:(lia)) as (g & r & Hp).
  eexists. split; [by apply (evaluation_ok data b i name n k _ Hd ltac:(lia) Hk Hp)|].
  unfold start. cbn [or_raise mbind res_bind ev_params]. rewrite Hs. cbn [mbind res_bind].
  by rewrite sleep_interval_short by lia.
Qed.
