(* ===== verification/Objects.v ===== *)
(** * The objects of the controller and their life

    The constructors, [initialize] and [cleanup] of the allocator
    (allocators/allocator_base.py), the estimator
    (estimators/runtime_estimator.py), the monitor and the deployer, and the
    whole of [run_evaluation] (main_memcached.py): the logs are opened, the
    reset server is started, the loop runs, and everything is closed.  The
    loop is a parameter here (System). *)

From S2P Require Import Prelude PyDict PyFloat PyStr Logger Json Resources Base Params Server Config.
From Stdlib Require Import Ascii.

Section objects.
Context {F : Type} `{PyFloat F}.

(** ** The estimator *)

(** The fields of [RuntimeEstimator] that are read: whether the monitor and
    the allocator are set stands for the references. *)
Record estimator := EstimatorState {
  es_profiles : option (list (json F));
  es_raw_config : option (json F);
  es_granularity : F;
  es_scale : scale F;
  es_monitor : bool;
  es_allocator : bool;
}.

(** [RuntimeEstimator.__init__] *)
Definition new_estimator (rs : scale F) : estimator := EstimatorState None None (lit 1 100) rs false false.

Definition set_allocator (e : estimator) : estimator :=
  EstimatorState (es_profiles e) (es_raw_config e) (es_granularity e) (es_scale e) (es_monitor e) true.

Definition set_monitor (e : estimator) : estimator :=
  EstimatorState (es_profiles e) (es_raw_config e) (es_granularity e) (es_scale e) true (es_allocator e).

(** [initialize]: the search granularity and the profiles of the
    configuration; without any the old ones stay. *)
Definition estimator_initialize (data : json F) (search_granularity : F) (e : estimator) : res estimator :=
  profiles ← read_profiles data;
  Ok (EstimatorState (match profiles with Some p => Some p | None => es_profiles e end) (Some data)
        search_granularity (es_scale e) (es_monitor e) (es_allocator e)).

(** [get_app_ids] and [get_app_num] *)
Definition estimator_app_ids (e : estimator) : res (list (json F)) :=
  entries ← or_raise TypeError (es_profiles e);
  map_res (λ entry, jget entry (str "user_id")) entries.

Definition get_app_num (e : estimator) : res Z :=
  entries ← or_raise TypeError (es_profiles e);
  Ok (Z.of_nat (length entries)).

(** ** The allocator *)

(** The fields of [ResourceAllocator]; the collaborators are given or not. *)
Record allocator := AllocatorState {
  al_monitor : bool;
  al_deployer : bool;
  al_logger : logger_attr;
  al_parameters : option (alloc_params F);
}.

(** [ResourceAllocator.__init__] *)
Definition new_allocator (has_estimator has_monitor has_deployer : bool) (dir : option log_files_dict)
    : res (allocator * log_files_dict) :=
  if negb has_estimator then Err PlainException
  else
    let '(logger, dir) := prepare_logger (str "spirit_ceei_allocator") dir in
    Ok (AllocatorState has_monitor has_deployer logger None, dir).

(** [ResourceAllocator.initialize], which [initialize] of every allocator
    calls. *)
Definition initialize (asctime : text) (param : alloc_params F) (data : json F) (a : allocator) (e : estimator)
    (dir : log_files_dict) : res (allocator * estimator * log_files_dict) :=
  if negb (al_monitor a) then Err PlainException
  else if negb (al_deployer a) then Err PlainException
  else
    dir ← log_msg asctime (al_logger a) (str "Start resource allocator.") (str "info") dir;
    e ← estimator_initialize data (p_search_granularity param) e;
    Ok (AllocatorState (al_monitor a) (al_deployer a) (al_logger a) (Some param), e, dir).

(** ** A whole run *)

(** The constructors of the monitor and of the deployer: a log, and messages
    about the configuration. *)
Definition logged_object (asctime name : text) (messages : list text) (dir : option log_files_dict)
    : res (logger_attr * log_files_dict) :=
  let '(logger, dir) := prepare_logger name dir in
  dir ← for_all (λ msg dir, log_msg asctime logger msg (str "info") dir) messages dir;
  Ok (logger, dir).

(** What a run leaves behind. *)
Record remains := Remains {
  end_monitor : logger_attr;
  end_deployer : logger_attr;
  end_allocator : logger_attr;
  end_server : Server.server;
  end_ports : list Z;
}.

(** [run_evaluation]; [messages] are the texts the monitor and the deployer
    log about the configuration, [loop] is [allocator.start]. *)
Definition whole_run (asctime : text) (messages : list text * list text) (data : json F) (name : text)
    (max_iter : Z) (move_logs : bool) (loop : evaluation → allocator → estimator → res ())
    (dir : option log_files_dict) (ports : list Z) : res remains :=
  ev ← run_evaluation data name max_iter;
  '(monitor, dir) ← logged_object asctime (str "memcached_mind_monitor") messages.1 dir;
  '(deployer, dir) ← logged_object asctime (str "memcached_deployer") messages.2 (Some dir);
  '(a, dir) ← new_allocator true true true (Some dir);
  let e := set_monitor (set_allocator (new_estimator (ev_scale ev))) in
  '(a, e, dir) ← initialize asctime (ev_params ev) data a e dir;
  '(server, ports) ← Server.start (Server.new_server 60000) ports;
  _ ← loop ev a e;
  if negb move_logs then
    let '(server, ports) := Server.stop server ports in
    Ok (Remains monitor deployer (al_logger a) server ports)
  else
    allocator ← close (al_logger a);
    deployer ← close deployer;
    monitor ← close monitor;
    let '(server, ports) := Server.stop server ports in
    Ok (Remains monitor deployer allocator server ports).

(** ** Facts *)

(** After [initialize] the estimator knows the applications of the
    configuration, in their order. *)
Lemma initialize_apps asctime p data a e dir a' e' dir' profiles :
  initialize asctime p data a e dir = Ok (a', e', dir') → read_profiles data = Ok (Some profiles) →
  al_parameters a' = Some p ∧ es_profiles e' = Some profiles ∧
  es_granularity e' = p_search_granularity p ∧ get_app_num e' = Ok (Z.of_nat (length profiles)).
Proof.
  unfold initialize, estimator_initialize. intros Hi Hp. rewrite Hp in Hi.
  destruct (negb (al_monitor a)); [done|]. destruct (negb (al_deployer a)); [done|].
  destruct (log_msg asctime (al_logger a) _ _ dir); [|done]. cbn [mbind res_bind] in Hi.
  injection Hi as <- <- _. done.
Qed.

(** Before it neither the loop nor the list of applications is available. *)
Lemma uninitialized rs a dir dir' :
  new_allocator true true true dir = Ok (a, dir') →
  al_parameters a = None ∧ estimator_app_ids (new_estimator rs) = Err TypeError ∧
  get_app_num (new_estimator rs) = Err TypeError.
Proof. unfold new_allocator. destruct (prepare_logger _ dir). by intros [= <- _]. Qed.

Lemma logged_object_ready asctime name messages dir lg dir' :
  logged_object asctime name messages dir = Ok (lg, dir') → lg = Ready name true.
Proof. unfold logged_object, prepare_logger. intros Hl. by inv_ok. Qed.

(** C37: a run that returns has stopped the reset server and freed its port, which
    nothing else listened on; it has closed the three logs if it was to move
    them, and left them open otherwise. *)
Theorem run_closes asctime messages data name n move_logs loop dir ports r :
  whole_run asctime messages data name n move_logs loop dir ports = Ok r →
  (60000%Z ∉ ports) ∧ end_ports r = ports ∧ Server.srv_running (end_server r) = Some false ∧
  end_monitor r = Ready (str "memcached_mind_monitor") (negb move_logs) ∧
  end_deployer r = Ready (str "memcached_deployer") (negb move_logs) ∧
  end_allocator r = Ready (str "spirit_ceei_allocator") (negb move_logs).
Proof.
  unfold whole_run. intros Hrun. apply bind_Ok in Hrun as (ev & _ & Hrun).
  apply bind_Ok in Hrun as ([mon d1] & Hm%logged_object_ready & Hrun).
  apply bind_Ok in Hrun as ([dep d2] & Hd%logged_object_ready & Hrun). subst mon dep.
  apply bind_Ok in Hrun as ([a d3] & Ha & Hrun). apply bind_Ok in Hrun as ([[a' e'] d4] & Hi & Hrun).
  assert (Hl : al_logger a' = Ready (str "spirit_ceei_allocator") true).
  { unfold initialize in Hi. cbn [new_allocator negb prepare_logger] in Ha. injection Ha as <- _.
    cbn [al_monitor al_deployer al_logger negb] in Hi. by inv_ok. }
  apply bind_Ok in Hrun as ([srv ps] & Hs & Hrun). unfold Server.start in Hs.
  case_bool_decide as Hport; [done|]. injection Hs as <- <-. cbn [Server.new_server Server.srv_port] in Hport.
  apply bind_Ok in Hrun as ([] & _ & Hrun).
  assert (Hf : filter (λ p : Z, p ≠ 60000%Z) (60000%Z :: ports) = ports).
  { rewrite filter_cons_False by naive_solver. clear -Hport. induction ports as [|p ports IH]; [done|].
    apply not_elem_of_cons in Hport as [? ?]. rewrite filter_cons_True by congruence. by rewrite IH. }
  rewrite Hl in Hrun.
  destruct move_logs; cbn -[filter] in Hrun; injection Hrun as <-; cbn -[filter]; by rewrite Hf.
Qed.
End objects.
