(* ===== verification/LogParsers.v ===== *)
(** * The log parsers: utils/log_parsers.py

    Each application of the evaluation writes a log; a parser reads one
    performance number out of it.  [open] and [readlines] are the argument
    [file]: the lines of the file, or the exception that opening it raised.
    Every exception inside [parse_log_file] is caught and answered with
    [(0, 0, 0)].  numpy's mean, median and percentile are parameters. *)

From S2P Require Import Prelude PyDict PyFloat PyStr Regex Json.
From Stdlib Require Import Ascii.

Local Open Scope re_scope.

(** ** Patterns *)

(** [(\d+) requests sent \| \d+ bytes \| ([\d.]+) Mbps \| ([\d.]+) us \| active: \d+] *)
Definition bandwidth_pattern1 : re :=
  Group digits @@ " requests sent | " ~> digits @@ " bytes | " ~> Group decimals @@
  " Mbps | " ~> Group decimals @@ " us | active: " ~> digits.

(** The second format has the average and percentiles of the latency. *)
Definition bandwidth_pattern2 : re :=
  Group digits @@ " requests sent | " ~> digits @@ " bytes | " ~> Group decimals @@
  " Mbps | avg: " ~> Group decimals @@ " us |" ~> anything @@ "99th: " ~> Group decimals @@
  " us" ~> anything @@ "| active: " ~> digits.

Definition throughput_pattern : re :=
  "Performed " ~> Group digits @@ " timeline reads, Throughput: " ~> Group decimals @@
  " req/s, Avg Latency: " ~> decimals @@ " ms" ~> Eps.

Definition iteration_pattern : re := "Iteration " ~> Group digits @@ " -" ~> Eps.

Definition batch_pattern : re :=
  "Batch " ~> Group digits @@ " inference time: " ~> Group decimals @@ " us" ~> Eps.

(** [l[a:b]] *)
Definition slice_end (n : nat) (i : Z) : nat :=
  Z.to_nat (if (i <? 0)%Z then Z.of_nat n + i else Z.min i (Z.of_nat n)).

Definition slice {A} (l : list A) (a b : Z) : list A :=
  let i := slice_end (length l) a in
  let j := slice_end (length l) b in
  take (j - i) (drop i l).

Section parsers.
Context {F : Type} `{PyFloat F}.
Context (np_median : list F → F) (np_percentile : list F → Z → F) (np_mean : list F → F).

(** [(median, p10, p90)] *)
Abbreviation stats := (json F * json F * json F)%type.

Definition zeros : stats := (JInt 0, JInt 0, JInt 0).
Definition single (v : json F) : stats := (v, JInt 0, JInt 0).

(** [try: .. except Exception: return 0, 0, 0] *)
Definition or_zeros (m : res stats) : stats := match m with Ok r => r | Err _ => zeros end.

(** [LogParser._filter_measurements]; [None] is a false [filter_index]. *)
Definition filter_measurements (filter_index : option (Z * Z)) (measurements : list F) : stats :=
  match measurements with
  | [] => zeros
  | _ =>
      let half := drop (length measurements / 2) measurements in
      let filtered :=
        match filter_index with
        | Some (a, b) =>
            if (b <? Z.of_nat (length measurements))%Z then slice measurements a b else half
        | None => half
        end in
      match filtered with
      | [] => zeros
      | _ => (JFloat (np_median filtered), JFloat (np_percentile filtered 10),
              JFloat (np_percentile filtered 90))
      end
  end.

(** ** Memcached *)

(** [last_requests], [last_bandwidth], [last_latency] *)
Record mc_state := McState {
  last_requests : Z;
  last_bandwidth : json F;
  last_latency : json F;
}.

Definition mc_init : mc_state := McState 0 (JInt 0) (JInt 0).

Definition mc_update (requests bandwidth latency : text) (st : mc_state) : res mc_state :=
  n ← py_int requests;
  if (last_requests st <=? n)%Z then
    b ← py_float bandwidth;
    l ← py_float latency;
    Ok (McState n (JFloat b) (JFloat l))
  else Ok st.

Definition mc_line (line : text) (st : mc_state) : res mc_state :=
  match re_search bandwidth_pattern1 line with
  | Some [requests; bandwidth; latency] => mc_update requests bandwidth latency st
  | _ =>
      match re_search bandwidth_pattern2 line with
      | Some [requests; bandwidth; _; latency] => mc_update requests bandwidth latency st
      | _ => Ok st
      end
  end.

(** [MemcachedLogParser.parse_log_file]; [latency] is [self.latency]. *)
Definition memcached_parse (latency : bool) (file : res (list text)) : stats :=
  or_zeros
    (content ← file;
     st ← for_all mc_line content mc_init;
     Ok (if (0 <? last_requests st)%Z
         then single (if latency then last_latency st else last_bandwidth st)
         else zeros)).

(** ** Social network *)

(** [content.rstrip(']').rstrip(',') + ']'] *)
Definition repair (content : text) : text :=
  rstrip (is_chr ","%char) (rstrip (is_chr "]"%char) content) ++ ["]"%char].

(** [parse_log_file_to_json] *)
Definition parse_log_file_to_json (file : res text) : option (json F) :=
  res_option
    (content ← file;
     json_loads (if bool_decide (count "["%char content = count "]"%char content)
                 then content else repair content)).

(** The first latency of the cumulative distribution at or above the
    percentile. *)
Fixpoint cdf_search (percentile : F) (l : list (json F)) : res (option (json F)) :=
  match l with
  | [] => Ok None
  | v :: l' =>
      '(latency_value, p) ← unpack2 v;
      x ← jnumber p;
      if fleb percentile x then Ok (Some latency_value) else cdf_search percentile l'
  end.

Definition social_latency (percentile : F) (file : res text) : res stats :=
  match parse_log_file_to_json file with
  | None => Ok zeros
  | Some v =>
      if truthy v then
        found ← jmem v (str "cdf");
        if (found : bool) then
          cdf_data ← jget v (str "cdf");
          l ← jiter cdf_data;
          hit ← cdf_search percentile l;
          Ok (match hit with Some latency_value => single latency_value | None => zeros end)
        else Ok zeros
      else Ok zeros
  end.

(** The [(reads, throughput)] pairs of the log. *)
Definition throughput_line (line : text) (acc : list (Z * F)) : res (list (Z * F)) :=
  match re_search throughput_pattern line with
  | Some [reads; throughput] =>
      n ← py_int reads;
      x ← py_float throughput;
      Ok (acc ++ [(n, x)])
  | _ => Ok acc
  end.

Definition social_throughput (file : res (list text)) : res stats :=
  content ← file;
  throughputs ← for_all throughput_line content [];
  Ok (match last throughputs with Some (_, x) => single (JFloat x) | None => zeros end).

(** [SocialNetworkLogParser.parse_log_file]: the file as text and as lines. *)
Definition social_parse (latency : bool) (percentile : F) (file : res text)
    (lines : res (list text)) : stats :=
  or_zeros (if latency then social_latency percentile file else social_throughput lines).

(** ** STREAM *)

(** [highest_iteration] and [num_detecteed_iterations] *)
Definition stream_line (line : text) (st : Z * Z) : res (Z * Z) :=
  match re_search iteration_pattern line with
  | Some [g] =>
      iteration ← py_int g;
      Ok (if (st.1 <? iteration)%Z then iteration else st.1, (st.2 + 1)%Z)
  | _ => Ok st
  end.

(** [StreamLogParser.parse_log_file] *)
Definition stream_parse (file : res (list text)) : stats :=
  or_zeros
    (content ← file;
     '(highest, num_detected) ← for_all stream_line content (0, 0)%Z;
     Ok (if (0 <? highest)%Z then single (JInt num_detected) else zeros)).

(** ** DLRM *)

Definition dlrm_line (line : text) (acc : list F) : res (list F) :=
  match re_search batch_pattern line with
  | Some [_; time] =>
      t ← py_float time;
      x ← fdiv (of_Z 1) t;
      Ok (acc ++ [x])
  | _ => Ok acc
  end.

(** [throughputs[-100:]] *)
Definition last_100 (l : list F) : list F := drop (length l - 100) l.

(** [DlrmLogParser.parse_log_file] *)
Definition dlrm_parse (file : res (list text)) : stats :=
  or_zeros
    (content ← file;
     throughputs ← for_all dlrm_line content [];
     Ok (match throughputs with
         | [] => zeros
         | _ => single (JFloat (np_mean (last_100 throughputs)))
         end)).

(** ** File names *)

Definition memcached_log_filename (app_id : text) : text :=
  str "spirit_mc_client_" ++ app_id ++ str ".log".
Definition social_log_filename (app_id : text) : text :=
  str "spirit_social_net_" ++ app_id ++ str "_client.log".
Definition stream_log_filename (app_id : text) : text :=
  str "spirit_stream_" ++ app_id ++ str ".log".
Definition dlrm_log_filename (app_id : text) : text :=
  str "spirit_dlrm_inf_" ++ app_id ++ str ".log".
End parsers.
Arguments mc_state : clear implicits.
