(* ===== verification/LogParsersFacts.v ===== *)
(** * The log parsers read what the applications write

    The memcached client reports its progress in lines of a fixed format
    (bench-mc-client/src/metrics.rs).  The parser finds its numbers in each of
    them and keeps those of the last line with the greatest request count. *)

From S2P Require Import Prelude PyDict PyFloat PyStr Regex Json LogParsers.
From Stdlib Require Import Ascii.

(** ** Tactics on texts *)

(** [c ∉ t] for a text put together from literals, numbers and texts of
    decimals. *)
Definition all_decimals (s : text) : Prop := Forall (λ c, is_decimal c = true) s.

Lemma decimals_not_elem c s : is_decimal c = false → all_decimals s → c ∉ s.
Proof. intros Hc Hs Hin. eapply Forall_forall in Hs; [|done]. simpl in Hs. congruence. Qed.

Ltac lit_false := apply (bool_decide_unpack _); vm_compute; exact I.

Ltac no_chr :=
  repeat (apply not_elem_of_app; split);
  first [ assumption
        | apply show_not_elem; [reflexivity | discriminate]
        | apply decimals_not_elem; [reflexivity | assumption]
        | lit_false ].

(** ** The progress lines of the memcached client *)

Record report := Report {
  requests : Z;
  bytes : Z;
  mbps : text;
  avg_us : text;
  p75_us : text;
  p90_us : text;
  p99_us : text;
  active : Z;
}.

Definition progress_line (r : report) : text :=
  show (requests r) ++ str " requests sent | " ++ show (bytes r) ++ str " bytes | " ++
  mbps r ++ str " Mbps | avg: " ++ avg_us r ++ str " us | 75th: " ++ p75_us r ++
  str " us, 90th: " ++ p90_us r ++ str " us, 99th: " ++ p99_us r ++ str " us | active: " ++
  show (active r) ++ ["010"%char].

(** A number with a decimal point. *)
Definition is_number (s : text) : Prop :=
  ∃ a b, all_digits a ∧ a ≠ [] ∧ all_digits b ∧ s = a ++ "."%char :: b.

(** Counts are not negative, the other numbers are in decimal notation. *)
Definition report_ok (r : report) : Prop :=
  (0 <= requests r)%Z ∧ (0 <= bytes r)%Z ∧ (0 <= active r)%Z ∧
  is_number (mbps r) ∧ is_number (avg_us r) ∧ is_number (p75_us r) ∧ is_number (p90_us r) ∧
  is_number (p99_us r).

Lemma is_number_length s : is_number s → 1 ≤ length s.
Proof. intros (a & b & _ & _ & _ & ->). rewrite length_app. simpl. lia. Qed.

Lemma is_number_decimals s : is_number s → all_decimals s.
Proof.
  intros (a & b & Ha & _ & Hb & ->). unfold all_decimals, is_decimal.
  apply Forall_app. split; [|constructor; [done|]];
    (eapply Forall_impl; [eassumption|]); simpl; by intros c ->.
Qed.

Lemma is_number_float {F} `{PyFloat F} s : is_number s → ∃ x : F, py_float s = Ok x.
Proof. intros (a & b & Ha & Hne & Hb & ->). eexists. by apply py_float_fraction. Qed.


Lemma show_length z : 1 ≤ length (show z).
Proof.
  destruct (decide (z < 0)%Z) as [Hz|Hz]; [rewrite show_neg by done; simpl; lia|].
  destruct (show_nonneg z) as (_ & Hne & _); [lia|]. destruct (show z); simpl; [done|lia].
Qed.

Lemma show_digits z : (0 <= z)%Z → all_digits (show z).
Proof. intros Hz. by destruct (show_nonneg z Hz). Qed.

#[local] Hint Resolve is_number_length is_number_decimals show_digits show_length : spirit.

Section progress.
Context (r : report) (Hr : report_ok r).

(** The first format is not found in a line of the second. *)
Lemma progress_not_pattern1 : re_search bandwidth_pattern1 (progress_line r) = None.
Proof using Hr.
  destruct Hr as (Hq & Hb & Ha & Hm & Hv%is_number_decimals & H7%is_number_decimals &
    H9%is_number_decimals & H99%is_number_decimals).
  unfold bandwidth_pattern1, digits, decimals, progress_line.
  rewrite re_search_skip_run; [|by apply rejects_lit|by apply show_digits|done|].
  - rewrite (re_search_skip_class is_digit).
    + apply (re_search_without_chr _ _ _ _ "q"%char); [lit_false|]. apply is_number_decimals in Hm. no_chr.
    + intros. by apply matches_group_other.
    + repeat constructor.
  - rewrite matches_lit.
    rewrite matches_run; [|by apply rejects_lit|apply show_length|by apply show_digits|done].
    rewrite matches_lit.
    rewrite matches_group; [|by apply rejects_lit|auto with spirit|by apply is_number_decimals|done].
    change (str " Mbps | avg: ") with (str " Mbps | " ++ str "avg: "). rewrite <- app_assoc.
    rewrite matches_lit. cbn [str app]. by rewrite matches_group_other.
Qed.

Lemma not_99th (a s : text) :
  all_decimals a → a ≠ [] → starts_with (str "99th: ") (a ++ str " us" ++ s) = false.
Proof.
  intros Ha Hne. apply (starts_with_false _ _ 2 "t"%char); [done|].
  destruct a as [|c [|d [|e a]]]; [done|done|done|]. intros [= ->].
  apply Forall_cons in Ha as [_ Ha]. apply Forall_cons in Ha as [_ Ha].
  apply Forall_cons in Ha as [He _]. done.
Qed.

Lemma decimals_not_newline a : all_decimals a → Forall (λ c, not_newline c = true) a.
Proof.
  intros Ha. eapply Forall_impl; [exact Ha|]. intros c Hc. simpl.
  unfold not_newline, is_chr. case_bool_decide; [by subst|done].
Qed.

Lemma skip_decimals p (a s : text) r0 :
  p = not_newline → all_decimals a →
  matches (Cat (Lazy 0 p) (lit_re (str "99th: ") r0)) (a ++ " " :: "u" :: "s" :: s)%char =
  matches (Cat (Lazy 0 p) (lit_re (str "99th: ") r0)) (" " :: "u" :: "s" :: s)%char.
Proof.
  intros -> Ha. apply matches_lazy_skip; [by apply decimals_not_newline|].
  intros a1 a2 -> Hne. apply (not_99th a2 s); [|done]. by apply Forall_app in Ha as [_ ?].
Qed.

(** Skip the characters of a literal at which a lazy part cannot end. *)
Ltac skip_lazy := repeat (rewrite matches_lazy_skip1; [|reflexivity|reflexivity]).

(** The end of the line, from the last percentile on. *)
Lemma progress_end :
  ∃ t hs, matches (lit_re (str " us") (Cat anything (lit_re (str "| active: ") digits)))
    (str " us | active: " ++ show (active r) ++ ["010"%char]) = (t, []) :: hs.
Proof using Hr.
  destruct Hr as (_ & _ & Ha & _).
  destruct (matches_all is_digit ["010"%char] (show (active r))) as (t & hs & Ht);
    [apply show_length|by apply show_digits|].
  exists t. change (str " us | active: ") with (str " us" ++ " "%char :: str "| active: ").
  rewrite <- app_assoc, matches_lit. unfold anything. rewrite <- app_comm_cons, matches_lazy_skip1 by done.
  eapply matches_lazy_here. by rewrite matches_lit.
Qed.

(** From the percentiles on. *)
Lemma progress_tail :
  ∃ t hs, matches (Cat anything (lit_re (str "99th: ") (Cat (Group decimals)
    (lit_re (str " us") (Cat anything (lit_re (str "| active: ") digits))))))
    (str " 75th: " ++ p75_us r ++ str " us, 90th: " ++ p90_us r ++ str " us, 99th: " ++
     p99_us r ++ str " us | active: " ++ show (active r) ++ ["010"%char]) =
  (t, [p99_us r]) :: hs.
Proof using Hr.
  destruct progress_end as (t & hs & He). revert He.
  destruct Hr as (_ & _ & Ha & _ & _ & H7%is_number_decimals & H9%is_number_decimals & H99).
  generalize (str " us | active: " ++ show (active r) ++ ["010"%char]) as e. intros e He.
  assert (Hp : stops is_decimal e).
  { destruct e as [|c e]; [done|]. destruct (decide (c = " "%char)) as [->|Hc]; [done|].
    rewrite matches_lit_cut in He. simpl in He. by rewrite decide_False in He. }
  unfold anything at 1, decimals. cbn [str app]. skip_lazy.
  rewrite (skip_decimals not_newline (p75_us r)) by done. skip_lazy.
  rewrite (skip_decimals not_newline (p90_us r)) by done. skip_lazy.
  edestruct (matches_lazy_here not_newline) as [hs' E']; [|rewrite E'; eauto].
  etrans; [apply (matches_lit (str "99th: "))|].
  etrans; [apply (matches_group is_decimal)|];
    [by apply rejects_lit|auto with spirit|by apply is_number_decimals|done|].
  cbn [str] in He. rewrite He. done.
Qed.

(** The second format is found, with the numbers of the line. *)
Lemma progress_pattern2 :
  re_search bandwidth_pattern2 (progress_line r) =
  Some [show (requests r); mbps r; avg_us r; p99_us r].
Proof using Hr.
  destruct progress_tail as (t & hs & Ht).
  destruct Hr as (Hq & Hb & _ & Hm & Hv & _).
  unfold bandwidth_pattern2, progress_line. eapply re_search_here. unfold digits at 1 2, decimals at 1 2.
  rewrite matches_group; [|by apply rejects_lit|apply show_length|by apply show_digits|done].
  rewrite matches_lit.
  rewrite matches_run; [|by apply rejects_lit|apply show_length|by apply show_digits|done].
  rewrite matches_lit.
  rewrite matches_group; [|by apply rejects_lit|auto with spirit|by apply is_number_decimals|done].
  rewrite matches_lit.
  rewrite matches_group; [|by apply rejects_lit|auto with spirit|by apply is_number_decimals|done].
  change (str " us | 75th: ") with (str " us |" ++ str " 75th: "). rewrite <- app_assoc.
  rewrite matches_lit, Ht. reflexivity.
Qed.

Lemma mc_line_progress {F} `{PyFloat F} (st : mc_state F) :
  mc_line (progress_line r) st = mc_update (show (requests r)) (mbps r) (p99_us r) st.
Proof using Hr. unfold mc_line. by rewrite progress_not_pattern1, progress_pattern2. Qed.
End progress.

Lemma mc_line_other {F} `{PyFloat F} line (st : mc_state F) :
  re_search bandwidth_pattern1 line = None → re_search bandwidth_pattern2 line = None →
  mc_line line st = Ok st.
Proof. unfold mc_line. by intros -> ->. Qed.

(** ** The log of a client *)

(** The lines of a log with the given reports: other lines may stand between
    them. *)
Inductive log_of : list report → list text → Prop :=
  | log_nil : log_of [] []
  | log_report r rs lines : report_ok r → log_of rs lines → log_of (r :: rs) (progress_line r :: lines)
  | log_other line rs lines :
      re_search bandwidth_pattern1 line = None → re_search bandwidth_pattern2 line = None →
      log_of rs lines → log_of rs (line :: lines).

Section client_log.
Context {F : Type} `{PyFloat F}.
Implicit Types st : mc_state F.

Lemma log_of_app l1 l2 lines :
  log_of (l1 ++ l2) lines → ∃ a b, lines = a ++ b ∧ log_of l1 a ∧ log_of l2 b.
Proof.
  revert l1. assert (Hgen : ∀ l, log_of l lines → ∀ l1, l = l1 ++ l2 →
    ∃ a b, lines = a ++ b ∧ log_of l1 a ∧ log_of l2 b).
  { induction 1 as [|r rs lines Hr Hl IH|line rs lines H1 H2 Hl IH]; intros l1 E.
    - symmetry in E. apply app_eq_nil in E as [-> ->]. exists [], []. split; [done|]. split; constructor.
    - destruct l1 as [|r' l1]; simplify_eq/=.
      + exists [], (progress_line r :: lines). split; [done|]. split; [constructor|by apply log_report].
      + destruct (IH l1 eq_refl) as (a & b & -> & Ha & Hb).
        exists (progress_line r' :: a), b. split; [done|]. split; [by apply log_report|done].
    - destruct (IH l1 E) as (a & b & -> & Ha & Hb). exists (line :: a), b. split; [done|].
      split; [by apply log_other|done]. }
  intros l1 Hl. by eapply Hgen.
Qed.

(** Reports with at most [n] requests leave at most [n]. *)
Lemma log_below n rs lines st :
  log_of rs lines → (last_requests st <= n)%Z → Forall (λ r, requests r <= n)%Z rs →
  ∃ st', for_all mc_line lines st = Ok st' ∧ (last_requests st' <= n)%Z.
Proof.
  intros Hl. revert st. induction Hl as [|r rs lines Hr Hl IH|line rs lines H1 H2 Hl IH];
    intros st Hst Hrs; cbn [for_all]; [eauto| |].
  - apply Forall_cons in Hrs as [Hn Hrs]. rewrite mc_line_progress by done.
    unfold mc_update. rewrite py_int_show. cbn [mbind res_bind].
    case_match; [|by apply IH]. destruct Hr as (_ & _ & _ & Hm & _ & _ & _ & H99).
    destruct (is_number_float (F := F) _ Hm) as [x ->], (is_number_float (F := F) _ H99) as [y ->].
    cbn [mbind res_bind]. by apply IH.
  - rewrite mc_line_other by done. by apply IH.
Qed.

(** Reports with fewer requests change nothing. *)
Lemma log_ignored rs lines st :
  log_of rs lines → Forall (λ r, requests r < last_requests st)%Z rs →
  for_all mc_line lines st = Ok st.
Proof.
  intros Hl. induction Hl as [|r rs lines Hr Hl IH|line rs lines H1 H2 Hl IH]; intros Hrs;
    cbn [for_all]; [done| |].
  - apply Forall_cons in Hrs as [Hn Hrs]. rewrite mc_line_progress by done.
    unfold mc_update. rewrite py_int_show. cbn [mbind res_bind].
    replace (_ <=? _)%Z with false by lia. by apply IH.
  - rewrite mc_line_other by done. by apply IH.
Qed.

(** A client's log is read back: the parser returns the throughput (or, when
    asked for the latency, the 99th percentile) of the last report with the
    greatest number of requests. *)
Theorem memcached_roundtrip (latency : bool) (lines : list text) (l1 l2 : list report) (r : report) :
  log_of (l1 ++ r :: l2) lines → (0 < requests r)%Z →
  Forall (λ r', requests r' <= requests r)%Z l1 → Forall (λ r', requests r' < requests r)%Z l2 →
  ∃ x : F, py_float (if latency then p99_us r else mbps r) = Ok x ∧
    memcached_parse latency (Ok lines) = single (JFloat x).
Proof.
  intros (a & b & -> & Ha & Hb)%log_of_app H0 H1 H2.
  assert (Hb' : ∃ o b', b = o ++ progress_line r :: b' ∧ log_of [] o ∧ log_of l2 b' ∧ report_ok r).
  { change (r :: l2) with ([] ++ r :: l2) in Hb. remember ([] ++ r :: l2) as rs eqn:E.
    induction Hb as [|r' rs lines Hr Hl _|line rs lines Hn1 Hn2 Hl IH]; simplify_eq/=.
    - exists [], lines. split; [done|]. split; [constructor|done].
    - destruct (IH eq_refl) as (o & b' & -> & Ho & Hb' & Hr). exists (line :: o), b'.
      split; [done|]. split; [by apply log_other|done]. }
  destruct Hb' as (o & b' & -> & Ho & Hb' & Hr).
  destruct (log_below (requests r) l1 a mc_init) as (st1 & E1 & Hs1); [done|cbn; lia|done|].
  destruct (log_below (requests r) [] o st1) as (st2 & E2 & Hs2); [done|done|constructor|].
  pose proof Hr as (_ & _ & _ & Hm & _ & _ & _ & H99).
  destruct (is_number_float (F := F) _ Hm) as [x Hx], (is_number_float (F := F) _ H99) as [y Hy].
  exists (if latency then y else x). split; [by destruct latency|].
  unfold memcached_parse. cbn [mbind res_bind]. rewrite for_all_app, E1. cbn [mbind res_bind].
  rewrite for_all_app, E2. cbn [mbind res_bind for_all]. rewrite mc_line_progress by done.
  unfold mc_update. rewrite py_int_show. cbn [mbind res_bind].
  replace (_ <=? _)%Z with true by lia. rewrite Hx, Hy. cbn [mbind res_bind].
  rewrite (log_ignored l2) by done. cbn [mbind res_bind last_requests or_zeros].
  replace (0 <? _)%Z with true by lia. by destruct latency.
Qed.
End client_log.

(** ** The other parsers *)

Section others.
Context {F : Type} `{PyFloat F}.

Lemma social_not_object (percentile : F) v :
  ¬ is_object v →
  or_zeros (if truthy v then
    found ← jmem v (str "cdf");
    if (found : bool) then
      cdf_data ← jget v (str "cdf");
      l ← jiter cdf_data;
      hit ← cdf_search percentile l;
      Ok (match hit with Some x => single x | None => zeros end)
    else Ok zeros
  else Ok zeros) = zeros.
Proof.
  destruct v as [|b|z|x|s|l|d]; intros Hv; cbn [jmem jget truthy]; repeat case_match; try done.
  all: cbn [mbind res_bind]; by repeat case_match.
Qed.

(** The repair of a metrics file with unbalanced square brackets never helps:
    the repaired text ends in a bracket, so it is no JSON object and has no
    distribution to read a latency from. *)
Theorem social_repair_useless (percentile : F) (content : text) (lines : res (list text)) :
  count "["%char content ≠ count "]"%char content →
  social_parse true percentile (Ok content) lines = zeros.
Proof.
  intros Hc. unfold social_parse, social_latency, parse_log_file_to_json. cbn [mbind res_bind].
  rewrite bool_decide_false by done. unfold repair.
  destruct (json_loads _) as [v|] eqn:E; cbn [res_option]; [|done].
  apply social_not_object. destruct v; simpl; try tauto. intros _.
  by eapply json_loads_not_object in E.
Qed.

(** The iterations found in a STREAM log. *)
Definition iteration_of (line : text) : option Z :=
  match re_search iteration_pattern line with Some [g] => res_option (py_int g) | _ => None end.

Lemma group_digits l r s g gs :
  re_search (lit_re l (Cat (Group digits) r)) s = Some (g :: gs) → all_digits g ∧ g ≠ [].
Proof.
  intros (a & b & t & -> & Hr & _)%re_search_Some. apply reach_lit in Hr as (s' & -> & Hr).
  apply reach_cat_inv in Hr as (h1 & h2 & Hg & _ & E).
  apply reach_group_inv in Hg as (d & -> & E1 & Hn & Hd).
  rewrite E1 in E. simplify_eq/=. split; [done|]. by destruct d; simpl in *; [lia|].
Qed.

Lemma stream_line_iteration line st :
  stream_line line st =
  match iteration_of line with
  | Some i => Ok (Z.max st.1 i, st.2 + 1)%Z
  | None => Ok st
  end.
Proof.
  unfold stream_line, iteration_of.
  destruct (re_search iteration_pattern line) as [[|g [|g' gs]]|] eqn:E; try done.
  destruct (group_digits _ _ _ _ _ E) as [Hd Hne]. rewrite py_int_digits by done.
  cbn [mbind res_bind res_option]. do 2 f_equal. case_match; lia.
Qed.

Lemma stream_state lines st :
  for_all stream_line lines st =
  Ok (foldl Z.max st.1 (omap iteration_of lines),
      st.2 + Z.of_nat (length (omap iteration_of lines)))%Z.
Proof.
  revert st. induction lines as [|line lines IH]; intros [hi n]; [cbn; by rewrite Z.add_0_r|].
  cbn [for_all]. rewrite stream_line_iteration. cbn [omap list_omap].
  destruct (iteration_of line) as [i|]; cbn [mbind res_bind]; rewrite IH; [|done].
  do 2 f_equal. cbn [length snd]. lia.
Qed.

(** The STREAM parser documents the highest iteration, and returns the number
    of lines that name one. *)
Theorem stream_counts_lines lines :
  (0 < foldl Z.max 0 (omap iteration_of lines))%Z →
  stream_parse (F := F) (Ok lines) = single (JInt (Z.of_nat (length (omap iteration_of lines)))).
Proof.
  intros Hi. unfold stream_parse. cbn [mbind res_bind]. rewrite stream_state. cbn [fst snd mbind res_bind].
  by rewrite (proj2 (Z.ltb_lt _ _) Hi).
Qed.
End others.
