(* ===== verification/MonitorLog.v ===== *)
(** * Two methods of the monitor without callers

    [parse_log_entry] of resource_monitor.py parses the entries of an older
    protocol, ["l3miss.<n>:<server>:<app>:cache.<n>:bw.<n>:<time>"], with a
    regular expression.  [has_enough_data] compares the bandwidths of the
    recent measurements, which are in Gbps, with one in Mbps. *)

From S2P Require Import Prelude PyDict PyFloat Exact Base BaseExact Monitor PyStr Regex LogParsersFacts.
From Stdlib Require Import Ascii.

Local Open Scope re_scope.

Definition entry_pattern : re :=
  "l3miss." ~> Group digits @@ ":" ~> Group digits @@ ":" ~> Group digits @@ ":cache." ~>
  Group digits @@ ":bw." ~> Group digits @@ ":" ~> Group digits.

(** The names of the groups. *)
Definition entry_fields : list text :=
  [str "l3_miss"; str "server_id"; str "app_id"; str "cache_size"; str "bandwidth"; str "timestamp"].

(** [parse_log_entry]: [pattern.match(..).groupdict()]. *)
Definition parse_log_entry (log_entry : text) : res (dict text text) :=
  match re_match entry_pattern log_entry with
  | Some h => Ok (zip entry_fields h.2)
  | None => Err ValueError
  end.

(** ** Facts *)

(** The text of an entry. *)
Definition entry_text (miss server app cache bw time : Z) : text :=
  str "l3miss." ++ show miss ++ str ":" ++ show server ++ str ":" ++ show app ++ str ":cache." ++
  show cache ++ str ":bw." ++ show bw ++ str ":" ++ show time.

Lemma greedy_all p (a : text) :
  1 ≤ length a → Forall (λ c, p c = true) a → ∃ l, greedy 1 p a = [] :: l.
Proof.
  intros Hl Ha. destruct Ha as [|c a Hc Ha]; [simpl in Hl; lia|]. cbn [greedy pred]. rewrite Hc, app_nil_r.
  clear Hl Hc c. assert (H : ∃ l, greedy 0 p a = [] :: l); [|done].
  induction Ha as [|c a Hc Ha [l IH]]; [by exists []|]. cbn [greedy pred]. rewrite Hc, IH. by eexists.
Qed.

(** Every entry in the documented format is parsed into its fields. *)
Theorem log_entry_roundtrip (miss server app cache bw time : Z) :
  (0 <= miss)%Z → (0 <= server)%Z → (0 <= app)%Z → (0 <= cache)%Z → (0 <= bw)%Z → (0 <= time)%Z →
  parse_log_entry (entry_text miss server app cache bw time) =
  Ok (zip entry_fields (show <$> [miss; server; app; cache; bw; time])).
Proof.
  intros. unfold parse_log_entry, re_match, entry_pattern, entry_text, digits.
  rewrite matches_lit.
  repeat (rewrite matches_group; [|by apply rejects_lit|apply show_length|by apply show_digits|done];
          rewrite matches_lit).
  destruct (greedy_all is_digit (show time)) as [l Hl]; [apply show_length|by apply show_digits|].
  cbn [matches]. rewrite Hl. cbn [fmap list_fmap head fst snd]. unfold consumed.
  cbn [length]. rewrite Nat.sub_0_r, firstn_all. done.
Qed.

(** ** Enough data *)

Lemma for_all_const {X S} (body : X → S → res S) xs s :
  (∀ x, x ∈ xs → body x s = Ok s) → for_all body xs s = Ok s.
Proof.
  intros Hb. induction xs as [|x xs IH]; [done|]. cbn [for_all]. rewrite Hb by left. cbn [mbind res_bind].
  apply IH. intros y Hy. apply Hb. by right.
Qed.

(** A bandwidth of at most [b] Mbps, in Gbps, is below [b] rounded down to a
    multiple of 8. *)
Lemma gbps_below (x b : Z) :
  (0 <= x <= b)%Z → (8 <= b)%Z →
  ∃ z, trunc (Num (zq x / zq 1024)%Qc) = Ok z ∧ (z < b / 8 * 8)%Z.
Proof.
  intros Hx Hb. assert (Hq : (0 <= zq x / zq 1024)%Qc).
  { pose proof (proj2 (zq_le 0 x) ltac:(lia)) as H0. change (zq 0) with 0%Qc in H0.
    assert (Hi : (zq x / zq 1024 = zq x * Q2Qc (1 # 1024))%Qc) by done. rewrite Hi. revert H0.
    generalize (zq x). intros q H0. qc_nra. }
  destruct (trunc_nonneg _ Hq) as (z & Hz & Hz0 & Hle & _). exists z. split; [done|].
  assert (Hzx : (1024 * z <= x)%Z).
  { revert Hle. unfold zq. autorewrite with qcs. unfold Qle, Qdiv, Qmult, Qinv, inject_Z. simpl. lia. }
  pose proof (Z.div_mod b 8 ltac:(lia)). pose proof (Z.mod_pos_bound b 8 ltac:(lia)). lia.
Qed.

(** However often an allocation of at least 8 Mbps was measured, the monitor
    does not have enough data about it: the recorded bandwidths, in Gbps, are
    compared with Mbps. *)
Lemma never_enough_data (m : monitor xnum) (user cache bw : Z) :
  (8 <= bw)%Z →
  (∀ window, dget (recent_measurement m) user = Some window →
     Forall (λ e, ∃ x, (0 <= x <= bw)%Z ∧ ms_mem_bw_in_gbps e = Num (zq x / zq 1024)%Qc) (concat window)) →
  has_enough_data m user cache bw = Ok false.
Proof.
  intros Hb Hw. unfold has_enough_data. destruct (dget _ user) as [window|]; [|done].
  rewrite for_all_const; [done|]. intros e He. case_match; [|done].
  specialize (Hw window eq_refl). rewrite Forall_forall in Hw. destruct (Hw e He) as (x & Hx & ->).
  destruct (gbps_below x bw Hx Hb) as (z & -> & Hz). cbn [mbind res_bind].
  by rewrite (proj2 (Z.eqb_neq _ _)) by lia.
Qed.
