(* ===== verification/LogTools.v ===== *)
(** * Log analysis: utils/logtools.py

    Finding the log directory of an experiment, and reading measurements back
    out of the monitor's log.  The file system is a parameter: the list of
    sub-directories, and the text of each file or the exception opening it
    raises.  numpy's mean and [ast.literal_eval] are parameters. *)

From S2P Require Import Prelude PyDict PyFloat PyStr Regex Json LogParsers.
From Stdlib Require Import Ascii.

(** ** Log directories *)

Definition properties_pattern : re :=
  (Group digits @@ "mb_" ~> Group digits @@ "mbps" ~> Eps)%re.

(** [extract_properties]: both numbers, or neither. *)
Definition extract_properties (dir_name : text) : res (option (Z * Z)) :=
  match re_search properties_pattern dir_name with
  | Some [g1; g2] => cache ← py_int g1; bw ← py_int g2; Ok (Some (cache, bw))
  | _ => Ok None
  end.

(** The directives of [strptime] as [_strptime] compiles them. *)
Definition between (lo hi : ascii) (c : ascii) : bool := (code lo <=? code c)%Z && (code c <=? code hi)%Z.
Definition rng (lo hi : ascii) : re := Chr (between lo hi).
Definition one (c : ascii) : re := Chr (is_chr c).
Definition digit : re := Chr is_digit.

Section directives.
Local Open Scope char_scope.
Definition dir_Y : re := (digit @@ digit @@ digit @@ digit)%re.
Definition dir_m : re := Alt (one "1" @@ rng "0" "2")%re (Alt (one "0" @@ rng "1" "9")%re (rng "1" "9")).
Definition dir_d : re :=
  Alt (one "3" @@ rng "0" "1")%re (Alt (rng "1" "2" @@ digit)%re
    (Alt (one "0" @@ rng "1" "9")%re (Alt (rng "1" "9") (one " " @@ rng "1" "9")%re))).
Definition dir_H : re := Alt (one "2" @@ rng "0" "3")%re (Alt (rng "0" "1" @@ digit)%re digit).
Definition dir_M : re := Alt (rng "0" "5" @@ digit)%re digit.
Definition dir_S : re := Alt (one "6" @@ rng "0" "1")%re (Alt (rng "0" "5" @@ digit)%re digit).
End directives.

(** ["%Y%m%d-%H%M%S"] *)
Definition date_pattern : re :=
  (Group dir_Y @@ Group dir_m @@ Group dir_d @@ "-" ~> Group dir_H @@ Group dir_M @@ Group dir_S)%re.

(** A [datetime]: year, month, day, hour, minute, second. *)
Record date := Date { d_year : Z; d_month : Z; d_day : Z; d_hour : Z; d_minute : Z; d_second : Z }.

Definition leap_year (y : Z) : bool :=
  (y mod 4 =? 0)%Z && (negb (y mod 100 =? 0)%Z || (y mod 400 =? 0)%Z).

Definition days_in_month (y m : Z) : Z :=
  if (m =? 2)%Z then if leap_year y then 29 else 28
  else if (m =? 4)%Z || (m =? 6)%Z || (m =? 9)%Z || (m =? 11)%Z then 30
  else 31.

(** The checks of the [datetime] constructor that the pattern leaves open. *)
Definition valid_date (d : date) : bool :=
  (1 <=? d_year d)%Z && (d_day d <=? days_in_month (d_year d) (d_month d))%Z && (d_second d <=? 59)%Z.

(** [datetime.strptime(s, "%Y%m%d-%H%M%S")] *)
Definition strptime (s : text) : res date :=
  match re_match date_pattern s with
  | Some ([], [gy; gm; gd; gH; gM; gS]) =>
      y ← py_int gy; m ← py_int gm; d ← py_int gd;
      h ← py_int gH; mi ← py_int gM; sec ← py_int gS;
      let t := Date y m d h mi sec in
      if valid_date t then Ok t else Err ValueError
  | _ => Err ValueError
  end.

Definition date_fields (d : date) : list Z :=
  [d_year d; d_month d; d_day d; d_hour d; d_minute d; d_second d].

Fixpoint lex_ltb (a b : list Z) : bool :=
  match a, b with
  | x :: a', y :: b' => (x <? y)%Z || (x =? y)%Z && lex_ltb a' b'
  | _, _ => false
  end.

Definition date_ltb (a b : date) : bool := lex_ltb (date_fields a) (date_fields b).

(** [subdir.split('_')[-3].split('/')[-1]] *)
Definition date_field (subdir : text) : res text :=
  part ← index_back (split (str "_") subdir) 3;
  index_back (split (str "/") part) 1.

(** The dated sub-directories: a name that is no date is skipped, a name with
    fewer than three parts raises. *)
Definition date_subdirs (subdirs : list text) : res (list (text * date)) :=
  for_all (λ subdir acc,
    field ← date_field subdir;
    match strptime field with
    | Ok d => Ok (acc ++ [(subdir, d)])
    | Err ValueError => Ok acc
    | Err e => Err e
    end) subdirs [].

(** [max(date_subdir, key=..)['path']]: the first of the latest. *)
Definition later (best p : text * date) : text * date :=
  if date_ltb best.2 p.2 then p else best.

Definition latest (l : list (text * date)) : res text :=
  match l with
  | [] => Err ValueError
  | p :: l' => Ok (foldl later p l').1
  end.

(** The directories of runs with the given budget. *)
Definition with_budget (target : Z * Z) (subdirs : list text) : res (list text) :=
  for_all (λ subdir acc,
    props ← extract_properties subdir;
    Ok (match props with
        | Some (cache, bw) =>
            if (cache =? target.1)%Z && (bw =? target.2)%Z then acc ++ [subdir] else acc
        | None => acc
        end)) subdirs [].

(** [get_latest_subdirectory]; [subdirs] are the sub-directories found. *)
Definition get_latest_subdirectory (subdirs : list text) (target_cache_bw : option (Z * Z)) : res text :=
  subdirs ← match target_cache_bw with
            | Some target => with_budget target subdirs
            | None => Ok subdirs
            end;
  dated ← date_subdirs subdirs;
  latest dated.

(** ** The monitor's log *)

Definition measurement_tag : text := str "- INFO - New raw measurement:".

(** One part [key: value] or [key: value/limit] of a measurement. *)
Definition part_key (p : text) : text := default [] (head (split (str ": ") p)).

Definition part_value (p : text) : res Z :=
  v ← index (split (str ": ") p) 1;
  v ← index (split (str "/") v) 0;
  py_int v.

(** [measurement_info.strip()[1:-1].split(', ')] of the text after the tag *)
Definition measurement_parts (line : text) : res (list text) :=
  info ← index (split measurement_tag line) 1;
  Ok (split (str ", ") (inner (strip info))).

(** [measurement_dict] *)
Definition measurement_dict (fields : list text) (line : text) : res (dict text Z) :=
  parts ← measurement_parts line;
  for_all (λ p acc,
    if bool_decide (part_key p ∈ fields) then v ← part_value p; Ok (dset acc (part_key p) v)
    else Ok acc) parts [].

(** A row of the data frame; the use of cache and bandwidth only with
    [include_use]. *)
Record row := Row {
  r_idx : Z;
  r_user : option Z;
  r_perf : option Z;
  r_use : option (option Z * option Z);
  r_file : Z;
}.

Record log_state := LogState {
  l_data : list row;
  l_counter : dict Z Z;     (* per_user_counter *)
  l_idx : Z;
}.

Definition target_fields (perf_metric : text) (include_use : bool) : list text :=
  [str "user_id"; perf_metric] ++ if include_use then [str "cache"; str "mem_bw"] else [].

Definition count_user (user : option Z) (counter : dict Z Z) : dict Z Z :=
  match user with
  | Some u => dset counter u (match dget counter u with Some n => n + 1 | None => 1 end)%Z
  | None => counter
  end.

(** One line (lines 47-68): an exception is printed and the line skipped. *)
Definition log_line (file_id : Z) (perf_metric : text) (include_use : bool) (line : text)
    (st : log_state) : log_state :=
  if contains measurement_tag line then
    match measurement_dict (target_fields perf_metric include_use) line with
    | Ok d =>
        let user := dget d (str "user_id") in
        let use := if include_use then Some (dget d (str "cache"), dget d (str "mem_bw")) else None in
        LogState (l_data st ++ [Row (l_idx st) user (dget d perf_metric) use file_id])
                 (count_user user (l_counter st)) (l_idx st + 1)
    | Err _ => st
    end
  else st.

Definition read_log (file_id : Z) (perf_metric : text) (include_use : bool) (lines : list text)
    : log_state :=
  foldl (λ st line, log_line file_id perf_metric include_use line st) (LogState [] [] 0) lines.

(** [data if len(data) <= n else data[:n]], and the rows skipped at the start
    when there are more of them than that. *)
Definition window {A} (n_collect n_skip : nat) (data : list A) : list A :=
  let data := if length data <=? n_collect then data else take n_collect data in
  if length data <=? n_skip then data else drop n_skip data.

Section logtools.
Context {F : Type} `{PyFloat F}.
Local Open Scope py_scope.
Context (np_mean : list (option Z) → res F).

(** The users the log warns about (lines 69-76). *)
Definition imbalanced (threshold : F) (counter : dict Z Z) : res (list Z) :=
  match counter with
  | [] => Ok []
  | _ =>
      avg ← int_div (foldl Z.add 0%Z (dvalues counter)) (Z.of_nat (length counter));
      Ok (dkeys (filter (λ p : Z * Z,
        (of_Z p.2 <? threshold * avg) || ((of_Z 1 + threshold) * avg <? of_Z p.2) = true) counter))
  end.

Definition uses (get : option Z * option Z → option Z) (data : list row) : list (option Z) :=
  (λ d, match r_use d with Some u => get u | None => None end) <$> data.

(** The averages that are printed with [include_use] (lines 81-102): per user
    and over all rows. *)
Definition print_user (data : list row) (u : option Z) (_ : unit) : res unit :=
  let mine := filter (λ d, r_user d = u) data in
  _ ← np_mean (uses fst mine); _ ← np_mean (uses snd mine); Ok ().

Definition print_use (data : list row) : res unit :=
  _ ← for_all (print_user data) (remove_dups (r_user <$> data)) ();
  _ ← np_mean (uses fst data);
  _ ← np_mean (uses snd data);
  Ok ().

(** [parse_log_file] *)
Definition parse_log_file (file : res text) (file_id : Z) (n_collect_lines n_skip_lines : nat)
    (user_inbalance_threshold : F) (include_use : bool) (perf_metric : text) : res (list row) :=
  content ← file;
  let st := read_log file_id perf_metric include_use (readlines content) in
  _ ← imbalanced user_inbalance_threshold (l_counter st);
  let data := window n_collect_lines n_skip_lines (l_data st) in
  _ ← (if include_use then print_use data else Ok ());
  Ok data.
End logtools.

(** ** Reading until a number of requests is reached *)

(** A row of [parse_log_file_target_reqs]. *)
Record metric_row (V : Type) := MetricRow {
  m_idx : Z;
  m_user : V;
  m_values : list V;
  m_file : Z;
}.
Arguments MetricRow {V}.
Arguments m_idx {V}.
Arguments m_user {V}.
Arguments m_values {V}.
Arguments m_file {V}.

Record reqs_state (V N : Type) := ReqsState {
  q_data : list (metric_row V);
  q_total : N;
  q_idx : Z;
}.
Arguments ReqsState {V N}.
Arguments q_data {V N}.
Arguments q_total {V N}.
Arguments q_idx {V N}.

(** One line: an exception, which can only come before the row is appended,
    is printed and the line skipped; [break] once the target is reached. *)
Definition reqs_line (file_id target_reqs : Z) (metrics : list text) (line : text)
    (st : reqs_state (option Z) Z) : res (flow (reqs_state (option Z) Z)) :=
  if contains measurement_tag line then
    match measurement_dict (str "user_id" :: metrics) line with
    | Ok d =>
        let total := (q_total st + default 0 (dget d (str "perf")))%Z in
        let st := ReqsState (q_data st ++ [MetricRow (q_idx st) (dget d (str "user_id"))
                               ((λ met, dget d met) <$> metrics) file_id]) total (q_idx st + 1)%Z in
        Ok (if (0 <? target_reqs)%Z && (target_reqs <=? total)%Z then Stop st else Next st)
    | Err _ => Ok (Next st)
    end
  else Ok (Next st).

(** [parse_log_file_target_reqs] *)
Definition parse_log_file_target_reqs (file : res text) (file_id target_reqs : Z)
    (metrics : list text) : res (list (metric_row (option Z))) :=
  content ← file;
  st ← for_each (reqs_line file_id target_reqs metrics) (readlines content) (ReqsState [] 0%Z 0%Z);
  Ok (q_data st).

(** ** The controller's main log *)

Section mainlog.
Context {F : Type} `{PyFloat F}.
Context (literal_eval : text → res (json F)).
Abbreviation main_state := (reqs_state (json F) (json F)).

(** [a + b] of numbers *)
Definition jadd (a b : json F) : res (json F) :=
  match a, b with
  | JInt x, JInt y => Ok (JInt (x + y))
  | _, _ => x ← jnumber a; y ← jnumber b; Ok (JFloat (fadd x y))
  end.

(** [d.get(k, v)] and [d.items()] *)
Definition jget_or (v : json F) (k : text) (dflt : json F) : res (json F) :=
  match v with JObj d => Ok (default dflt (dget d k)) | _ => Err TypeError end.
Definition jitems (v : json F) : res (dict text (json F)) :=
  match v with JObj d => Ok d | _ => Err TypeError end.

(** [target_reqs > 0 and total_reqs >= target_reqs] *)
Definition reached (target_reqs : Z) (st : main_state) : bool :=
  (0 <? target_reqs)%Z &&
  match jnumber (q_total st) with Ok x => fleb (of_Z target_reqs) x | Err _ => false end.

(** How a loop is left: normally, by [break], or by an exception, which keeps
    what the loop has already done. *)
Inductive exit := Done | Broken | Raised.

Definition app_row (file_id : Z) (metrics : list text) (metrics_data : json F) (st : main_state)
    : main_state * bool :=
  match (user ← jget metrics_data (str "app_id");
         vs ← mapM (λ met, jget_or metrics_data met JNull) metrics;
         Ok (user, vs)) with
  | Err _ => (st, false)
  | Ok (user, vs) =>
      let st := ReqsState (q_data st ++ [MetricRow (q_idx st) user vs file_id]) (q_total st) (q_idx st) in
      match (x ← jget_or metrics_data (str "access_rate_ops_sec") (JInt 0); jadd (q_total st) x) with
      | Ok total => (ReqsState (q_data st) total (q_idx st), true)
      | Err _ => (st, false)
      end
  end.

Fixpoint main_apps (file_id target_reqs : Z) (metrics : list text) (apps : dict text (json F))
    (st : main_state) : main_state * exit :=
  match apps with
  | [] => (st, Done)
  | (_, md) :: apps' =>
      match app_row file_id metrics md st with
      | (st, false) => (st, Raised)
      | (st, true) =>
          if reached target_reqs st then (st, Broken)
          else main_apps file_id target_reqs metrics apps' st
      end
  end.

Fixpoint main_vms (file_id target_reqs : Z) (metrics : list text) (vms : dict text (json F))
    (st : main_state) : main_state * exit :=
  match vms with
  | [] => (st, Done)
  | (_, app_data) :: vms' =>
      match jitems app_data with
      | Err _ => (st, Raised)
      | Ok apps =>
          match main_apps file_id target_reqs metrics apps st with
          | (st, Raised) => (st, Raised)
          | (st, _) =>
              let st := ReqsState (q_data st) (q_total st) (q_idx st + 1)%Z in
              if reached target_reqs st then (st, Broken)
              else main_vms file_id target_reqs metrics vms' st
          end
      end
  end.

(** One line; exceptions are ignored. *)
Definition main_line (file_id target_reqs : Z) (metrics : list text) (line : text) (st : main_state)
    : res (flow main_state) :=
  match (log_data ← literal_eval (strip line);
         m ← jget_or log_data (str "map") (JObj []);
         jitems m) with
  | Err _ => Ok (Next st)
  | Ok vms =>
      match main_vms file_id target_reqs metrics vms st with
      | (st, Raised) => Ok (Next st)
      | (st, _) => Ok (if reached target_reqs st then Stop st else Next st)
      end
  end.

(** [parse_log_file_mainlog] *)
Definition parse_log_file_mainlog (file : res text) (file_id target_reqs : Z) (metrics : list text)
    : res (list (metric_row (json F))) :=
  content ← file;
  st ← for_each (main_line file_id target_reqs metrics) (readlines content)
         (ReqsState [] (JInt 0) 0%Z);
  Ok (q_data st).
End mainlog.

(** ** Container logs *)

Section cont_logs.
Context {F : Type} `{PyFloat F} (np_mean : list F → F).

(** The parser chosen by the path. *)
Inductive parser := Memcached (latency : bool) | SocialNetwork (latency : bool) | Stream | Dlrm.

Definition select_parser (file_path : text) (latency : bool) : option parser :=
  if contains (str "spirit_mc_client") file_path then Some (Memcached latency)
  else if contains (str "spirit_socialnet_client") file_path || contains (str "spirit_social_net") file_path
  then
    if contains (str "_client") file_path then Some (SocialNetwork false)
    else if contains (str "_metrics") file_path then Some (SocialNetwork true)
    else None
  else if contains (str "spirit_stream") file_path then Some Stream
  else if contains (str "spirit_dlrm_inf") file_path then Some Dlrm
  else None.

(** [parser.parse_log_file(file_path)]; the percentile is the default 0.99. *)
Definition run_parser (p : parser) (file : res text) : json F * json F * json F :=
  let lines := (content ← file; Ok (readlines content)) in
  match p with
  | Memcached latency => memcached_parse latency lines
  | SocialNetwork latency => social_parse latency (lit 99 100) file lines
  | Stream => stream_parse lines
  | Dlrm => dlrm_parse np_mean lines
  end.

(** A row of the container data: [[idx, app_id, median, file_id]]. *)
Record cont_row := ContRow { c_idx : Z; c_app : Z; c_perf : json F; c_file : Z }.

(** [parse_cont_logs] *)
Definition parse_cont_logs (file_path : text) (file : res text) (file_id app_id : Z) (latency : bool)
    : res (list cont_row) :=
  match select_parser file_path latency with
  | None => Ok []
  | Some p =>
      let '(median, _, _) := run_parser p file in
      x ← jnumber median;
      Ok (if fltb (of_Z 0) x then [ContRow 0 app_id median file_id] else [])
  end.
End cont_logs.
