(* ===== verification/LogDirs.v ===== *)
(** * Log directories: what main_move_logs.py writes and logtools.py looks up

    [move_logs] names a directory after the time, the cache and the bandwidth
    of a run, and [get_latest_subdirectory] finds the latest run with a given
    budget by those names. *)

From S2P Require Import Prelude PyDict PyFloat PyStr Regex Json Config LogParsers LogParsersFacts LogTools.
From Stdlib Require Import Ascii.

(** ** Splitting at a single character *)

Section split_char.
Context (c : ascii).

Lemma split_go_char cur (a b : text) :
  split_go [c] 0 cur (a ++ c :: b) = split_go [c] 0 cur a ++ split [c] b.
Proof.
  revert cur. induction a as [|d a IH]; intros cur.
  - cbn [app split_go]. unfold starts_with. cbn [cut]. by rewrite decide_True.
  - cbn [app split_go]. unfold starts_with. cbn [cut].
    destruct (decide (c = d)); cbn [length pred]; by rewrite IH.
Qed.

Lemma split_char_app (a b : text) : split [c] (a ++ c :: b) = split [c] a ++ split [c] b.
Proof. apply split_go_char. Qed.

Lemma split_char_none (a : text) : c ∉ a → split [c] a = [a].
Proof. by apply (split_none [c] 0 c). Qed.

(** The last field of a text that goes on without separators. *)
Lemma split_go_last cur (a b : text) :
  c ∉ b → ∃ l y, split_go [c] 0 cur (a ++ b) = l ++ [y ++ b].
Proof.
  intros Hb. revert cur. induction a as [|d a IH]; intros cur; cbn [app].
  - exists [], (reverse cur). by rewrite (split_go_none [c] 0 c).
  - cbn [split_go]. unfold starts_with. cbn [cut]. destruct (decide (c = d)); cbn [length pred].
    + destruct (IH []) as (l & y & ->). by exists (reverse cur :: l), y.
    + apply IH.
Qed.

Lemma split_last (a b : text) : c ∉ b → ∃ l y, split [c] (a ++ b) = l ++ [y ++ b].
Proof. apply split_go_last. Qed.
End split_char.

Lemma index_back_app {A} (l1 l2 : list A) i x :
  l2 !! 0 = Some x → i = length l2 → index_back (l1 ++ l2) i = Ok x.
Proof.
  intros Hx ->. unfold index_back, index. pose proof (lookup_lt_Some _ _ _ Hx).
  rewrite bool_decide_true by (rewrite length_app; lia). rewrite length_app.
  replace (_ - _) with (length l1 + 0) by lia. by rewrite lookup_app_r, Nat.add_0_r, Nat.sub_diag, Hx by lia.
Qed.

(** ** The name of a run *)

Record run := Run { run_date : date; run_cache : Z; run_bw : Z }.

Definition pad2 (z : Z) : text := if (z <? 10)%Z then "0"%char :: show z else show z.

(** [time.strftime("%Y%m%d-%H%M%S")] *)
Definition strftime (d : date) : text :=
  show (d_year d) ++ pad2 (d_month d) ++ pad2 (d_day d) ++ str "-" ++
  pad2 (d_hour d) ++ pad2 (d_minute d) ++ pad2 (d_second d).

(** The last component of [new_dir] in [move_logs]. *)
Definition run_name (r : run) : text :=
  strftime (run_date r) ++ str "_" ++ show (run_cache r) ++ str "mb_" ++ show (run_bw r) ++ str "mbps".

(** [os.path.join(directory, d)] *)
Definition run_dir (directory : text) (r : run) : text := directory ++ str "/" ++ run_name r.

(** A date of four-digit years as [time.strftime] prints it. *)
Definition date_ok (d : date) : Prop :=
  (1000 <= d_year d <= 9999 ∧ 1 <= d_month d <= 12 ∧ 1 <= d_day d <= 31 ∧
   0 <= d_hour d <= 23 ∧ 0 <= d_minute d <= 59 ∧ 0 <= d_second d <= 59)%Z ∧ valid_date d = true.

Definition run_ok (r : run) : Prop := date_ok (run_date r) ∧ (0 <= run_cache r)%Z ∧ (0 <= run_bw r)%Z.

(** ** Reading a date back *)

(** The first match of a sequence. *)
Lemma matches_cat_head r1 r2 s s1 g1 hs1 s2 g2 hs2 :
  matches r1 s = (s1, g1) :: hs1 → matches r2 s1 = (s2, g2) :: hs2 →
  ∃ hs, matches (Cat r1 r2) s = (s2, g1 ++ g2) :: hs.
Proof. intros E1 E2. cbn [matches]. rewrite E1, bind_cons. cbn [fst]. rewrite E2. cbn. eauto. Qed.

Lemma matches_group_head r s a hs :
  matches r (a ++ s) = (s, []) :: hs → ∃ hs', matches (Group r) (a ++ s) = (s, [a]) :: hs'.
Proof. intros E. cbn [matches]. rewrite E. cbn. rewrite consumed_app. eauto. Qed.

(** The values of a directive, one by one. *)
Definition values (lo n : nat) : list Z := Z.of_nat <$> seq lo n.

Lemma elem_of_values lo n z : (Z.of_nat lo <= z < Z.of_nat (lo + n))%Z → z ∈ values lo n.
Proof.
  intros Hz. apply list_elem_of_fmap. exists (Z.to_nat z). split; [lia|]. apply elem_of_seq. lia.
Qed.

(** A directive reads every value of its range from two digits. *)
Definition reads (r : re) (z : Z) : Prop := ∀ s, ∃ hs, matches r (pad2 z ++ s) = (s, []) :: hs.

Ltac each_value := repeat (apply Forall_cons; split); [..|apply Forall_nil; exact I]; intros s; eexists; reflexivity.

Lemma reads_month : Forall (reads dir_m) (values 1 12).
Proof. unfold values. cbn [fmap list_fmap seq]. each_value. Qed.
Lemma reads_day : Forall (reads dir_d) (values 1 31).
Proof. unfold values. cbn [fmap list_fmap seq]. each_value. Qed.
Lemma reads_hour : Forall (reads dir_H) (values 0 24).
Proof. unfold values. cbn [fmap list_fmap seq]. each_value. Qed.
Lemma reads_minute : Forall (reads dir_M) (values 0 60).
Proof. unfold values. cbn [fmap list_fmap seq]. each_value. Qed.
Lemma reads_second : Forall (reads dir_S) (values 0 60).
Proof. unfold values. cbn [fmap list_fmap seq]. each_value. Qed.

Lemma pad2_int z : (0 <= z)%Z → py_int (pad2 z) = Ok z.
Proof.
  intros Hz. destruct (show_nonneg z Hz) as (Hd & Hne & Hv). unfold pad2. case_match.
  - rewrite py_int_digits by (try done; by constructor). f_equal. exact Hv.
  - by rewrite py_int_digits, Hv.
Qed.

(** A directive followed by the rest of a pattern. *)
Lemma reads_then r z rest s t g hs :
  reads r z → matches rest s = (t, g) :: hs →
  ∃ hs', matches (Cat (Group r) rest) (pad2 z ++ s) = (t, pad2 z :: g) :: hs'.
Proof.
  intros Hr E. destruct (Hr s) as [h1 E1]. apply matches_group_head in E1 as [h1' E1].
  exact (matches_cat_head _ _ _ _ _ _ _ _ _ E1 E).
Qed.

Lemma reads_value r lo n z :
  Forall (reads r) (values lo n) → (Z.of_nat lo <= z < Z.of_nat (lo + n))%Z → reads r z.
Proof. intros Hr Hz. eapply Forall_forall in Hr; [exact Hr|]. by apply elem_of_values. Qed.

Lemma year_then y rest s t g hs :
  (1000 <= y <= 9999)%Z → matches rest s = (t, g) :: hs →
  ∃ hs', matches (Cat (Group dir_Y) rest) (show y ++ s) = (t, show y :: g) :: hs'.
Proof.
  intros Hy E. destruct (show_year y Hy) as (a & b & c & d & Es).
  destruct (show_nonneg y ltac:(lia)) as (Hd & _). rewrite Es in *.
  apply Forall_cons in Hd as [Ha Hd]. apply Forall_cons in Hd as [Hb Hd].
  apply Forall_cons in Hd as [Hc Hd]. apply Forall_cons in Hd as [Hdd _].
  refine (matches_cat_head _ _ _ s [[a; b; c; d]] [] _ _ _ _ E).
  assert (E4 : matches dir_Y ([a; b; c; d] ++ s) = [(s, [])]).
  { unfold dir_Y, digit. cbn [app]. rewrite !matches_chr by done. cbn [matches].
    by rewrite Hdd. }
  cbn [matches]. rewrite E4. cbn [fmap list_fmap fst snd]. by rewrite consumed_app.
Qed.

Section date.
Context (d : date) (Hd : date_ok d).

Lemma date_matches :
  ∃ hs, matches date_pattern (strftime d) =
    ([], [show (d_year d); pad2 (d_month d); pad2 (d_day d); pad2 (d_hour d);
          pad2 (d_minute d); pad2 (d_second d)]) :: hs.
Proof using Hd.
  destruct Hd as [(Hy & Hm & Hdd & HH & HM & HS) _]. unfold date_pattern, strftime.
  assert (E6 : ∃ hs, matches (Group dir_S) (pad2 (d_second d)) = ([], [pad2 (d_second d)]) :: hs).
  { destruct (reads_value _ _ _ (d_second d) reads_second ltac:(simpl; lia) []) as [h E].
    apply matches_group_head in E. by rewrite app_nil_r in E. }
  destruct E6 as [h6 E6].
  destruct (reads_then dir_M (d_minute d) _ _ _ _ _ (reads_value _ _ _ (d_minute d) reads_minute ltac:(simpl; lia)) E6) as [h5 E5].
  destruct (reads_then dir_H (d_hour d) _ _ _ _ _ (reads_value _ _ _ (d_hour d) reads_hour ltac:(simpl; lia)) E5) as [h4 E4].
  rewrite <- (matches_lit (str "-")) in E4.
  destruct (reads_then dir_d (d_day d) _ _ _ _ _ (reads_value _ _ _ (d_day d) reads_day ltac:(simpl; lia)) E4) as [h3 E3].
  destruct (reads_then dir_m (d_month d) _ _ _ _ _ (reads_value _ _ _ (d_month d) reads_month ltac:(simpl; lia)) E3) as [h2 E2].
  exact (year_then _ _ _ _ _ _ Hy E2).
Qed.

(** [strptime(strftime(d)) = d] *)
Lemma strptime_strftime : strptime (strftime d) = Ok d.
Proof using Hd.
  destruct date_matches as [hs E]. unfold strptime, re_match. rewrite E. cbn [head].
  destruct Hd as [(Hy & Hm & Hdd & HH & HM & HS) Hv]. rewrite py_int_show, !pad2_int by lia.
  cbn [mbind res_bind].
  replace (Date (d_year d) (d_month d) (d_day d) (d_hour d) (d_minute d) (d_second d)) with d by (by destruct d).
  by rewrite Hv.
Qed.

Lemma strftime_chars c : c ∈ strftime d → is_digit c = true ∨ c = "-"%char.
Proof.
  unfold strftime, pad2. intros Hc.
  repeat (apply elem_of_app in Hc as [Hc|Hc]); repeat case_match; try (by eapply show_chars);
    try (apply elem_of_cons in Hc as [->|Hc]; [by left|by eapply show_chars]).
  all: apply list_elem_of_singleton in Hc; by right.
Qed.
End date.

(** ** Reading the name of a run *)

(** A search skips a prefix at no position of which the pattern matches. *)
Lemma re_search_prefix r p s :
  (∀ a1 a2, p = a1 ++ a2 → a2 ≠ [] → matches r (a2 ++ s) = []) → re_search r (p ++ s) = re_search r s.
Proof.
  induction p as [|c p IH]; intros Hp; [done|]. rewrite <- app_comm_cons, re_search_skip.
  - apply IH. intros a1 a2 -> Hne. by apply (Hp (c :: a1)).
  - by apply (Hp [] (c :: p)).
Qed.

(** Joining two texts makes no new occurrence of [l] when the second starts
    with a character not in [l] and does not contain the first one of [l]. *)
Lemma contains_app_false l0 l p c q :
  c ∉ l0 :: l → l0 ∉ c :: q → contains (l0 :: l) p = false → contains (l0 :: l) (p ++ c :: q) = false.
Proof.
  intros Hc Hl Hp. apply not_true_iff_false. rewrite contains_true. intros (a & r & E).
  apply not_true_iff_false in Hp. apply Hp, contains_true.
  destruct (decide (length a < length p)) as [Hlt|Hge].
  - (* the occurrence starts in [p] and cannot reach beyond it *)
    exists a. destruct (decide (length (a ++ l0 :: l) ≤ length p)) as [Hle|Hgt].
    + exists (drop (length (a ++ l0 :: l)) p).
      rewrite app_assoc. rewrite app_assoc in E.
      rewrite <- (take_drop (length (a ++ l0 :: l)) p) at 1. f_equal.
      apply (f_equal (take (length (a ++ l0 :: l)))) in E.
      by rewrite take_app_le, take_app_length in E by done.
    + exfalso. assert (Hx : (p ++ c :: q) !! length p = Some c) by (by rewrite list_lookup_middle).
      rewrite E, app_assoc, lookup_app_l in Hx by lia. apply Hc.
      rewrite lookup_app_r in Hx by lia. by eapply list_elem_of_lookup_2.
  - exfalso. assert (Hx : (p ++ c :: q) !! length a = Some l0).
    { rewrite E. by rewrite lookup_app_r, Nat.sub_diag by lia. }
    rewrite lookup_app_r in Hx by lia. apply Hl. by eapply list_elem_of_lookup_2.
Qed.

Section name.
Context (directory : text) (r : run) (Hr : run_ok r).

(** The part of the path before the budget. *)
Definition run_prefix : text := directory ++ str "/" ++ strftime (run_date r) ++ str "_".

Lemma run_dir_prefix :
  run_dir directory r = run_prefix ++ show (run_cache r) ++ str "mb_" ++ show (run_bw r) ++ str "mbps".
Proof. unfold run_dir, run_prefix, run_name. by rewrite <- !app_assoc. Qed.

Lemma strftime_cons d : date_ok d → ∃ c q, strftime d = c :: q.
Proof.
  intros [(Hy & _) _]. destruct (show_year _ Hy) as (a & b & c & e & Es). unfold strftime. rewrite Es.
  cbn [app]. eauto.
Qed.

(** The directory decides where ["mb_"] first occurs. *)
Lemma run_prefix_clean : contains (str "mb_") directory = false → contains (str "mb_") run_prefix = false.
Proof using Hr.
  intros Hd. unfold run_prefix. cbn [str app]. apply contains_app_false; [lit_false| |done].
  destruct Hr as [Hdate _]. rewrite !not_elem_of_cons, not_elem_of_app. split; [done|].
  split; [|lit_false]. intros [Hdig|Hm]%(strftime_chars _ "m"%char); done.
Qed.

(** A match inside the prefix would have to contain ["mb_"]. *)
Lemma no_match_in_prefix a1 a2 rest :
  contains (str "mb_") directory = false → run_prefix = a1 ++ a2 → a2 ≠ [] →
  matches properties_pattern (a2 ++ rest) = [].
Proof using Hr.
  intros Hd%run_prefix_clean E Hne.
  destruct (matches properties_pattern (a2 ++ rest)) as [|h hs] eqn:Em; [done|exfalso].
  assert (Hh : reach properties_pattern (a2 ++ rest) h) by (apply matches_reach; rewrite Em; left).
  apply reach_cat_inv in Hh as (h1 & h2 & Hg & Hl & _).
  apply reach_group_inv in Hg as (ds & E1 & _ & _ & Hds).
  apply reach_lit in Hl as (t & E2 & _). rewrite E2 in E1.
  destruct (exists_last Hne) as (a3 & u & ->).
  assert (Hu : u = "_"%char).
  { unfold run_prefix in E. rewrite !app_assoc in E. by apply app_inj_tail in E as [_ <-]. }
  subst u. rewrite E in Hd. apply not_true_iff_false in Hd. apply Hd. clear Hd E Em Hne.
  (* the digits end before the underscore, and so does the literal *)
  assert (Hlt : length ds < length (a3 ++ ["_"%char])).
  { destruct (decide (length ds < length (a3 ++ ["_"%char]))) as [|Hge]; [done|exfalso].
    assert (Hx : ((a3 ++ ["_"%char]) ++ rest) !! length a3 = Some "_"%char).
    { by rewrite <- app_assoc, lookup_app_r, Nat.sub_diag by lia. }
    rewrite length_app in Hge. simpl in Hge. rewrite E1, lookup_app_l in Hx by lia.
    apply list_elem_of_lookup_2 in Hx. eapply Forall_forall in Hds; [|exact Hx]. done. }
  apply contains_app_r, contains_true. exists ds.
  destruct (app_eq_inv _ _ _ _ E1) as [(k & Ek & E3)|(k & Ek & E3)].
  - destruct k as [|x [|y [|z k]]]; cbn [str app] in E3; simplify_eq.
    + rewrite app_nil_r in Ek. rewrite Ek in Hlt. lia.
    + by apply app_inj_tail in Ek as [_ ?].
    + change (ds ++ ["m"; "b"])%char with (ds ++ ["m"] ++ ["b"])%char in Ek.
      rewrite app_assoc in Ek. by apply app_inj_tail in Ek as [_ ?].
    + exists k. by rewrite Ek.
  - apply (f_equal length) in Ek. rewrite (length_app _ k) in Ek. lia.
Qed.

(** The budget is read back from the directory's name. *)
Lemma extract_run : contains (str "mb_") directory = false →
  extract_properties (run_dir directory r) = Ok (Some (run_cache r, run_bw r)).
Proof using Hr.
  intros Hd. unfold extract_properties. rewrite run_dir_prefix, re_search_prefix.
  2: { intros. by eapply no_match_in_prefix. }
  destruct Hr as (_ & Hc & Hb). unfold properties_pattern, digits.
  assert (Hs : ∃ t hs, matches (Cat (Group (Greedy 1 is_digit)) (lit_re (str "mb_")
      (Cat (Group (Greedy 1 is_digit)) (lit_re (str "mbps") Eps))))
    (show (run_cache r) ++ str "mb_" ++ show (run_bw r) ++ str "mbps") =
    (t, [show (run_cache r); show (run_bw r)]) :: hs).
  { rewrite matches_group; [|by apply rejects_lit|apply show_length|by apply show_digits|done].
    rewrite matches_lit.
    rewrite matches_group; [|by apply rejects_lit|apply show_length|by apply show_digits|done].
    do 2 eexists. reflexivity. }
  destruct Hs as (t & hs & Hs). rewrite (re_search_here _ _ _ _ _ Hs).
  by rewrite !py_int_show.
Qed.

(** The date is read back too. *)
Lemma run_date_field : date_field (run_dir directory r) = Ok (strftime (run_date r)).
Proof using Hr.
  unfold date_field.
  assert (Hts : ∀ c, is_digit c = false → c ≠ "-"%char → c ∉ strftime (run_date r)).
  { intros c Hc Hm [Hd|Hd]%strftime_chars; congruence. }
  assert (E : run_dir directory r = (directory ++ str "/" ++ strftime (run_date r)) ++ "_"%char ::
    (show (run_cache r) ++ str "mb") ++ "_"%char :: (show (run_bw r) ++ str "mbps")).
  { unfold run_dir, run_name. by rewrite <- !app_assoc. }
  rewrite E. change (str "_") with ["_"%char]. rewrite !split_char_app.
  rewrite (split_char_none _ (show (run_cache r) ++ str "mb")) by no_chr.
  rewrite (split_char_none _ (show (run_bw r) ++ str "mbps")) by no_chr.
  destruct (split_last "_"%char directory (str "/" ++ strftime (run_date r))) as (l & y & ->).
  { apply not_elem_of_app. split; [lit_false|]. by apply Hts. }
  rewrite <- app_assoc. erewrite index_back_app; [|reflexivity|reflexivity]. cbn [mbind res_bind].
  change (str "/" ++ strftime (run_date r)) with ("/"%char :: strftime (run_date r)).
  change (str "/") with ["/"%char]. rewrite split_char_app.
  rewrite (split_char_none "/"%char (strftime (run_date r))) by (by apply Hts).
  by erewrite index_back_app.
Qed.
End name.

(** ** The latest run *)

Lemma lex_ltb_irrefl a : lex_ltb a a = false.
Proof. induction a as [|x a IH]; [done|]. simpl. rewrite IH. lia. Qed.

Lemma lex_ltb_trans a b c : lex_ltb a b = true → lex_ltb b c = true → lex_ltb a c = true.
Proof.
  revert b c. induction a as [|x a IH]; intros [|y b] [|z c]; simpl; try done.
  rewrite !orb_true_iff, !andb_true_iff, !Z.ltb_lt, !Z.eqb_eq.
  intros [H1|[-> H1]] [H2|[-> H2]]; [left; lia|left; lia|left; lia|right]. split; [done|by eapply IH].
Qed.

Lemma lex_ltb_ntrans a b c :
  length a = length b → length b = length c →
  lex_ltb a b = false → lex_ltb b c = false → lex_ltb a c = false.
Proof.
  revert b c. induction a as [|x a IH]; intros [|y b] [|z c]; simpl; try done.
  intros [= Hab] [= Hbc]. rewrite !orb_false_iff, !andb_false_iff, !Z.ltb_ge, !Z.eqb_neq.
  intros [H1 H2] [H3 H4]. split; [lia|].
  destruct (decide (x = y)) as [->|]; [|left; lia]. destruct (decide (y = z)) as [->|]; [|left; lia].
  right. apply (IH b); [done|done|by destruct H2|by destruct H4].
Qed.

Lemma later_not_before p x : date_ltb (later p x).2 p.2 = false ∧ date_ltb (later p x).2 x.2 = false.
Proof.
  unfold later. destruct (date_ltb p.2 x.2) eqn:E; split; try apply lex_ltb_irrefl; [|done].
  apply not_true_iff_false. intros Hb. unfold date_ltb in *.
  pose proof (lex_ltb_trans _ _ _ E Hb) as Hc. by rewrite lex_ltb_irrefl in Hc.
Qed.

Lemma later_best l p :
  foldl later p l ∈ p :: l ∧
  ∀ q, q ∈ p :: l → date_ltb (foldl later p l).2 q.2 = false.
Proof.
  revert p. induction l as [|x l IH]; intros p; cbn [foldl].
  - split; [left|]. intros q ->%list_elem_of_singleton. apply lex_ltb_irrefl.
  - destruct (IH (later p x)) as [Hin Hmax], (later_not_before p x) as [Hp Hx]. split.
    + apply elem_of_cons in Hin as [->|Hin]; [unfold later; case_match; set_solver|set_solver].
    + assert (Hb : ∀ q, date_ltb (later p x).2 q = false → date_ltb (foldl later (later p x) l).2 q = false).
      { intros q. apply lex_ltb_ntrans; [done|done|]. apply Hmax. left. }
      intros q [->|[->|Hq]%elem_of_cons]%elem_of_cons; [by apply Hb|by apply Hb|].
      apply Hmax. by right.
Qed.

Section latest.
Context (directory : text) (Hdir : contains (str "mb_") directory = false).

Lemma with_budget_runs target rs acc :
  Forall run_ok rs →
  for_all (λ subdir acc,
    props ← extract_properties subdir;
    Ok (match props with
        | Some (cache, bw) =>
            if (cache =? target.1)%Z && (bw =? target.2)%Z then acc ++ [subdir] else acc
        | None => acc
        end)) (run_dir directory <$> rs) acc =
  Ok (acc ++ (run_dir directory <$> filter (λ r, run_cache r = target.1 ∧ run_bw r = target.2) rs)).
Proof using Hdir.
  intros Hrs. revert acc. induction Hrs as [|r rs Hr Hrs IH]; intros acc; cbn [fmap list_fmap for_all].
  { by rewrite app_nil_r. }
  rewrite extract_run by done. cbn [mbind res_bind]. rewrite IH, filter_cons.
  case_decide as Ht.
  - rewrite (proj2 (Z.eqb_eq _ _) (proj1 Ht)), (proj2 (Z.eqb_eq _ _) (proj2 Ht)). cbn [andb].
    by rewrite <- app_assoc.
  - replace ((run_cache r =? target.1)%Z && (run_bw r =? target.2)%Z) with false by lia. done.
Qed.

Lemma date_subdirs_runs rs acc :
  Forall run_ok rs →
  for_all (λ subdir acc,
    field ← date_field subdir;
    match strptime field with
    | Ok d => Ok (acc ++ [(subdir, d)])
    | Err ValueError => Ok acc
    | Err e => Err e
    end) (run_dir directory <$> rs) acc = Ok (acc ++ ((λ r, (run_dir directory r, run_date r)) <$> rs)).
Proof.
  intros Hrs. revert acc. induction Hrs as [|r rs Hr Hrs IH]; intros acc; cbn [fmap list_fmap for_all].
  { by rewrite app_nil_r. }
  rewrite run_date_field by done. cbn [mbind res_bind].
  rewrite strptime_strftime by apply Hr. cbn [mbind res_bind]. rewrite IH. by rewrite <- app_assoc.
Qed.

(** The runs with the budget asked for, and the latest of them. *)
Lemma latest_runs target rs :
  Forall run_ok rs →
  get_latest_subdirectory (run_dir directory <$> rs) (Some target) =
  latest ((λ r, (run_dir directory r, run_date r)) <$>
    filter (λ r, run_cache r = target.1 ∧ run_bw r = target.2) rs).
Proof using Hdir.
  intros Hrs. unfold get_latest_subdirectory, with_budget, date_subdirs.
  rewrite with_budget_runs by done. cbn [mbind res_bind app].
  rewrite date_subdirs_runs; [done|]. apply Forall_forall. intros r [_ Hr]%list_elem_of_filter.
  by eapply Forall_forall in Hrs.
Qed.
End latest.

(** The logs of a run are stored where the analysis looks for them: among the
    directories [move_logs] made below one base directory,
    [get_latest_subdirectory] finds a run with the cache and bandwidth asked
    for, and none with that budget is later. *)
Theorem latest_run_found {F} `{PyFloat F} (repr : json F → text) (allocator base : text)
    (stored : list (config F * run)) (paths : list text) (cache bw : Z) :
  contains (str "mb_") base = false →
  Forall2 (λ x p, run_ok x.2 ∧ log_base repr x.1 allocator = Ok base ∧
    log_dir repr x.1 allocator (strftime (run_date x.2)) = Ok p ∧
    ∃ cl, conf_cluster x.1 = Some cl ∧ cache_in_mb cl = JInt (run_cache x.2) ∧
          mem_bw_in_mbps cl = JInt (run_bw x.2)) stored paths →
  Exists (λ x, run_cache x.2 = cache ∧ run_bw x.2 = bw) stored →
  ∃ r, r ∈ stored.*2 ∧ run_cache r = cache ∧ run_bw r = bw ∧
    get_latest_subdirectory paths (Some (cache, bw)) = Ok (run_dir base r) ∧
    ∀ r', r' ∈ stored.*2 → run_cache r' = cache → run_bw r' = bw →
      date_ltb (run_date r) (run_date r') = false.
Proof.
  intros Hb Hst Hex.
  assert (Hp : paths = run_dir base <$> stored.*2 ∧ Forall run_ok stored.*2).
  { clear Hex. induction Hst as [|[c r] p st ps (Hr & Hbase & Hlog & cl & Hcl & Hc & Hw) _ [-> IH]]; [done|].
    split; [|by constructor]. cbn [fmap list_fmap snd fst] in *. f_equal.
    unfold log_dir, cluster_of in Hlog. rewrite Hbase, Hcl in Hlog.
    cbn [mbind res_bind or_raise fst snd] in Hlog. rewrite Hc, Hw in Hlog. by injection Hlog as <-. }
  destruct Hp as [-> Hok]. rewrite (latest_runs base Hb (cache, bw)) by done. cbn [fst snd].
  assert (Hin : ∀ r, r ∈ filter (λ r, run_cache r = cache ∧ run_bw r = bw) stored.*2 ↔
    (run_cache r = cache ∧ run_bw r = bw) ∧ r ∈ stored.*2) by (intros r; by rewrite list_elem_of_filter).
  destruct (filter _ _) as [|r0 good0].
  { exfalso. apply Exists_exists in Hex as (x & Hx & Hc). apply (elem_of_nil (x.2)). apply Hin.
    split; [done|]. apply list_elem_of_fmap. by exists x. }
  cbn [fmap list_fmap latest].
  set (f := λ r, (run_dir base r, run_date r)). change (run_dir base r0, run_date r0) with (f r0).
  destruct (later_best (f <$> good0) (f r0)) as [Hel Hmax].
  change (f r0 :: (f <$> good0)) with (f <$> r0 :: good0) in *.
  apply list_elem_of_fmap in Hel as (r & Er & Hr). exists r. rewrite Er in *.
  apply Hin in Hr as [[Hc Hw] Hr]. do 3 (split; [done|]). split; [done|].
  intros r' Hr' Hc' Hw'. apply (Hmax (f r')). apply list_elem_of_fmap. exists r'. split; [done|].
  by apply Hin.
Qed.
