(* ===== verification/LogToolsFacts.v ===== *)
(** * The log analysis reads what the controller writes

    The monitor logs every measurement it accepts (resource_monitor.py, line
    318) through the formatter of utils/logger.py, and [parse_log_file] reads
    the log back. *)

From S2P Require Import Prelude PyDict PyFloat Resources Monitor PyStr Regex Logger Json LogParsers LogParsersFacts LogTools.
From Stdlib Require Import Ascii.

(** ** A measurement and its line *)

(** The values of one message of the monitor. *)
Record logged := Logged {
  g_user : Z;
  g_perf : Z;
  g_m_acc : Z;
  g_cache_raw : Z;
  g_cache_alloc : Z;
  g_bw_raw : Z;
  g_bw_alloc : Z;
}.

(** The message of [buffer_collected_data]. *)
Definition measurement_message (g : logged) : text :=
  str "New raw measurement: {user_id: " ++ show (g_user g) ++ str ", perf: " ++ show (g_perf g) ++
  str ", m_acc: " ++ show (g_m_acc g) ++
  str ", cache: " ++ show (g_cache_raw g) ++ str "/" ++ show (g_cache_alloc g) ++
  str ", mem_bw: " ++ show (g_bw_raw g) ++ str "/" ++ show (g_bw_alloc g) ++ str "}".

(** The name of the monitor's logger. *)
Definition monitor_logger : text := str "memcached_mind_monitor".

Definition measurement_line (asctime : text) (g : logged) : text :=
  log_format asctime monitor_logger (str "INFO") (measurement_message g).

(** The five parts. *)
Definition parts_of (g : logged) : list text :=
  [str "user_id: " ++ show (g_user g);
   str "perf: " ++ show (g_perf g);
   str "m_acc: " ++ show (g_m_acc g);
   str "cache: " ++ show (g_cache_raw g) ++ str "/" ++ show (g_cache_alloc g);
   str "mem_bw: " ++ show (g_bw_raw g) ++ str "/" ++ show (g_bw_alloc g)].

Definition info_of (g : logged) : text :=
  str "user_id: " ++ show (g_user g) ++ str ", " ++ str "perf: " ++ show (g_perf g) ++ str ", " ++
  str "m_acc: " ++ show (g_m_acc g) ++ str ", " ++
  (str "cache: " ++ show (g_cache_raw g) ++ str "/" ++ show (g_cache_alloc g)) ++ str ", " ++
  (str "mem_bw: " ++ show (g_bw_raw g) ++ str "/" ++ show (g_bw_alloc g)).

Lemma measurement_line_shape asctime g :
  measurement_line asctime g =
  (asctime ++ str " - memcached_mind_monitor ") ++ measurement_tag ++
  (" "%char :: "{"%char :: info_of g ++ ["}"; "010"]%char).
Proof.
  unfold measurement_line, log_format, measurement_message, info_of, measurement_tag, monitor_logger.
  by rewrite <- !app_assoc.
Qed.

Lemma strip_braces (s : text) :
  strip (" "%char :: "{"%char :: s ++ ["}"; "010"]%char) = "{"%char :: s ++ ["}"%char].
Proof.
  unfold strip. change (lstrip is_space _) with ("{"%char :: s ++ ["}"; "010"]%char).
  change ["}"; "010"]%char with (["}"] ++ ["010"])%char.
  rewrite app_assoc, app_comm_cons, rstrip_snoc by done.
  by rewrite app_comm_cons, rstrip_id.
Qed.

Lemma inner_braces (s : text) : inner ("{"%char :: s ++ ["}"%char]) = s.
Proof.
  unfold inner. cbn [drop length]. rewrite length_app. cbn [length].
  replace (S (length s + 1) - 2) with (length s) by lia. apply take_app_length.
Qed.

Section line.
Context (asctime : text) (g : logged) (Htime : "I"%char ∉ asctime).

Lemma measurement_line_tag : contains measurement_tag (measurement_line asctime g) = true.
Proof. rewrite measurement_line_shape. apply contains_true. eauto. Qed.

Lemma measurement_line_parts : measurement_parts (measurement_line asctime g) = Ok (parts_of g).
Proof using Htime.
  unfold measurement_parts. rewrite measurement_line_shape.
  rewrite (split_first measurement_tag 2 "I"%char) by (try done; try no_chr; lit_false).
  rewrite (split_none measurement_tag 2 "I"%char); [|done|].
  2: { unfold info_of. rewrite <- !app_assoc. do 2 (apply not_elem_of_cons; split; [done|]). no_chr. }
  cbn [index lookup list_lookup or_raise mbind res_bind]. rewrite strip_braces, inner_braces.
  f_equal. unfold info_of, parts_of.
  rewrite app_assoc, (split_first (str ", ") 0 ","%char) by (try done; try no_chr; lit_false). f_equal.
  rewrite app_assoc, (split_first (str ", ") 0 ","%char) by (try done; try no_chr; lit_false). f_equal.
  rewrite app_assoc, (split_first (str ", ") 0 ","%char) by (try done; try no_chr; lit_false). f_equal.
  rewrite (split_first (str ", ") 0 ","%char) by (try done; try no_chr; lit_false). f_equal.
  rewrite (split_none (str ", ") 0 ","%char) by (try done; no_chr). done.
Qed.
End line.

(** ** A part *)

Section part.
Context (k : text) (v : Z) (Hk : ":"%char ∉ k).

Lemma part_plain : split (str ": ") (k ++ str ": " ++ show v) = [k; show v].
Proof using Hk.
  rewrite (split_first (str ": ") 0 ":"%char) by (try done; lit_false). f_equal.
  rewrite (split_none (str ": ") 0 ":"%char) by (try done; no_chr). done.
Qed.

Lemma part_limit w : split (str ": ") (k ++ str ": " ++ show v ++ str "/" ++ show w) =
  [k; show v ++ str "/" ++ show w].
Proof using Hk.
  rewrite (split_first (str ": ") 0 ":"%char) by (try done; lit_false). f_equal.
  rewrite (split_none (str ": ") 0 ":"%char) by (try done; no_chr). done.
Qed.

Lemma part_key_plain : part_key (k ++ str ": " ++ show v) = k.
Proof using Hk. unfold part_key. by rewrite part_plain. Qed.
Lemma part_key_limit w : part_key (k ++ str ": " ++ show v ++ str "/" ++ show w) = k.
Proof using Hk. unfold part_key. by rewrite part_limit. Qed.

Lemma part_value_plain : part_value (k ++ str ": " ++ show v) = Ok v.
Proof using Hk.
  unfold part_value. rewrite part_plain. cbn [index lookup list_lookup or_raise mbind res_bind].
  rewrite (split_none (str "/") 0 "/"%char) by (try done; no_chr). apply py_int_show.
Qed.
Lemma part_value_limit w : part_value (k ++ str ": " ++ show v ++ str "/" ++ show w) = Ok v.
Proof using Hk.
  unfold part_value. rewrite part_limit. cbn [index lookup list_lookup or_raise mbind res_bind].
  rewrite (split_first (str "/") 0 "/"%char) by (try done; try no_chr; lit_false). apply py_int_show.
Qed.
End part.

(** ** The dictionary of a line *)

(** What the parts say, without the limits. *)
Definition fields_of (g : logged) : dict text Z :=
  [(str "user_id", g_user g); (str "perf", g_perf g); (str "m_acc", g_m_acc g);
   (str "cache", g_cache_raw g); (str "mem_bw", g_bw_raw g)].

Definition part_is (p : text) (kv : text * Z) : Prop := part_key p = kv.1 ∧ part_value p = Ok kv.2.

Lemma parts_are g : Forall2 part_is (parts_of g) (fields_of g).
Proof.
  unfold parts_of, fields_of. repeat (apply Forall2_cons; split); [..|constructor]; split.
  - apply (part_key_plain (str "user_id")); lit_false.
  - apply (part_value_plain (str "user_id")); lit_false.
  - apply (part_key_plain (str "perf")); lit_false.
  - apply (part_value_plain (str "perf")); lit_false.
  - apply (part_key_plain (str "m_acc")); lit_false.
  - apply (part_value_plain (str "m_acc")); lit_false.
  - apply (part_key_limit (str "cache")); lit_false.
  - apply (part_value_limit (str "cache")); lit_false.
  - apply (part_key_limit (str "mem_bw")); lit_false.
  - apply (part_value_limit (str "mem_bw")); lit_false.
Qed.

(** Collecting parts whose keys are wanted. *)
Lemma collect_parts (fields : list text) parts kvs (acc : dict text Z) :
  Forall2 part_is parts kvs → NoDup (kvs.*1) → (∀ k, k ∈ kvs.*1 → k ∉ dkeys acc) →
  ∃ d, for_all (λ p acc,
      if bool_decide (part_key p ∈ fields) then v ← part_value p; Ok (dset acc (part_key p) v)
      else Ok acc) parts acc = Ok d ∧
    ∀ k, k ∈ fields → dget d k = match dget acc k with Some v => Some v | None => dget kvs k end.
Proof.
  intros Hp. revert acc. induction Hp as [|p [k v] parts kvs [Hk Hv] Hp IH]; intros acc Hnd Hfresh.
  { exists acc. split; [done|]. intros k _. by destruct (dget acc k). }
  simpl in *. apply NoDup_cons in Hnd as [Hnk Hnd]. rewrite Hk.
  case_bool_decide as Hin.
  - rewrite Hv. cbn [mbind res_bind]. destruct (IH (dset acc k v)) as (d & Hd & Hg); [done| |].
    { intros k' Hk' [->|Hk'']%elem_of_dkeys_dset; [done|]. eapply Hfresh; [right|]; done. }
    exists d. split; [done|]. intros k' Hk'. rewrite Hg, dget_dset by done.
    destruct (decide (k = k')) as [->|Hne]; [|by rewrite (decide_False (P := k' = k))].
    rewrite (decide_True (P := k' = k')) by done.
    by rewrite (proj2 (dget_None_keys acc k')) by (apply Hfresh; left).
  - cbn [mbind res_bind]. destruct (IH acc) as (d & Hd & Hg); [done| |].
    { intros k' Hk'. apply Hfresh. by right. }
    exists d. split; [done|]. intros k' Hk'. rewrite Hg by done.
    rewrite (decide_False (P := k' = k)) by (by intros ->). done.
Qed.

Lemma measurement_line_dict asctime g fields :
  "I"%char ∉ asctime →
  ∃ d, measurement_dict fields (measurement_line asctime g) = Ok d ∧
    ∀ k, k ∈ fields → dget d k = dget (fields_of g) k.
Proof.
  intros Ht. unfold measurement_dict. rewrite measurement_line_parts by done. cbn [mbind res_bind].
  apply (collect_parts fields _ (fields_of g) []); [apply parts_are| |set_solver].
  apply (bool_decide_unpack _). reflexivity.
Qed.

(** ** The rows of a log *)

(** A log with the given measurements, between other lines. *)
Inductive measurement_log : list logged → list text → Prop :=
  | mlog_nil : measurement_log [] []
  | mlog_line asctime g gs lines :
      "I"%char ∉ asctime → "010"%char ∉ asctime → measurement_log gs lines →
      measurement_log (g :: gs) (measurement_line asctime g :: lines)
  | mlog_other line gs lines :
      contains measurement_tag (line ++ ["010"%char]) = false → "010"%char ∉ line →
      measurement_log gs lines → measurement_log gs ((line ++ ["010"%char]) :: lines).

Section rows.
Context (file_id : Z) (perf_metric : text) (include_use : bool).

(** The row a measurement should become. *)
Definition row_of (i : Z) (g : logged) : row :=
  Row i (Some (g_user g)) (dget (fields_of g) perf_metric)
    (if include_use then Some (Some (g_cache_raw g), Some (g_bw_raw g)) else None) file_id.

Fixpoint rows_from (i : Z) (gs : list logged) : list row :=
  match gs with [] => [] | g :: gs' => row_of i g :: rows_from (i + 1) gs' end.

Lemma log_line_measurement asctime g st :
  "I"%char ∉ asctime →
  log_line file_id perf_metric include_use (measurement_line asctime g) st =
  LogState (l_data st ++ [row_of (l_idx st) g]) (count_user (Some (g_user g)) (l_counter st)) (l_idx st + 1).
Proof.
  intros Ht. unfold log_line. rewrite measurement_line_tag.
  destruct (measurement_line_dict asctime g (target_fields perf_metric include_use)) as (d & -> & Hd); [done|].
  rewrite !Hd by (unfold target_fields; set_solver). unfold row_of, target_fields in *.
  destruct include_use; [|done]. by rewrite !Hd by set_solver.
Qed.

Lemma read_log_rows gs lines st :
  measurement_log gs lines →
  l_data (foldl (λ st line, log_line file_id perf_metric include_use line st) st lines) =
  l_data st ++ rows_from (l_idx st) gs.
Proof.
  intros Hl. revert st. induction Hl as [|asctime g gs lines Ht _ Hl IH|line gs lines Hn _ Hl IH]; intros st; simpl.
  - by rewrite app_nil_r.
  - rewrite log_line_measurement, IH by done. simpl. by rewrite <- app_assoc.
  - unfold log_line at 2. by rewrite Hn, IH.
Qed.
End rows.

(** Reading a text line by line. *)
Lemma readlines_go_line cur line s :
  "010"%char ∉ line →
  readlines_go cur (line ++ "010"%char :: s) = (reverse cur ++ line ++ ["010"%char]) :: readlines s.
Proof.
  revert cur. induction line as [|c line IH]; intros cur Hn; simpl.
  - by rewrite reverse_cons.
  - rewrite not_elem_of_cons in Hn. destruct Hn as [Hc Hn]. rewrite decide_False by done.
    rewrite IH by done. by rewrite reverse_cons, <- app_assoc.
Qed.

Lemma measurement_line_newline asctime g :
  "010"%char ∉ asctime →
  ∃ l, measurement_line asctime g = l ++ ["010"%char] ∧ "010"%char ∉ l.
Proof.
  intros Ht. exists (asctime ++ str " - " ++ monitor_logger ++ str " - " ++ str "INFO" ++ str " - " ++
    measurement_message g). split; [unfold measurement_line, log_format; by rewrite <- !app_assoc|].
  unfold measurement_message, monitor_logger. no_chr.
Qed.

Lemma readlines_log gs lines : measurement_log gs lines → readlines (concat lines) = lines.
Proof.
  induction 1 as [|asctime g gs lines _ Ht Hl IH|line gs lines _ Hn Hl IH]; [done| |].
  - destruct (measurement_line_newline asctime g Ht) as (l & -> & Hn). cbn [concat].
    unfold readlines. rewrite <- app_assoc. cbn [app]. rewrite readlines_go_line by done. simpl.
    by rewrite IH.
  - cbn [concat]. unfold readlines. rewrite <- app_assoc. cbn [app].
    rewrite readlines_go_line by done. simpl. by rewrite IH.
Qed.

(** ** The monitor's log, read back *)

Section roundtrip.
Context {F : Type} `{PyFloat F}.

(** What the monitor logs of an entry it accepts; [m_acc] is the entry's
    [access_mem_ops_sec], which the buffering does not use. *)
Definition entry_logged (verification_th : F) (em : entry F * Z) : option logged :=
  match e_app_id em.1, entry_point false 8 verification_th em.1 with
  | Some user, Ok (Some pt) =>
      Some (Logged user (pt_perf pt) em.2 (pt_cache_raw pt) (pt_cache pt)
                   (pt_mem_bw_raw pt) (pt_mem_bw pt))
  | _, _ => None
  end.

(** numpy's mean of numbers is a number. *)
Context (np_mean : list (option Z) → res F).
Context (np_mean_total : ∀ l, Forall is_Some l → ∃ x, np_mean l = Ok x).

Lemma rows_use_some fid pm i gs d :
  d ∈ rows_from fid pm true i gs → ∃ c b, r_use d = Some (Some c, Some b).
Proof.
  revert i. induction gs as [|g gs IH]; intros i; simpl; [by intros ?%elem_of_nil|].
  intros [->|Hd]%elem_of_cons; [simpl; eauto|by eapply IH].
Qed.

Lemma uses_total (get : option Z * option Z → option Z) data :
  (∀ c b, is_Some (get (Some c, Some b))) →
  (∀ d, d ∈ data → ∃ c b, r_use d = Some (Some c, Some b)) → ∃ x, np_mean (uses get data) = Ok x.
Proof using np_mean_total.
  intros Hget Hd. apply np_mean_total. unfold uses. apply Forall_fmap, Forall_forall. intros d Hin.
  destruct (Hd d Hin) as (c & b & E). simpl. rewrite E. apply Hget.
Qed.

Lemma print_use_total data :
  (∀ d, d ∈ data → ∃ c b, r_use d = Some (Some c, Some b)) → print_use np_mean data = Ok ().
Proof using np_mean_total.
  intros Hd. assert (Hu : ∀ data', data' ⊆ data →
    (∃ x, np_mean (uses fst data') = Ok x) ∧ ∃ y, np_mean (uses snd data') = Ok y).
  { intros data' Hs. split; (apply uses_total; [by eauto|]); intros d Hin; apply Hd, Hs, Hin. }
  unfold print_use. destruct (for_all_total (λ _, True) (print_user np_mean data)
    (remove_dups (r_user <$> data)) ()) as ([] & -> & _); [|done|].
  - intros u [] _ _. unfold print_user.
    destruct (Hu (filter (λ d, r_user d = u) data)) as [[x ->] [y ->]]; [|by exists ()].
    apply sublist_subseteq, sublist_filter.
  - cbn [mbind res_bind]. by destruct (Hu data) as [[x ->] [y ->]].
Qed.

Lemma imbalanced_total (th : F) counter : ∃ l, imbalanced th counter = Ok l.
Proof. unfold imbalanced. destruct counter; [by eexists|]. cbn. eauto. Qed.

Lemma window_elem {A} n k (l : list A) x : x ∈ window n k l → x ∈ l.
Proof.
  unfold window. assert (Hd : ∀ l' : list A, x ∈ drop k l' → x ∈ l').
  { intros l' Hx. by eapply sublist_subseteq; [apply sublist_drop|]. }
  repeat case_match; intros Hx; try apply Hd in Hx; try done; by eapply subseteq_take.
Qed.

(** C34: The monitor's log is read back: the rows are the measurements the monitor
    accepted, in order, with the user, the metric, and the use of cache and
    bandwidth it buffered. *)
Theorem monitor_log_roundtrip (verification_th th : F) (es : list (entry F * Z)) (lines : list text)
    (file_id : Z) (n_collect n_skip : nat) (include_use : bool) (perf_metric : text) :
  measurement_log (omap (entry_logged verification_th) es) lines →
  parse_log_file np_mean (Ok (concat lines)) file_id n_collect n_skip th include_use perf_metric =
  Ok (window n_collect n_skip
        (rows_from file_id perf_metric include_use 0 (omap (entry_logged verification_th) es))).
Proof using np_mean_total.
  intros Hl. unfold parse_log_file. cbn [mbind res_bind]. rewrite (readlines_log _ _ Hl).
  destruct (imbalanced_total th (l_counter (read_log file_id perf_metric include_use lines))) as [l ->].
  cbn [mbind res_bind]. unfold read_log. rewrite (read_log_rows _ _ _ _ _ _ Hl). cbn [l_data l_idx app].
  destruct include_use; [|done]. rewrite print_use_total; [done|].
  intros d Hd%window_elem. by eapply rows_use_some.
Qed.
End roundtrip.
