(* ===== verification/DrawPerf.v ===== *)
(** * The performance figure: draw_perf.py

    Which logs of a run are read, the rows they give and the limits of the
    axis; the figure is in PerfFigure.  The file system is a parameter. *)

From stdpp Require Import sorting.
From Stdlib Require Import Ascii.
From S2P Require Import Prelude PyDict PyFloat PyStr Json LogParsers LogTools.

(** ** Files *)

(** What the scripts use of [os] and [open]. *)
Record filesystem := FileSystem {
  listdir : text → res (list text);
  isdir : text → bool;
  walk : text → list (text * list text);   (* directory and its files *)
  read : text → res text;
}.

(** [os.path.join(d, f)] *)
Definition join (d f : text) : text :=
  if starts_with (str "/") f then f
  else if bool_decide (d = []) || ends_with (str "/") d then d ++ f
  else d ++ str "/" ++ f.

(** [os.path.basename(p)] *)
Definition basename (p : text) : text := default [] (last (split (str "/") p)).

(** Strings are compared by code point: the bytes of their UTF-8 encodings
    have the same order. *)
Fixpoint text_leb (a b : text) : bool :=
  match a, b with
  | [], _ => true
  | _ :: _, [] => false
  | x :: a', y :: b' => (code x <? code y)%Z || (code x =? code y)%Z && text_leb a' b'
  end.

Definition text_le (a b : text) : Prop := Is_true (text_leb a b).

#[export] Instance text_le_dec : RelDecision text_le.
Proof. intros a b. unfold text_le. apply _. Defined.

(** [l.sort()] *)
Definition sort_texts (l : list text) : list text := merge_sort text_le l.

(** The sub-directories of a directory (logtools.py, line 8). *)
Definition subdirectories (fs : filesystem) (directory : text) : res (list text) :=
  names ← listdir fs directory;
  Ok (filter (λ p, isdir fs p = true) (join directory <$> (names : list text))).

Section rows.
Context {F : Type} `{PyFloat F}.
Context (mean_use : list (option Z) → res F) (np_mean : list F → F).
Context (fs : filesystem) (use_all_subdirs : bool).

(** The log files of a directory, sorted (lines 36-44). *)
Definition log_files (directory : text) (target_cache_bw : option (Z * Z)) : res (list text) :=
  files ←
    (if use_all_subdirs then
       Ok (concat ((λ r : text * list text,
                      join r.1 <$> filter (λ f, ends_with (str ".log") f = true) r.2) <$> walk fs directory))
     else
       subdirs ← subdirectories fs directory;
       latest ← get_latest_subdirectory subdirs target_cache_bw;
       names ← listdir fs latest;
       Ok (join latest <$> filter (λ f, ends_with (str ".log") f = true) (names : list text)));
  Ok (sort_texts files).

(** The application whose container log has this name. *)
Definition cont_app (cont_logs : dict Z text) (name : text) : option Z :=
  fst <$> find (λ p, bool_decide (p.2 = name)) cont_logs.

(** The rows of one log file (lines 47-55). *)
Definition file_rows (file_id : Z) (cont_logs : dict Z text) (p : text)
    (acc : list row * list (cont_row (F := F))) : res (list row * list cont_row) :=
  match cont_app cont_logs (basename p) with
  | Some app =>
      rows ← parse_cont_logs np_mean p (read fs p) file_id app false;
      Ok (acc.1, acc.2 ++ rows)
  | None =>
      rows ← parse_log_file mean_use (read fs p) file_id (Z.to_nat 25000) 100 (lit 3 10) true (str "perf");
      Ok (acc.1 ++ rows, acc.2)
  end.

(** [process_directory] *)
Definition process_directory (directory : text) (file_id : Z) (target_cache_bw : option (Z * Z))
    (cont_logs : dict Z text) : res (list row * list cont_row) :=
  files ← log_files directory target_cache_bw;
  for_all (file_rows file_id cont_logs) files ([], []).

(** [process_directories]: the rows of the two data frames. *)
Definition process_directories (dirs : list text) (tbw : option (Z * Z)) (c_logs : dict Z text)
    : res (list row * list cont_row) :=
  for_all (λ fd (acc : list row * list cont_row),
    '(r, c) ← process_directory fd.2 fd.1 tbw c_logs;
    Ok (acc.1 ++ r, acc.2 ++ c)) (zip (seqZ 0 (Z.of_nat (length dirs))) dirs) ([], []).
End rows.

(** ** The axis *)

Section axis.
Context {F : Type} `{PyFloat F}.
Local Open Scope py_scope.

(** [np.floor] and [np.ceil]; infinities and NaN are their own. *)
Definition ffloor (x : F) : F :=
  match trunc x with
  | Ok z => if x <? of_Z z then of_Z (z - 1)%Z else of_Z z
  | Err _ => x
  end.

Definition fceil (x : F) : F :=
  match trunc x with
  | Ok z => if of_Z z <? x then of_Z (z + 1)%Z else of_Z z
  | Err _ => x
  end.

(** [np.arange(start, stop, step)]: numpy computes the number of values from
    the quotient and the spacing from the first two. *)
Definition arange (start stop step : F) : res (list F) :=
  n ← trunc (fceil (fquot (stop - start) step));
  let delta := (start + step) - start in
  Ok ((λ i, start + of_Z i * delta) <$> seqZ 0 n).

(** [min(vals)] and [max(vals)] of a non-empty list *)
Definition min_of (x : F) (l : list F) : F := foldl fmin x l.
Definition max_of (x : F) (l : list F) : F := foldl fmax x l.

(** [5 if rng <= 20 else 10 if rng <= 40 else 25] *)
Definition tick_of (rng : F) : F :=
  if rng <=? of_Z 20 then of_Z 5 else if rng <=? of_Z 40 then of_Z 10 else of_Z 25.

(** [y_axis_limits] *)
Definition y_axis_limits (vals : list F) : res (F * F * list F) :=
  match vals with
  | [] =>
      ticks ← arange (of_Z (-25)) (of_Z 26) (of_Z 5);
      Ok (of_Z (-25), of_Z 25, ticks)
  | v :: vs =>
      let lo := fmin (min_of v vs) (of_Z 0) in
      let hi := fmax (max_of v vs) (of_Z 0) in
      let rng := fmax (hi - lo) (of_Z 20) in
      let tick := tick_of rng in
      let lo := ffloor (fquot lo tick) * tick in
      let hi := fceil (fquot hi tick) * tick in
      ticks ← arange lo (hi + tick) tick;
      Ok (lo, hi, ticks)
  end.
End axis.
