(* ===== verification/DrawPerfFacts.v ===== *)
(** * The figure: its axis, and its independence of the listing order

    In exact arithmetic the axis contains every bar and its ticks run from end
    to end.  The rows of the figure do not depend on the order in which the
    operating system lists directories. *)

From stdpp Require Import sorting.
From Stdlib Require Import Ascii.
From S2P Require Import Prelude PyDict PyFloat Exact BaseExact PyStr Json LogParsers LogTools LogDirs DrawPerf.

(** ** Rounding *)

Lemma trunc_near (q : Qc) :
  ∃ z, trunc (Num q) = Ok z ∧ (q - 1 < zq z)%Qc ∧ (zq z < q + 1)%Qc.
Proof.
  exists (Z.quot (Qnum (this q)) (Zpos (Qden (this q)))). split; [by destruct q as [[n d] Hc]|].
  assert (Hq : (q - 1 < zq (Qnum q ÷ Z.pos (Qden q)) ∧ zq (Qnum q ÷ Z.pos (Qden q)) < q + 1)%Qc); [|done].
  unfold zq. qc_to_q. destruct (this q) as [n d]. cbn [Qnum Qden].
  pose proof (Z.quot_rem' n (Zpos d)) as E. pose proof (Z.rem_bound_abs n (Zpos d) ltac:(done)) as B.
  unfold Qlt, Qminus, Qplus, Qopp, inject_Z. simpl. lia.
Qed.

Lemma ffloor_Num (q : Qc) :
  ∃ z, ffloor (Num q) = Num (zq z) ∧ (zq z <= q)%Qc ∧ (q < zq z + 1)%Qc.
Proof.
  destruct (trunc_near q) as (z & Ht & H1 & H2). unfold ffloor. rewrite Ht.
  change (of_Z ?a : xnum) with (Num (zq a)).
  destruct (fltb (Num q) (Num (zq z))) eqn:E.
  - apply xltb_Num in E. exists (z - 1)%Z. split; [done|].
    assert (Hz : zq (z - 1) = (zq z - 1)%Qc) by exact (zq_add z (-1)).
    rewrite Hz. split; qc_lra.
  - apply xltb_Num_false in E. exists z. split; [done|]. split; [done|qc_lra].
Qed.

Lemma fceil_Num (q : Qc) :
  ∃ z, fceil (Num q) = Num (zq z) ∧ (q <= zq z)%Qc ∧ (zq z < q + 1)%Qc.
Proof.
  destruct (trunc_near q) as (z & Ht & H1 & H2). unfold fceil. rewrite Ht.
  change (of_Z ?a : xnum) with (Num (zq a)).
  destruct (fltb (Num (zq z)) (Num q)) eqn:E.
  - apply xltb_Num in E. exists (z + 1)%Z. split; [done|].
    rewrite (zq_add z 1). change (zq 1) with 1%Qc. split; qc_lra.
  - apply xltb_Num_false in E. exists z. split; [done|]. split; [done|qc_lra].
Qed.

Lemma fceil_int z : fceil (Num (zq z)) = Num (zq z).
Proof.
  destruct (fceil_Num (zq z)) as (y & -> & H1 & H2). assert (y = z) as ->; [|done].
  change 1%Qc with (zq 1) in H2. rewrite <- zq_add in H2.
  rewrite zq_le in H1. rewrite zq_lt in H2. lia.
Qed.

Lemma trunc_int z : trunc (Num (zq z)) = Ok z.
Proof.
  destruct (trunc_near (zq z)) as (y & -> & H1 & H2). f_equal.
  change 1%Qc with (zq 1) in *. rewrite <- zq_add, zq_lt in H2.
  assert (H3 : (zq z < zq (y + 1))%Qc) by (rewrite zq_add; qc_lra). rewrite zq_lt in H3. lia.
Qed.

(** Evenly spaced values from one multiple of the step to another. *)
Lemma arange_multiples (t : Qc) (a b : Z) :
  (0 < t)%Qc →
  arange (Num (zq a * t)) (Num (zq b * t) + Num t)%py (Num t) =
  Ok (Num <$> ((λ i, zq (a + i) * t)%Qc <$> seqZ 0 (b - a + 1))).
Proof.
  intros Ht. pose proof (pos_ne0 t Ht). unfold arange.
  change (?x + ?y)%py with (@fadd xnum _ x y). change (@fadd xnum _ (Num ?x) (Num ?y)) with (Num (x + y)%Qc).
  change (@fsub xnum _ (Num ?x) (Num ?y)) with (Num (x - y)%Qc).
  assert (E : fquot (Num (zq b * t + t - zq a * t)%Qc) (Num t) = Num (zq (b - a + 1))).
  { rewrite fquot_Num by done. f_equal.
    unfold Z.sub. rewrite !zq_add. change (zq 1) with 1%Qc. replace (zq (- a)) with (- zq a)%Qc.
    - field. done.
    - unfold zq. apply Qc_is_canon. autorewrite with qcs. by rewrite inject_Z_opp. }
  rewrite E, fceil_int, trunc_int. cbn [mbind res_bind]. f_equal.
  rewrite <- list_fmap_compose. apply list_fmap_ext. intros i x _. simpl.
  change (of_Z x : xnum) with (Num (zq x)). change (@fmul xnum _ (Num ?x) (Num ?y)) with (Num (x * y)%Qc).
  change (@fadd xnum _ (Num ?x) (Num ?y)) with (Num (x + y)%Qc). f_equal. rewrite zq_add. ring.
Qed.

(** ** The axis contains the bars *)

Lemma min_of_Num x l :
  ∃ m, min_of (Num x) (Num <$> l) = Num m ∧ (m <= x)%Qc ∧ Forall (λ v, m <= v)%Qc l.
Proof.
  unfold min_of. revert x. induction l as [|y l IH]; intros x; csimpl.
  { exists x. repeat split; [apply Qcle_refl|constructor]. }
  destruct (fmin_Num x y) as (c & -> & [Hx Hy] & _). destruct (IH c) as (m & -> & Hc & Hl).
  exists m. split; [done|]. split; [qc_lra|]. constructor; [qc_lra|done].
Qed.

Lemma max_of_Num x l :
  ∃ m, max_of (Num x) (Num <$> l) = Num m ∧ (x <= m)%Qc ∧ Forall (λ v, v <= m)%Qc l.
Proof.
  unfold max_of. revert x. induction l as [|y l IH]; intros x; csimpl.
  { exists x. repeat split; [apply Qcle_refl|constructor]. }
  destruct (fmax_Num x y) as (c & -> & [Hx Hy] & _). destruct (IH c) as (m & -> & Hc & Hl).
  exists m. split; [done|]. split; [qc_lra|]. constructor; [qc_lra|done].
Qed.

Lemma tick_of_Num x : ∃ k, tick_of x = Num (zq k) ∧ k ∈ [5; 10; 25]%Z.
Proof. unfold tick_of. repeat case_match; eexists; (split; [done|set_solver]). Qed.

(** The multiples of [t] around a value. *)
Lemma floor_multiple (t v : Qc) :
  (0 < t)%Qc → ∃ z, (ffloor (fquot (Num v) (Num t)) * Num t)%py = Num (zq z * t)%Qc ∧ (zq z * t <= v)%Qc.
Proof.
  intros Ht. rewrite fquot_Num by by apply pos_ne0.
  destruct (ffloor_Num (v / t)) as (z & -> & Hz & _). exists z. split; [done|].
  assert (Hv : v = (v / t * t)%Qc) by (field; by apply pos_ne0). rewrite Hv.
  apply Qcmult_le_compat_r; [done|qc_lra].
Qed.

Lemma ceil_multiple (t v : Qc) :
  (0 < t)%Qc → ∃ z, (fceil (fquot (Num v) (Num t)) * Num t)%py = Num (zq z * t)%Qc ∧ (v <= zq z * t)%Qc.
Proof.
  intros Ht. rewrite fquot_Num by by apply pos_ne0.
  destruct (fceil_Num (v / t)) as (z & -> & Hz & _). exists z. split; [done|].
  assert (Hv : v = (v / t * t)%Qc) by (field; by apply pos_ne0). rewrite Hv.
  apply Qcmult_le_compat_r; [done|qc_lra].
Qed.

(** Ticks [a, a + 1, .., b] in steps of [t]. *)
Definition ticks_between (a b : Z) (t : Qc) : list Qc :=
  (λ i, zq (a + i) * t)%Qc <$> seqZ 0 (b - a + 1).

(** The limits of the axis are multiples of the tick between which all bars
    and the zero line lie, and the ticks are the multiples from the lower to
    the upper limit. *)
Theorem axis_contains_bars (vals : list Qc) :
  ∃ (a b k : Z), k ∈ [5; 10; 25]%Z ∧ (a <= 0 <= b)%Z ∧
    y_axis_limits (Num <$> vals) =
      Ok (Num (zq a * zq k), Num (zq b * zq k), Num <$> ticks_between a b (zq k))%Qc ∧
    Forall (λ v, zq a * zq k <= v ∧ v <= zq b * zq k)%Qc vals.
Proof.
  destruct vals as [|v vs].
  { exists (-5)%Z, 5%Z, 5%Z. split; [set_solver|]. split; [lia|]. split; [|constructor].
    by vm_compute. }
  csimpl. unfold y_axis_limits.
  destruct (min_of_Num v vs) as (mn & -> & Hv & Hvs).
  destruct (max_of_Num v vs) as (mx & -> & Hv' & Hvs').
  change (of_Z 0 : xnum) with (Num 0%Qc).
  destruct (fmin_Num mn 0) as (lo & -> & [Hlo Hlo0] & _).
  destruct (fmax_Num mx 0) as (hi & -> & [Hhi Hhi0] & _).
  destruct (tick_of_Num (fmax (Num hi - Num lo)%py (of_Z 20))) as (k & -> & Hk).
  assert (Hk0 : (0 < zq k)%Qc) by (apply zq_pos; set_unfold; lia).
  destruct (floor_multiple (zq k) lo Hk0) as (a & -> & Ha).
  destruct (ceil_multiple (zq k) hi Hk0) as (b & -> & Hb).
  rewrite arange_multiples by done. cbn [mbind res_bind].
  exists a, b, k. split; [done|]. split; [|split; [done|]].
  - split.
    + rewrite <- zq_le. change (zq 0) with 0%Qc. clear - Ha Hlo0 Hk0. revert Ha Hlo0 Hk0.
      generalize (zq a) (zq k). intros x y ???. qc_nra.
    + rewrite <- zq_le. change (zq 0) with 0%Qc. clear - Hb Hhi0 Hk0. revert Hb Hhi0 Hk0.
      generalize (zq b) (zq k). intros x y ???. qc_nra.
  - constructor; [split; qc_lra|]. rewrite Forall_forall in *. intros w Hw.
    specialize (Hvs w Hw). specialize (Hvs' w Hw). simpl in *. split; qc_lra.
Qed.

(** ** Sorting texts *)

Lemma code_inj c c' : code c = code c' → c = c'.
Proof.
  unfold code. intros E%N2Z.inj. by rewrite <- (ascii_N_embedding c), E, ascii_N_embedding.
Qed.

Lemma text_leb_total a b : text_leb a b = true ∨ text_leb b a = true.
Proof.
  revert b. induction a as [|x a IH]; intros [|y b]; simpl; auto.
  destruct (IH b) as [E|E]; rewrite E; lia.
Qed.

#[export] Instance text_le_total : Total text_le.
Proof. intros a b. unfold text_le. rewrite !Is_true_true. apply text_leb_total. Qed.

#[export] Instance text_le_trans : Transitive text_le.
Proof.
  intros a b c. unfold text_le. rewrite !Is_true_true. revert b c.
  induction a as [|x a IH]; intros [|y b] [|z c]; simpl; try done.
  intros H1 H2. pose proof (IH b c).
  destruct (text_leb a b), (text_leb b c), (text_leb a c); lia.
Qed.

#[export] Instance text_le_antisym : AntiSymm (=) text_le.
Proof.
  intros a b. unfold text_le. rewrite !Is_true_true. revert b.
  induction a as [|x a IH]; intros [|y b]; simpl; try done. intros H1 H2.
  assert (E : code x = code y) by lia. apply code_inj in E as ->.
  rewrite Z.ltb_irrefl, Z.eqb_refl in *. f_equal. by apply IH.
Qed.

(** A sorted list does not depend on the order it was given in. *)
Lemma sort_texts_perm l k : l ≡ₚ k → sort_texts l = sort_texts k.
Proof.
  intros Hp. unfold sort_texts. apply (StronglySorted_unique text_le).
  - apply StronglySorted_merge_sort; apply _.
  - apply StronglySorted_merge_sort; apply _.
  - by rewrite !merge_sort_Permutation.
Qed.

(** ** Loops that append *)

(** Results that differ in the order of a list only. *)
Inductive res_perm {A} : res (list A) → res (list A) → Prop :=
  | perm_ok l k : l ≡ₚ k → res_perm (Ok l) (Ok k)
  | perm_err e : res_perm (Err e) (Err e).

Section gather.
Context {X A : Type} (f : X → res (list A)).

Definition gather (xs : list X) (acc : list A) : res (list A) :=
  for_all (λ x acc, l ← f x; Ok (acc ++ l)) xs acc.

Lemma gather_cons x xs acc : gather (x :: xs) acc = (l ← f x; gather xs (acc ++ l)).
Proof. unfold gather. cbn. by destruct (f x). Qed.

Lemma gather_acc xs acc : gather xs acc = (l ← gather xs []; Ok (acc ++ l)).
Proof.
  revert acc. induction xs as [|x xs IH]; intros acc; [cbn; by rewrite app_nil_r|].
  rewrite !gather_cons. destruct (f x) as [l|e]; cbn [mbind res_bind app]; [|done].
  rewrite (IH (acc ++ l)), (IH l). destruct (gather xs []); cbn; [|done]. by rewrite app_assoc.
Qed.

Context (e0 : exn) (Hf : ∀ x e, f x = Err e → e = e0).

Lemma gather_perm xs ys : xs ≡ₚ ys → res_perm (gather xs []) (gather ys []).
Proof using Hf.
  induction 1 as [|x xs ys _ IH|x y xs|xs ys zs _ IH1 _ IH2].
  - by repeat constructor.
  - rewrite !gather_cons. destruct (f x) as [l|]; cbn [mbind res_bind app]; [|constructor].
    rewrite (gather_acc xs l), (gather_acc ys l). destruct IH; cbn; constructor. by f_equiv.
  - rewrite !gather_cons. destruct (f y) as [l|ey] eqn:Ey, (f x) as [k|ex] eqn:Ex;
      cbn [mbind res_bind app]; rewrite ?gather_cons, ?Ey, ?Ex; cbn [mbind res_bind app].
    + rewrite (gather_acc xs (l ++ k)), (gather_acc xs (k ++ l)).
      destruct (gather xs []); cbn; constructor. by rewrite (Permutation_app_comm l).
    + constructor.
    + constructor.
    + rewrite (Hf _ _ Ey), (Hf _ _ Ex). constructor.
  - destruct IH1; inversion IH2; subst; constructor. by etrans.
Qed.
End gather.

(** ** The latest run *)

Lemma for_all_ext {X S} (f g : X → S → res S) xs s :
  (∀ x t, f x t = g x t) → for_all f xs s = for_all g xs s.
Proof.
  intros Hfg. revert s. induction xs as [|x xs IH]; intros s; cbn; [done|].
  rewrite Hfg. destruct (g x s); cbn; auto.
Qed.

Lemma or_raise_Err {A} e0 (o : option A) e : or_raise e0 o = Err e → e = e0.
Proof. destruct o; simpl; congruence. Qed.

Lemma py_int_err s e : py_int s = Err e → e = ValueError.
Proof. apply or_raise_Err. Qed.

Lemma strptime_err s e : strptime s = Err e → e = ValueError.
Proof.
  unfold strptime. repeat case_match; try congruence.
  repeat match goal with
  | |- context [py_int ?g] =>
      destruct (py_int g) eqn:?; cbn [mbind res_bind]; [|intros [= <-]; by eapply py_int_err]
  end.
  case_match; congruence.
Qed.

(** The directories a sub-directory contributes to the two lists. *)
Definition budget_of (target : Z * Z) (subdir : text) : res (list text) :=
  props ← extract_properties subdir;
  Ok (match props with
      | Some (cache, bw) => if (cache =? target.1)%Z && (bw =? target.2)%Z then [subdir] else []
      | None => []
      end).

Definition dated_of (subdir : text) : res (list (text * date)) :=
  field ← date_field subdir;
  Ok (match strptime field with Ok d => [(subdir, d)] | Err _ => [] end).

Lemma with_budget_gather target l : with_budget target l = gather (budget_of target) l [].
Proof.
  apply for_all_ext. intros x t. unfold budget_of.
  destruct (extract_properties x) as [[[c b]|]|]; cbn [mbind res_bind]; rewrite ?app_nil_r; try done.
  by case_match; rewrite ?app_nil_r.
Qed.

Lemma date_subdirs_gather l : date_subdirs l = gather dated_of l [].
Proof.
  apply for_all_ext. intros x t. unfold dated_of.
  destruct (date_field x) as [field|]; cbn [mbind res_bind]; [|done].
  destruct (strptime field) as [d|e] eqn:E; [done|].
  rewrite (strptime_err _ _ E), app_nil_r. done.
Qed.

Lemma budget_of_err target x e : budget_of target x = Err e → e = ValueError.
Proof.
  unfold budget_of, extract_properties. repeat case_match; try done.
  repeat match goal with
  | |- context [py_int ?g] =>
      destruct (py_int g) eqn:?; cbn [mbind res_bind]; [|intros [= <-]; by eapply py_int_err]
  end.
  done.
Qed.

Lemma index_back_err {A} (l : list A) i e : index_back l i = Err e → e = IndexError.
Proof. unfold index_back. repeat case_match; try apply or_raise_Err; congruence. Qed.

Lemma dated_of_err x e : dated_of x = Err e → e = IndexError.
Proof.
  unfold dated_of, date_field.
  destruct (index_back _ 3) as [part|e'] eqn:E; cbn [mbind res_bind].
  - destruct (index_back _ 1) as [t|] eqn:E'; cbn [mbind res_bind]; [done|].
    intros [= <-]. by eapply index_back_err.
  - intros [= <-]. by eapply index_back_err.
Qed.

Lemma lex_ltb_eq a b :
  length a = length b → lex_ltb a b = false → lex_ltb b a = false → a = b.
Proof.
  revert b. induction a as [|x a IH]; intros [|y b]; simpl; try done. intros [= Hl] H1 H2.
  assert (x = y) as -> by lia. rewrite Z.ltb_irrefl, Z.eqb_refl in *. f_equal. by apply IH.
Qed.

Lemma date_ltb_eq d d' : date_ltb d d' = false → date_ltb d' d = false → d = d'.
Proof.
  intros H1 H2. pose proof (lex_ltb_eq (date_fields d) (date_fields d') eq_refl H1 H2) as E.
  destruct d, d'. by injection E as -> -> -> -> -> ->.
Qed.

(** Among runs of different dates the latest does not depend on their order. *)
Lemma latest_perm l k : NoDup l.*2 → l ≡ₚ k → latest l = latest k.
Proof.
  intros Hnd Hp. destruct l as [|p l], k as [|q k]; [done|..].
  { by apply Permutation_nil_cons in Hp. }
  { symmetry in Hp. by apply Permutation_nil_cons in Hp. }
  unfold latest. f_equal. f_equal.
  destruct (later_best l p) as [H1 M1], (later_best k q) as [H2 M2].
  set (x := foldl later p l) in *. set (y := foldl later q k) in *. clearbody x y.
  assert (Hy : y ∈ p :: l) by by rewrite Hp. assert (Hx : x ∈ q :: k) by by rewrite <- Hp.
  assert (E : x.2 = y.2) by (apply date_ltb_eq; auto).
  apply list_elem_of_lookup in H1 as [i Hi]. apply list_elem_of_lookup in Hy as [j Hj].
  assert (i = j) as <-.
  { eapply (NoDup_lookup _ i j x.2 Hnd); rewrite list_lookup_fmap.
    - by rewrite Hi.
    - by rewrite Hj, E. }
  congruence.
Qed.

(** ** The rows of the figure *)

(** Two views of the same files: directories are listed in another order. *)
Record same_files (fs fs' : filesystem) : Prop := {
  sf_list d : res_perm (listdir fs d) (listdir fs' d);
  sf_isdir d : isdir fs d = isdir fs' d;
  sf_read p : read fs p = read fs' p;
}.

(** No two runs of a directory that have the budget asked for have the same
    date. *)
Definition distinct_runs (fs : filesystem) (tbw : option (Z * Z)) (directory : text) : Prop :=
  ∀ l l' dated, subdirectories fs directory = Ok l →
    match tbw with Some t => with_budget t l | None => Ok l end = Ok l' →
    date_subdirs l' = Ok dated → NoDup dated.*2.

Lemma subdirectories_perm fs fs' d :
  same_files fs fs' → res_perm (subdirectories fs d) (subdirectories fs' d).
Proof.
  intros [Hl Hd _]. unfold subdirectories. destruct (Hl d) as [l k Hp|]; cbn; constructor.
  rewrite Hp. erewrite list_filter_iff; [done|]. intros p. simpl. by rewrite Hd.
Qed.

Lemma get_latest_perm l k tbw :
  l ≡ₚ k →
  (∀ l' dated, match tbw with Some t => with_budget t l | None => Ok l end = Ok l' →
     date_subdirs l' = Ok dated → NoDup dated.*2) →
  get_latest_subdirectory l tbw = get_latest_subdirectory k tbw.
Proof.
  intros Hp Hd. unfold get_latest_subdirectory.
  assert (Hb : res_perm match tbw with Some t => with_budget t l | None => Ok l end
                        match tbw with Some t => with_budget t k | None => Ok k end).
  { destruct tbw as [t|]; [|by constructor]. rewrite !with_budget_gather.
    apply (gather_perm _ ValueError); [apply budget_of_err|done]. }
  inversion Hb as [l' k' Hp' E E'|e E E']; cbn [mbind res_bind]; [|done].
  assert (Hs : res_perm (date_subdirs l') (date_subdirs k')).
  { rewrite !date_subdirs_gather. apply (gather_perm _ IndexError); [apply dated_of_err|done]. }
  inversion Hs as [dl dk Hpd El Ek|e El Ek]; cbn [mbind res_bind]; [|done].
  apply latest_perm; [|done]. by eapply Hd.
Qed.

Section order.
Context {F : Type} `{PyFloat F} (mean_use : list (option Z) → res F) (np_mean : list F → F).
Context (fs fs' : filesystem) (Hfs : same_files fs fs') (tbw : option (Z * Z)).

Lemma log_files_same d :
  distinct_runs fs tbw d → log_files fs false d tbw = log_files fs' false d tbw.
Proof using Hfs.
  intros Hd. unfold log_files. unfold distinct_runs in Hd. cbn iota.
  destruct (subdirectories_perm fs fs' d Hfs) as [l k Hp|e]; cbn [mbind res_bind]; [|done].
  rewrite (get_latest_perm l k tbw Hp) by (intros l' dated; by apply (Hd l)).
  destruct (get_latest_subdirectory k tbw) as [latest|]; cbn [mbind res_bind]; [|done].
  destruct (sf_list fs fs' Hfs latest) as [n m Hn|]; cbn [mbind res_bind]; [|done].
  f_equal. apply sort_texts_perm. by rewrite Hn.
Qed.

(** The rows of the figure do not depend on the order in which directories
    are listed, when no two runs of a budget have the same date. *)
Theorem rows_order_independent (dirs : list text) (c_logs : dict Z text) :
  Forall (distinct_runs fs tbw) dirs →
  process_directories mean_use np_mean fs false dirs tbw c_logs =
  process_directories mean_use np_mean fs' false dirs tbw c_logs.
Proof using Hfs.
  intros Hd. unfold process_directories. generalize (([], []) : list row * list (cont_row (F := F))).
  generalize (seqZ 0 (Z.of_nat (length dirs))). induction Hd as [|d dirs Hd _ IH]; intros ids acc.
  { by destruct ids. }
  destruct ids as [|i ids]; [done|]. cbn [zip zip_with for_all snd fst].
  assert (E : process_directory mean_use np_mean fs false d i tbw c_logs =
              process_directory mean_use np_mean fs' false d i tbw c_logs).
  { unfold process_directory. rewrite (log_files_same d Hd).
    destruct (log_files fs' false d tbw) as [files|]; cbn [mbind res_bind]; [|done].
    apply for_all_ext. intros p t. unfold file_rows. by rewrite (sf_read fs fs' Hfs). }
  rewrite E. destruct (process_directory _ _ fs' _ _ _ _ _) as [[r c]|]; cbn [mbind res_bind]; [|done].
  apply IH.
Qed.
End order.
