(* ===== verification/PerfFigure.v ===== *)
(** * The figure drawn from the rows: draw_perf.py

    The settings of the script, and [plot]: what it asks matplotlib to draw,
    as a record.  The palette (seaborn) and the mean of a column (pandas) are
    parameters. *)

From Stdlib Require Import Ascii.
From S2P Require Import Prelude PyDict PyFloat Exact PyStr Json LogParsers LogTools Config DrawPerf DrawPerfFacts.

(** ** Settings *)

Definition perf_metric : text := str "perf".
Definition use_all_subdirs : bool := false.
Definition target_cache_bw : Z * Z := (5120, 5120)%Z.
Definition base_dir : text := str "./logs/mindv2".
Definition labels : list text := str <$> ["Static"; "Harvest"; "Trade"; "Ideal"; "Spirit"].
Definition user_to_app : dict Z text := [(1, str "Stream"); (2, str "Memcached")]%Z.
Definition user_ids : list (list Z) := [[1]; [2]]%Z.
Definition cont_logs : dict Z text := [(1, str "spirit_stream_1.log"); (2, str "spirit_mc_client_2.log")]%Z.

Section settings.
Context {F : Type} `{PyFloat F}.

Definition time_interval : F := of_Z 30.

(** [f'{base_dir}/<allocator>/App2_int_{interval:.1f}sec'] *)
Definition app2_dir (allocator : text) (interval : F) : text :=
  base_dir ++ str "/" ++ allocator ++ str "/App2_int_" ++ fixed1 interval ++ str "sec".

Definition directories : list text :=
  [app2_dir (str "static") time_interval; app2_dir (str "inc-trade") (of_Z 10);
   app2_dir (str "fij-trade") time_interval; app2_dir (str "oracle") time_interval;
   app2_dir (str "spirit") time_interval].
End settings.

(** ** The bars *)

Section bars.
Context {F C : Type} `{PyFloat F}.
Local Open Scope py_scope.
(** The mean of a column of numbers (pandas) and [sns.color_palette]. *)
Context (pd_mean : list F → F) (color_palette : text → nat → list C).
Context (dfc : list (cont_row (F := F))).
Context (user_to_app : dict Z text) (labels : list text).

(** [dfc[(dfc.uid==uid)&(dfc.fid==fid)].perf]; every row holds a positive
    number (logtools.py, line 143). *)
Definition perf_of (uid fid : Z) : list F :=
  omap (λ r, res_option (jnumber (c_perf r)))
    (filter (λ r, c_app r = uid ∧ c_file r = fid) dfc).

Definition base : dict Z F :=
  foldl (λ d uid, dset d uid (pd_mean (perf_of uid 0))) [] (dkeys user_to_app).

Definition colors : dict Z C :=
  let palette := color_palette (str "PuBu") (length labels) in
  zip (seqZ 0 (Z.of_nat (length palette))) palette.

(** [itertools.cycle] over the five patterns *)
Definition hatch_patterns : list text := [str "//"; str "\\"; str "||"; str "--"; str "xx"].

Definition hatches : dict Z text :=
  (λ i, (i, default [] (hatch_patterns !! Z.to_nat (i mod 5)%Z))) <$> seqZ 0 (Z.of_nat (length labels)).

Record bar := Bar {
  bar_x : Z;
  bar_height : F;
  bar_color : C;
  bar_hatch : text;
  bar_label : option text;
}.

Record figure_state := FigureState { xpos : Z; xlab : list F; drawn : list bar }.

(** [vals.mean()/base[uid]*100 - 100]; a division by zero is infinite or NaN
    for numpy's floats. *)
Definition relative (b : F) (vals : list F) : F :=
  fquot (pd_mean vals) b * of_Z 100 - of_Z 100.

(** One application and one run (lines 105-114); [labelled]: the application
    is the last of the last subplot. *)
Definition draw_bar (labelled : bool) (uid fid : Z) (st : figure_state) : res figure_state :=
  match perf_of uid fid with
  | [] => Ok st
  | vals =>
      b ← dgetE base uid;
      color ← dgetE colors fid;
      hatch ← dgetE hatches fid;
      label ← index labels (Z.to_nat fid);
      Ok (FigureState (xpos st + 1)%Z (xlab st)
            (drawn st ++ [Bar (xpos st) (relative b vals) color hatch
                              (if labelled then Some label else None)]))
  end.

(** One application (lines 103-118): its bars and the tick below them. *)
Definition draw_user (last_ax : bool) (group : list Z) (uid : Z) (st : figure_state) : res figure_state :=
  let labelled := last_ax && bool_decide (last group = Some uid) in
  st' ← for_all (draw_bar labelled uid) (seqZ 1 (Z.of_nat (length labels) - 1)) st;
  half ← of_Z (xpos st' - xpos st - 1)%Z / of_Z 2;
  Ok (FigureState (xpos st') (xlab st' ++ [of_Z (xpos st) + half]) (drawn st')).

(** ** Subplots *)

Record subplot := Subplot {
  ax_bars : list bar;
  ax_xticks : list F;
  ax_xticklabels : list text;
  ax_ylim : F * F;
  ax_yticks : list F;
  ax_ylabel : option text;
}.

(** One subplot (lines 101-127), the [i]-th of [n]. *)
Definition draw_group (n i : nat) (group : list Z) : res subplot :=
  st ← for_all (draw_user (bool_decide (S i = n)) group) group (FigureState 0 [] []);
  names ← map_res (dgetE user_to_app) group;
  '(lo, hi, ticks) ← y_axis_limits (bar_height <$> drawn st);
  Ok (Subplot (drawn st) (xlab st) names (lo, hi) ticks
        (if bool_decide (i = 0) then Some (str "E2E perf. Δ (%)") else None)).

Record figure := Figure {
  fig_width : F;
  fig_height : F;
  fig_axes : list subplot;
  fig_legend : list text;      (* the entries, in a row *)
  fig_columns : Z;
  fig_file : text;
}.

(** The labels of the bars of a subplot that have one. *)
Definition legend_of (ax : subplot) : list text := omap bar_label (ax_bars ax).

(** [plot]: without users [plt.subplots] raises. *)
Definition plot (user_ids : list (list Z)) : res figure :=
  let n := length user_ids in
  if bool_decide (n = 0) then Err ValueError
  else
    axes ← map_res (λ ig : Z * list Z, draw_group n (Z.to_nat ig.1) ig.2)
             (zip (seqZ 0 (Z.of_nat n)) user_ids);
    last_ax ← index_back axes 1;
    Ok (Figure (lit 32 10 * of_Z (Z.of_nat n)) (of_Z 3) axes (legend_of last_ax)
          (Z.of_nat (length labels) - 1) (str "disagg_performance_per_app_type_2app.pdf")).
End bars.

(** The script: the rows of the directories, then the figure. *)
Definition draw_perf {F C} `{PyFloat F} (mean_use : list (option Z) → res F) (np_mean pd_mean : list F → F)
    (color_palette : text → nat → list C) (fs : filesystem) : res (figure (F := F) (C := C)) :=
  '(_, df_c) ← process_directories mean_use np_mean fs use_all_subdirs (directories (F := F))
                 (Some target_cache_bw) cont_logs;
  plot pd_mean color_palette df_c user_to_app labels user_ids.
