(* ===== verification/PerfFigureFacts.v ===== *)
(** * What the performance figure shows

    In exact arithmetic, on rows with positive numbers: the figure is drawn,
    every application has one bar per run that measured it, at consecutive
    positions, with the performance relative to the static run, and inside the
    axis; the legend names the runs of the last application. *)

From Stdlib Require Import Ascii.
From S2P Require Import Prelude PyDict PyFloat Exact BaseExact PyStr Json LogParsers LogTools Config DrawPerf DrawPerfFacts PerfFigure.

(** ** Growing a subplot *)

Section adds.
Context {F C : Type} `{PyFloat F}.
Implicit Types st : figure_state (F := F) (C := C).

(** From [st] to [st'] bars of the heights [hs] were added at the next
    positions, with the labels [ls]. *)
Definition adds (hs : list F) (ls : list text) (st st' : figure_state (F := F) (C := C)) : Prop :=
  ∃ bs, drawn st' = drawn st ++ bs ∧ bar_x <$> bs = seqZ (xpos st) (Z.of_nat (length bs)) ∧
    xpos st' = (xpos st + Z.of_nat (length bs))%Z ∧ bar_height <$> bs = hs ∧ omap bar_label bs = ls.

Lemma adds_nil st st' : drawn st' = drawn st → xpos st' = xpos st → adds [] [] st st'.
Proof. intros Hd Hx. exists []. rewrite app_nil_r. cbn. repeat split; [done|lia]. Qed.

Lemma adds_app hs hs' ls ls' st st1 st2 :
  adds hs ls st st1 → adds hs' ls' st1 st2 → adds (hs ++ hs') (ls ++ ls') st st2.
Proof.
  intros (bs & Hd & Hp & Hx & <- & <-) (bs' & Hd' & Hp' & Hx' & <- & <-). exists (bs ++ bs').
  rewrite Hd', Hd, fmap_app, fmap_app, omap_app, length_app, <- app_assoc.
  split; [done|]. split; [|split; [lia|done]].
  rewrite Hp, Hp', Hx, Nat2Z.inj_add, seqZ_app by lia. done.
Qed.

(** A loop whose bodies add bars. *)
Lemma for_all_adds {X} (f : X → list F) (g : X → list text) body (xs : list X) st :
  (∀ x st, x ∈ xs → returns (body x st) (adds (f x) (g x) st)) →
  returns (for_all body xs st) (adds (xs ≫= f) (xs ≫= g) st).
Proof.
  revert st. induction xs as [|x xs IH]; intros st Hbody; [by apply returns_ret, adds_nil|].
  cbn [for_all mbind list_bind]. eapply returns_bind; [apply Hbody; left|].
  intros st1 H1. eapply returns_mono; [apply IH; intros; apply Hbody; by right|].
  intros st2 H2. by eapply adds_app.
Qed.
End adds.

(** ** The figure *)

Section figure_facts.
Context {C : Type} (pd_mean : list xnum → xnum) (color_palette : text → nat → list C).
Context (dfc : list (cont_row (F := xnum))) (user_to_app : dict Z text) (labels : list text).
Hypothesis mean_pos : ∀ l, l ≠ [] → Forall pos l → pos (pd_mean l).
Hypothesis palette_length : ∀ name n, length (color_palette name n) = n.
Hypothesis rows_pos : Forall (λ r, ∃ x, jnumber (c_perf r) = Ok x ∧ pos x) dfc.

Abbreviation perfs := (perf_of dfc).

(** The runs but the static one, and those that measured an application. *)
Definition runs : list Z := seqZ 1 (Z.of_nat (length labels) - 1).
Definition shown (uid : Z) : list Z := filter (λ fid, perfs uid fid ≠ []) runs.

Definition height (uid fid : Z) : xnum := relative pd_mean (pd_mean (perfs uid 0)) (perfs uid fid).
Definition heights (group : list Z) : list xnum := group ≫= λ uid, height uid <$> shown uid.
Definition run_labels (uid : Z) : list text := (λ fid, labels !!! Z.to_nat fid) <$> shown uid.

(** An application with a name and a static run. *)
Definition has_static (uid : Z) : Prop := uid ∈ dkeys user_to_app ∧ perfs uid 0 ≠ [].

Lemma perfs_pos uid fid : Forall pos (perfs uid fid).
Proof using rows_pos.
  unfold perf_of. apply Forall_forall. intros x (r & Hr & Hx)%list_elem_of_omap.
  apply list_elem_of_filter in Hr as [_ Hr]. rewrite Forall_forall in rows_pos.
  destruct (rows_pos r Hr) as (y & Hy & Hpos). rewrite Hy in Hx. cbn in Hx. by injection Hx as <-.
Qed.

Lemma perf_mean_pos uid fid : perfs uid fid ≠ [] → pos (pd_mean (perfs uid fid)).
Proof using mean_pos rows_pos. intros. by apply mean_pos, perfs_pos. Qed.

Lemma base_get uid : has_static uid → dget (base pd_mean dfc user_to_app) uid = Some (pd_mean (perfs uid 0)).
Proof. intros [Hu _]. unfold base. rewrite dget_foldl_dset. by rewrite decide_True. Qed.

Lemma zip_get {A} (l : list A) a i :
  (a <= i < a + Z.of_nat (length l))%Z → is_Some (dget (zip (seqZ a (Z.of_nat (length l))) l) i).
Proof.
  intros Hi. apply dget_is_Some_keys. unfold dkeys. rewrite fst_zip by (rewrite length_seqZ; lia).
  apply elem_of_seqZ. lia.
Qed.

Lemma draw_bar_adds labelled uid fid st :
  has_static uid → fid ∈ runs →
  returns (draw_bar pd_mean color_palette dfc user_to_app labels labelled uid fid st)
    (adds (if bool_decide (perfs uid fid ≠ []) then [height uid fid] else [])
          (if bool_decide (perfs uid fid ≠ []) then if labelled then [labels !!! Z.to_nat fid] else [] else []) st).
Proof using palette_length.
  intros Hu Hf. apply elem_of_seqZ in Hf. unfold draw_bar.
  destruct (perf_of dfc uid fid) as [|v vals] eqn:E; [by apply returns_ret, adds_nil|].
  rewrite bool_decide_true by done. unfold dgetE. rewrite base_get by done.
  destruct (zip_get (color_palette (str "PuBu") (length labels)) 0 fid) as [c Hc].
  { rewrite palette_length. lia. }
  unfold colors. rewrite Hc. cbn [or_raise mbind res_bind].
  assert (is_Some (dget (hatches labels) fid)) as [h Hh].
  { apply dget_is_Some_keys. unfold dkeys, hatches. rewrite <- list_fmap_compose.
    apply list_elem_of_fmap. exists fid. split; [done|]. apply elem_of_seqZ. lia. }
  rewrite Hh. cbn [or_raise mbind res_bind].
  destruct (lookup_lt_is_Some_2 labels (Z.to_nat fid)) as [l Hl]; [lia|].
  unfold index. rewrite Hl. cbn [or_raise mbind res_bind]. apply returns_ret.
  eexists [_]. cbn. unfold height. rewrite E, (list_lookup_total_correct _ _ _ Hl).
  split; [done|]. split; [done|]. split; [lia|]. split; [done|]. by destruct labelled.
Qed.

Lemma bind_filter {A B} (P : A → Prop) `{∀ x, Decision (P x)} (f : A → B) (l : list A) :
  (l ≫= λ x, if bool_decide (P x) then [f x] else []) = f <$> filter P l.
Proof.
  induction l as [|x l IH]; [done|]. csimpl. rewrite IH, filter_cons.
  case_bool_decide; [by rewrite decide_True|by rewrite decide_False].
Qed.

Lemma draw_user_adds last_ax group uid st :
  has_static uid →
  returns (draw_user pd_mean color_palette dfc user_to_app labels last_ax group uid st)
    (adds (height uid <$> shown uid)
       (if last_ax && bool_decide (last group = Some uid) then run_labels uid else []) st).
Proof using palette_length.
  intros Hu. unfold draw_user. set (labelled := last_ax && _). eapply returns_bind.
  { apply for_all_adds. intros fid st' Hf. by apply draw_bar_adds. }
  cbn beta. intros st' Hst. rewrite bind_filter in Hst.
  destruct (fdiv_fin (of_Z (xpos st' - xpos st - 1)) (of_Z 2)) as (h & Hh & _);
    [apply fin_of_Z|by apply pos_of_Z|].
  rewrite Hh. cbn [mbind res_bind]. apply returns_ret.
  destruct Hst as (bs & Hd & Hp & Hx & Hhs & Hls). exists bs. cbn [drawn xpos].
  split; [done|]. split; [done|]. split; [done|]. split; [done|]. rewrite Hls.
  destruct labelled; [apply (bind_filter (λ fid, perfs uid fid ≠ []))|].
  clear. induction (seqZ _ _) as [|x l IH]; [done|]. csimpl. rewrite IH.
  by destruct (bool_decide _).
Qed.

Lemma height_fin uid fid : has_static uid → fid ∈ shown uid → fin (height uid fid).
Proof using mean_pos rows_pos.
  intros [_ Hs] [Hf _]%list_elem_of_filter.
  destruct (perf_mean_pos uid 0 Hs) as (b & Hb & Hb0), (perf_mean_pos uid fid Hf) as (v & Hv & _).
  unfold height, relative. rewrite Hb, Hv, fquot_Num by by apply pos_ne0.
  apply fin_sub; [apply fin_mul|]; [apply fin_Num|apply fin_of_Z..].
Qed.

Lemma heights_fin group : Forall has_static group → Forall fin (heights group).
Proof using mean_pos rows_pos.
  intros Hg. apply Forall_forall. intros x (uid & Hx & Hu)%list_elem_of_bind.
  apply list_elem_of_fmap in Hx as (fid & -> & Hf). rewrite Forall_forall in Hg. auto using height_fin.
Qed.

(** The application that is labelled is the last one. *)
Lemma labels_of_last (f : Z → list text) group :
  NoDup group →
  (group ≫= λ uid, if bool_decide (last group = Some uid) then f uid else []) =
  match last group with Some uid => f uid | None => [] end.
Proof.
  destruct group as [|uid group _] using rev_ind; [done|]. intros (_ & Hni & _)%NoDup_app.
  rewrite last_snoc, bind_app. csimpl. rewrite bool_decide_true, app_nil_r by done.
  assert (E : ∀ l, (∀ x, x ∈ l → x ≠ uid) →
    (l ≫= λ x, if bool_decide (Some uid = Some x) then f x else []) = []).
  { induction l as [|x l IH]; intros Hl; [done|]. csimpl. rewrite IH by (intros; apply Hl; by right).
    rewrite bool_decide_false; [done|]. intros [= ->]. by destruct (Hl x); [left|]. }
  rewrite E; [done|]. intros x Hx ->. apply (Hni uid Hx). left.
Qed.

(** The bars, the axis and the names of a subplot. *)
Definition shows (group : list Z) (ax : subplot (F := xnum) (C := C)) : Prop :=
  bar_x <$> ax_bars ax = seqZ 0 (Z.of_nat (length (ax_bars ax))) ∧
  bar_height <$> ax_bars ax = heights group ∧
  Forall (λ b, fleb (ax_ylim ax).1 (bar_height b) = true ∧ fleb (bar_height b) (ax_ylim ax).2 = true) (ax_bars ax) ∧
  Forall2 (λ uid name, dget user_to_app uid = Some name) group (ax_xticklabels ax).

Lemma draw_group_shows n i group :
  Forall has_static group → NoDup group →
  returns (draw_group pd_mean color_palette dfc user_to_app labels n i group) (λ ax,
    shows group ax ∧
    (S i = n → legend_of ax = match last group with Some uid => run_labels uid | None => [] end)).
Proof using mean_pos palette_length rows_pos.
  intros Hg Hnd. unfold draw_group. pose proof Hg as Hg'. rewrite Forall_forall in Hg'.
  eapply returns_bind; [apply for_all_adds; intros uid st Hu; by apply draw_user_adds, Hg'|].
  intros st (bs & Hd & Hp & _ & Hh & Hl). cbn [drawn xpos app] in Hd, Hp. cbn beta in Hl.
  eapply returns_bind.
  { apply (map_res_returns _ (λ uid name, dget user_to_app uid = Some name)). intros uid Hu.
    destruct (Hg' uid Hu) as [[name Hn]%dget_is_Some_keys _]. exists name.
    split; [|done]. unfold dgetE. by rewrite Hn. }
  intros names Hnames. fold (heights group) in Hh. rewrite Hd.
  assert (∃ vals, heights group = Num <$> vals) as [vals Hv].
  { pose proof (heights_fin group Hg) as Hf. clear - Hf.
    induction Hf as [|x l [q ->] _ [vals ->]]; [by exists []|by exists (q :: vals)]. }
  destruct (axis_contains_bars vals) as (a & b & k & _ & _ & Hlim & Hin).
  rewrite Hh, Hv, Hlim. cbn [mbind res_bind]. apply returns_ret. unfold shows, legend_of.
  cbn [ax_bars ax_ylim ax_xticklabels fst snd]. split; [split; [done|]; split; [by rewrite Hh|]; split; [|done]|].
  - set (lo := Num (zq a * zq k)%Qc). set (hi := Num (zq b * zq k)%Qc).
    cut (Forall (λ h, fleb lo h = true ∧ fleb h hi = true) (bar_height <$> bs)).
    { by rewrite Forall_fmap. }
    rewrite Hh, Hv, Forall_fmap. eapply Forall_impl; [exact Hin|].
    intros v [H1 H2]. unfold compose, lo, hi. by rewrite !xleb_Num.
  - intros <-. rewrite Hl. rewrite (bool_decide_true (S i = S i)) by done. cbn [andb].
    by apply labels_of_last.
Qed.

(** On rows with positive numbers, when every application has a name and
    a row of the static run, the figure is drawn: every subplot has one bar
    per application and run that measured it, side by side, with the
    performance relative to the static run in percent, all of them inside the
    limits of the axis; the legend has the labels of the runs that measured
    the last application of the last subplot. *)
Theorem figure_shows_runs (user_ids : list (list Z)) group uid :
  Forall (Forall has_static) user_ids → Forall NoDup user_ids →
  last user_ids = Some group → last group = Some uid →
  returns (plot pd_mean color_palette dfc user_to_app labels user_ids) (λ fig,
    Forall2 shows user_ids (fig_axes fig) ∧ fig_legend fig = run_labels uid).
Proof using mean_pos palette_length rows_pos.
  intros Hst Hnd Hlast Huid. rewrite last_lookup in Hlast. unfold plot. set (n := length user_ids) in *.
  assert (Hn : n ≠ 0) by (intros E; rewrite E in Hlast; by destruct user_ids).
  rewrite bool_decide_false by done. set (igs := zip (seqZ 0 (Z.of_nat n)) user_ids).
  assert (Hsnd : igs.*2 = user_ids) by (apply snd_zip; rewrite length_seqZ; lia).
  assert (Hlen : length igs = n) by (by rewrite <- (length_fmap snd), Hsnd).
  eapply returns_bind.
  { apply (map_res_returns _ (λ ig ax, shows ig.2 ax ∧ (S (Z.to_nat ig.1) = n → legend_of ax =
      match last ig.2 with Some uid => run_labels uid | None => [] end))).
    intros [i g] Hig. rewrite Forall_forall in Hst, Hnd.
    assert (g ∈ user_ids) by (rewrite <- Hsnd; by apply (list_elem_of_fmap_2 snd _ (i, g))).
    apply draw_group_shows; auto. }
  intros axes Haxes. pose proof (Forall2_length _ _ _ Haxes) as Hla.
  destruct (lookup_lt_is_Some_2 axes (pred n)) as [ax Hax]; [lia|].
  assert (Hig : igs !! pred n = Some (Z.of_nat (pred n), group)).
  { apply lookup_zip_Some. split; [|done]. apply lookup_seqZ. lia. }
  destruct (Forall2_lookup_lr _ _ _ _ _ _ Haxes Hig Hax) as [_ Hleg]. cbn [fst snd] in Hleg.
  unfold index_back, index. rewrite bool_decide_true by lia.
  replace (length axes - 1) with (pred n) by lia. rewrite Hax. cbn [or_raise mbind res_bind].
  apply returns_ret. cbn [fig_axes fig_legend]. split.
  - rewrite <- Hsnd. apply Forall2_fmap_l. eapply Forall2_impl; [exact Haxes|]. by intros ? ? [? _].
  - rewrite Hleg, Huid by lia. done.
Qed.
End figure_facts.

(** ** Where the figure looks for a run

    [move_logs] run with two applications on the cluster "mindv2" moves the
    logs into the directory the figure reads for the same allocator and
    interval, seen from the current directory. *)
Lemma figure_reads_moved_logs {F} `{PyFloat F} repr (c : config F) allocator d cl bm v x :
  conf_cluster c = Some cl → cluster_name cl = JStr (str "mindv2") →
  benchmark_map c = Some bm → jlen bm = Ok 2%Z →
  allocation_interval c (JInt 10) = Ok v → jfloat v = Ok x →
  log_base repr c allocator = Ok d → app2_dir allocator x = str "./" ++ d.
Proof.
  intros Hcl Hname Hbm Hlen Hint Hx. unfold log_base, cluster_of. rewrite Hint. cbn [mbind res_bind].
  rewrite Hx. cbn [mbind res_bind]. rewrite Hcl, Hbm. cbn [mbind res_bind or_raise]. rewrite Hlen, Hname.
  cbn [mbind res_bind fmt]. intros [= <-]. replace (show 2) with (str "2") by (by vm_compute). done.
Qed.
