(* ===== verification/Samples.v ===== *)
(** * Profiling samples: estimators/data_loader.py, utils/plotting.py

    The samples read from the logs of a profiling run, the averages per cache
    size and bandwidth, and the plots of them: what plotly is asked to draw,
    as records. *)

From S2P Require Import Prelude PyDict PyFloat PyStr Json LogTools DrawPerf.
From Stdlib Require Import Ascii.

(** ** Reading samples *)

Section loader.
Context {F : Type} `{PyFloat F}.
Local Open Scope py_scope.

(** [{'cache_in_mb': .., 'bw_in_gbps': .., 'performance': ..}] *)
Record sample := Sample { cache_in_mb : Z; bw_in_gbps : F; performance : json F }.

(** [v != 0] *)
Definition not_zero (v : json F) : bool :=
  match v with
  | JBool b => b
  | JInt z => negb (z =? 0)%Z
  | JFloat x => negb (feqb x (of_Z 0))
  | _ => true
  end.

(** The body of the loop over the lines, before its exception handler. *)
Definition sample_of (cache_size bandwidth user_id line : text) : res (option sample) :=
  data ← json_loads line;
  m ← jget data (str "map");
  vm ← jget m (str "0");
  app ← jget vm user_id;
  access_rate ← jget app (str "access_rate_ops_sec");
  if not_zero access_rate then
    c ← py_int cache_size;
    b ← py_float bandwidth;
    b ← b / of_Z 1024;
    Ok (Some (Sample c b access_rate))
  else Ok None.

(** One line: a [KeyError] or a [ValueError] skips it, other exceptions
    leave the function. *)
Definition sample_line (cache_size bandwidth user_id line : text) (acc : list sample)
    : res (list sample) :=
  match sample_of cache_size bandwidth user_id line with
  | Ok (Some s) => Ok (acc ++ [s])
  | Ok None => Ok acc
  | Err KeyError | Err ValueError => Ok acc
  | Err e => Err e
  end.

(** [parse_log_file] *)
Definition load_log_file (file : res text) (cache_size bandwidth user_id : text) : res (list sample) :=
  content ← file;
  for_all (sample_line cache_size bandwidth user_id) (readlines content) [].

(** The cache size and the bandwidth in a file name (lines 30-32). *)
Definition name_budget (file_name : text) : res (text * text) :=
  let parts := split (str "_") file_name in
  cache_size ← index parts 1;
  last_part ← index parts 3;
  bandwidth ← index (split (str ".") last_part) 0;
  Ok (cache_size, bandwidth).

(** [collect_data] *)
Definition collect_data (fs : filesystem) (directory user_id : text) : res (list sample) :=
  names ← listdir fs directory;
  for_all (λ file_name acc,
    if starts_with (str "c_") file_name && ends_with (str ".log") file_name then
      '(cache_size, bandwidth) ← name_budget file_name;
      data_points ← load_log_file (read fs (join directory file_name)) cache_size bandwidth user_id;
      Ok (acc ++ data_points)
    else Ok acc) names [].
End loader.

(** ** Averages *)

Section averages.
Context {F : Type} `{PyFloat F}.
Context (np_mean : list F → F).

(** The coordinates of a point: cache size and bandwidth. *)
Abbreviation coord := (Z * F)%type.

(** The values of every coordinate, in the order of the points; values up to
    0.0001 are left out, their coordinates are not (lines 11-16, 66-71). *)
Definition add_point (p : coord * F) (d : dict coord (list F)) : dict coord (list F) :=
  let d := if dmem d p.1 then d else dset d p.1 [] in
  if fltb (lit 1 10000) p.2 then dset d p.1 (default [] (dget d p.1) ++ [p.2]) else d.

(** [for i, x_entry in enumerate(X_new)], reading [y_truth[i]]. *)
Fixpoint group_points (xs : list coord) (ys : list F) (d : dict coord (list F))
    : res (dict coord (list F)) :=
  match xs, ys with
  | [], _ => Ok d
  | _ :: _, [] => Err IndexError
  | x :: xs', y :: ys' => group_points xs' ys' (add_point (x, y) d)
  end.

(** [X_new_avg] and [y_truth_avg] *)
Definition averages (xs : list coord) (ys : list F) : res (list coord * list F) :=
  d ← group_points xs ys [];
  Ok (dkeys d, np_mean <$> dvalues d).

(** ** Plots

    A scatter plot of the averages: the coordinates, the values, which are
    also the colours, and the error bars if there are any. *)
Record trace := Trace {
  tr_x : list F;
  tr_y : list F;
  tr_z : list F;
  tr_error : option (list F);
}.

(** One state: the points, their values and the deviations, which are an
    array or something else.  The coordinates are the columns of an array,
    which has no columns when it has no rows (lines 21-45, 75-96). *)
Definition scatter (xs : list coord) (ys : list F) (stddev : option (list F)) : res trace :=
  '(X_new_avg, y_truth_avg) ← averages xs ys;
  let stddev_list := default [] stddev in
  if bool_decide (X_new_avg = []) then Err IndexError
  else Ok (Trace ((λ k, of_Z k.1) <$> X_new_avg) X_new_avg.*2 y_truth_avg
             (if bool_decide (stddev_list = []) then None else Some stddev_list)).

(** A page with a plot: what is drawn first, the titles, the frames by name,
    and the steps of the slider, each with the frame it shows and its label. *)
Record page := Page {
  pg_traces : list trace;
  pg_axes : text * text * text;
  pg_title : text;
  pg_frames : list (text * trace);
  pg_steps : list (text * text);
  pg_file : text;
}.

Definition axis_titles : text * text * text :=
  (str "Cache in MB", str "Bandwidth in GBps", str "Relative performance (e.g., L3 Miss)").

Definition page_title (file_name : text) : text :=
  str "Gaussian Process Regressor-based estimation :: " ++ file_name.

Definition plot_3d_bar_with_color_based_on_z_avg (xs : list coord) (ys : list F) (file_name : text)
    (stddev : option (list F)) : res page :=
  t ← scatter xs ys stddev;
  Ok (Page [t] axis_titles (page_title file_name) [] [] file_name).

(** One round of the loop over the states (lines 64-102). *)
Definition add_frame (f : Z * (list coord * list F * option (list F)))
    (acc : list (text * trace) * list (text * text)) : res (list (text * trace) * list (text * text)) :=
  let '(frame_idx, (X_new, y_truth, y_truth_stddev)) := f in
  t ← scatter X_new y_truth y_truth_stddev;
  Ok (acc.1 ++ [(show frame_idx, t)], acc.2 ++ [(show frame_idx, show frame_idx)]).

(** The first frame is drawn first; without frames this raises (line 105). *)
Definition plot_3d_with_cache_bw_over_time_animation
    (data_over_time : list (list coord * list F * option (list F))) (file_name : text) : res page :=
  '(frames, steps) ← for_all add_frame
    (zip (seqZ 0 (Z.of_nat (length data_over_time))) data_over_time) ([], []);
  initial ← index frames 0;
  Ok (Page [initial.2] axis_titles (page_title file_name) frames steps file_name).

(** ** Facts *)

(** The values of a coordinate, read off the points directly. *)
Definition values_at (x : coord) (pts : list (coord * F)) : list F :=
  snd <$> filter (λ p, p.1 = x ∧ fltb (lit 1 10000) p.2 = true) pts.

(** Distinct coordinates in the order of their first point. *)
Fixpoint firsts (seen xs : list coord) : list coord :=
  match xs with
  | [] => []
  | x :: xs' => if bool_decide (x ∈ seen) then firsts seen xs' else x :: firsts (seen ++ [x]) xs'
  end.

Lemma firsts_NoDup seen xs : NoDup (firsts seen xs) ∧ ∀ x, x ∈ firsts seen xs → x ∉ seen.
Proof.
  revert seen. induction xs as [|x xs' IH]; intros seen; simpl; [split; [constructor|set_solver]|].
  case_bool_decide as Hx; [apply IH|]. destruct (IH (seen ++ [x])) as [H1 H2]. split.
  - constructor; [|done]. intros Hin. apply H2 in Hin. set_solver.
  - intros z [->|Hz]%elem_of_cons; [done|]. apply H2 in Hz. set_solver.
Qed.

Lemma add_point_get d p x :
  dget (add_point p d) x =
  if decide (p.1 = x) then Some (default [] (dget d x) ++ (if fltb (lit 1 10000) p.2 then [p.2] else []))
  else dget d x.
Proof.
  unfold add_point. destruct p as [y v]. cbn [fst snd].
  assert (E : dget (if dmem d y then d else dset d y []) x =
    if decide (y = x) then Some (default [] (dget d x)) else dget d x).
  { destruct (decide (y = x)) as [->|Hne].
    - unfold dmem. destruct (dget d x) eqn:Ex; [done|]. by rewrite dget_dset_eq.
    - destruct (dmem d y); [done|]. by rewrite dget_dset_ne. }
  destruct (decide (y = x)) as [->|Hne].
  - destruct (fltb _ v); [|by rewrite E, app_nil_r]. by rewrite dget_dset_eq, E.
  - destruct (fltb _ v); [|done]. by rewrite dget_dset_ne.
Qed.

Lemma add_point_keys d p :
  dkeys (add_point p d) = dkeys d ++ (if bool_decide (p.1 ∈ dkeys d) then [] else [p.1]).
Proof.
  unfold add_point. destruct p as [y v]. cbn [fst snd].
  assert (E : dkeys (if dmem d y then d else dset d y []) =
    dkeys d ++ (if bool_decide (y ∈ dkeys d) then [] else [y])).
  { destruct (dmem d y) eqn:Ey.
    - apply dmem_true in Ey. by rewrite bool_decide_true, app_nil_r.
    - rewrite dkeys_dset, Ey. apply dmem_false in Ey. by rewrite bool_decide_false. }
  destruct (fltb _ v); [|done]. rewrite dkeys_dset, E.
  assert (dmem (if dmem d y then d else dset d y []) y = true) as ->; [|done].
  apply dmem_true. rewrite E. case_bool_decide; set_solver.
Qed.

Lemma group_points_spec xs ys d :
  length xs <= length ys → NoDup (dkeys d) →
  ∃ d', group_points xs ys d = Ok d' ∧ dkeys d' = dkeys d ++ firsts (dkeys d) xs ∧
    ∀ x, x ∈ dkeys d' → dget d' x = Some (default [] (dget d x) ++ values_at x (zip xs ys)).
Proof.
  revert ys d. induction xs as [|x xs IH]; intros [|y ys] d Hl Hnd; simpl in *; try lia.
  1,2: exists d; rewrite app_nil_r; split; [done|]; split; [done|]; intros x Hx;
    apply dget_is_Some_keys in Hx as [v ->]; simpl; by rewrite app_nil_r.
  destruct (IH ys (add_point (x, y) d)) as (d' & -> & Hk & Hg); [lia| |].
  { rewrite add_point_keys. cbn [fst]. case_bool_decide; [by rewrite app_nil_r|].
    apply NoDup_app. repeat split; [done|set_solver|apply NoDup_singleton]. }
  exists d'. split; [done|]. rewrite add_point_keys in Hk. cbn [fst] in Hk. split.
  - rewrite Hk, <- app_assoc. f_equal. case_bool_decide; [by rewrite app_nil_r|done].
  - intros z Hz. rewrite (Hg z Hz), add_point_get. cbn [fst snd]. unfold values_at.
    rewrite filter_cons. cbn [fst snd].
    destruct (decide (x = z)) as [->|Hne].
    + simpl. rewrite <- app_assoc. destruct (fltb _ y); [by rewrite decide_True|].
      rewrite decide_False; [done|]. naive_solver.
    + rewrite decide_False; [done|]. naive_solver.
Qed.

(** What is plotted is, for every coordinate in the order of its first point,
    the mean of its values above 0.0001. *)
Theorem averages_spec (xs : list coord) (ys : list F) :
  length xs <= length ys →
  averages xs ys =
  Ok (firsts [] xs, (λ x, np_mean (values_at x (zip xs ys))) <$> firsts [] xs).
Proof.
  intros Hl. unfold averages.
  destruct (group_points_spec xs ys [] Hl) as (d & -> & Hk & Hg); [constructor|].
  cbn [mbind res_bind]. cbn [dkeys fmap list_fmap app] in Hk. rewrite <- Hk. do 2 f_equal.
  unfold dvalues, dkeys. rewrite <- !list_fmap_compose. apply list_fmap_ext.
  intros i [x v] Hi. cbn [compose fst snd]. f_equal.
  assert (Hx : x ∈ dkeys d).
  { apply list_elem_of_fmap. exists (x, v). split; [done|]. by eapply list_elem_of_lookup_2. }
  specialize (Hg x Hx). cbn in Hg.
  assert (Hnd : NoDup (dkeys d)) by (rewrite Hk; apply firsts_NoDup).
  apply list_elem_of_lookup_2 in Hi. apply (dget_In d x v Hnd) in Hi. congruence.
Qed.

(** ** The animation *)

(** A state that can be drawn: points, and a value for each. *)
Definition drawable (f : list coord * list F * option (list F)) : Prop :=
  f.1.1 ≠ [] ∧ length f.1.1 <= length f.1.2.

Lemma scatter_returns xs ys stddev :
  xs ≠ [] → length xs <= length ys →
  returns (scatter xs ys stddev) (λ t, length (tr_x t) = length (firsts [] xs) ∧
    tr_z t = (λ x, np_mean (values_at x (zip xs ys))) <$> firsts [] xs).
Proof.
  intros Hne Hl. unfold scatter. rewrite averages_spec by done. cbn [mbind res_bind].
  destruct xs as [|x xs]; [done|].
  rewrite bool_decide_false by (cbn [firsts]; by rewrite bool_decide_false by set_solver).
  apply returns_ret. cbn [tr_x tr_z]. by rewrite length_fmap.
Qed.

(** The frames and steps of the states from number [n] on. *)
Lemma add_frames fs n acc :
  Forall drawable fs →
  returns (for_all add_frame (zip (seqZ n (Z.of_nat (length fs))) fs) acc) (λ acc',
    ∃ ts, acc' = (acc.1 ++ zip (show <$> seqZ n (Z.of_nat (length fs))) ts,
                  acc.2 ++ ((λ s, (s, s)) <$> (show <$> seqZ n (Z.of_nat (length fs))))) ∧
      Forall2 (λ f t, scatter f.1.1 f.1.2 f.2 = Ok t) fs ts).
Proof.
  intros Hfs. revert n acc. induction Hfs as [|[[xs ys] sd] fs [Hne Hl] Hfs IH]; intros n [fr st].
  { apply returns_ret. exists []. by rewrite !app_nil_r. }
  cbn [length]. rewrite Nat2Z.inj_succ, seqZ_cons, Z.pred_succ by lia.
  cbn [zip zip_with for_all fst snd] in *.
  destruct (scatter_returns xs ys sd Hne Hl) as (t & Ht & _).
  assert (E : add_frame (n, (xs, ys, sd)) (fr, st) = Ok (fr ++ [(show n, t)], st ++ [(show n, show n)]))
    by (unfold add_frame; by rewrite Ht).
  unfold zip in *. rewrite E. cbn [mbind res_bind].
  eapply returns_mono; [apply IH|]. intros acc' (ts & -> & Hts). exists (t :: ts).
  split; [|by constructor]. cbn [fst snd fmap list_fmap zip zip_with]. by rewrite <- !app_assoc.
Qed.

(** With at least one state, and points in every state, the animation is
    drawn: its frames are the states in order, numbered from 0, the step with
    a number shows the frame of that number, and the first state is shown
    first. *)
Theorem animation_frames f fs file_name :
  Forall drawable (f :: fs) →
  ∃ t ts, plot_3d_with_cache_bw_over_time_animation (f :: fs) file_name =
      Ok (let names := show <$> seqZ 0 (Z.of_nat (length (f :: fs))) in
          Page [t] axis_titles (page_title file_name) (zip names (t :: ts))
            ((λ s, (s, s)) <$> names) file_name) ∧
    Forall2 (λ f t, scatter f.1.1 f.1.2 f.2 = Ok t) (f :: fs) (t :: ts).
Proof.
  intros Hfs. unfold plot_3d_with_cache_bw_over_time_animation.
  destruct (add_frames (f :: fs) 0 ([], []) Hfs) as (acc & -> & ts & -> & Hts).
  destruct ts as [|t ts]; [by inversion Hts|]. exists t, ts. split; [|done].
  cbn [mbind res_bind fst snd app]. by rewrite seqZ_cons by (simpl; lia).
Qed.

(** Without states, or with a first state without points, it raises. *)
Lemma animation_empty file_name :
  plot_3d_with_cache_bw_over_time_animation [] file_name = Err IndexError ∧
  ∀ ys sd fs, plot_3d_with_cache_bw_over_time_animation (([], ys, sd) :: fs) file_name = Err IndexError.
Proof.
  split; [done|]. intros ys sd fs. unfold plot_3d_with_cache_bw_over_time_animation. cbn [length].
  by rewrite Nat2Z.inj_succ, seqZ_cons by lia.
Qed.
End averages.
