(* ===== verification/Scripts.v ===== *)
(** * Scripts of the local enforcer: local-enforcer/scripts, scripts

    Which commands run_clients.py and collect_cont_logs.py hand to the shell,
    and the memory in use that get_all_container_memuse.py adds up.  The
    shell, docker's output and the configuration file are parameters. *)

From S2P Require Import Prelude PyDict PyFloat PyStr Regex Json LogParsers LogTools DrawPerf.
From Stdlib Require Import Ascii.

(** How a script ends: with an exit code, or with an exception. *)
Inductive ending := Exit (code : Z) | Raise (e : exn).

(** The commands that were run, and the end. *)
Record outcome := Outcome { commands : list text; ended : ending }.

(** ** Starting the clients: run_clients.py *)

Definition container_name (app_id : text) : text := str "spirit_mc_client_" ++ app_id.

Definition cleanup_cmd (app_id : text) : text :=
  str "docker rm -f " ++ container_name app_id ++ str " 2>/dev/null || true".

Definition docker_cmd (app_id config_subpath : text) : text :=
  str "docker run -d --rm -v $(pwd)/target/release/bench-mc-client:/bench-mc-client:ro -v /workload:/workload:ro -v $(pwd)/benchmarks/ycsb:/ycsb:ro -v $(pwd)/" ++
  config_subpath ++ str ":/configs:ro --network host --name " ++ container_name app_id ++
  str " bench-mc-client-docker".

Section scripts.
Context {F : Type} `{PyFloat F}.
(** The return code of a command. *)
Context (shell : text → Z).

(** The loop over the clients (lines 41-70): a client whose container does
    not start ends the script. *)
Fixpoint start_clients (clients : dict text (json F)) (run : list text) : outcome :=
  match clients with
  | [] => Outcome run (Exit 0)
  | (app_id, config_subpath) :: clients' =>
      let run := run ++ [cleanup_cmd app_id] in
      match config_subpath with
      | JStr subpath =>
          let cmd := docker_cmd app_id subpath in
          let run := run ++ [cmd] in
          if (shell cmd =? 0)%Z then start_clients clients' run else Outcome run (Exit 1)
      | _ => Outcome run (Raise TypeError)
      end
  end.

(** [config.get(k)] *)
Definition config_get (config : json F) (k : text) : res (json F) :=
  match config with
  | JObj d => Ok (default JNull (dget d k))
  | _ => Err AttributeError
  end.

(** [x is None or len(x) == 0] *)
Definition is_empty (x : json F) : res bool :=
  match x with
  | JNull => Ok true
  | JArr l => Ok (bool_decide (length l = 0))
  | JObj d => Ok (bool_decide (length d = 0))
  | JStr s => Ok (bool_decide (length s = 0))
  | _ => Err TypeError
  end.

(** The script: [argument] tells whether one was passed, [config] is the
    decoded file, [None] when it does not exist. *)
Definition run_clients (argument : bool) (config : option (res (json F))) : outcome :=
  if negb argument then Outcome [] (Exit (-1)) else
  match config with
  | None => Outcome [] (Exit (-1))
  | Some file =>
      match config ← file; l ← config_get config (str "config_path"); e ← is_empty l; Ok (l, e) with
      | Err e => Outcome [] (Raise e)
      | Ok (_, true) => Outcome [] (Exit 0)
      | Ok (JObj clients, false) => start_clients clients []
      | Ok (_, false) => Outcome [] (Raise AttributeError)
      end
  end.

(** ** Collecting the logs: collect_cont_logs.py *)

Definition log_dir_path : text := str "/tmp/spirit_logs/".

Definition log_file (container : text) : text := join log_dir_path (container ++ str ".log").

Definition log_cmd (container : text) : text :=
  if contains (str "compress") container
  then str "docker cp " ++ container ++ str ":/data/progress.log " ++ log_file container
  else str "docker logs " ++ container ++ str " > " ++ log_file container.

(** The loop over the containers (lines 59-76): the entries are strings;
    concatenating another value raises. *)
Fixpoint collect_logs (containers : list (json F)) (run : list text) : outcome :=
  match containers with
  | [] => Outcome run (Exit 0)
  | JStr container :: containers' => collect_logs containers' (run ++ [log_cmd container])
  | _ :: _ => Outcome run (Raise TypeError)
  end.

Definition collect_cont_logs (argument : bool) (config : option (res (json F))) (log_dir_exists : bool)
    : outcome :=
  if negb argument then Outcome [] (Exit (-1)) else
  match config with
  | None => Outcome [] (Exit (-1))
  | Some file =>
      match config ← file; l ← config_get config (str "log_collect"); e ← is_empty l; Ok (l, e) with
      | Err e => Outcome [] (Raise e)
      | Ok (_, true) => Outcome [] (Exit 0)
      | Ok (l, false) =>
          let run := (if log_dir_exists then [str "rm -rf " ++ log_dir_path] else []) ++
                     [str "mkdir -p " ++ log_dir_path] in
          match jiter l with
          | Ok containers => collect_logs containers run
          | Err e => Outcome run (Raise e)
          end
      end
  end.

(** ** Memory in use: get_all_container_memuse.py *)

Local Open Scope py_scope.

(** [([0-9\.]+)([A-Za-z]+)] *)
Definition usage_pattern : re := (Group decimals @@ Group letters)%re.

(** [parse_memory_usage], in MiB: a text that does not match has no groups. *)
Definition parse_memory_usage (mem_usage_str : text) : res F :=
  match re_match usage_pattern mem_usage_str with
  | Some (_, [mem_value; mem_unit]) =>
      x ← py_float mem_value;
      if decide (mem_unit = str "GiB") then Ok (x * of_Z 1024)
      else if decide (mem_unit = str "MiB") then Ok x
      else if decide (mem_unit = str "KiB") then x / of_Z 1024
      else Err ValueError
  | _ => Err AttributeError
  end.

(** One row of [docker stats] (lines 27-37): a [ValueError] is reported and
    the row skipped, another exception ends the script. *)
Definition usage_row (line : text) (total : F) : res F :=
  let columns := words line in
  if (6 <=? length columns)%nat then
    mem_usage_str ← index columns 3;
    usage ← index (split (str "/") mem_usage_str) 0;
    match parse_memory_usage (strip usage) with
    | Ok mib => Ok (total + mib)
    | Err ValueError => Ok total
    | Err e => Err e
    end
  else Ok total.

(** [get_total_memory_usage] on the lines docker printed. *)
Definition get_total_memory_usage (output : list text) : res F :=
  for_all usage_row (drop 1 output) (of_Z 0).
End scripts.

(** ** Facts *)

Lemma join_log_dir (f : text) : starts_with (str "/") f = false → join log_dir_path f = log_dir_path ++ f.
Proof. intros Hf. unfold join. by rewrite Hf. Qed.

(** A name without a slash is the last part of the path it is put into. *)
Lemma basename_log_dir (f : text) : "/"%char ∉ f → basename (log_dir_path ++ f) = f.
Proof.
  intros Hf. unfold basename.
  change (log_dir_path ++ f) with ([] ++ str "/" ++ str "tmp" ++ str "/" ++ str "spirit_logs" ++ str "/" ++ f).
  assert (Hn : "/"%char ∉ take 0 (str "/")) by apply not_elem_of_nil.
  rewrite !(split_first (str "/") 0 "/"%char) by (try done; apply (bool_decide_unpack _); vm_compute; exact I).
  by rewrite (split_none (str "/") 0 "/"%char).
Qed.

(** The log of a client that run_clients.py starts is stored by
    collect_cont_logs.py under the name the memcached parser expects, and the
    analysis chooses that parser for it. *)
Theorem client_log_is_parsed (app_id : text) (latency : bool) :
  "/"%char ∉ app_id → contains (str "compress") (container_name app_id) = false →
  log_cmd (container_name app_id) =
    str "docker logs " ++ container_name app_id ++ str " > " ++ log_file (container_name app_id) ∧
  basename (log_file (container_name app_id)) = memcached_log_filename app_id ∧
  select_parser (log_file (container_name app_id)) latency = Some (Memcached latency).
Proof.
  intros Hs Hc. unfold log_cmd. rewrite Hc. split; [done|].
  assert (Hf : log_file (container_name app_id) = log_dir_path ++ container_name app_id ++ str ".log").
  { apply join_log_dir. done. }
  rewrite Hf. split.
  - rewrite basename_log_dir; [unfold container_name, memcached_log_filename; by rewrite <- app_assoc|].
    unfold container_name. rewrite !not_elem_of_app. repeat split; try done;
      apply (bool_decide_unpack _); vm_compute; exact I.
  - unfold select_parser. rewrite (proj2 (contains_true (str "spirit_mc_client") _)); [done|].
    exists log_dir_path, (str "_" ++ app_id ++ str ".log"). done.
Qed.

(** docker prints [--] for a container that is not running; the script does
    not catch what parsing it raises. *)
Lemma stopped_container_raises {F} `{PyFloat F} (line : text) (total : F) :
  6 ≤ length (words line) → words line !! 3 = Some (str "--") →
  usage_row line total = Err AttributeError.
Proof.
  intros Hl Hw. unfold usage_row, index. rewrite (proj2 (Nat.leb_le _ _) Hl), Hw. reflexivity.
Qed.
