(* ===== verification/Examples.v ===== *)
(** * Concrete runs

    One small cluster, two VMs with two applications each, on which the
    definitions are evaluated and the theorems are applied. *)

From S2P Require Import Prelude PyDict Nested PyFloat Exact Resources Ptas PtasFacts PtasExact Base BaseExact Spirit SpiritFacts SpiritExact SpiritRounds StaticAlloc Json Params Monitor MonitorFacts Estimator EstimatorExact System Controllers FijTrade FijFacts FijExact.

Module Examples.

Definition nq (n : Z) (d : positive) : xnum := Num (Q2Qc (n # d)).

(** 10 GB of cache and 7.5 Gbps per VM. *)
Definition rs0 : scale xnum :=
  Scale (nq 10240 1) (nq 15 2) (Some (nq 768 1)) (Some (nq 9000 1)) (Some (nq 3 4)) (Some (nq 7 1)).

Definition par0 : spirit_params xnum := SpiritParams 3 (nq 1 20) (nq 1 4) false 5 25.
Definition users0 : list Z := [1; 2; 3; 4]%Z.
Definition map0 : vm_map := [(0, [2; 1]); (1, [3; 4])]%Z.

(** Application 1 profits more from cache than the others. *)
Definition est0 (u : Z) (c b : xnum) : res xnum :=
  Ok (c * (if (u =? 1)%Z then nq 1 1000 else nq 1 5000) + b)%py.

Lemma limits_set0 : positive_limits rs0.
Proof. do 6 eexists. split; [reflexivity|]. by repeat split. Qed.

(** The same VMs with the maxima [load_config] takes when the file names
    none. *)
Definition rsd : scale xnum :=
  Scale (nq 10240 1) (nq 15 2) (Some (nq 768 1)) (Some (nq 10240 1)) (Some (nq 3 4)) (Some (nq 15 2)).

Lemma limits_setd : positive_limits rsd.
Proof. do 6 eexists. split; [reflexivity|]. by repeat split. Qed.

Lemma est0_total : est_total est0.
Proof. intros u c b Hc Hb. apply returns_ret. case_match; fin_auto. Qed.

Lemma map0_distinct : NoDup (mapped_users map0).
Proof. by apply (bool_decide_unpack _). Qed.

Lemma usable0 : usable rs0 par0 map0 users0.
Proof.
  split; [exact limits_set0|done|exact map0_distinct|reflexivity|]. intros vm _ _.
  do 8 eexists. split_and!; [reflexivity..|done|done|]. by left.
Qed.

(** Both VMs have two applications, so the default maxima will do. *)
Lemma usabled : usable rsd par0 map0 users0.
Proof.
  split; [exact limits_setd|done|exact map0_distinct|reflexivity|].
  intros vm [->|[->|?%elem_of_nil]%elem_of_cons]%elem_of_cons _; [..|done];
    do 8 eexists; (split_and!; [reflexivity..|done|done|]); right; left; unfold shared; split_and!; by vm_compute.
Qed.

(** ** Spirit rounds *)

Definition round0 := allocate_and_parse est0 rs0 par0 false map0 users0 2 (λ _, None) new_spirit.
Definition al0 : dict Z units := match round0 with Ok (Some (al, _)) => al | _ => [] end.
Definition s0 : spirit xnum := match round0 with Ok (Some (_, s)) => s | _ => new_spirit end.
Definition round1 := allocate_and_parse est0 rs0 par0 false map0 users0 2 (λ _, Some 3%Z) s0.
Definition al1 : dict Z units := match round1 with Ok (Some (al, _)) => al | _ => [] end.
Definition s1 : spirit xnum := match round1 with Ok (Some (_, s)) => s | _ => new_spirit end.

(** The static round halves each VM; the dynamic one gives application 1 cache
    and application 2 bandwidth. *)
Example rounds_run :
  al0 = [(1, Units 5120 3840); (2, Units 5120 3840); (3, Units 5120 3840); (4, Units 5120 3840)]%Z ∧
  al1 = [(1, Units 7680 1536); (2, Units 2560 5376); (3, Units 5120 3840); (4, Units 5120 3840)]%Z.
Proof. vm_compute. auto. Qed.

Lemma steady0 : steady rs0 par0 map0 users0 al0 s0.
Proof.
  apply (steady_static rs0 par0 map0 users0 est0 false 2 (λ _, None) new_spirit); [reflexivity|done|].
  unfold al0, s0. fold round0. destruct round0 as [[[al s]|]|] eqn:E; [done|vm_compute in E; discriminate E..].
Qed.

Lemma steady1 : steady rs0 par0 map0 users0 al1 s1.
Proof.
  apply (steady_round rs0 par0 map0 users0 est0 false 2 (λ _, Some 3%Z) al0 s0); [apply est0_total|apply steady0|].
  unfold al1, s1. fold round1. destruct round1 as [[[al s]|]|] eqn:E; [done|vm_compute in E; discriminate E..].
Qed.

Lemma spirit_within_capacity_witness :
  within_capacity (Q2Qc (10240 # 1)) (Q2Qc (15 # 2)) al1 (vm_apps [2; 1]%Z users0).
Proof.
  apply (spirit_within_capacity rs0 par0 map0 users0 (Q2Qc (10240 # 1)) (Q2Qc (15 # 2)) al1 s1
    usable0 eq_refl eq_refl steady1 (0%Z, [2; 1]%Z)).
  left.
Defined.

Lemma spirit_round_returns_witness :
  ∃ al s, allocate_and_parse est0 rs0 par0 false map0 users0 2 (λ _, Some 4%Z) s1 = Ok (Some (al, s)).
Proof.
  exact (spirit_round_returns rs0 par0 map0 users0 est0 false 2 (λ _, Some 4%Z) al1 s1 usable0 steady1 est0_total).
Defined.

(** ** One user's search *)

Definition pr0 : price xnum := Price (nq 1 2) (nq 1 2).
Definition last0 : dict Z (alloc xnum) := default [] (last_allocation s0).
Definition sr0 : search_dict xnum := get_search_dict (share (nq 1 2) (nq 1 2)) (nq 1 4).
Abbreviation search0 :=
  (ptas_algorithm est0 1 (nq 1 20) (nq 1 2) pr0 (Some last0) (Some last0) rs0 sr0 default_params).
Definition found0 : alloc xnum :=
  match search0 with Ok (Some a, _, _) => a | _ => share (nq 0 1) (nq 0 1) end.

(** The user is given three quarters of the cache and a fifth of the
    bandwidth, and no limit was hit. *)
Example search_runs :
  a_cache found0 = nq 3 4 ∧ a_mem_bw found0 = nq 1 5.
Proof. split; (vm_compute; apply (f_equal Num), Qc_is_canon; reflexivity). Qed.

Lemma search0_ok : search0 = Ok (Some found0, 11%Z, no_limit).
Proof.
  unfold found0. destruct search0 as [[[[a|] n] rl]|] eqn:E; [|vm_compute in E; discriminate E..].
  assert (Hn : match search0 with Ok (_, n, rl) => (n, rl) | _ => (0%Z, no_limit) end = (11%Z, no_limit))
    by (vm_compute; reflexivity).
  rewrite E in Hn. by injection Hn as -> ->.
Qed.

Lemma ptas_respects_limits_witness :
  within_limits (ensure_fields rs0) found0 ∨
  ∃ u, static_candidate est0 1 (Some last0) (nq 1 2) (nq 1 20) pr0 (ensure_fields rs0) sr0 default_params
       = Ok (Some found0, u).
Proof.
  exact (ptas_respects_limits est0 1 (nq 1 20) (nq 1 2) pr0 (Some last0) (Some last0) rs0 sr0
    default_params found0 11 no_limit search0_ok).
Defined.

(** The grid point at half of the cache. *)
Abbreviation half_point :=
  (eval_point est0 1 (nq 1 2 * margin_in_budget default_params)%py (nq 1 20) pr0 (Some last0)
    (ensure_fields rs0) default_params 10).
Definition half_share : alloc xnum :=
  match half_point with Ok (Some (a, _)) => a | _ => share (nq 0 1) (nq 0 1) end.
Definition half_util : xnum := match half_point with Ok (Some (_, u)) => u | _ => nq 0 1 end.

Lemma half_point_ok : half_point = Ok (Some (half_share, half_util)).
Proof.
  unfold half_share, half_util. destruct half_point as [[[a u]|]|] eqn:E; [done|vm_compute in E; discriminate E..].
Qed.

Lemma ptas_near_optimal_witness :
  ∃ u, origin est0 1 (nq 1 20) (nq 1 2) pr0 (Some last0) (Some last0) rs0 sr0 default_params found0 u ∧
       near_optimal default_params u half_util.
Proof.
  apply (ptas_near_optimal est0 1 (nq 1 20) (nq 1 2) pr0 (Some last0) (Some last0) rs0 sr0 default_params
    found0 11 no_limit (seqZ 1 20) (seqZ 1 9) 10 (seqZ 11 10) half_share half_util).
  - exact search0_ok.
  - reflexivity.
  - vm_compute. reflexivity.
  - vm_compute. reflexivity.
  - repeat (apply Forall_cons; split; [intros [_ Ho]; vm_compute in Ho; discriminate Ho|]). apply Forall_nil. done.
  - split; [vm_compute; reflexivity|vm_compute; reflexivity|exact half_point_ok|].
    do 4 eexists. split_and!; [reflexivity..|split; vm_compute; reflexivity|split; vm_compute; reflexivity].
Defined.

Lemma grid_share_affordable_witness :
  ∃ c b, half_share = share (Num c) (Num b) ∧ (c * Q2Qc (1 # 2) + b * Q2Qc (1 # 2) <= Q2Qc (1 # 2))%Qc.
Proof.
  apply (grid_share_affordable est0 rs0 pr0 (Q2Qc (1 # 2)) (Q2Qc (1 # 2)) (Q2Qc (97 # 100)) (Q2Qc (1 # 2)) 1
    (nq 1 20) (Some last0) default_params 10 half_share half_util).
  - exact (proj1 (limits_scale_ok _ limits_set0)).
  - by exists (Q2Qc (1 # 20)).
  - reflexivity.
  - done.
  - done.
  - reflexivity.
  - done.
  - exact half_point_ok.
Defined.

Lemma last0_pos u : entry_ok u (Some last0).
Proof.
  intros a Ha. assert (Hin : (u, a) ∈ last0) by (by apply dget_Some_elem).
  assert (Hall : Forall (λ p : Z * alloc xnum, share_pos p.2) last0); [|by apply (proj1 (Forall_forall _ _) Hall) in Hin].
  unfold last0. vm_compute. repeat constructor; eexists; (split; [reflexivity|]); reflexivity.
Qed.

Lemma ptas_returns_witness :
  ∃ a n rl, search0 = Ok (Some a, n, rl).
Proof.
  apply (ptas_returns est0 rs0 pr0 (nq 1 20) 1 (nq 1 2) (Some last0) (Some last0) sr0 default_params).
  - apply est0_total.
  - exact (proj1 (limits_scale_ok _ limits_set0)).
  - split; by eexists.
  - by exists (Q2Qc (1 # 20)).
  - fin_auto.
  - split; [apply last0_pos|right; right; vm_compute; eauto].
  - apply last0_pos.
  - fin_auto.
  - apply default_params_ok.
  - vm_compute. eauto.
Defined.

Abbreviation repaired0 :=
  (repair_static (share (nq 1 2) (nq 1 2)) (nq 1 4) (nq 1 1) (nq 1 2) pr0 rs0).
Definition repaired : xnum * xnum := match repaired0 with Ok p => p | _ => (nq 0 1, nq 0 1) end.

Lemma repair_static_truncates_witness : repaired = (nq 1 2, nq 1 2) ∨ repaired.2 = of_Z 0.
Proof.
  assert (Hr : repaired0 = Ok (repaired.1, repaired.2)).
  { unfold repaired. destruct repaired0 as [[c b]|] eqn:E; [done|vm_compute in E; discriminate E]. }
  destruct (repair_static_truncates (share (nq 1 2) (nq 1 2)) (nq 1 4) (nq 1 1) (nq 1 2) pr0 rs0
    (Q2Qc (15 # 2)) (Q2Qc (3 # 4)) (Q2Qc (7 # 1)) repaired.1 repaired.2) as [E|E];
    [reflexivity|reflexivity|reflexivity|done|done|done|fin_auto|vm_compute; reflexivity|exact Hr| |].
  - left. rewrite (surjective_pairing repaired). exact E.
  - by right.
Defined.

(** ** A converged price search *)

Definition weights0 : dict Z xnum := [(1, nq 1 2); (2, nq 1 2)]%Z.
Abbreviation vm_search := (allocate est0 rs0 par0 Binary [1; 2]%Z weights0 s0).
Definition vm_alloc : dict Z (alloc xnum) := match vm_search with Ok (Some (d, _, _)) => d | _ => [] end.
Definition vm_state : spirit xnum := match vm_search with Ok (Some (_, _, s)) => s | _ => s0 end.

Lemma vm_search_ok : vm_search = Ok (Some (vm_alloc, true, vm_state)).
Proof.
  unfold vm_alloc, vm_state.
  assert (Hc : match vm_search with Ok (Some (_, c, _)) => c | _ => false end = true) by (vm_compute; reflexivity).
  destruct vm_search as [[[[d c] s]|]|]; [by rewrite Hc|discriminate Hc..].
Qed.

Lemma allocate_converged_witness : dkeys vm_alloc = [1; 2]%Z ∧ clears vm_alloc.
Proof.
  apply (allocate_converged est0 rs0 par0 Binary [1; 2]%Z weights0 s0 vm_alloc vm_state).
  - by apply (bool_decide_unpack _).
  - exact vm_search_ok.
Defined.

(** ** Static allocation *)

Lemma static_allocation_fits_witness :
  ∃ al, Static.allocate_and_parse rs0 map0 users0 2 = Ok al ∧
    (∀ vm, vm ∈ map0 → Static.group_fits (Q2Qc (10240 # 1)) (Q2Qc (15 # 2)) al (filter_apps vm.2 users0)) ∧
    Static.group_fits (Q2Qc (10240 # 1)) (Q2Qc (15 # 2)) al (Static.unassigned_users map0 users0).
Proof.
  apply (Static.static_allocation_fits rs0 (Q2Qc (10240 # 1)) (Q2Qc (15 # 2)) eq_refl eq_refl).
  - done.
  - done.
  - done.
  - exact map0_distinct.
Defined.

(** Five users on two VMs: the last one is given a whole VM of its own. *)
Lemma flat_division_total_witness :
  let total := qsum (Static.flat_share 5 2 2 <$> seqZ 0 5) in
  (5 mod 2 = 0 → total = zq 2)%Z ∧ ((5 mod 2 ≠ 0)%Z → (zq 2 < total)%Qc).
Proof. apply (Static.flat_division_total 5 2 2); [lia|reflexivity]. Defined.

(** ** A monitored application *)

Definition deployed0 : dict Z units := [(1, Units 5120 3840)]%Z.
Definition report (perf : Z) : dict Z (dict Z (raw_entry xnum)) :=
  [(0, [(1, RawEntry 5000 1000 perf 8000 (Some [(nq 4096 1, nq 3 10); (nq 8192 1, nq 1 10)]))])]%Z.

Definition ops0 : list (mon_op (F := xnum)) :=
  [OpSetAllocation deployed0; OpCollect 10 (nq 25 1000) (Some (report 400));
   OpCollect 10 (nq 25 1000) (Some (report 500))].
Abbreviation watched := (for_all mon_step ops0 new_monitor).
Definition mon0 : monitor xnum := match watched with Ok m => m | _ => new_monitor end.
Definition mon1 : monitor xnum := match mon_step OpConsume mon0 with Ok m => m | _ => new_monitor end.

(** Two measurements of the same pair, consumed as one record. *)
Example monitor_runs :
  get3 (buffered_data mon0) 1 5120 3840 = Some [400; 500]%Z ∧
  total_record_of mon1 1 = Some 1%Z ∧ get_num_datapoints mon1 1 = 1%Z ∧
  vm_to_app_map mon1 = [(0, [1])]%Z.
Proof. vm_compute. auto. Qed.

Lemma mon0_reach : mon_reach mon0.
Proof.
  apply (mon_reach_run ops0 new_monitor); [apply reach_new|].
  unfold mon0. destruct watched eqn:E; [done|vm_compute in E; discriminate E].
Qed.

Lemma consume0_ok : mon_step OpConsume mon0 = Ok mon1.
Proof. unfold mon1. destruct (mon_step OpConsume mon0) eqn:E; [done|vm_compute in E; discriminate E]. Qed.

Lemma mon1_reach : mon_reach mon1.
Proof. exact (reach_step OpConsume mon0 mon1 mon0_reach consume0_ok). Qed.

Lemma consume_returns_witness :
  ∃ m, consume_collected_data mon0 = Ok m ∧ buffered_data m = [] ∧
    collection_iteration_count m = (collection_iteration_count mon0 + 1)%Z.
Proof. exact (consume_returns mon0 mon0_reach). Defined.

Definition app1 : app_data xnum := default empty_app (dget (collected_data mon1) 1%Z).

Lemma app1_ok : dget (collected_data mon1) 1%Z = Some app1.
Proof. unfold app1. destruct (dget (collected_data mon1) 1%Z) eqn:E; [done|vm_compute in E; discriminate E]. Qed.

Lemma monitor_counters_witness :
  total_record app1 = sum2 (λ l, Z.of_nat (length l)) (datapoints app1) ∧
  total_datapoint app1 = npairs (datapoints app1) ∧
  ∀ c b, get2 (last_updated app1) c b = (get2 (datapoints app1) c b ≫= λ l, snd <$> last l) ∧
         get2 (datapoints app1) c b ≠ Some [].
Proof. exact (monitor_counters mon1 1 app1 mon1_reach app1_ok). Defined.

Lemma consume_adds_medians_witness :
  records (collected_data mon1) 1 5120 3840 =
    records (collected_data mon0) 1 5120 3840 ++
      ((λ l, (median_perf l, collection_iteration_count mon0 + 1)%Z) <$>
         option_list (get3 (buffered_data mon0) 1 5120 3840)) ∧
  StronglySorted Z.lt (records (collected_data mon1) 1 5120 3840).*2 ∧ buffered_data mon1 = [].
Proof. exact (consume_adds_medians mon0 mon1 1 5120 3840 mon0_reach consume0_ok). Defined.

Lemma monitor_buffers_witness :
  (∀ c b l, get3 (buffered_data mon0) 1 c b = Some l → l ≠ [] ∧ no_repeat l) ∧
  (∀ w, dget (recent_measurement mon0) 1%Z = Some w → (Z.of_nat (length w) <= 25)%Z).
Proof. exact (monitor_buffers mon0 1 mon0_reach). Defined.

(** ** The estimator *)

Definition pts0 : list (Qc * Qc) :=
  [(Q2Qc (4096 # 1), Q2Qc (3 # 10)); (Q2Qc (8192 # 1), Q2Qc (1 # 10))].

Lemma pts0_ok : curve_ok pts0.
Proof. repeat constructor; done. Qed.

Lemma miss_rate_monotone_witness :
  ∃ a b, estimate_miss_rate (curve pts0) (nq 1000 1) = Ok (Num a) ∧
         estimate_miss_rate (curve pts0) (nq 5000 1) = Ok (Num b) ∧ (b <= a)%Qc.
Proof.
  apply (miss_rate_monotone pts0 (Q2Qc (1000 # 1)) (Q2Qc (5000 # 1))); [simpl; lia|apply pts0_ok|done].
Defined.

(** A flat end of a curve in binary64. *)
Definition curve64 : mrc_data b64 := [(of_Z 256, lit 9 10); (of_Z 512, lit 1 10); (of_Z 768, lit 1 10)]%Z.

Lemma miss_rate_interpolates_witness :
  ∃ p0 p1, encloses curve64 (of_Z 400) p0 p1 ∧
    estimate_miss_rate curve64 (of_Z 400) =
      Ok (p0.2 + fquot ((p1.2 - p0.2) * (of_Z 400 - p0.1)) (fmax (p1.1 - p0.1) (lit 1 1000000)))%py.
Proof.
  apply (miss_rate_interpolates curve64 (of_Z 400)); [simpl; lia| |done].
  repeat constructor; by vm_compute.
Defined.

(** Rounding makes the estimate at 513 MB exceed the one at 512 MB. *)
Example miss_rate_rounds :
  match estimate_miss_rate curve64 (of_Z 512), estimate_miss_rate curve64 (of_Z 513) with
  | Ok a, Ok b => fltb a b
  | _, _ => false
  end = true.
Proof. vm_compute. reflexivity. Qed.

Lemma miss_rate_at_points_witness :
  estimate_miss_rate (curve pts0) (nq 8192 1) = Ok (nq 1 10).
Proof.
  apply (miss_rate_at_points pts0 (Q2Qc (8192 # 1), Q2Qc (1 # 10))); [simpl; lia|apply pts0_ok|].
  right. left.
Defined.

Definition mr0 : Qc :=
  match estimate_miss_rate (curve pts0) (of_Z 5120) with Ok (Num q) => q | _ => 0%Qc end.

Lemma mr0_ok : estimate_miss_rate (curve pts0) (of_Z 5120) = Ok (Num mr0).
Proof.
  unfold mr0. destruct (estimate_miss_rate (curve pts0) (of_Z 5120)) as [[]|] eqn:E;
    [done|vm_compute in E; discriminate E..].
Qed.

Lemma estimate_at_current_witness :
  relative_perf (Units 5120 3840) (curve pts0) (nq 1000 1) (of_Z 5120) (nq 15 4) = Ok (Num 1%Qc).
Proof.
  apply (estimate_at_current (Units 5120 3840) (curve pts0) (nq 1000 1) (nq 15 4) mr0).
  - simpl. lia.
  - fin_auto.
  - apply (f_equal Num), Qc_is_canon. reflexivity.
  - exact mr0_ok.
  - vm_compute. discriminate.
Defined.

(** ** The control loop *)

(** Two collections in ten seconds. *)
Definition params0 : alloc_params xnum :=
  match StaticAllocatorParams (JInt 10) 3 with Ok p => p | _ => AllocParams (nq 1 16) JNull false 3 None 0 end.

Definition pause0 : xnum := fquot (of_Z 10) (of_Z 2).

Lemma params0_pause : sleep_interval params0 = Ok pause0.
Proof. reflexivity. Qed.

Lemma controller_synced_witness :
  ∃ s0 s al, start (static_allocate rs0 users0 2) (Some params0) false 10 (nq 25 1000)
         [[Some (report 400); Some (report 500)]]
         (System () None new_monitor initial_allocation_map) = Ok s0 ∧
       start (static_allocate rs0 users0 2) (Some params0) false 10 (nq 25 1000)
         [[Some (report 400); Some (report 500)]; [None]]
         (System () None new_monitor initial_allocation_map) = Ok s ∧
       static_allocate rs0 users0 2 (e2e_last_allocation s0) (sys_monitor s0) (sys_alloc s0) = Ok (al, sys_alloc s) ∧
       mon_last_allocation (sys_monitor s) = al ∧ e2e_last_allocation s = Some al ∧ sys_deployed s = command al.
Proof.
  apply (controller_synced (static_allocate rs0 users0 2) (λ _, True) params0 pause0 false 10 (nq 25 1000)
    [[Some (report 400); Some (report 500)]] [None]
    (System () None new_monitor initial_allocation_map)).
  - apply static_total_allocator; [exact (proj1 (limits_scale_ok _ limits_set0))|done|done].
  - exact params0_pause.
  - apply reach_new.
  - done.
Defined.

(** The shares of the second round, as deployed. *)
Definition current1 : dict Z units :=
  [(1, Units 7680 1536); (2, Units 2560 5376); (3, Units 5120 3840); (4, Units 5120 3840)]%Z.

(** All four applications report. *)
Definition app_report (perf : Z) : raw_entry xnum :=
  RawEntry 2000 1000 perf 8000 (Some [(nq 4096 1, nq 3 10); (nq 8192 1, nq 1 10)]).
Definition full_report : dict Z (dict Z (raw_entry xnum)) :=
  [(0, [(2, app_report 300); (1, app_report 400)]); (1, [(3, app_report 500); (4, app_report 600)])]%Z.
Definition ops2 : list (mon_op (F := xnum)) :=
  [OpSetAllocation current1; OpCollect 10 (nq 25 1000) (Some full_report); OpConsume].
Abbreviation watched2 := (for_all mon_step ops2 new_monitor).
Definition mon2 : monitor xnum := match watched2 with Ok m => m | _ => new_monitor end.

Lemma mon2_map : vm_to_app_map mon2 = map0.
Proof. vm_compute. reflexivity. Qed.

Definition reading_fin (m : monitor xnum) (u : Z) : bool :=
  match get_last_usage m u with Some (_, Num _) => true | _ => false end &&
  ((2 <=? length (get_last_mrc m u))%nat &&
   forallb (λ p : xnum * xnum, match p with (Num _, Num _) => true | _ => false end) (get_last_mrc m u)).

(** Finite readings for every application with a positive share of bandwidth. *)
Lemma readings_fin (current : dict Z units) m :
  Forall (λ p : Z * units, (0 < u_mem_bw p.2)%Z) current →
  forallb (reading_fin m) (dkeys current) = true → readings_ok current m.
Proof.
  intros Hc Hr u a usage Ha Hu _. assert (Hin : (u, a) ∈ current) by (by apply dget_Some_elem).
  split; [exact (proj1 (Forall_forall _ _) Hc _ Hin)|].
  rewrite forallb_forall in Hr. specialize (Hr u).
  assert (H : reading_fin m u = true) by (apply Hr, list_elem_of_In, list_elem_of_fmap; by exists (u, a)).
  unfold reading_fin in H. rewrite Hu in H. apply andb_prop in H as [H1 [H2 H3]%andb_prop].
  split; [destruct usage as [c []]; try done; fin_auto|].
  split; [by apply Nat.leb_le|]. apply Forall_forall. intros [x y] Hp.
  rewrite forallb_forall in H3. apply list_elem_of_In, H3 in Hp. destruct x, y; try done; fin_auto.
Qed.

Lemma mon2_readings : readings_ok current1 mon2.
Proof. apply readings_fin; [by apply (bool_decide_unpack _)|vm_compute; reflexivity]. Qed.

Lemma spirit_serves_witness :
  ∃ al s, spirit_allocate rs0 par0 users0 2 false (Some current1) mon2 s1 = Ok (Some (al, s)) ∧
    steady rs0 par0 (vm_to_app_map mon2) users0 al s ∧
    ∀ vm, vm ∈ vm_to_app_map mon2 →
      within_capacity (Q2Qc (10240 # 1)) (Q2Qc (15 # 2)) al (vm_apps vm.2 users0).
Proof.
  apply (spirit_serves rs0 par0 users0 2 false (Q2Qc (10240 # 1)) (Q2Qc (15 # 2)) current1 mon2 al1 s1).
  - rewrite mon2_map. exact usable0.
  - reflexivity.
  - reflexivity.
  - exact mon2_readings.
  - rewrite mon2_map. exact steady1.
Defined.

(** ** Trades *)

Lemma limits0 : limits_ok rs0 (Q2Qc (10240 # 1)) (Q2Qc (15 # 2)).
Proof. split; [done|done|intros x [[= <-]|[= <-]]; by eexists|intros x [[= <-]|[= <-]]; fin_auto]. Qed.

Definition cur0 : dict Z (alloc xnum) := [(1, share (nq 1 2) (nq 1 2)); (2, share (nq 1 2) (nq 1 2))]%Z.
Abbreviation scores_call := (Fij.sensitivity_scores rs0 est0 (nq 1 20) [1; 2]%Z [] cur0).
Definition scores0 : dict Z (Fij.score xnum) := match scores_call with Ok d => d | _ => [] end.
Definition traded0 : dict Z (alloc xnum) :=
  match Fij.trade_resources rs0 mon2 cur0 (nq 1 20) 1 2 cur0 with Ok d => d | _ => [] end.

Lemma scores0_ok : scores_call = Ok scores0.
Proof. unfold scores0. destruct scores_call eqn:E; [done|vm_compute in E; discriminate E]. Qed.

Lemma pair0_ok : Fij.trade_pair scores0 = Some (1, 2)%Z.
Proof. vm_compute. reflexivity. Qed.

Lemma traded0_ok : Fij.trade_resources rs0 mon2 cur0 (nq 1 20) 1 2 cur0 = Ok traded0.
Proof. reflexivity. Qed.

Lemma trade_within_limits_witness :
  (1 ≠ 2)%Z ∧ (1%Z ∈ [1; 2]%Z ∧ 2%Z ∈ [1; 2]%Z) ∧ (1%Z ∉ ([] : list Z)) ∧ (2%Z ∉ ([] : list Z)) ∧
  (∀ u : Z, u ≠ 1%Z → u ≠ 2%Z → dget traded0 u = dget cur0 u) ∧
  ∃ ac ab ac' ab' max_cache min_bw min_cache max_bw,
    dget cur0 1%Z = Some ac ∧ dget cur0 2%Z = Some ab ∧ dget traded0 1%Z = Some ac' ∧ dget traded0 2%Z = Some ab' ∧
    a_cache ac' = fadd (a_cache ac) (nq 1 20) ∧ a_mem_bw ac' = fsub (a_mem_bw ac) (nq 1 20) ∧
    a_cache ab' = fsub (a_cache ab) (nq 1 20) ∧ a_mem_bw ab' = fadd (a_mem_bw ab) (nq 1 20) ∧
    fdiv (default (s_cache rs0) (s_max_cache rs0)) (s_cache rs0) = Ok max_cache ∧
    fdiv (default (lit 0 1) (s_min_mem_bw rs0)) (s_mem_bw rs0) = Ok min_bw ∧
    fdiv (default (lit 0 1) (s_min_cache rs0)) (s_cache rs0) = Ok min_cache ∧
    fdiv (default (s_mem_bw rs0) (s_max_mem_bw rs0)) (s_mem_bw rs0) = Ok max_bw ∧
    fleb (a_cache ac') max_cache = true ∧ fleb min_bw (a_mem_bw ac') = true ∧
    fleb min_cache (a_cache ab') = true ∧ fleb (a_mem_bw ab') max_bw = true.
Proof.
  exact (trade_within_limits rs0 est0 mon2 cur0 (nq 1 20) [1; 2]%Z [] cur0 scores0 1 2 traded0
    scores0_ok pair0_ok traded0_ok).
Defined.

Lemma fij_round_fits_witness :
  ∃ al s, Fij.allocate_and_parse rs0 3 (get_estimation (Some current1) mon2) (nq 1 20) false users0 2 mon2
            Fij.new_fij = Ok (al, s) ∧
    fij_reach rs0 3 (Q2Qc (1 # 20)) users0 2 s ∧
    round_fits (Q2Qc (10240 # 1)) (Q2Qc (15 # 2)) users0 (vm_to_app_map mon2) al.
Proof.
  apply (fij_round_fits rs0 (Q2Qc (10240 # 1)) (Q2Qc (15 # 2)) limits0 3 (Q2Qc (1 # 20))).
  - done.
  - by apply (bool_decide_unpack _).
  - done.
  - exact (runtime_estimator_nonzero current1 mon2 mon2_readings).
  - rewrite mon2_map. exact map0_distinct.
  - apply fij_new.
Defined.

Lemma trade_conserves_witness :
  ∃ cur' f', Fij.trade_resources rs0 mon2 cur0 (nq 1 20) 1 2 cur0 = Ok cur' ∧ repr [1; 2]%Z cur' f' ∧
    (∀ k, total k [1; 2]%Z f' = total k [1; 2]%Z (λ _, (Q2Qc (1 # 2), Q2Qc (1 # 2)))) ∧
    ∀ k, Fij.normalize k [1; 2]%Z cur' = Ok cur'.
Proof.
  apply (trade_conserves mon2 cur0 rs0 (Q2Qc (10240 # 1)) (Q2Qc (15 # 2)) (Q2Qc (1 # 20)) [1; 2]%Z [] cur0
    (λ _, (Q2Qc (1 # 2), Q2Qc (1 # 2))) 1 2).
  - exact limits0.
  - done.
  - intros u a. unfold cur0. simpl. repeat case_decide; intros [= <-]; split; eexists; done.
  - by apply (bool_decide_unpack _).
  - split; [reflexivity|]. intros u Hu. exists None.
    repeat (apply elem_of_cons in Hu as [->|Hu]; [reflexivity|]). set_solver.
  - intros u _. done.
  - exact (trade_pair_trades rs0 est0 (nq 1 20) [1; 2]%Z [] cur0 scores0 1 2 scores0_ok pair0_ok).
  - intros []; vm_compute; discriminate.
Defined.

(** In binary64 the exchange is not exact: among five users at 1/5 a trade of
    1/200 makes the shares of the cache add up to more than 1, and the
    normalisation after it changes a user that did not trade. *)
Definition five64 : dict Z (alloc b64) := (λ u, (u, share (lit 1 5) (lit 1 5))) <$> [1; 2; 3; 4; 5]%Z.

Example trade_rounds :
  match Fij.exchange (lit 1 200) 4%Z 5%Z five64 with
  | Ok d => match Fij.normalize Cache [1; 2; 3; 4; 5]%Z d with
            | Ok d' => match dget d 3%Z, dget d' 3%Z with
                       | Some a, Some a' => fltb (a_cache a') (a_cache a)
                       | _, _ => false
                       end
            | _ => false
            end
  | _ => false
  end = true.
Proof. vm_compute. reflexivity. Qed.
End Examples.
