(* ===== verification/IncExamples.v ===== *)
(** * Concrete runs of the incremental allocator

    Three applications on two VMs.  The controller's answer misses an
    application in one round; after that the allocator gives a VM more than
    it has. *)

From S2P Require Import Prelude PyDict Nested PyFloat Exact Resources Base BaseExact Monitor MonitorFacts FijTrade FijExact IncTrade IncFacts IncExact Examples.
Import Examples Inc.

Module IncExamples.

Definition usersA : list Z := [2; 1; 3]%Z.
Definition mapA : vm_map := [(0, [1; 2]); (1, [3])]%Z.
Definition all_report : dict Z (dict Z (raw_entry xnum)) :=
  [(0, [(1, app_report 400); (2, app_report 300)]); (1, [(3, app_report 500)])]%Z.
Definition part_report : dict Z (dict Z (raw_entry xnum)) :=
  [(0, [(1, app_report 410); (2, app_report 310)])]%Z.
Definition deployedA : dict Z units :=
  [(1, Units 5120 3840); (2, Units 5120 3840); (3, Units 10240 7680)]%Z.

Definition opsA : list (mon_op (F := xnum)) :=
  [OpSetAllocation deployedA; OpCollect 10 (nq 25 1000) (Some all_report); OpConsume].
Definition opsB := opsA ++ [OpCollect 10 (nq 25 1000) (Some part_report); OpConsume].
Definition opsC := opsB ++ [OpCollect 10 (nq 25 1000) (Some all_report); OpConsume].

Definition watch (ops : list (mon_op (F := xnum))) : monitor xnum :=
  match for_all mon_step ops new_monitor with Ok m => m | _ => new_monitor end.

Definition clock0 : Z → xnum := λ _, nq 100 1.
Definition inc_call (mon : monitor xnum) (s : inc xnum) : res (dict Z units * inc xnum) :=
  allocate_and_parse rs0 1 clock0 (nq 1 20) false usersA 2 mon s.
Definition units_of (r : res (dict Z units * inc xnum)) : dict Z units :=
  match r with Ok (al, _) => al | _ => [] end.
Definition state_of (r : res (dict Z units * inc xnum)) : inc xnum :=
  match r with Ok (_, s) => s | _ => new_inc end.
Definition is_ok {A} (r : res A) : bool := match r with Ok _ => true | Err _ => false end.

Definition sA : inc xnum := state_of (inc_call (watch opsA) new_inc).
Definition sB : inc xnum := state_of (inc_call (watch opsA) sA).
Definition sC : inc xnum := state_of (inc_call (watch opsB) sB).
Definition sD : inc xnum := state_of (inc_call (watch opsC) sC).

Lemma call_ok (r : res (dict Z units * inc xnum)) :
  is_ok r = true → r = Ok (units_of r, state_of r).
Proof. by destruct r as [[]|]. Qed.

Lemma watch_reach ops : is_ok (for_all mon_step ops new_monitor) = true → mon_reach (watch ops).
Proof.
  intros Hok. apply (mon_reach_run ops new_monitor); [apply reach_new|]. unfold watch. by destruct for_all.
Qed.

Lemma callA : inc_call (watch opsA) new_inc = Ok (units_of (inc_call (watch opsA) new_inc), sA).
Proof. apply call_ok. vm_compute. reflexivity. Qed.
Lemma callB : inc_call (watch opsA) sA = Ok (units_of (inc_call (watch opsA) sA), sB).
Proof. apply call_ok. vm_compute. reflexivity. Qed.
Lemma callC : inc_call (watch opsB) sB = Ok (units_of (inc_call (watch opsB) sB), sC).
Proof. apply call_ok. vm_compute. reflexivity. Qed.
Lemma callD : inc_call (watch opsC) sC = Ok (units_of (inc_call (watch opsC) sC), sD).
Proof. apply call_ok. vm_compute. reflexivity. Qed.

Lemma mapA_distinct : NoDup (mapped_users mapA).
Proof. by apply (bool_decide_unpack _). Qed.

Lemma map_of_A : vm_to_app_map (watch opsA) = mapA.
Proof. vm_compute. reflexivity. Qed.
Lemma map_of_B : vm_to_app_map (watch opsB) = [(0, [1; 2])]%Z.
Proof. vm_compute. reflexivity. Qed.
Lemma map_of_C : vm_to_app_map (watch opsC) = mapA.
Proof. vm_compute. reflexivity. Qed.

Definition inc_reach0 : inc xnum → Prop := inc_reach rs0 1 (Q2Qc (1 # 20)) usersA 2.

Lemma reachA : inc_reach0 sA.
Proof.
  eapply (inc_round _ _ _ _ _ clock0 false (watch opsA) new_inc);
    [rewrite map_of_A; exact mapA_distinct|apply inc_start|exact callA].
Qed.
Lemma reachB : inc_reach0 sB.
Proof.
  eapply (inc_round _ _ _ _ _ clock0 false (watch opsA) sA);
    [rewrite map_of_A; exact mapA_distinct|exact reachA|exact callB].
Qed.
Lemma reachC : inc_reach0 sC.
Proof.
  eapply (inc_round _ _ _ _ _ clock0 false (watch opsB) sB);
    [rewrite map_of_B; by apply (bool_decide_unpack _)|exact reachB|exact callC].
Qed.

(** The incremental allocator over-allocates a VM after the VM map was
    incomplete for a round: in a reachable state, on a complete map of a
    reachable monitor, it gives the two applications of VM 0 a total of 15360
    MB and 11520 Mbps, when the VM has 10240 MB and 7.5 Gbps (7680 Mbps). *)
Theorem inc_map_change_overallocates :
  ∃ mon s al s', mon_reach mon ∧ inc_reach rs0 1 (Q2Qc (1 # 20)) usersA 2 s ∧
    vm_to_app_map mon = mapA ∧ is_complete_vm_map mapA usersA = true ∧
    allocate_and_parse rs0 1 clock0 (nq 1 20) false usersA 2 mon s = Ok (al, s') ∧
    dget al 1%Z = Some (Units 5120 3840) ∧ dget al 2%Z = Some (Units 10240 7680).
Proof.
  exists (watch opsC), sC, (units_of (inc_call (watch opsC) sC)), sD.
  split; [apply watch_reach; vm_compute; reflexivity|]. split; [exact reachC|].
  split; [exact map_of_C|]. split; [reflexivity|]. split; [exact callD|].
  split; vm_compute; reflexivity.
Qed.

(** ** The theorems at work *)

Lemma full0 : full_limits rs0 (Q2Qc (10240 # 1)) (Q2Qc (15 # 2)).
Proof. split; [exact limits0|split; by eexists|split; by eexists]. Qed.

Lemma inc_round_returns_witness :
  ∃ al s', allocate_and_parse rs0 1 clock0 (nq 1 20) false usersA 2 (watch opsC) sC = Ok (al, s') ∧
    inc_reach rs0 1 (Q2Qc (1 # 20)) usersA 2 s'.
Proof.
  apply (inc_round_returns rs0 _ _ full0 1 (Q2Qc (1 # 20)) ltac:(done) usersA
    ltac:(by apply (bool_decide_unpack _)) 2 ltac:(done) clock0 false (watch opsC) sC).
  - rewrite map_of_C. exact mapA_distinct.
  - exact reachC.
Defined.

Lemma steadyA : inc_steady rs0 1 (Q2Qc (1 # 20)) usersA 2 mapA
  (units_of (inc_call (watch opsA) new_inc)) sA.
Proof.
  apply (steady_first _ _ _ _ _ mapA clock0 false (watch opsA) new_inc);
    [apply inc_start|exact map_of_A|by exists new_inc|exact callA].
Qed.
Lemma steadyB : inc_steady rs0 1 (Q2Qc (1 # 20)) usersA 2 mapA (units_of (inc_call (watch opsA) sA)) sB.
Proof.
  apply (steady_next _ _ _ _ _ mapA clock0 false (watch opsA) _ sA _ _ steadyA map_of_A callB).
Qed.

Lemma inc_steady_fits_witness :
  all_fit (Q2Qc (10240 # 1)) (Q2Qc (15 # 2)) usersA mapA (units_of (inc_call (watch opsA) sA)).
Proof.
  exact (inc_steady_fits rs0 _ _ full0 1 (Q2Qc (1 # 20)) ltac:(done) usersA
    ltac:(by apply (bool_decide_unpack _)) 2 ltac:(done) mapA _ sB mapA_distinct eq_refl steadyB).
Defined.

(** The state in which the first dynamic round looks for its users. *)
Definition sU : inc xnum :=
  match update_last_static_performance rs0 usersA (watch opsA) sA with Ok s => s | _ => sA end.
Definition curU : dict Z (alloc xnum) := [(1, share (nq 1 2) (nq 1 2)); (2, share (nq 1 2) (nq 1 2))]%Z.
Abbreviation worst_call := (find_worst_performer rs0 (watch opsA) (nq 1 20) 0 [1; 2]%Z curU sU).
Definition wU : worst_search xnum := match worst_call with Ok w => w | _ => WorstSearch None finf [] end.

Lemma worst_call_ok : worst_call = Ok wU.
Proof. unfold wU. destruct worst_call eqn:E; [done|vm_compute in E; discriminate E]. Qed.

Lemma inc_serves_worst_witness :
  1%Z ∈ [1; 2]%Z ∧ (1%Z ∉ adjusted_in 0 sU) ∧ may_take rs0 (nq 1 20) 0 curU sU 1 ∧
  ∃ r, has_ratio rs0 (watch opsA) sU 1 r ∧
    ∀ v r', v ∈ [1; 2]%Z → v ∉ adjusted_in 0 sU → may_take rs0 (nq 1 20) 0 curU sU v →
      has_ratio rs0 (watch opsA) sU v r' → fltb r' r = false.
Proof.
  apply (inc_serves_worst rs0 (watch opsA) (nq 1 20) 0 [1; 2]%Z curU sU wU 1 worst_call_ok).
  vm_compute. reflexivity.
Defined.

Lemma inc_harvests_best_witness :
  1%Z ∈ [1; 2]%Z ∧ (1%Z ∉ adjusted_in 0 sU) ∧ may_give rs0 (nq 1 20) curU MemBw 1 ∧
  ∃ r, has_ratio rs0 (watch opsA) sU 1 r ∧
    ∀ v r', (v, r') ∈ performance_ratios wU → may_give rs0 (nq 1 20) curU MemBw v → fltb r r' = false.
Proof.
  apply (inc_harvests_best rs0 (watch opsA) (nq 1 20) 0 [1; 2]%Z curU sU wU MemBw 1 worst_call_ok).
  vm_compute. reflexivity.
Defined.

(** One application, harvested when its performance was 900. *)
Definition sH : inc xnum :=
  IncState (Some [(1%Z, share (nq 1 2) (nq 9 20))]) (Some []) (Some []) []
    [(0%Z, [(1%Z, Decision MemBw Down (Some (nq 900 1)) (nq 50 1))])]
    (Price (nq 0 1) (nq 1 20)) [(0, [1])]%Z.
Abbreviation harvest_call :=
  (harvest_resources rs0 (watch opsA) (nq 100 1) (nq 1 20) 0 MemBw (performance_ratios wU) curU sU).
Definition curV : dict Z (alloc xnum) := match harvest_call with Ok (_, c, _) => c | _ => curU end.
Definition sV : inc xnum := match harvest_call with Ok (_, _, s) => s | _ => sU end.

Lemma harvest_call_ok : harvest_call = Ok (Some 1%Z, curV, sV).
Proof.
  assert (Ho : match harvest_call with Ok (Some u, _, _) => (u =? 1)%Z | _ => false end = true)
    by (vm_compute; reflexivity).
  unfold curV, sV. destruct harvest_call as [[[[u|] c] s]|]; try discriminate Ho.
  by apply Z.eqb_eq in Ho as ->.
Qed.

Lemma inc_revokes_other_resource_witness :
  ∃ ds d, dget (vm_allocation_decisions sV) 0%Z = Some ds ∧ dget ds 1%Z = Some d ∧
    ∀ o, d_performance d = Some o → fltb (nq 100 1) (fsub o (lit 1 100)) = true →
      fltb (nq 100 1) (fsub o (lit 1 10)) = true →
    ∃ s2 last2, judge (nq 1 20) 0 1 d (nq 100 1) sH = Ok s2 ∧ last_allocation s2 = Some last2 ∧
      dget last2 1%Z = Some (a_set Cache (fadd (nq 1 2) (nq 1 20)) (share (nq 1 2) (nq 9 20))) ∧
      pool_get MemBw (remaining_resources s2) = pool_get MemBw (remaining_resources sH).
Proof.
  exact (inc_revokes_other_resource rs0 (nq 1 20) (watch opsA) (nq 100 1) 0 MemBw (performance_ratios wU)
    curU sU 1 curV sV (nq 100 1) sH [(1%Z, share (nq 1 2) (nq 9 20))] (share (nq 1 2) (nq 9 20))
    harvest_call_ok eq_refl eq_refl).
Defined.

(** VM 1 has one application, which the last round adjusted. *)
Definition sE : inc xnum := state_of (inc_call (watch opsC) sD).
Definition sF : inc xnum := state_of (inc_call (watch opsA) sE).

Lemma callE : inc_call (watch opsC) sD = Ok (units_of (inc_call (watch opsC) sD), sE).
Proof. apply call_ok. vm_compute. reflexivity. Qed.
Lemma callF : inc_call (watch opsA) sE = Ok (units_of (inc_call (watch opsA) sE), sF).
Proof. apply call_ok. vm_compute. reflexivity. Qed.

Lemma later_rounds : dynamic_rounds rs0 (nq 1 20) usersA (1, [3])%Z 1 2 sD sF.
Proof.
  assert (Hids : NoDup (dkeys mapA)) by (by apply (bool_decide_unpack _)).
  assert (Hin : (1, [3])%Z ∈ mapA) by (right; left). pose proof mapA_distinct as Hm.
  eapply (next_round _ _ _ _ _ _ clock0 false (watch opsC)); [by rewrite map_of_C..| |exact callE|].
  { vm_compute. reflexivity. }
  eapply (next_round _ _ _ _ _ _ clock0 false (watch opsA)); [by rewrite map_of_A..| |exact callF|apply no_round].
  vm_compute. reflexivity.
Qed.

Definition stored (s : inc xnum) (u : Z) : bool :=
  match last_allocation s with Some d => dmem d u | None => false end.

Lemma stored_has (s : inc xnum) (apps : list Z) : forallb (stored s) apps = true → apps ≠ [] → has_shares apps s.
Proof.
  intros Hall Hne. rewrite forallb_forall in Hall. unfold stored in Hall.
  destruct (last_allocation s) as [d|] eqn:E.
  - exists d. split; [done|]. intros u Hu. apply dget_is_Some_keys, dmem_true, Hall. by apply list_elem_of_In.
  - destruct apps as [|u apps]; [done|]. specialize (Hall u ltac:(by left)). done.
Qed.


Abbreviation check_call :=
  (check_performance_changes rs0 (watch opsA) (nq 1 20) 0 [1]%Z (ensure_vm 0 sH)).
Definition sJ : inc xnum := match check_call with Ok s => s | _ => sH end.
Abbreviation revoke_call := (revoke (nq 1 20) 1 MemBw (ensure_vm 0 sH)).
Definition sR : inc xnum := match revoke_call with Ok s => s | _ => sH end.
Abbreviation vm_call := (allocate_vm rs0 (watch opsA) clock0 (nq 1 20) usersA (0, [1])%Z ([], sH)).
Definition sK : inc xnum := match vm_call with Ok (_, s) => s | _ => sH end.
Definition alK : dict Z units := match vm_call with Ok (al, _) => al | _ => [] end.

Lemma inc_revoke_lost_witness :
  same_shares [1]%Z sH sK ∧
  pool_get MemBw (remaining_resources sK) = fmax (of_Z 0) (fsub (pool_get MemBw (remaining_resources sH)) (nq 1 20)).
Proof.
  apply (inc_revoke_lost rs0 (nq 1 20) usersA (0, [1])%Z (watch opsA) clock0 sH sJ sR 1 MemBw alK sK).
  - by apply (bool_decide_unpack _).
  - apply stored_has; [vm_compute; reflexivity|done].
  - done.
  - unfold sJ. destruct check_call eqn:E; [done|vm_compute in E; discriminate E].
  - reflexivity.
  - vm_compute. reflexivity.
  - vm_compute. reflexivity.
  - intros cur. eexists. split; [apply find_worst_adjusted|reflexivity].
    assert (E : adjusted_in 0 sJ = [1]%Z) by (vm_compute; reflexivity). cbn [fst]. by rewrite E.
  - unfold sK, alK. destruct vm_call as [[]|] eqn:E; [done|vm_compute in E; discriminate E].
Defined.
End IncExamples.
