(* ===== verification/LogExamples.v ===== *)
(** * Concrete configurations and logs

    A configuration in the format of res_allocation/configs, logs in the
    formats the monitor and the memcached client write, and stored runs, on
    which the theorems about them are applied. *)

From S2P Require Import Prelude PyDict PyFloat Exact Resources Base BaseExact Monitor MonitorFacts System Controllers Oracle OracleExact PyStr Regex Logger Json Config ConfigFacts LogParsers LogParsersFacts LogTools LogDirs LogToolsFacts DrawPerf DrawPerfFacts Samples.
From Stdlib Require Import Ascii.

Module LogExamples.

(** ** The configuration *)

Definition kv {F} (k : string) (v : json F) : text * json F := (str k, v).
Arguments kv {F} _%_string_scope _.

Definition cluster1 {F} : dict text (json F) :=
  [kv "name" (JStr (str "mindv2")); kv "total_cache_in_mb" (JInt 5120);
   kv "total_mem_bw_in_mbps" (JInt 5120); kv "min_cache_in_mb" (JInt 512);
   kv "min_mem_bw_in_mbps" (JInt 512); kv "max_cache_in_mb" (JInt 4096)].

Definition config1 {F} : dict text (json F) :=
  [kv "cluster" (JObj cluster1);
   kv "benchmark_map" (JObj [kv "1" (JStr (str "stream")); kv "2" (JStr (str "mc"))]);
   kv "profiles" (JArr [JObj [kv "user_id" (JInt 1); kv "file" (JStr (str "dummy.joblib"))]]);
   kv "allocation_parameters" (JObj [kv "allocation_interval_in_sec" (JInt 30)])].

Definition budgets1 : budgets := (Budgets 5120 5120 512 512 (Some 4096) None)%Z.

Lemma config1_json : config_json (F := xnum) (JObj config1) budgets1 30.
Proof.
  split. do 5 eexists. split; [reflexivity|]. split; [reflexivity|]. split.
  { split; [by eexists|reflexivity..]. }
  split; [reflexivity|]. split; [done|]. split; [reflexivity|]. split; [|by split].
  eexists. split; [reflexivity|]. repeat constructor. eexists. split; [reflexivity|]. split; by eexists.
Qed.


(** ** The monitor's log *)

Definition entry1 : entry b64 := (Entry (Some 1) (Some 2048) (Some 2000) (Some 4096) (Some 4000) (Some 517) None)%Z.
Definition entry2 : entry b64 := (Entry (Some 2) (Some 2048) (Some 3000) (Some 4096) (Some 10) (Some 3) None)%Z.
Definition time1 : text := str "2025-01-31 10:20:30,123".
Definition other1 : text := str "2025-01-31 10:20:31,000 - memcached_mind_monitor - INFO - Updated VM to App mapping: {0: [1, 2]}".

Definition logged1 : list logged := omap (entry_logged (lit 1 40)) [(entry1, 99%Z); (entry2, 7%Z)].

Example logged1_accepted : logged1 = [Logged 1 517 99 2000 2048 4000 4096]%Z.
Proof. vm_compute. reflexivity. Qed.

Definition lines1 : list text := (measurement_line time1 <$> logged1) ++ [other1 ++ ["010"%char]].

Lemma lines1_log : measurement_log logged1 lines1.
Proof.
  unfold lines1. rewrite logged1_accepted. cbn [fmap list_fmap app]. apply mlog_line; [lit_false..|].
  apply (mlog_other other1); [vm_compute; reflexivity|lit_false|]. constructor.
Qed.

Definition mean1 (l : list (option Z)) : res b64 := Ok (of_Z (zsum (default 0%Z <$> l))).

Lemma monitor_log_roundtrip_witness :
  parse_log_file mean1 (Ok (concat lines1)) 3 600 100 (lit 3 10) true (str "perf") =
  Ok [Row 0 (Some 1) (Some 517) (Some (Some 2000, Some 4000)) 3]%Z.
Proof.
  assert (Hm : ∀ l, Forall is_Some l → ∃ x, mean1 l = Ok x) by (intros l _; by eexists).
  pose proof (monitor_log_roundtrip mean1 Hm (lit 1 40) (lit 3 10) [(entry1, 99%Z); (entry2, 7%Z)] lines1
    3 600 100 true (str "perf") lines1_log) as E.
  rewrite E. reflexivity.
Defined.

(** ** The client's log *)

Definition report1 : report :=
  Report 1000 64000 (str "12.5") (str "80.0") (str "90.0") (str "120.0") (str "310.2") 8.
Definition report2 : report :=
  Report 2000 128000 (str "13.0") (str "81.0") (str "91.0") (str "121.0") (str "305.0") 8.

Ltac number a b := exists (str a), (str b); split; [by repeat constructor|]; split; [done|]; split; [by repeat constructor|done].

Lemma reports_ok : report_ok report1 ∧ report_ok report2.
Proof.
  split.
  - split_and!; [simpl; lia..| | | | |]; [number "12" "5"|number "80" "0"|number "90" "0"|number "120" "0"|number "310" "2"].
  - split_and!; [simpl; lia..| | | | |]; [number "13" "0"|number "81" "0"|number "91" "0"|number "121" "0"|number "305" "0"].
Qed.

Definition client_lines : list text :=
  [str "Connected to memcached"; progress_line report1; progress_line report2].

Lemma client_log : log_of ([report1] ++ report2 :: []) client_lines.
Proof.
  unfold client_lines. apply log_other; [vm_compute; reflexivity..|].
  destruct reports_ok. apply log_report; [done|]. apply log_report; [done|]. constructor.
Qed.

Lemma memcached_roundtrip_witness :
  ∃ x : b64, py_float (str "305.0") = Ok x ∧ memcached_parse true (Ok client_lines) = single (JFloat x).
Proof.
  apply (memcached_roundtrip true client_lines [report1] [] report2 client_log); [done| |constructor].
  constructor; [simpl; lia|constructor].
Defined.

(** ** Stored runs *)

Definition run1 : run := Run (Date 2025 1 31 10 20 30) 5120 5120.
Definition run2 : run := Run (Date 2025 2 1 0 0 0) 5120 5120.
Definition run3 : run := Run (Date 2025 2 2 0 0 0) 1024 5120.

Definition config_of (cache : Z) : config b64 :=
  match load_config (JObj [kv "cluster" (JObj [kv "name" (JStr (str "mindv2")); kv "total_cache_in_mb" (JInt cache);
      kv "total_mem_bw_in_mbps" (JInt 5120); kv "min_cache_in_mb" (JInt 512); kv "min_mem_bw_in_mbps" (JInt 512)]);
    kv "benchmark_map" (JObj [kv "1" (JStr (str "stream")); kv "2" (JStr (str "mc"))]);
    kv "allocation_parameters" (JObj [kv "allocation_interval_in_sec" (JInt 30)])]) new_config with
  | Ok c => c
  | Err _ => new_config
  end.

Definition base1 : text := str "logs/mindv2/spirit/App2_int_30.0sec".
Definition stored1 : list (config b64 * run) :=
  [(config_of 5120, run1); (config_of 5120, run2); (config_of 1024, run3)].

Lemma latest_run_found_witness :
  get_latest_subdirectory (run_dir base1 <$> [run1; run2; run3]) (Some (5120, 5120)%Z) = Ok (run_dir base1 run2).
Proof.
  destruct (latest_run_found (F := b64) (λ _, []) (str "spirit") base1 stored1
    (run_dir base1 <$> [run1; run2; run3]) 5120 5120) as (r & Hr & Hc & _ & -> & Hmax).
  - vm_compute. reflexivity.
  - repeat constructor; try (vm_compute; by repeat constructor);
      eexists; (split; [reflexivity|split; reflexivity]).
  - by repeat constructor.
  - simpl in Hr. rewrite !elem_of_cons in Hr. destruct Hr as [->|[->|[->|Hr]]]; [|done|done|by apply elem_of_nil in Hr].
    assert (Hlt : date_ltb (run_date run1) (run_date run2) = false).
    { apply Hmax; [right; left|done|done]. }
    vm_compute in Hlt. discriminate Hlt.
Defined.

(** ** The oracle's normalisation *)

Definition scale1 : scale xnum :=
  Scale (Num (zq 5120)) (Num (zq 5)) None None None None.

Definition profiles1 : list Oracle.profile :=
  [Oracle.Profile 1 None (Some (Oracle.Request (Some 4096) (Some 2048)));
   Oracle.Profile 2 None (Some (Oracle.Request (Some 4096) (Some 2048)));
   Oracle.Profile 3 None (Some (Oracle.Request (Some 9000) None))]%Z.

Definition vms1 : vm_map := [(0, [3]); (1, [1; 2])]%Z.

Lemma oracle_normalised_fits_witness :
  ∃ l' al,
    Oracle.get_oracle_allocation scale1 true vms1 (Some profiles1) = (Some l', Some al) ∧
    OracleExact.group_fits (zq 5120) (zq 5) [1; 2]%Z al ∧
    dget al 3%Z = Some (Some (Oracle.Request (Some 9000) None))%Z.
Proof.
  destruct (OracleExact.oracle_normalised_fits scale1 (zq 5120) (zq 5) vms1 profiles1)
    as (l' & al & Hrun & Hk & Hfit & Hun & _); try done.
  - repeat constructor; (eexists; split; [reflexivity|]); by intros [].
  - exists l', al. split; [done|]. split.
    + specialize (Hfit 1%Z ltac:(done)). rewrite Hk in Hfit. exact Hfit.
    + rewrite Hun by by right. reflexivity.
Defined.

(** Application 3 is on VM 0 and keeps more cache than the VM has; the
    requests of the applications of VM 1 are scaled to it. *)
Example oracle_normalised :
  (Oracle.get_oracle_allocation scale1 true vms1 (Some profiles1)).2 =
  Some [(1, Some (Oracle.Request (Some 2560) (Some 2560)));
        (2, Some (Oracle.Request (Some 2560) (Some 2560)));
        (3, Some (Oracle.Request (Some 9000) None))]%Z.
Proof. vm_compute. reflexivity. Qed.

(** ** The figure *)

Definition dirs_of (l : list text) : filesystem :=
  FileSystem
    (λ d, if decide (d = base1) then Ok l
          else if decide (d = run_dir base1 run2) then Ok [str "monitor.log"; str "spirit_mc_client_2.log"]
          else Err PlainException)
    (λ _, true) (λ _, [])
    (λ p, if ends_with (str "monitor.log") p then Ok (concat lines1) else Ok (concat client_lines)).

Definition names1 : list text := [run_name run1; run_name run2; run_name run3].

Lemma distinct1 : distinct_runs (dirs_of names1) (Some (5120, 5120)%Z) base1.
Proof.
  intros l l' dated Hl Hb Hd.
  assert (E : subdirectories (dirs_of names1) base1 = Ok (run_dir base1 <$> [run1; run2; run3])) by (vm_compute; reflexivity).
  assert (l = run_dir base1 <$> [run1; run2; run3]) as -> by congruence.
  assert (Eb : with_budget (5120, 5120)%Z (run_dir base1 <$> [run1; run2; run3]) = Ok [run_dir base1 run1; run_dir base1 run2])
    by (vm_compute; reflexivity).
  assert (l' = [run_dir base1 run1; run_dir base1 run2]) as -> by congruence.
  assert (Ed : date_subdirs [run_dir base1 run1; run_dir base1 run2] =
    Ok [(run_dir base1 run1, run_date run1); (run_dir base1 run2, run_date run2)]) by (vm_compute; reflexivity).
  assert (dated = [(run_dir base1 run1, run_date run1); (run_dir base1 run2, run_date run2)]) as ->
    by congruence.
  constructor; [|constructor; [apply not_elem_of_nil|constructor]].
  intros Hin%list_elem_of_singleton. discriminate Hin.
Qed.

Lemma same_files1 : same_files (dirs_of names1) (dirs_of (reverse names1)).
Proof.
  split; [|done|done]. intros d. simpl. repeat case_decide; constructor; [|done].
  symmetry. apply reverse_Permutation.
Qed.

Lemma rows_order_independent_witness :
  process_directories mean1 (λ _, of_Z 0) (dirs_of names1) false [base1] (Some (5120, 5120)%Z)
    [(2%Z, str "spirit_mc_client_2.log")] =
  process_directories mean1 (λ _, of_Z 0) (dirs_of (reverse names1)) false [base1] (Some (5120, 5120)%Z)
    [(2%Z, str "spirit_mc_client_2.log")].
Proof.
  apply (rows_order_independent mean1 (λ _, of_Z 0) _ _ same_files1). constructor; [apply distinct1|constructor].
Defined.

(** ** Damaged metrics *)

Definition damaged : text := str "{ cdf : [[1.5, 0.5], [2.5, 0.99] }".

Lemma social_repair_useless_witness :
  social_parse (F := b64) true (lit 99 100) (Ok damaged) (Ok []) = zeros.
Proof. apply (social_repair_useless (lit 99 100) damaged (Ok [])). vm_compute. discriminate. Defined.
End LogExamples.
