(* ===== verification/LoopExamples.v ===== *)
(** * A run of the whole loop

    The cluster of [Examples] from its start: a round without an answer, then
    rounds in which all four applications report, the last of them after the
    static phase. *)

From S2P Require Import Prelude PyDict Nested PyFloat Exact Resources PtasExact Base BaseExact Spirit SpiritExact SpiritRounds Monitor Estimator EstimatorExact System Controllers SpiritRoom MonitorReadings Params Interleaving SpiritLoop Examples.

Module LoopExamples.
Import Examples.

Definition rounds5 : list (list (option (dict Z (dict Z (raw_entry xnum))))) :=
  [[None]; [Some full_report; Some full_report]; [Some full_report]; [Some full_report]; [None]].

Definition run5 :=
  start (spirit_step rsd par0 users0 2) (Some params0) false 10 (nq 25 1000) rounds5
    (System new_spirit None new_monitor initial_allocation_map).

(** The last round is a dynamic one: application 1 has three records. *)
Example run5_dynamic :
  ∃ s, run5 = Ok s ∧ total_record_of (sys_monitor s) 1 = Some 3%Z ∧
    vm_to_app_map (sys_monitor s) = map0.
Proof.
  destruct run5 as [s|] eqn:E; [|vm_compute in E; discriminate E].
  exists s. split; [done|]. vm_compute in E. injection E as <-. by vm_compute.
Qed.

Lemma configd : loop_config rsd par0 map0 users0 2.
Proof.
  split; [exact usabled|intros lob [= <-]; done|intros B [= <-]; done|by exists (Q2Qc (1 # 20))|done|left|done].
Qed.

Lemma full_report_ok : answer_ok map0 (Some full_report).
Proof.
  intros r [= <-]. split; [reflexivity|]. intros p q l Hp Hq Hl. right.
  assert (Hall : Forall (λ p : Z * dict Z (raw_entry xnum),
    Forall (λ q, raw_mrc q.2 = Some [(nq 4096 1, nq 3 10); (nq 8192 1, nq 1 10)]) p.2) full_report)
    by (by repeat constructor).
  rewrite Forall_forall in Hall. specialize (Hall p Hp). rewrite Forall_forall in Hall.
  specialize (Hall q Hq). rewrite Hl in Hall. injection Hall as ->.
  split; [simpl; lia|]. repeat constructor; simpl; fin_auto.
Qed.

Lemma none_ok : answer_ok map0 None.
Proof. by intros r. Qed.

Lemma spirit_loop_fits_witness :
  Forall (Forall (answer_ok map0)) rounds5 ∧
  ∃ s, run5 = Ok s ∧ synced (spirit_step rsd par0 users0 2) s ∧
    ∀ pre responses, rounds5 = pre ++ [responses] → (∃ r, Some r ∈ concat pre) →
      ∀ vm, vm ∈ map0 →
        within_capacity (Q2Qc (10240 # 1)) (Q2Qc (15 # 2)) (mon_last_allocation (sys_monitor s)) (vm_apps vm.2 users0).
Proof.
  assert (Hall : Forall (Forall (answer_ok map0)) rounds5)
    by (repeat first [exact full_report_ok|exact none_ok|apply List.Forall_nil|apply List.Forall_cons]).
  split; [exact Hall|]. eapply (spirit_loop_fits rsd).
  - exact configd.
  - reflexivity.
  - reflexivity.
  - exact params0_pause.
  - exact Hall.
Defined.

(** The same run with resets: application 1 before the fourth allocation, and
    application 2 between two collections. *)
Definition interleaved5 : list (list Z * list (event xnum)) :=
  [([], [Answer None]); ([], [Answer (Some full_report); Reset 2; Answer (Some full_report)]);
   ([], [Answer (Some full_report)]); ([1%Z], [Answer (Some full_report)]); ([], [Answer None])].

Definition resets5 :=
  interleaved_start (spirit_step rsd par0 users0 2) (Some params0) false 10 (nq 25 1000) interleaved5
    (System new_spirit None new_monitor initial_allocation_map).

(** The reset sends the allocator back to the static phase. *)
Example resets5_static :
  ∃ s, resets5 = Ok s ∧ total_record_of (sys_monitor s) 1 = Some 1%Z.
Proof.
  destruct resets5 as [s|] eqn:E; [|vm_compute in E; discriminate E].
  exists s. split; [done|]. vm_compute in E. injection E as <-. by vm_compute.
Qed.

Lemma resets_keep_fitting_witness :
  Forall (λ r : list Z * list (event xnum), Forall (event_ok map0) r.2) interleaved5 ∧
  ∃ s, resets5 = Ok s ∧ synced (spirit_step rsd par0 users0 2) s ∧
    ∀ pre r, interleaved5 = pre ++ [r] → answered (concat pre.*2) →
      ∀ vm, vm ∈ map0 →
        within_capacity (Q2Qc (10240 # 1)) (Q2Qc (15 # 2)) (mon_last_allocation (sys_monitor s)) (vm_apps vm.2 users0).
Proof.
  assert (Hok : ∀ o, answer_ok map0 o → event_ok map0 (Answer o)) by (by intros o Ho o' [= <-]).
  assert (Hall : Forall (λ r : list Z * list (event xnum), Forall (event_ok map0) r.2) interleaved5).
  { repeat first [exact (Hok _ full_report_ok)|exact (Hok _ none_ok)|apply List.Forall_nil|apply List.Forall_cons|by intros o]. }
  split; [exact Hall|]. eapply (resets_keep_fitting rsd).
  - exact configd.
  - reflexivity.
  - reflexivity.
  - exact params0_pause.
  - exact Hall.
Defined.
End LoopExamples.
