(* ===== verification/WireExamples.v ===== *)
(** * Concrete texts, requests and figures

    The theorems on the network, the reset API, the life of the controller
    and the figure, applied to concrete inputs. *)

From S2P Require Import Prelude PyDict Nested PyFloat Exact BaseExact PyStr Logger Json Dumps Resources Base Params Monitor MonitorFacts System Controllers Wire WireFacts WireLoop Server ServerFacts Config ConfigFacts Objects LogParsers LogTools DrawPerf DrawPerfFacts PerfFigure PerfFigureFacts Examples LogExamples.
From Stdlib Require Import Ascii.

Module WireExamples.
Import Examples LogExamples.

(** ** The network *)

(** All floats of this usage are one half. *)
Definition half_text (x : xnum) : text := str "0.5".

Definition usage1 (app cache : Z) : app_usage (F := xnum) :=
  AppUsage 0 app 2013 100 cache 0 8584 (nq 5 10) 1 2 (Some [(4096%Z, nq 5 10); (8192%Z, nq 5 10)]).

Definition usages1 : usage_map (F := xnum) := [(0, [(1, usage1 1 400); (2, usage1 2 500)])]%Z.

Lemma half_ok : float_ok half_text (nq 5 10).
Proof.
  split; [eexists _, _; split; [reflexivity|by left]|].
  intros c r Hc. unfold delim in Hc. rewrite !elem_of_cons, elem_of_nil in Hc.
  by destruct Hc as [->|[->|[->|[]]]].
Qed.

Lemma half_ascii x : ascii_only (half_text x).
Proof. ascii_literal. Qed.

Lemma usages1_sendable : sendable half_text usages1.
Proof.
  split; [apply NoDup_singleton|]. repeat constructor; try apply half_ok; try set_solver.
Qed.

Example usages1_text :
  String.eqb (String.string_of_list_ascii (take 40 (usage_text half_text usages1)))
    (String.string_of_list_ascii (["{"; "034"; "m"; "a"; "p"; "034"; ":"; "{"; "034"; "0"; "034"; ":"; "{"; "034"; "1"; "034"; ":"; "{"; "034"; "v"; "m"; "_"; "i"; "d"; "034"; ":"; "0"; ","; "034"; "a"; "p"; "p"; "_"; "i"; "d"; "034"; ":"; "1"; ","; "034"]%char)) = true.
Proof. vm_compute. reflexivity. Qed.

Lemma collect_reads_usage_witness :
  collect_answer 10 (nq 25 1000) (Answered 200 (usage_text half_text usages1)) new_monitor =
  Ok (Some (collect 10 (nq 25 1000) (Some (raw_usage_map usages1)) new_monitor)).
Proof.
  apply (collect_reads_usage half_text usages1 200 10 (nq 25 1000) new_monitor).
  - exact half_ascii.
  - exact usages1_sendable.
  - reflexivity.
Defined.

Definition idle : system (F := xnum) (A := ()) := System () None new_monitor initial_allocation_map.

Lemma wire_refines_witness :
  wire_start (static_allocate rs0 users0 2) (Some params0) false 10 (nq 25 1000) (Answered 202 [])
    [(Answered 200 [], [Answered 200 (usage_text half_text usages1); Answered 500 (str "down")])] idle =
  (s ← start (static_allocate rs0 users0 2) (Some params0) false 10 (nq 25 1000)
         [[Some (raw_usage_map usages1); None]] idle; Ok (Some s)).
Proof.
  apply (wire_refines (static_allocate rs0 users0 2) half_text half_ascii (Some params0) false 10 (nq 25 1000)
    (Answered 202 []) [(Answered 200 [], [Answered 200 (usage_text half_text usages1); Answered 500 (str "down")])]
    [[Some (raw_usage_map usages1); None]] idle).
  - done.
  - constructor; [|constructor]. split; [done|]. constructor; [|constructor; [|constructor]].
    + apply rep_usage; [reflexivity|exact usages1_sendable].
    + by apply rep_status.
Defined.

(** ** The reset API *)

Definition known1 : monitor xnum := set_usage [(7%Z, (nq 1 1, nq 1 1))] new_monitor.

Lemma reset_by_clients_witness :
  Server.do_POST (query_request 7) (Some known1) =
    (Ok (respond 200 (Server.report (str "success") (str "Metrics reset for application " ++ show 7))),
     Some (reset_metrics_for_app 7 known1).1) ∧
  Server.do_POST (json_request (F := xnum) 7) (Some known1) =
    if (7 =? 0)%Z
    then (Ok (error_response 400 (str "Missing required parameter: app_id")), Some known1)
    else Server.do_POST (query_request 7) (Some known1).
Proof. apply (reset_by_clients 7 known1). reflexivity. Defined.

(** An escaped letter in the name, and a second value. *)
Example escaped_query :
  parse_qs (str "x=1&app%5fid=+12&app_id=3&app_id") =
  [(str "x", str "1"); (str "app_id", str " 12"); (str "app_id", str "3")].
Proof. reflexivity. Qed.

(** ** The life of the controller *)

Definition config3 : dict text (json xnum) :=
  [kv "cluster" (JObj cluster1);
   kv "benchmark_map" (JObj [kv "1" (JStr (str "stream")); kv "2" (JStr (str "mc"))]);
   kv "profiles" (JArr [JObj [kv "user_id" (JInt 1); kv "file" (JStr (str "dummy.joblib"))]]);
   kv "allocation_parameters" (JObj [kv "allocation_interval_in_sec" (JInt 3)])].

Lemma config3_json : config_json (F := xnum) (JObj config3) budgets1 3.
Proof.
  split. do 5 eexists. split; [reflexivity|]. split; [reflexivity|]. split.
  { split; [by eexists|reflexivity..]. }
  split; [reflexivity|]. split; [done|]. split; [reflexivity|]. split; [|by split].
  eexists. split; [reflexivity|]. repeat constructor. eexists. split; [reflexivity|]. split; by eexists.
Qed.

Definition deployed1 : system (F := xnum) (A := ()) :=
  match allocate_and_deploy (static_allocate rs0 users0 2) idle with Ok s => s | Err _ => idle end.

Lemma short_interval_raises_witness :
  ∃ ev, run_evaluation (F := xnum) (JObj config3) (str "static") 6 = Ok ev ∧
    start (static_allocate rs0 users0 2) (Some (ev_params ev)) false 3 (nq 25 1000) [[None]] idle = Err ZeroDivisionError.
Proof.
  apply (short_interval_raises (JObj config3) budgets1 3 6 (str "static") KStatic (static_allocate rs0 users0 2)
    (nq 25 1000) [[None]] idle deployed1).
  - exact config3_json.
  - done.
  - reflexivity.
  - reflexivity.
Defined.

Definition remains1 : remains :=
  match whole_run (F := xnum) [] ([str "a"], []) (JObj config1) (str "spirit") 6 true (λ _ _ _, Ok ()) None [] with
  | Ok r => r
  | Err _ => Remains Unset Unset Unset (Server.new_server 0) [1%Z]
  end.

Lemma run_closes_witness :
  (60000%Z ∉ ([] : list Z)) ∧ end_ports remains1 = [] ∧ Server.srv_running (end_server remains1) = Some false ∧
  end_monitor remains1 = Ready (str "memcached_mind_monitor") (negb true) ∧
  end_deployer remains1 = Ready (str "memcached_deployer") (negb true) ∧
  end_allocator remains1 = Ready (str "spirit_ceei_allocator") (negb true).
Proof.
  apply (run_closes [] ([str "a"], []) (JObj config1 : json xnum) (str "spirit") 6 true (λ _ _ _, Ok ()) None [] remains1).
  vm_compute. reflexivity.
Defined.

(** ** The figure *)

Lemma fmean_pos (l : list xnum) : l ≠ [] → Forall pos l → pos (fmean l).
Proof.
  intros Hne Hl. assert (∃ qs, l = Num <$> qs ∧ Forall (λ q, 0 < q)%Qc qs) as (qs & -> & Hq).
  { clear Hne. induction Hl as [|x l (q & -> & Hq) _ (qs & -> & Hqs)]; [by exists []|].
    exists (q :: qs). split; [done|]. by constructor. }
  change (fmean (Num <$> qs)) with
    (fquot (foldl fadd (Num 0%Qc) (Num <$> qs)) (Num (zq (Z.of_nat (length (Num <$> qs)))))).
  rewrite foldl_xadd_Num, length_fmap, fquot_Num.
  - eexists. split; [reflexivity|]. apply Qcdiv_pos.
    + destruct Hq as [|q qs Hq Hqs]; [done|]. rewrite qsum_cons.
      pose proof (qsum_nonneg qs (Forall_impl _ _ _ Hqs (λ q, Qclt_le_weak 0 q))). qc_lra.
    + apply zq_pos. destruct qs; [done|]. simpl. lia.
  - apply pos_ne0, zq_pos. destruct qs; [done|]. simpl. lia.
Qed.

Definition rows1 : list (cont_row (F := xnum)) :=
  [ContRow 0 1 (JInt 100) 0; ContRow 0 1 (JInt 150) 4; ContRow 0 2 (JInt 10) 0; ContRow 0 2 (JInt 8) 1]%Z.

Lemma figure_shows_runs_witness :
  returns (plot fmean (λ _ n, seq 0 n) rows1 user_to_app labels user_ids) (λ fig,
    Forall2 (shows fmean rows1 user_to_app labels) user_ids (fig_axes fig) ∧
    fig_legend fig = run_labels rows1 labels 2).
Proof.
  apply (figure_shows_runs fmean (λ _ n, seq 0 n) rows1 user_to_app labels fmean_pos) with (group := [2%Z]).
  - intros. apply length_seq.
  - repeat constructor; eexists; (split; [reflexivity|by apply pos_of_Z]).
  - repeat constructor; try discriminate; set_solver.
  - repeat constructor; set_solver.
  - exact eq_refl.
  - exact eq_refl.
Defined.

Example legend1 : run_labels rows1 labels 2 = [str "Harvest"].
Proof. reflexivity. Qed.
End WireExamples.
