(* ===== verification/ClusterExamples.v ===== *)
(** * A cluster of two VMs

    The enforcers of the cluster of [Examples]: concrete decoders, a host
    whose files can be read, local enforcers that report to a global one, and
    the theorems applied to them. *)

From S2P Require Import Prelude PyDict Nested PyFloat PyStr Rust Json Dumps Exact Resources PtasExact Base BaseExact Params Spirit SpiritRounds Monitor MonitorFacts Estimator System Controllers SpiritRoom MonitorReadings SpiritLoop Wire WireFacts WireLoop GlobalEnforcer GlobalFacts Cgroups MissRatio MissRatioFacts PerfStats MrcFit CacheClient CacheClientFacts LocalReports LocalLimits Cluster Enforcement Examples LoopExamples WireExamples.
From Stdlib Require Import Ascii.

Module ClusterExamples.
Import Examples WireExamples.

(** ** Decoders on the JSON scanner *)

Definition read_pair (v : json xnum) : res (option (Z * Z)) :=
  match v with JArr [JInt a; JInt b] => Ok (Some (a, b)) | _ => Ok None end.

Definition decode_config (t : text) : Z + update_config :=
  match j ← json_loads t; m ← jget j (str "allocation_map"); d ← items m; read_all read_pair d with
  | Ok (Some d) => inr (UpdateConfig (list_to_map d))
  | _ => inl 422%Z
  end.

Definition int_of (v : json xnum) : option Z := match v with JInt z => Some z | _ => None end.
Definition float_of (v : json xnum) : option xnum := match v with JFloat x => Some x | _ => None end.

Definition point_of (v : json xnum) : option (Z * xnum) :=
  match v with JArr [JInt a; JFloat b] => Some (a, b) | _ => None end.

Definition mrc_of (v : json xnum) : option (option (list (Z * xnum))) :=
  match v with JNull => Some None | JArr l => c ← mapM point_of l; Some (Some c) | _ => None end.

Definition read_app (v : json xnum) : res (option (app_usage (F := xnum))) :=
  match v with
  | JObj [(_, vm); (_, app); (_, mem); (_, bw); (_, cache); (_, ops); (_, rate); (_, hit); (_, loc); (_, rem); (_, mrc)] =>
      Ok (vm ← int_of vm; app ← int_of app; mem ← int_of mem; bw ← int_of bw; cache ← int_of cache;
          ops ← int_of ops; rate ← int_of rate; hit ← float_of hit; loc ← int_of loc; rem ← int_of rem;
          mrc ← mrc_of mrc; Some (AppUsage vm app mem bw cache ops rate hit loc rem mrc))
  | _ => Ok None
  end.

Definition read_vm (v : json xnum) : res (option (dict Z (app_usage (F := xnum)))) :=
  d ← items v; read_all read_app d.

Definition decode_usages (t : text) : Z + usages xnum :=
  match j ← json_loads t; m ← jget j (str "map"); d ← items m; read_all read_vm d with
  | Ok (Some d) => inr (list_to_map ((λ p : Z * dict Z app_usage, (p.1, list_to_map p.2 : gmap Z app_usage)) <$> d))
  | _ => inl 422%Z
  end.

Definition decoders0 : decoders (F := xnum) := Decoders decode_config decode_usages.

Definition half : xnum := nq 5 10.
Definition to_half (x : xnum) : xnum := half.

(** ** They read what is written *)

Lemma read_app_json u : read_app (usage_json u) = Ok (Some u).
Proof.
  destruct u as [vm app mem bw cache ops rate hit loc rem mrc].
  assert (E : mrc_of (match mrc with
                      | None => JNull | Some c => JArr ((λ p : Z * xnum, JArr [JInt p.1; JFloat p.2]) <$> c) end) = Some mrc).
  { destruct mrc as [l|]; [|done]. unfold mrc_of.
    assert (El : mapM point_of ((λ p : Z * xnum, JArr [JInt p.1; JFloat p.2]) <$> l) = Some l).
    { induction l as [|[a b] l IH]; [done|]. rewrite fmap_cons. cbn [mapM point_of fst snd]. by rewrite IH. }
    by rewrite El. }
  unfold usage_json, read_app. cbn -[mrc_of]. cbn in E |- *. by rewrite E.
Qed.

Lemma read_vm_json d : read_vm (keyed usage_json d) = Ok (Some d).
Proof.
  unfold read_vm. cbn [items keyed mbind res_bind].
  rewrite (read_keyed usage_json (λ u, u)) by (intros; apply read_app_json). do 2 f_equal.
  rewrite <- (list_fmap_id d) at 2. apply list_fmap_ext. by intros i [k u].
Qed.

Lemma listed_collect `{O : HashOrder} (f : xnum → xnum) (um : usages xnum) :
  list_to_map ((λ p : Z * dict Z app_usage, (p.1, list_to_map p.2 : gmap Z app_usage)) <$> reread_dict f (listed um))
  = reread_map f um.
Proof.
  unfold reread_dict, listed, reread_map. rewrite <- !list_fmap_compose.
  rewrite <- (entries_collect um) at 2. rewrite <- list_to_map_fmap.
  f_equal. apply list_fmap_ext. intros i [vm apps] _. unfold compose. cbn [fst snd prod_map]. f_equal.
  rewrite <- (entries_collect apps) at 2. rewrite <- list_to_map_fmap. f_equal.
Qed.

Lemma decode_back (O : HashOrder) um :
  transmissible um → decode_usages (usage_text half_text (listed um)) = inr (reread_map to_half um).
Proof.
  intros _. rewrite (text_reread to_half half_text (λ _, eq_refl)).
  assert (Hs : sendable half_text (reread_dict to_half (listed um))).
  { split; [rewrite reread_dict_keys, listed_keys; apply keys_NoDup|]. apply Forall_fmap, Forall_forall.
    intros [vm l] (apps & _ & E)%elem_of_listed. cbn [snd] in E. subst l. split.
    - unfold dkeys, compose. cbn [snd]. rewrite <- list_fmap_compose. apply (keys_NoDup apps).
    - apply Forall_fmap, Forall_forall. intros q _. unfold compose. cbn [snd]. rewrite reread_floats.
      apply Forall_fmap, Forall_forall. intros x _. apply half_ok. }
  unfold decode_usages, usage_text.
  change (usage_map_json ?d) with (JObj (F := xnum) [(str "map", keyed (keyed usage_json) d)]).
  rewrite loads_render; [|constructor|by apply (usage_map_writable half_text)]. cbn [mbind res_bind].
  change (jget (JObj [(str "map", ?x)]) (str "map")) with (Ok (A := json xnum) x). cbn [mbind res_bind items keyed].
  rewrite (read_keyed (keyed usage_json) (λ d, d)) by (intros; apply read_vm_json). f_equal.
  rewrite <- (listed_collect to_half um). f_equal. rewrite <- list_fmap_compose.
  apply list_fmap_ext. by intros i [k u].
Qed.

Lemma read_pairs (d : dict Z (Z * Z)) :
  read_all read_pair ((λ p : Z * (Z * Z), (show p.1, JArr [JInt p.2.1; JInt p.2.2])) <$> d) = Ok (Some d).
Proof.
  rewrite (read_keyed (λ v : Z * Z, JArr [JInt v.1; JInt v.2]) (λ v, v)) by by intros [k [a b]].
  do 2 f_equal. rewrite <- (list_fmap_id d) at 2. apply list_fmap_ext. by intros i [k v].
Qed.

Lemma decode_posted (am : allocation_map) :
  NoDup (dkeys am) → in_u64 (list_to_map am) →
  decode_config (allocation_text (F := xnum) am) = inr (UpdateConfig (list_to_map am)).
Proof.
  intros Hnd _. unfold decode_config. rewrite allocation_reads by done. cbn [mbind res_bind].
  unfold assemble_command. change (jget (JObj [(str "allocation_map", ?x)]) (str "allocation_map")) with (Ok (A := json xnum) x).
  cbn [mbind res_bind items]. by rewrite read_pairs.
Qed.

Lemma decode_sent (O : HashOrder) cfg :
  in_u64 (uc_allocation_map cfg) → decode_config (config_text (F := xnum) cfg) = inr cfg.
Proof.
  intros _. unfold decode_config, config_text, config_json.
  rewrite loads_render; [|constructor|].
  2: { cbn [writable all_of fst snd]. split; [apply NoDup_singleton|]. split; [|done]. split; [ascii_literal|].
    apply keyed_writable; [apply keys_NoDup|]. apply Forall_forall. by intros p _. }
  cbn [mbind res_bind].
  change (jget (JObj [(str "allocation_map", ?x)]) (str "allocation_map")) with (Ok (A := json xnum) x).
  cbn [mbind res_bind items keyed]. rewrite read_pairs, entries_collect. by destruct cfg.
Qed.

(** ** A host *)

(** Every container uses 100 MiB and has a limit of 4 GiB. *)
Definition fs0 (path : text) : option text :=
  if bool_decide (ending path = ending (str "/memory.current")) then Some (str "104857600")
  else if bool_decide (ending path = ending (str "/memory.max")) then Some (str "4294967296")
  else if bool_decide (ending path = ending (str "/memory.stat")) then
    Some (str "anon 4096" ++ ["010"%char] ++ str "253:16 rbytes=1048576 wbytes=0" ++ ["010"%char])
  else if bool_decide (ending path = ending (str "/io.max")) then Some [] else None.

Definition host0 : host := Host (λ _ _, None) fs0 (λ _ _, Some (str "104857600")) (λ _, 5000%Z).

Lemma readable0 p : container_readable (F := xnum) host0 (str "253:16") p.
Proof.
  split; cbn [fs host0].
  - exists (str "104857600"). split; [|by eexists]. unfold fs0. rewrite ending_app by by apply (bool_decide_unpack _). reflexivity.
  - unfold fs0. rewrite !ending_app by by apply (bool_decide_unpack _). by eexists.
  - unfold fs0. rewrite ending_app by by apply (bool_decide_unpack _). eexists _, (1048576, 0)%Z. by split.
Qed.

Lemma limitable0 app p : container_limitable host0 app p.
Proof.
  split; cbn [fs host0 memory_current].
  - intros i s [= <-]. by eexists.
  - unfold fs0, io_max. rewrite !ending_app by by apply (bool_decide_unpack _). by eexists.
Qed.

(** ** The local enforcers *)

#[local] Existing Instance plain_order.

Definition container (app : Z) : preload :=
  Preload app [] (str "app" ++ show app) None (Some (str "/cg" ++ show app)) None.

Definition config_of (vm : Z) (apps : list Z) : init_config :=
  InitConfig (container <$> apps) (str "vdb") [] [] None None (Some vm).

Definition vm_client (vm : Z) (apps : list Z) : cache_client (F := xnum) :=
  match start_client (str "253:16" ++ ["010"%char]) (config_of vm apps) with Ok c => c | Err _ => mk_client end.

Definition client0 := vm_client 0 [1; 2]%Z.
Definition client1 := vm_client 1 [3; 4]%Z.

Definition powf0 (x y : xnum) : xnum := half.
Definition ln0 (x : xnum) : xnum := half.

Lemma client0_containers : id_container_map client0 = {[1%Z := str "app1"; 2%Z := str "app2"]}.
Proof. reflexivity. Qed.

Lemma client1_containers : id_container_map client1 = {[3%Z := str "app3"; 4%Z := str "app4"]}.
Proof. reflexivity. Qed.

Lemma client0_starts : client_reach powf0 ln0 client0 client0.
Proof.
  apply (cr_start _ _ _ (str "253:16" ++ ["010"%char]) (config_of 0 [1; 2]%Z)); [|reflexivity].
  split; [by repeat constructor|]. by intros v [= <-].
Qed.

Lemma client1_starts : client_reach powf0 ln0 client1 client1.
Proof.
  apply (cr_start _ _ _ (str "253:16" ++ ["010"%char]) (config_of 1 [3; 4]%Z)); [|reflexivity].
  split; [by repeat constructor|]. by intros v [= <-].
Qed.

(** A sample of application 3, as [perf script] prints it. *)
Definition samples3 : text :=
  str "memtouch  117264 19751.351774:        100 MEM_LOAD_UOPS_RETIRED.L3_MISS:uP:     75a4abe405c0      1e05080022 |OP LOAD|".

Example samples3_page : collect_perf_pebs (Some samples3) = Some [0x75a4abe40%Z].
Proof. vm_compute. reflexivity. Qed.

(** Counters, enough reports, and a curve: application 3 has filled its cache
    of 0 MB, so that nothing is fitted. *)
Definition counters3 : text :=
  str "1,280 MEM_LOAD_UOPS_RETIRED.L3_MISS:u 5,000 cache-references:u 7 major-faults:u 90,000 MEM_UOPS_RETIRED.ALL_LOADS:u".

Definition ops3 : list (client_op (F := xnum)) :=
  ApplyConfig host0 (posted [(3, Units 0 100)]%Z) :: RecordPerf host0 3 (Some counters3) ::
  replicate 100 (Report host0) ++ [RecordMrc host0 3 (Some samples3) (Some (of_Z 2))].

Definition client3 : cache_client :=
  match for_all (client_step powf0 ln0) ops3 client1 with Ok c => c | Err _ => client1 end.

Lemma reach_run ops c0 c c' :
  client_reach powf0 ln0 c0 c → for_all (client_step powf0 ln0) ops c = Ok c' → client_reach powf0 ln0 c0 c'.
Proof.
  intros Hc Hr. by eapply (for_all_inv (client_reach powf0 ln0 c0)); [|exact Hc|exact Hr]; intros op d d' _; apply cr_step.
Qed.

Lemma client3_reached : client_reach powf0 ln0 client1 client3.
Proof.
  apply (reach_run ops3 client1 client1); [exact client1_starts|].
  unfold client3. destruct (for_all _ ops3 client1) eqn:E; [done|vm_compute in E; discriminate E].
Qed.

Example client3_curve :
  (length (latest_usage client3), (λ p, (avg_miss p, length (ps_mrc p))) <$> perf_stats client3 !! 3%Z) = (100%nat, Some (1280%Z, 64%nat)).
Proof. vm_compute. reflexivity. Qed.

Lemma client_books_witness :
  (∀ app, is_Some (id_container_map client3 !! app) ↔ is_Some (perf_stats client3 !! app)) ∧
  (∀ app, is_Some (id_container_map client3 !! app) ↔ is_Some (blk_stats client3 !! app)) ∧
  map_Forall (λ _ p, length (cache_misses p) <= 16 ∧ length (cache_references p) = length (cache_misses p) ∧
    length (major_faults p) = length (cache_misses p) ∧ length (mem_ops p) = length (cache_misses p) ∧
    sent_curve (ps_mrc p))%nat (perf_stats client3) ∧
  (length (latest_usage client3) <= 100)%nat ∧ id_container_map client3 = id_container_map client1 ∧
  cc_id client3 = cc_id client1.
Proof. apply (client_books powf0 ln0 client1 client3). exact client3_reached. Defined.

Lemma host_readable_of (c : cache_client (F := xnum)) (l : list Z) :
  id_container_map c = list_to_map ((λ app, (app, str "app" ++ show app)) <$> l) →
  container_cgroups_map c = list_to_map ((λ app, (str "app" ++ show app, str "/cg" ++ show app)) <$> l) →
  NoDup l → memory_dev_maj_min c = str "253:16" → host_readable host0 c.
Proof.
  intros Ei Ec Hnd Em app name. rewrite Ei, Em. intros Hn%elem_of_list_to_map_2.
  apply list_elem_of_fmap in Hn as (a & [= -> ->] & Ha). exists (str "/cg" ++ show a). split; [|apply readable0].
  unfold path_of. rewrite Ec, (elem_of_list_to_map_1 _ (str "app" ++ show a) (str "/cg" ++ show a)); [done|..].
  - rewrite <- list_fmap_compose. apply NoDup_fmap_2_strong; [|done]. intros x y _ _ E. unfold compose in E. simpl in E.
    injection E as E. by apply show_inj in E.
  - apply list_elem_of_fmap. by exists a.
Qed.

Lemma client0_readable : host_readable host0 client0.
Proof. by apply (host_readable_of client0 [1; 2]%Z); [reflexivity..|apply (bool_decide_unpack _)|]. Qed.

Lemma client3_readable : host_readable host0 client3.
Proof. apply (host_readable_of client3 [3; 4]%Z); [vm_compute; reflexivity..|by apply (bool_decide_unpack _)|vm_compute; reflexivity]. Qed.

Lemma report_complete_witness :
  ∃ local c', report_usage host0 client3 = Ok (Some {[cc_id client1 := local]}, c') ∧
    (∀ app, is_Some (local !! app) ↔ is_Some (id_container_map client1 !! app)) ∧
    ∀ app u, local !! app = Some u →
      us_vm_id u = cc_id client1 ∧ us_app_id u = app ∧ usage_u64 u ∧ ∃ l, us_mrc u = Some l ∧ sent_curve l.
Proof.
  apply (report_complete powf0 ln0 host0 client1 client3).
  - exact client3_reached.
  - reflexivity.
  - exact client3_readable.
Defined.

(** The bandwidth of a VM that read one MiB since the counters started. *)
Example report3 :
  match report_usage host0 client1 with
  | Ok (Some um, _) => option_map (λ u, (us_mem_mb u, us_bw_mbps u)) (apps ← um !! 1%Z; apps !! 3%Z)
  | _ => None
  end = Some (100, 1)%Z.
Proof. vm_compute. reflexivity. Qed.

(** ** The global enforcer *)

Definition global0 : global_allocation (F := xnum) :=
  GlobalAllocation new_config ∅ {[0%Z := str "10.0.0.2:8080"; 1%Z := str "10.0.0.3:8080"]}
    {[1%Z := [0%Z]; 2%Z := [0%Z]; 3%Z := [1%Z]; 4%Z := [1%Z]]} ∅ None.

Definition reported (c : cache_client (F := xnum)) : usages xnum :=
  match report_usage host0 c with Ok (Some um, _) => um | _ => ∅ end.

Definition hears (c : cache_client (F := xnum)) (g : global_allocation (F := xnum)) : global_allocation :=
  o_state (handle decoders0 half_text (PostUsage (usage_text half_text (listed (reported c)))) g).

Definition global2 : global_allocation (F := xnum) := hears client3 (hears client0 global0).

Lemma report_sent c um c' : report_usage host0 c = Ok (Some um, c') → reported c = um.
Proof. unfold reported. by intros ->. Qed.

(** Nothing is lost on the way but the floats. *)
Example global2_heard :
  (dom <$> ga_usage_map global2 : gmap Z (gset Z)) = {[0 := {[1; 2]}; 1 := {[3; 4]}]}%Z ∧
  (apps ← ga_usage_map global2 !! 1%Z; us_mem_mb <$> apps !! 3%Z) = Some 100%Z.
Proof. split; vm_compute; reflexivity. Qed.

Lemma half_fin x : fin x → fin (to_half x).
Proof. intros _. unfold to_half, half. fin_auto. Qed.

Lemma half_printed x : fin x → fin (to_half x) ∧ float_ok half_text (to_half x).
Proof. intros Hx. split; [by apply half_fin|apply half_ok]. Qed.

Lemma enforcer_at c l l' :
  (cc_id c, l) ∈ map0 → l ≡ₚ l' → id_container_map c = list_to_map ((λ app, (app, str "app" ++ show app)) <$> l') →
  enforcer_of map0 c.
Proof.
  intros Hin Hl E. exists l. split; [done|]. intros app. rewrite E, Hl.
  assert (Ek : ((λ app, (app, str "app" ++ show app)) <$> l').*1 = l').
  { rewrite <- list_fmap_compose. apply list_fmap_id. }
  rewrite <- not_eq_None_Some, <- not_elem_of_list_to_map, Ek. destruct (decide (app ∈ l')); naive_solver.
Qed.

(** The VM of the second report comes first in the order of the model. *)
Lemma global2_relayed : relayed half_text decoders0 powf0 ln0 map0 global2.
Proof.
  assert (H0 : running_benchmarks client0 = true) by reflexivity.
  assert (H3 : running_benchmarks client3 = true) by reflexivity.
  destruct (reach_ok powf0 ln0 _ _ client0_starts) as [K0 _]. destruct (reach_ok powf0 ln0 _ _ client3_reached) as [K3 _].
  destruct (report_total host0 client0 K0 H0 client0_readable) as (um0 & c0 & E0 & _).
  destruct (report_total host0 client3 K3 H3 client3_readable) as (um3 & c3 & E3 & _).
  unfold global2, hears. rewrite (report_sent _ _ _ E0), (report_sent _ _ _ E3).
  apply (relayed_report _ _ _ _ _ _ _ client1 client3 host0 um3 c3).
  - apply (enforcer_at client1 [3; 4]%Z [3; 4]%Z); [by right; left|done|reflexivity].
  - exact client3_reached.
  - exact client3_readable.
  - exact E3.
  - apply (relayed_report _ _ _ _ _ _ _ client0 client0 host0 um0 c0).
    + apply (enforcer_at client0 [2; 1]%Z [1; 2]%Z); [by left|by apply (bool_decide_unpack _)|reflexivity].
    + exact client0_starts.
    + exact client0_readable.
    + exact E0.
    + by constructor.
Qed.

Lemma global2_complete : all_reported map0 global2.
Proof.
  intros vm Hvm. change (dkeys map0) with [0; 1]%Z in Hvm. rewrite !elem_of_cons, elem_of_nil in Hvm.
  destruct Hvm as [->|[->|[]]]; apply (bool_decide_unpack _); by vm_compute.
Qed.

Definition status2 : answer := Answered 200 (o_body (cluster_status half_text global2)).

Lemma status2_ok : cluster_answer half_text decoders0 powf0 ln0 map0 true status2.
Proof. apply from_status; [exact global2_relayed|exact global2_complete]. Qed.

Lemma down_ok : cluster_answer half_text decoders0 powf0 ln0 map0 false (Answered 500 (str "down")).
Proof. by apply from_error. Qed.

(** A round without a status, rounds with it, and a last one in the dynamic
    phase. *)
Definition wire_rounds : list (answer * list answer) :=
  [(Answered 202 [], [Answered 500 (str "down")]); (Answered 202 [], [status2; status2]);
   (Answered 202 [], [status2]); (Answered 202 [], [status2]); (Answered 202 [], [status2])].

Lemma cluster_loop_fits_witness :
  Forall (λ r : answer * list answer, WireLoop.answered r.1 ∧
    Forall (λ a, ∃ b, cluster_answer half_text decoders0 powf0 ln0 map0 b a) r.2) wire_rounds ∧
  ∃ s', wire_start (spirit_step rsd par0 users0 2) (Some params0) false 10 (nq 25 1000) (Answered 202 []) wire_rounds
          (System new_spirit None new_monitor initial_allocation_map) = Ok (Some s') ∧
    synced (spirit_step rsd par0 users0 2) s' ∧
    ∀ pre r, wire_rounds = pre ++ [r] →
      (∃ a, a ∈ concat pre.*2 ∧ cluster_answer half_text decoders0 powf0 ln0 map0 true a) →
      ∀ vm, vm ∈ map0 →
        within_capacity (Q2Qc (10240 # 1)) (Q2Qc (15 # 2)) (mon_last_allocation (sys_monitor s')) (vm_apps vm.2 users0).
Proof.
  assert (Hall : Forall (λ r : answer * list answer, WireLoop.answered r.1 ∧
    Forall (λ a, ∃ b, cluster_answer half_text decoders0 powf0 ln0 map0 b a) r.2) wire_rounds).
  { repeat first [exact (ex_intro _ _ status2_ok)|exact (ex_intro _ _ down_ok)|apply List.Forall_nil|apply List.Forall_cons|split|done]. }
  split; [exact Hall|]. eapply (cluster_loop_fits half_text half_ascii to_half).
  - done.
  - exact half_printed.
  - exact half_fin.
  - exact decode_back.
  - by apply (bool_decide_unpack _).
  - exact map0_distinct.
  - exact LoopExamples.configd.
  - reflexivity.
  - reflexivity.
  - exact params0_pause.
  - done.
  - exact Hall.
Defined.

(** ** Enforcing an allocation *)

Definition grant0 : dict Z units := [(1, Units 2048 3000); (2, Units 8192 4000); (3, Units 1024 100); (4, Units 9000 7000)]%Z.

Lemma grant0_enforceable : enforceable grant0.
Proof.
  split; [by apply (bool_decide_unpack _)|]. apply Forall_forall.
  repeat first [apply List.Forall_nil|apply List.Forall_cons]; by apply (bool_decide_unpack _).
Qed.

Lemma grant0_placed : placed global0 (posted grant0).
Proof.
  intros app Hs. assert (Happ : app ∈ [1; 2; 3; 4]%Z).
  { apply elem_of_dom in Hs. change (dom (uc_allocation_map (posted grant0))) with (dom (list_to_map (command grant0) : gmap Z (Z * Z))) in Hs.
    rewrite dom_list_to_map in Hs. by apply elem_of_list_to_set in Hs. }
  rewrite !elem_of_cons, elem_of_nil in Happ. destruct Happ as [->|[->|[->|[->|[]]]]]; by eexists.
Qed.

Lemma grant0_fits : within_capacity (Q2Qc (10240 # 1)) (Q2Qc (15 # 2)) grant0 (vm_apps [2; 1]%Z users0).
Proof.
  exists [Units 2048 3000; Units 8192 4000]%Z.
  split; [do 2 (apply List.Forall2_cons; [reflexivity|]); apply List.Forall2_nil|]. split; [by repeat constructor|].
  split; by apply (bool_decide_unpack _).
Qed.

Lemma global0_reachable app vms v :
  placement_map global0 !! app = Some vms → v ∈ vms → is_Some (vm_ip_map global0 !! v).
Proof.
  intros Hp Hv. assert (Hall : map_Forall (λ _ vms, Forall (λ v, is_Some (vm_ip_map global0 !! v)) vms) (placement_map global0))
    by by apply (bool_decide_unpack _).
  specialize (Hall app vms Hp). rewrite Forall_forall in Hall. by apply Hall.
Qed.

Lemma client0_path app :
  is_Some (id_container_map client0 !! app) → app_path host0 client0 app = Some (str "/cg" ++ show app).
Proof.
  rewrite client0_containers, lookup_insert_is_Some, lookup_singleton_is_Some.
  intros [<-|[_ <-]]; reflexivity.
Qed.

Lemma client0_limitable : limitable host0 client0.
Proof.
  split.
  - intros app Ha. exists (str "/cg" ++ show app). split; [by apply client0_path|apply limitable0].
  - assert (Hs : ∀ app p, app_path host0 client0 app = Some p → is_Some (id_container_map client0 !! app)).
    { intros app p. unfold app_path. destruct (id_container_map client0 !! app); [eauto|done]. }
    intros app app' p Hp Hp'. pose proof (client0_path app (Hs _ _ Hp)) as E. pose proof (client0_path app' (Hs _ _ Hp')) as E'.
    rewrite Hp in E. rewrite Hp', E in E'. injection E' as E'. by apply show_inj in E'.
Qed.

Lemma limits_within_capacity_witness :
  let o := handle decoders0 half_text (PostConfig (allocation_text (F := xnum) (command grant0))) global0 in
  o_status o = 202%Z ∧ cur_config (o_state o) = posted grant0 ∧
  ∃ part ip c' ws us,
    send_config (F := xnum) part ip ∈ o_commands o ∧ vm_ip_map global0 !! 0%Z = Some ip ∧
    read_config decoders0 (config_text (F := xnum) part) = inr part ∧
    apply_config host0 part client0 = Ok (c', ws) ∧
    Forall2 (λ app x, ∃ p, app_path host0 client0 app = Some p ∧
      last_write (memory_max p) ws = Some (show (u_cache x) ++ str "M") ∧
      last_write (io_max p) ws = Some (rate_line (memory_dev_maj_min client0) (u_mem_bw x * 125000)))
      (vm_apps [2; 1]%Z users0) us ∧
    let slack := (1 + Q2Qc (1 # 100000))%Qc in
    (zq (zsum (u_cache <$> us)) <= slack * Q2Qc (10240 # 1))%Qc ∧
    (zq (zsum (u_mem_bw <$> us)) <= slack * (Q2Qc (15 # 2) * zq 1024))%Qc.
Proof.
  apply (limits_within_capacity decoders0 half_text decode_posted decode_sent (Q2Qc (10240 # 1)) (Q2Qc (15 # 2)) users0
    plain_order global0 0 [2; 1]%Z).
  - intros app vms Hp v Hv. by eapply global0_reachable.
  - change (vm_apps [2; 1]%Z users0) with [1; 2]%Z. intros app Happ. rewrite !elem_of_cons, elem_of_nil in Happ.
    by destruct Happ as [->|[->|[]]].
  - exact client0_limitable.
  - change (vm_apps [2; 1]%Z users0) with [1; 2]%Z. intros app Happ. rewrite !elem_of_cons, elem_of_nil in Happ.
    by destruct Happ as [->|[->|[]]]; eexists.
  - exact grant0_enforceable.
  - exact grant0_placed.
  - done.
  - exact grant0_fits.
Defined.

(** The limit of a container that uses less than its target is set at once. *)
Example grant0_lowers :
  match apply_config host0 (posted [(1, Units 2048 3000)]%Z) client0 with
  | Ok (_, ws) => (λ w : write, w.2) <$> filter (λ w : write, w.1 = memory_max (str "/cg1")) ws
  | Err _ => []
  end = [str "2048M"].
Proof. vm_compute. reflexivity. Qed.

(** A container in full use is shrunk by steps. *)
Definition full_use (i : nat) : option text := Some (str "3221225472").

Lemma memory_lowered_witness :
  ∃ steps, memory_steps (F := xnum) (Some (str "4294967296")) full_use 2048 = Ok (steps ++ [2048%Z]) ∧
    (length steps <= 5)%nat ∧ Sorted Z.ge (steps ++ [2048%Z]) ∧
    Forall (λ z, 2048 <= z <= limit_mb (Some (str "4294967296")) ∧ high_of (F := xnum) z <= z)%Z steps ∧
    (high_of (F := xnum) 2048 <= 2048)%Z ∧
    ((limit_mb (Some (str "4294967296")) <= 2048)%Z → steps = []).
Proof.
  apply (memory_lowered (Some (str "4294967296")) full_use 2048).
  - intros i s [= <-]. by eexists.
  - by apply (bool_decide_unpack _).
Defined.

Example lowered_by_steps :
  memory_steps (F := xnum) (Some (str "4294967296")) full_use 2048 = Ok [3686; 3317; 2985; 2048]%Z.
Proof. vm_compute. reflexivity. Qed.

(** An application on both VMs gets half of an odd allocation on each. *)
Definition spread : global_allocation (F := xnum) :=
  GlobalAllocation new_config ∅ ∅ {[5%Z := [0; 1]%Z]} ∅ None.

Lemma split_bounds_witness :
  ∃ l, split_global_allocation spread (UpdateConfig {[5%Z := (1001, 7)%Z]}) = Ok l ∧
    let k := Z.of_nat (length [0; 1]%Z) in
    let mems := zsum ((λ vm, default 0 (fst <$> part_of l vm 5)) <$> [0; 1])%Z in
    let bws := zsum ((λ vm, default 0 (snd <$> part_of l vm 5)) <$> [0; 1])%Z in
    (mems <= 1001 < mems + k ∧ bws <= 7 < bws + k)%Z.
Proof.
  apply (split_bounds spread (UpdateConfig {[5%Z := (1001, 7)%Z]}) 5 1001 7 [0; 1]%Z).
  - intros app Happ. cbn [uc_allocation_map] in Happ. apply lookup_singleton_is_Some in Happ as <-. by exists [0; 1]%Z.
  - reflexivity.
  - reflexivity.
Defined.

(** ** Counters that start again

    When a container restarts, its [io.stat] counts from zero; the difference
    wraps around and the bandwidth reported is absurd. *)
Example restarted_counter :
  (blk_bandwidth (F := xnum) 1000 0 6000 (BlkUseStat 2000 0 5000)).1 = 17592186044415%Z.
Proof. vm_compute. reflexivity. Qed.

(** ** A fit

    With [powf0], the accesses up to page [p] are one half more than [p] for
    the exponent 2 and coefficients 1; one page of two in the cache gives the
    hit rate 0.6. *)
Definition ones : coeff (F := xnum) := Coeff (nq 1 1) (nq 1 1) (nq 1 1).

Definition fit0 : res (option (xnum * coeff)) :=
  compute_exponent powf0 ln0 (nq 6 10) (nq 1 1) (nq 1 1) (nq 2 1) [(nq 1 1, nq 3 2)] (Some (nq 2 1)) (Some ones).

Lemma fit0_found : fit0 = Ok (Some (nq 2 1, ones)).
Proof. vm_compute. reflexivity. Qed.

Lemma fit_accepted_witness :
  ∃ m, compute_miss_ratio powf0 ln0 (nq 1 1) (nq 1 1) (nq 2 1) (nq 1 1) (nq 2 1) ones = Num m ∧ (0 <= m ∧ m <= 1)%Qc ∧
    let t := measured_miss (Q2Qc (6 # 10)) in
    (((m - t) * (m - t) < Q2Qc (3 # 100) * (t * t))%Qc ∨
     (- Q2Qc (3 # 100) < m - t ∧ m - t < Q2Qc (3 # 100))%Qc).
Proof.
  apply (fit_accepted powf0 ln0 (nq 1 1) (nq 1 1) (nq 2 1) (Q2Qc (6 # 10)) [(nq 1 1, nq 3 2)] (Some (nq 2 1)) (Some ones)).
  exact fit0_found.
Defined.
End ClusterExamples.
